(* ===== verification/_CoqProject ===== *)
-Q . S2P
Prelude.v
FmTypes.v
FmErrors.v
Registry.v
GoNet.v
GoHeap.v
TypedRegistry.v
RegVnet.v
RegNic.v
RegMapping.v
RegRoute.v
RegAcl.v
RegMeter.v
GoFloat.v
GoFloatVal.v
Resilience.v
CmCache.v
CmPipeline.v
CmSubscriber.v
GoalState.v
DalDispatch.v
DalPool.v
DalProgram.v
GoContext.v
FmObservability.v
FmTelemetry.v
FmApi.v
FmService.v
FmLint.v
FmTestutil.v
WvTypes.v
WvLoadBalancer.v
WvReliability.v
WvGateway.v
WvHealth.v
WvMonitor.v
WvRateLimit.v
WvDiscovery.v
WvAuth.v
WvPlugins.v
WvObservability.v
WvTestutil.v
