(* ===== verification/Prelude.v ===== *)
(** * DashFabric: a verification development

    DashFabric is a control plane for DASH (disaggregated API for SONiC hosts)
    devices, in Go: the Fabric Manager, [src/src/FM], which turns changes of
    configuration into goal states and programs them into DPUs, and Weaver,
    [src/src/Weaver], a gateway that routes requests to replicas.

    ** How the parts interact

    Fabric Manager.  Configuration management ([pkg/cm]) watches etcd, drops
    duplicate events and streams the rest.  Goal state management ([pkg/gm])
    aggregates the constructs of a VNET and generates a goal state per ENI.  The
    DPU abstraction layer ([pkg/dal]) queues goal states, and workers dispatch
    them to vendor plugins through the breakers, retries and timeouts of
    [pkg/resilience].  The service ([cmd/fm]) builds these three from a
    configuration ([pkg/config]), starts them, answers HTTP ([pkg/api] for the
    programming endpoint) and shuts them down; [pkg/observability] has its health
    checks, trace ids, log records and metrics.  Beside them stand the registries
    of shared resources ([pkg/registry] and the six typed packages under it), the
    IDs ([pkg/types]), the error catalog ([pkg/errors]) and the lint tool that
    forbids bypassing the registries ([tools/fm-lint]).

    Weaver.  The gateway ([pkg/gateway]) takes replicas from discovery
    ([pkg/discovery]) and routes each request to the one its load balancer
    ([pkg/loadbalancer]) selects; the monitor ([pkg/health]) tracks the health of
    replicas; [pkg/reliability], [pkg/ratelimit] and [pkg/auth] protect the
    requests, [pkg/observability] traces, logs and counts them, [pkg/plugins]
    loads extensions.

    ** The files, and the code they model

    The language and its library:
    - this file: 64-bit and 32-bit integers with their wrap-around, errors and
      [errors.Is], panics, time, strings, runes, slice indexing, sorting; the
      lemmas and the automation the other files share;
    - [GoFloat]: [float64], its order, its conversions and [math.Pow]; [GoFloatVal]:
      its values as rationals, with upper bounds of the rounded operations;
    - [GoNet]: [net.ParseMAC] and the tests of [netip.Addr];
    - [GoHeap]: pointers, structs and slices that alias;
    - [GoContext]: the values of a context, durations, times and numbers as text.

    Fabric Manager:
    - [FmTypes] ([types/ids.go], [types/versions.go]), [FmErrors] ([errors/]);
    - [Registry] ([registry/semantics.go], [registry/refcount.go]), [TypedRegistry]
      (the wrapper the six typed registries share) and [RegVnet], [RegNic],
      [RegMapping], [RegRoute], [RegAcl], [RegMeter];
    - [Resilience] ([resilience/]: breaker, retries, timeouts, error classes);
    - [CmCache] ([cm/types.go], [cm/cache.go]), [CmPipeline] ([cm/pipeline.go]),
      [CmSubscriber] ([cm/subscriber.go], and the two together);
    - [GoalState] ([gm/]);
    - [DalDispatch] ([dal/registry.go], [dal/factory.go], [dal/custom.go],
      [dal/dispatcher.go]), [DalPool] ([dal/pool.go], [dal/manager.go]),
      [DalProgram] (calls of the manager interleaved with the pool's steps);
    - [FmObservability] ([observability/], and the logging, metrics and tracing
      files of [cm/], [gm/] and [dal/], which are alike), [FmTelemetry] (what the
      pipeline and the Custom plugin log, count and trace with them);
    - [FmApi] ([api/]), [FmService] ([config/] and [cmd/fm/main.go]; [Main] builds
      the service of [CmPipeline], [GoalState] and [DalPool]);
    - [FmLint] ([tools/fm-lint/]: [Rule] and [Tool]);
    - [FmTestutil] ([testutil/]: the mocks and assertions the tests use).

    Weaver:
    - [WvTypes] ([gateway/types.go]), [WvLoadBalancer]
      ([loadbalancer/strategies.go]), [WvGateway] ([gateway/gateway.go],
      [gateway/routing.go]);
    - [WvReliability] ([reliability/], a Module per file), [WvHealth] ([health/]) and
      [WvMonitor] (the goroutines of its monitor),
      [WvRateLimit] ([ratelimit/limiter.go]);
    - [WvDiscovery] ([discovery/]: [Conf] for the configuration, the static list,
      a Module per cache, and a cache in front of a gateway);
    - [WvAuth] ([auth/]), [WvPlugins] ([plugins/manager.go]);
    - [WvObservability] ([observability/]: [Tracing], [Exporter], [Propagation],
      [Logging], [Metrics]);
    - [WvTestutil] ([testutil/]: the mocks, the helper and the fixtures).

    A Go struct is a Record with its fields, a method a function of the same name
    from the receiver to the new receiver and the results; where names collide the
    receiver's name or initials come first.  Mutexes and wait groups have no
    field.  A [(T, error)] answer is a [result], a nilable error an option, a
    panic the [Panic] of an [outcome].

    ** Interfaces

    Three classes state what one component promises to another, and the clients'
    theorems use only the promise: [CmCache.DedupCache], between the pipeline and
    its cache (discharged by the LRU cache); [TypedRegistry.Normalises], between
    the registry wrapper and a package's normalisation (discharged in [RegVnet]
    and [RegNic]); [WvLoadBalancer.LoadBalancer] with its laws, between the
    gateway and its strategies (discharged by every built-in strategy).

    ** What the theorems show

    - Refinements of an abstract specification: the registry is a map of values
      and reference counts ([Registry.registry_refines_spec]); a typed registry
      behaves as if structs were values, whatever clients do with the pointers
      they hold ([RegVnet.vnet_isolation]); the LRU cache remembers the most
      recent distinct fingerprints ([CmCache.lru_refines_recent]); Weaver's
      breaker is a three-state machine ([WvReliability.Breaker.breaker_implements]);
      the monitor tracks each replica by the checks of its
      name ([WvHealth.health_tracks]); the traces are filed by their ids
      ([WvObservability.Tracing.traces_refine]).
    - Conservation over every interleaving of steps: an event is forwarded,
      rejected, dropped as a duplicate or in a loop's hands
      ([CmPipeline.pipeline_delivers]); a submitted goal is queued, at a worker or
      answered exactly once ([DalPool.pool_conserves]), and each call of the manager
      is given the answer of its own goal ([DalProgram.manager_delivers]); an
      exported trace is
      queued, in a batch, sent or given up
      ([WvObservability.Exporter.exporter_accounts]).
    - Progress: the pool drains, whatever its callers do ([DalPool.pool_drains]),
      and so does the exporter ([WvObservability.Exporter.exporter_liveness]).
    - Compositions: the etcd watchers in front of the pipeline
      ([CmSubscriber.etcd_pipeline]), the service from its start to its shutdown
      ([FmService.Main.service_lifecycle]), a gateway over a discovery cache
      ([WvDiscovery.gateway_follows_discovery]).
    - Functional specifications branch by branch, errors included: the dispatcher,
      the goal state manager, validation, breakers, routing, the programming
      endpoint, tokens and roles ([WvAuth]), loading plugins ([WvPlugins]), the
      lint tool's exit codes.
    - Invariants: what the pipeline counts in its metrics is what its statistics
      say, and its spans pile up ([FmTelemetry.telemetry_tracks]); a reference taken
      is held ([Registry.Acquire_holds]).
    - Equivalence: the lint rule reports exactly the calls its statement names
      ([FmLint.Rule.Check_equiv]).  Round trip: the bearer tokens
      ([WvAuth.bearer_roundtrip]).  Types: every metric is used as it was declared
      ([WvObservability.Metrics.metrics_well_typed]).
    - Termination and bounds: the retries stop after their attempts
      ([Resilience.Attempt_spec], [WvReliability.Retry.Execute_spec]); attempts fit
      the deadline ([WvReliability.Timeouts.attempts_fit]); over any run a rate
      limiter admits at most what its bucket held and what the time refilled
      ([WvRateLimit.limiter_bound]).
    - Fairness of the selection strategies ([WvLoadBalancer]).
    - Behaviours that are surprising but what the code does, stated as theorems:
      a breaker the dispatcher never half-opens, PANIC that stays,
      least-connections that never balances, a stale goal state, a JWT accepted
      for its middle part, names the lint rule does not resolve, etcd events that
      all share a fingerprint, a monitor that never finds a replica down
      ([WvMonitor.monitor_blind]).

    ** Bounds and fuel

    Decoding runes has the length of the string as fuel, and a rune takes at
    least a byte.  The bits of an exponent in [math.Pow] are at most 64.  The
    retry loops have as fuel exactly the attempts the loop's bound allows.
    Counters are 64 bits wide and wrap; where a theorem needs that one does not,
    it has a bound on the number of operations, far above any run.

    ** What is atomic, what is a parameter

    An operation that holds its mutex throughout is one step; a goroutine's
    communications are steps of their own ([CmPipeline.exec],
    [CmSubscriber.sub_exec], [DalPool.pool_exec], [WvObservability.Exporter],
    [WvMonitor.exec], the watches of [WvDiscovery]).  Coarser than the code are an
    iteration of the pipeline's loop up to the send ([CmPipeline.process]), a
    dispatch ([DalPool.worker_dispatch]), the adoption of a list by the gateway
    ([WvDiscovery.take_changes]) and the count of [updatePanicMode].  Clock readings, the random source, the orders
    of map iterations and the contexts' ends are arguments, so the theorems hold
    for all of them.  So are what lies outside the repository: the formatting of
    floats, SHA-256, JSON, PEM and certificates, quoting, the out-of-range float
    conversion, the lower case of runes outside ASCII, opening a shared object,
    user functions and hooks, dials, the etcd client, the HTTP server and its
    signals, the file system, the Go parser, Prometheus, zap and OpenTelemetry
    (what the code asks of the last three is recorded).

    ** What is not modelled, and the plan

    The metrics, tracing and logging calls inside the other components have no
    effect on their state and are left out there: [FmTelemetry] has those of the
    pipeline and of the Custom plugin; those of the service's start and shutdown
    are left out.  The packages that only hold a doc comment have no code; Weaver's
    [main] parses a flag and logs ([WvGateway.main]).  Interfaces without a second
    implementation have no class of their own: their methods are the functions of
    the type that implements them.  To come: the log records of the service along
    its life; the mocks put in the place of the components they stand for. *)

From Stdlib Require Export ZArith Lia.
From stdpp Require Export base tactics list strings pretty gmap sorting.

(** ** Notation scope of the development *)

Declare Scope go_scope.
Delimit Scope go_scope with go.
Open Scope Z_scope.
Open Scope go_scope.

(** ** Machine integers

    Go's [int] and [int64] are 64-bit two's complement (every platform the
    repository builds for has a 64-bit [int]); arithmetic wraps around. *)

Definition int64_min : Z := - 2 ^ 63.
Definition int64_max : Z := 2 ^ 63 - 1.

(** The two's complement value of [z] on 64 bits. *)
Definition wrap64 (z : Z) : Z := (z + 2 ^ 63) mod 2 ^ 64 - 2 ^ 63.

(** The two's complement value of [z] on 32 bits ([int32]). *)
Definition wrap32 (z : Z) : Z := (z + 2 ^ 31) mod 2 ^ 32 - 2 ^ 31.

(** The unsigned value of [z] on 64 bits ([uint64]). *)
Definition uwrap64 (z : Z) : Z := z mod 2 ^ 64.

Notation "a +64 b" := (wrap64 (a + b)) (at level 50, left associativity) : go_scope.
Notation "a -64 b" := (wrap64 (a - b)) (at level 50, left associativity) : go_scope.
Notation "a *64 b" := (wrap64 (a * b)) (at level 40, left associativity) : go_scope.

Definition in_int64 (z : Z) : Prop := int64_min ≤ z ≤ int64_max.

(** ** Errors

    A Go [error] is modelled by what the code observes of it: its message
    ([Error()]) and the chain [errors.Is] and [errors.Unwrap] walk.
    [Errorf m] is [errors.New m], or a [fmt.Errorf] without [%w], whose
    formatted message is [m]; [Wrapf p e q] is [fmt.Errorf] with the format
    "p%wq".  The other constructors are the standard library's sentinels. *)
Inductive error : Type :=
| Errorf (msg : string)
| Wrapf (pre : string) (inner : error) (post : string)
| ctx_Canceled
| ctx_DeadlineExceeded
| net_ErrClosed.

(** The [Error()] method. *)
Fixpoint Error (e : error) : string :=
  match e with
  | Errorf m => m
  | Wrapf p e q => p +:+ Error e +:+ q
  | ctx_Canceled => "context canceled"
  | ctx_DeadlineExceeded => "context deadline exceeded"
  | net_ErrClosed => "use of closed network connection"
  end.

#[export] Instance error_eq_dec : EqDecision error.
Proof. solve_decision. Defined.

(** [errors.Is(e, target)] for a sentinel [target]. *)
Fixpoint errors_Is (e target : error) : bool :=
  bool_decide (e = target) ||
  match e with Wrapf _ e' _ => errors_Is e' target | _ => false end.

(** A call returning [(T, error)]: the value, or the error with the zero value
    of [T] (the form every function of the repository returns). *)
Inductive result (A : Type) : Type :=
| Ok (a : A)
| Err (e : error).
Arguments Ok {A} a.
Arguments Err {A} e.

#[export] Instance result_ret : MRet result := λ A a, Ok a.
#[export] Instance result_bind : MBind result := λ A B f m,
  match m with Ok a => f a | Err e => Err e end.

#[export] Instance result_eq_dec `{EqDecision A} : EqDecision (result A).
Proof. solve_decision. Defined.

(** A computation that may panic. *)
Inductive outcome (A : Type) : Type :=
| Ret (a : A)
| Panic (msg : string).
Arguments Ret {A} a.
Arguments Panic {A} msg.

#[export] Instance outcome_ret : MRet outcome := λ A a, Ret a.
#[export] Instance outcome_bind : MBind outcome := λ A B f m,
  match m with Ret a => f a | Panic s => Panic s end.

#[export] Instance outcome_eq_dec `{EqDecision A} : EqDecision (outcome A).
Proof. solve_decision. Defined.

(** ** Time

    A [time.Time] is a number of nanoseconds since the zero time
    (January 1, year 1); a [time.Duration] is a number of nanoseconds in an
    int64. [Time.Sub] saturates at the ends of the int64 range. *)

Abbreviation Time := Z (only parsing).
Abbreviation Duration := Z (only parsing).

Definition zero_time : Time := 0.
Definition Microsecond : Duration := 1000.
Definition Millisecond : Duration := 1000 * Microsecond.
Definition Second : Duration := 1000 * Millisecond.
Definition Minute : Duration := 60 * Second.

Definition time_Sub (t u : Time) : Duration :=
  Z.max int64_min (Z.min int64_max (t - u)).

(** [time.Since(t)] at the clock reading [now]; [time.Until(t)]. *)
Definition time_Since (now t : Time) : Duration := time_Sub now t.
Definition time_Until (now t : Time) : Duration := time_Sub t now.

(** ** Strings: byte strings, as Go's *)

Definition Itoa (z : Z) : string := pretty z.

(** [len(s)] *)
Definition str_len (s : string) : Z := Z.of_nat (String.length s).

Fixpoint str_bytes (s : string) : list Ascii.ascii :=
  match s with
  | EmptyString => []
  | String c s' => c :: str_bytes s'
  end.

(** [strings.ContainsAny(s, chars)] for ASCII [chars]: some byte of [s] is one
    of [chars]. *)
Definition ContainsAny (s : string) (chars : list Ascii.ascii) : bool :=
  existsb (λ c, bool_decide (c ∈ chars)) (str_bytes s).

(** [strings.HasPrefix], [strings.Contains]. *)
Definition HasPrefix (s p : string) : bool := String.prefix p s.
Fixpoint Contains (s p : string) : bool :=
  String.prefix p s ||
  match s with EmptyString => false | String _ s' => Contains s' p end.

Fixpoint str_drop (n : nat) (s : string) : string :=
  match n, s with S n, String _ s' => str_drop n s' | _, _ => s end.

(** [strings.HasSuffix], [strings.TrimPrefix], [strings.TrimSuffix]. *)
Fixpoint HasSuffix (s p : string) : bool :=
  bool_decide (s = p) || match s with EmptyString => false | String _ s' => HasSuffix s' p end.
Definition TrimPrefix (s p : string) : string :=
  if HasPrefix s p then str_drop (String.length p) s else s.
Fixpoint TrimSuffix (s p : string) : string :=
  if decide (s = p) then ""
  else match s with EmptyString => "" | String c s' => String c (TrimSuffix s' p) end.

(** [strings.Split(s, sep)] for a separator of one byte. *)
Fixpoint Split (s : string) (sep : Ascii.ascii) : list string :=
  match s with
  | EmptyString => [""]
  | String a s' =>
      if decide (a = sep) then "" :: Split s' sep
      else match Split s' sep with
           | [] => [String a ""]
           | part :: parts => String a part :: parts
           end
  end.

(** The UTF-8 of the characters [unicode.IsSpace] accepts. *)
Definition spaces : list (list Z) :=
  map (λ b, [b]) [9; 10; 11; 12; 13; 32] ++ [[194; 133]; [194; 160]; [225; 154; 128]] ++
  map (λ b, [226; 128; b]) [128; 129; 130; 131; 132; 133; 134; 135; 136; 137; 138; 168; 169; 175] ++
  [[226; 129; 159]; [227; 128; 128]].

Fixpoint strip {A} `{EqDecision A} (p l : list A) : option (list A) :=
  match p, l with
  | [], _ => Some l
  | x :: p, y :: l => if decide (x = y) then strip p l else None
  | _ :: _, [] => None
  end.

(** Strip patterns off the head; each takes a byte at least. *)
Fixpoint trim_left (fuel : nat) (pats : list (list Z)) (bs : list Z) : list Z :=
  match fuel with
  | O => bs
  | S fuel =>
      match head (omap (λ p, strip p bs) pats) with
      | Some bs' => trim_left fuel pats bs'
      | None => bs
      end
  end.

Definition of_bytes (bs : list Z) : string :=
  fold_right (λ b s, String (Ascii.ascii_of_nat (Z.to_nat b)) s) "" bs.

(** [strings.TrimSpace]: from the right on the bytes reversed. *)
Definition TrimSpace (s : string) : string :=
  let bs := map (λ c, Z.of_nat (Ascii.nat_of_ascii c)) (str_bytes s) in
  let bs := trim_left (length bs) spaces bs in
  of_bytes (rev (trim_left (length bs) (map (@rev Z) spaces) (rev bs))).

(** [l[i]]: out of range panics. *)
Definition go_index {A} (l : list A) (i : Z) : outcome A :=
  if i <? 0 then Panic "runtime error: index out of range"
  else match l !! Z.to_nat i with
       | Some x => Ret x
       | None => Panic "runtime error: index out of range"
       end.

(** *** UTF-8

    [for _, ch := range s] decodes UTF-8; an invalid byte yields U+FFFD and is
    skipped alone. *)

Definition cont (b : Z) : bool := (128 <=? b) && (b <=? 191).

(** The rune at the head of a non-empty byte string, and its width. *)
Definition decode_rune (bs : list Z) : Z * nat :=
  match bs with
  | [] => (65533, 1%nat)
  | b0 :: rest =>
      if b0 <? 128 then (b0, 1%nat)
      else
        match rest with
        | b1 :: rest =>
            if (194 <=? b0) && (b0 <=? 223) && cont b1 then
              ((b0 - 192) * 64 + (b1 - 128), 2%nat)
            else
              match rest with
              | b2 :: rest =>
                  let ok1 := if b0 =? 224 then (160 <=? b1) && (b1 <=? 191)
                             else if b0 =? 237 then (128 <=? b1) && (b1 <=? 159)
                             else cont b1 in
                  if (224 <=? b0) && (b0 <=? 239) && ok1 && cont b2 then
                    ((b0 - 224) * 4096 + (b1 - 128) * 64 + (b2 - 128), 3%nat)
                  else
                    match rest with
                    | b3 :: _ =>
                        let ok1 := if b0 =? 240 then (144 <=? b1) && (b1 <=? 191)
                                   else if b0 =? 244 then (128 <=? b1) && (b1 <=? 143)
                                   else cont b1 in
                        if (240 <=? b0) && (b0 <=? 244) && ok1 && cont b2 && cont b3 then
                          ((b0 - 240) * 262144 + (b1 - 128) * 4096 + (b2 - 128) * 64 + (b3 - 128), 4%nat)
                        else (65533, 1%nat)
                    | [] => (65533, 1%nat)
                    end
              | [] => (65533, 1%nat)
              end
        | [] => (65533, 1%nat)
        end
  end.

Fixpoint runes_fuel (fuel : nat) (bs : list Z) : list Z :=
  match fuel, bs with
  | S fuel, _ :: _ => let '(r, w) := decode_rune bs in r :: runes_fuel fuel (drop w bs)
  | _, _ => []
  end.

(** Every rune takes at least one byte, so the length is fuel enough. *)
Definition runes (s : string) : list Z :=
  let bs := map (λ c, Z.of_nat (Ascii.nat_of_ascii c)) (str_bytes s) in
  runes_fuel (length bs) bs.

(** [sort.Strings], and [sort.Slice] by [<] on strings.  Equal strings are
    indistinguishable, so that neither is stable does not matter. *)
Definition sort_strings (xs : list string) : list string := merge_sort String.le xs.

Lemma HasPrefix_iff s p : HasPrefix s p = true ↔ ∃ t, s = p +:+ t.
Proof.
  unfold HasPrefix. revert s. induction p as [|a p IH]; intros s; simpl.
  { split; [by exists s|by destruct s]. }
  destruct s as [|b s]; simpl; [split; [done|by intros [t ?]]|].
  destruct (Ascii.ascii_dec a b) as [->|Hne].
  - rewrite IH. split; intros [t Ht]; exists t; [by rewrite Ht|]. by injection Ht.
  - split; [done|]. intros [t Ht]. injection Ht as ? ?. congruence.
Qed.

Lemma TrimPrefix_app p t : TrimPrefix (p +:+ t) p = t.
Proof.
  unfold TrimPrefix. rewrite (proj2 (HasPrefix_iff _ _)) by eauto.
  induction p as [|a p IH]; [by destruct t|]. exact IH.
Qed.

Example trims :
  TrimPrefix "Bexyz" "Bearer" = "Bexyz" ∧ TrimSuffix "a/b/..." "/..." = "a/b" ∧
  HasSuffix "x_test.go" "_test.go" = true ∧ TrimSpace (of_bytes [32; 9; 97; 32; 98; 194; 160; 13]) = "a b".
Proof. vm_compute. done. Qed.

(** ** Automation *)

Create HintDb go discriminated.
Create HintDb go_rw.

(** Case analysis on every [match] and [if] of the goal and the hypotheses,
    keeping the equations, then cleaning up. *)
Ltac go_cases :=
  repeat (case_match; simplify_eq/=; try done).

(** Case analysis on a boolean test, turned into its proposition. *)
Ltac go_bool :=
  repeat match goal with
  | H : (_ && _) = true |- _ => apply andb_prop in H as [? ?]
  | H : (_ || _) = false |- _ => apply orb_false_elim in H as [? ?]
  | H : negb _ = true |- _ => apply negb_true_iff in H
  | H : negb _ = false |- _ => apply negb_false_iff in H
  | H : (_ =? _) = true |- _ => apply Z.eqb_eq in H
  | H : (_ =? _) = false |- _ => apply Z.eqb_neq in H
  | H : (_ <? _) = true |- _ => apply Z.ltb_lt in H
  | H : (_ <? _) = false |- _ => apply Z.ltb_ge in H
  | H : (_ <=? _) = true |- _ => apply Z.leb_le in H
  | H : (_ <=? _) = false |- _ => apply Z.leb_gt in H
  | H : bool_decide _ = true |- _ => apply bool_decide_eq_true in H
  | H : bool_decide _ = false |- _ => apply bool_decide_eq_false in H
  end.

(** Split conjunctions and solve the easy parts. *)
Ltac go_split := repeat split; try done; try lia.

(** ** Shared lemmas *)

Lemma wrap64_id z : in_int64 z → wrap64 z = z.
Proof.
  unfold in_int64, int64_min, int64_max, wrap64. intros H.
  rewrite Z.mod_small; lia.
Qed.

Lemma wrap64_range z : in_int64 (wrap64 z).
Proof.
  unfold in_int64, int64_min, int64_max, wrap64.
  pose proof (Z.mod_pos_bound (z + 2 ^ 63) (2 ^ 64) ltac:(lia)). lia.
Qed.

Lemma wrap32_id z : - 2 ^ 31 ≤ z < 2 ^ 31 → wrap32 z = z.
Proof. unfold wrap32. intros H. rewrite Z.mod_small; lia. Qed.

Lemma uwrap64_id z : 0 ≤ z < 2 ^ 64 → uwrap64 z = z.
Proof. apply Z.mod_small. Qed.

#[export] Hint Resolve wrap64_range : go.

Lemma ContainsAny_false s chars :
  ContainsAny s chars = false ↔ ∀ c, c ∈ str_bytes s → c ∉ chars.
Proof.
  unfold ContainsAny. induction (str_bytes s) as [|c l IH]; simpl.
  - split; [intros _ c Hc; by apply elem_of_nil in Hc | done].
  - rewrite orb_false_iff, IH, bool_decide_eq_false. set_solver.
Qed.

Lemma str_len_nonneg s : 0 ≤ str_len s.
Proof. unfold str_len. lia. Qed.

Lemma str_len_0 s : str_len s = 0 ↔ s = ""%string.
Proof. unfold str_len. destruct s; simpl; split; intros; done || lia. Qed.

#[export] Hint Resolve str_len_nonneg : go.

Lemma ex_some {A} (P : A → Prop) (a : A) : (∃ b, Some a = Some b ∧ P b) ↔ P a.
Proof. naive_solver. Qed.

Lemma sort_strings_perm xs : sort_strings xs ≡ₚ xs.
Proof. apply merge_sort_Permutation. Qed.

Lemma sort_strings_sorted xs : StronglySorted String.le (sort_strings xs).
Proof. apply StronglySorted_merge_sort; apply _. Qed.

(** Wrapping early or late makes no difference. *)
Lemma wrap64_add_l a b : wrap64 (wrap64 a + b) = wrap64 (a + b).
Proof.
  unfold wrap64. f_equal.
  replace ((a + 2 ^ 63) mod 2 ^ 64 - 2 ^ 63 + b + 2 ^ 63) with ((a + 2 ^ 63) mod 2 ^ 64 + b) by lia.
  rewrite Z.add_mod_idemp_l by lia. f_equal. lia.
Qed.

Lemma wrap64_add_add a b c : (a +64 b) +64 c = a +64 (b + c).
Proof. rewrite wrap64_add_l. by rewrite Z.add_assoc. Qed.
