(* ===== verification/FmTypes.v ===== *)
(** * Shared scalar types of the Fabric Manager

    [src/src/FM/pkg/types]: the ID strings with the one validation every ID
    passes at a trust boundary ([ids.go]), and the revision, epoch and watermark
    counters with their order tests ([versions.go]). *)

From S2P Require Import Prelude.

(** ** ids.go *)

Definition MaxIDLen : Z := 256.

(** The ID types are distinct Go types over [string]; they share its values. *)
Definition ENIID : Type := string.
Definition VnetID : Type := string.
Definition RouteGroupID : Type := string.
Definition AclGroupID : Type := string.
Definition MappingID : Type := string.
Definition MeterPolicyID : Type := string.
Definition HaScopeID : Type := string.
Definition DeviceID : Type := string.
Definition TenantID : Type := string.

(** The bytes of the Go literal space, tab, newline, carriage return, NUL. *)
Definition id_forbidden : list Ascii.ascii :=
  [Ascii.ascii_of_nat 32; Ascii.ascii_of_nat 9; Ascii.ascii_of_nat 10;
   Ascii.ascii_of_nat 13; Ascii.ascii_of_nat 0].

Definition ValidateID (s : string) : option error :=
  if str_len s =? 0 then Some (Errorf "id: empty")
  else if MaxIDLen <? str_len s then
    Some (Errorf ("id: length " +:+ Itoa (str_len s) +:+ " exceeds max " +:+ Itoa MaxIDLen))
  else if ContainsAny s id_forbidden then
    Some (Errorf "id: contains whitespace or NUL")
  else None.

(** The constructors return the typed value together with the verdict. *)
Definition NewENIID (s : string) : ENIID * option error := (s, ValidateID s).
Definition NewVnetID (s : string) : VnetID * option error := (s, ValidateID s).
Definition NewRouteGroupID (s : string) : RouteGroupID * option error := (s, ValidateID s).
Definition NewAclGroupID (s : string) : AclGroupID * option error := (s, ValidateID s).
Definition NewMappingID (s : string) : MappingID * option error := (s, ValidateID s).
Definition NewMeterPolicyID (s : string) : MeterPolicyID * option error := (s, ValidateID s).
Definition NewHaScopeID (s : string) : HaScopeID * option error := (s, ValidateID s).
Definition NewDeviceID (s : string) : DeviceID * option error := (s, ValidateID s).
Definition NewTenantID (s : string) : TenantID * option error := (s, ValidateID s).

(** Every ID type has the same [IsZero]. *)
Definition IsZero (s : string) : bool := bool_decide (s = "").

(** ** versions.go *)

Definition SpecRevision : Type := Z.
Definition Epoch : Type := Z.
Definition Watermark : Type := Z.

Definition Newer (s other : SpecRevision) : bool := Z.gtb s other.
Definition Bumped (e other : Epoch) : bool := Z.gtb e other.
Definition Regressed (w prev : Watermark) : bool := Z.ltb w prev.

(** ** Lemmas *)

(** What an accepted ID is. *)
Definition valid_id (s : string) : Prop :=
  1 ≤ str_len s ≤ MaxIDLen ∧ ∀ c, c ∈ str_bytes s → c ∉ id_forbidden.

Lemma ValidateID_None s : ValidateID s = None ↔ valid_id s.
Proof.
  unfold ValidateID, valid_id. rewrite <- ContainsAny_false.
  pose proof (str_len_nonneg s).
  repeat case_match; go_bool; split; intros; try done; lia.
Qed.

#[export] Instance valid_id_dec s : Decision (valid_id s).
Proof.
  refine (cast_if (decide (ValidateID s = None)));
    rewrite <- ValidateID_None; assumption.
Defined.

Lemma valid_id_nonempty s : valid_id s → s ≠ "".
Proof. intros [[H _] _] ->. unfold str_len in H. simpl in H. lia. Qed.

#[export] Hint Resolve valid_id_nonempty : go.

(** [ValidateID] accepts exactly the non-empty strings of at most
    [MaxIDLen] bytes with no space, tab, newline, carriage return or NUL, and
    the first condition a rejected string breaks chooses the message. *)
Theorem ValidateID_spec (s : string) :
  (ValidateID s = None ↔ valid_id s) ∧
  (ValidateID s = Some (Errorf "id: empty") ↔ s = "") ∧
  (ValidateID s = Some (Errorf "id: contains whitespace or NUL") ↔
     1 ≤ str_len s ≤ MaxIDLen ∧ ∃ c, c ∈ str_bytes s ∧ c ∈ id_forbidden).
Proof.
  split_and!; [apply ValidateID_None| |].
  - unfold ValidateID. rewrite <- (str_len_0 s).
    repeat case_match; go_bool; split; intros; try done; try lia; simplify_eq.
  - unfold ValidateID. pose proof (str_len_nonneg s).
    destruct (str_len s =? 0) eqn:E0; go_bool; [split; [done|lia]|].
    destruct (MaxIDLen <? str_len s) eqn:E1; go_bool.
    { split; [|lia]. intros [=]. }
    destruct (ContainsAny s id_forbidden) eqn:E2.
    + split; [intros _; split; [lia|] | done].
      unfold ContainsAny in E2. apply existsb_exists in E2 as (c & Hin & Hc).
      go_bool. exists c. by rewrite list_elem_of_In.
    + split; [done|]. intros (_ & c & Hc & Hf).
      by destruct (proj1 (ContainsAny_false _ _) E2 c Hc).
Qed.

(** The revision order is a strict total order, and a watermark regresses
    exactly when the previous one is newer. *)
Lemma Newer_trichotomy (a b : SpecRevision) :
  (Newer a b = true ∧ Newer b a = false ∧ a ≠ b) ∨
  (Newer a b = false ∧ Newer b a = true ∧ a ≠ b) ∨
  (Newer a b = false ∧ Newer b a = false ∧ a = b).
Proof.
  unfold Newer. rewrite !Z.gtb_ltb.
  destruct (Z.ltb_spec b a), (Z.ltb_spec a b); unfold SpecRevision in *; lia.
Qed.

Lemma Regressed_iff_older (w prev : Watermark) :
  Regressed w prev = true ↔ Newer prev w = true.
Proof. unfold Regressed, Newer. by rewrite Z.gtb_ltb. Qed.
