(* ===== verification/FmErrors.v ===== *)
(** * The Fabric Manager error catalog

    [src/src/FM/pkg/errors]: the canonical error codes ([codes.go]) and their
    classification ([classify.go]): severity, recoverability, blast radius,
    runbook.  The constants are the Go constants, with the same strings, and
    [catalog] is the Go map literal in its order. *)

From S2P Require Import Prelude.

Definition Code : Type := string.

(** ** codes.go *)


(** API_xxx — gateway, REST/gRPC *)

Definition API_001_BAD_REQUEST : Code := "API_001_BAD_REQUEST".
Definition API_002_AUTH_FAILED : Code := "API_002_AUTH_FAILED".
Definition API_003_NOT_FOUND : Code := "API_003_NOT_FOUND".
Definition API_004_CONFLICT : Code := "API_004_CONFLICT".
Definition API_005_RATE_LIMITED : Code := "API_005_RATE_LIMITED".
Definition API_006_ADMISSION_REJECTED : Code := "API_006_ADMISSION_REJECTED".
Definition API_007_SHARD_NOT_OWNED : Code := "API_007_SHARD_NOT_OWNED".
Definition API_008_TIMEOUT : Code := "API_008_TIMEOUT".

(** REG_xxx — registry layer *)

Definition REG_001_KEY_NOT_FOUND : Code := "REG_001_KEY_NOT_FOUND".
Definition REG_002_WATCH_LOST : Code := "REG_002_WATCH_LOST".
Definition REG_003_WATCH_FAILED : Code := "REG_003_WATCH_FAILED".
Definition REG_004_ACQUIRE_TIMEOUT : Code := "REG_004_ACQUIRE_TIMEOUT".
Definition REG_005_ASSEMBLER_INCOMPLETE : Code := "REG_005_ASSEMBLER_INCOMPLETE".
Definition REG_006_VALUE_DECODE_FAILED : Code := "REG_006_VALUE_DECODE_FAILED".
Definition REG_007_REFCOUNT_UNDERFLOW : Code := "REG_007_REFCOUNT_UNDERFLOW".
Definition REG_008_CACHE_OOM : Code := "REG_008_CACHE_OOM".

(** ACT_xxx — actor layer *)

Definition ACT_001_PARENT_NOT_READY : Code := "ACT_001_PARENT_NOT_READY".
Definition ACT_002_INPUTS_NOT_READY : Code := "ACT_002_INPUTS_NOT_READY".
Definition ACT_003_COMPOSE_FAILED : Code := "ACT_003_COMPOSE_FAILED".
Definition ACT_004_MAILBOX_DROPPED : Code := "ACT_004_MAILBOX_DROPPED".
Definition ACT_005_PANIC_RECOVERED : Code := "ACT_005_PANIC_RECOVERED".
Definition ACT_006_REPEATED_PANIC : Code := "ACT_006_REPEATED_PANIC".
Definition ACT_007_STATE_INVARIANT_BROKEN : Code := "ACT_007_STATE_INVARIANT_BROKEN".
Definition ACT_008_DEADLINE_EXCEEDED : Code := "ACT_008_DEADLINE_EXCEEDED".

(** DRV_xxx — driver layer *)

Definition DRV_001_CONNECTION_LOST : Code := "DRV_001_CONNECTION_LOST".
Definition DRV_002_TIMEOUT : Code := "DRV_002_TIMEOUT".
Definition DRV_003_INVALID_PAYLOAD : Code := "DRV_003_INVALID_PAYLOAD".
Definition DRV_004_RESOURCE_EXHAUSTED : Code := "DRV_004_RESOURCE_EXHAUSTED".
Definition DRV_005_VERSION_MISMATCH : Code := "DRV_005_VERSION_MISMATCH".
Definition DRV_006_PARTIAL_APPLY : Code := "DRV_006_PARTIAL_APPLY".
Definition DRV_007_DEVICE_REJECTED : Code := "DRV_007_DEVICE_REJECTED".
Definition DRV_008_PERMANENT_FAILURE : Code := "DRV_008_PERMANENT_FAILURE".
Definition DRV_009_CAPABILITY_MISSING : Code := "DRV_009_CAPABILITY_MISSING".
Definition DRV_010_HASH_MISMATCH : Code := "DRV_010_HASH_MISMATCH".

(** ADP_xxx — adapter layer *)

Definition ADP_001_LEASE_LOST : Code := "ADP_001_LEASE_LOST".
Definition ADP_002_CAS_CONFLICT : Code := "ADP_002_CAS_CONFLICT".
Definition ADP_003_SCHEMA_REJECTED : Code := "ADP_003_SCHEMA_REJECTED".
Definition ADP_004_UNKNOWN_EVENT_TYPE : Code := "ADP_004_UNKNOWN_EVENT_TYPE".
Definition ADP_005_T1_UNREACHABLE : Code := "ADP_005_T1_UNREACHABLE".
Definition ADP_006_T2_UNREACHABLE : Code := "ADP_006_T2_UNREACHABLE".
Definition ADP_007_DLQ_INSERTED : Code := "ADP_007_DLQ_INSERTED".
Definition ADP_008_WATERMARK_REGRESS : Code := "ADP_008_WATERMARK_REGRESS".

(** STO_xxx — storage layer *)

Definition STO_001_T1_TIMEOUT : Code := "STO_001_T1_TIMEOUT".
Definition STO_002_T1_OOM : Code := "STO_002_T1_OOM".
Definition STO_003_T1_CAS_RETRY_EXHAUSTED : Code := "STO_003_T1_CAS_RETRY_EXHAUSTED".
Definition STO_004_T2_LEASE_EXPIRED : Code := "STO_004_T2_LEASE_EXPIRED".
Definition STO_005_T3_CORRUPTION : Code := "STO_005_T3_CORRUPTION".
Definition STO_006_T3_FULL : Code := "STO_006_T3_FULL".

(** REC_xxx — reconciliation *)

Definition REC_001_DRIFT_TRANSIENT : Code := "REC_001_DRIFT_TRANSIENT".
Definition REC_002_DRIFT_STALE_DEVICE : Code := "REC_002_DRIFT_STALE_DEVICE".
Definition REC_003_DRIFT_OBJECT : Code := "REC_003_DRIFT_OBJECT".
Definition REC_004_DRIFT_TOTAL : Code := "REC_004_DRIFT_TOTAL".
Definition REC_005_DRIFT_UNKNOWN : Code := "REC_005_DRIFT_UNKNOWN".
Definition REC_006_PEER_DRIFT : Code := "REC_006_PEER_DRIFT".
Definition REC_007_HASH_RPC_FAIL : Code := "REC_007_HASH_RPC_FAIL".
Definition REC_008_PERSISTENT_DRIFT : Code := "REC_008_PERSISTENT_DRIFT".

(** HA_xxx — high-availability layer *)

Definition HA_001_FAILOVER_INITIATED : Code := "HA_001_FAILOVER_INITIATED".
Definition HA_002_FAILOVER_TIMEOUT : Code := "HA_002_FAILOVER_TIMEOUT".
Definition HA_003_SPLIT_BRAIN_SUSPECTED : Code := "HA_003_SPLIT_BRAIN_SUSPECTED".
Definition HA_004_SESSION_REPL_LAG : Code := "HA_004_SESSION_REPL_LAG".
Definition HA_005_ORPHANED_STANDBY : Code := "HA_005_ORPHANED_STANDBY".

Definition Unknown : Code := "UNKNOWN".

(** ** classify.go *)

Inductive Severity : Type :=
| SeverityInfo | SeverityWarn | SeverityError | SeverityCritical.

Inductive Recoverability : Type :=
| RecovNA | RecovTransient | RecovPermanent | RecovOperator.

Inductive Blast : Type :=
| BlastSingleENI | BlastSingleDevice | BlastShard | BlastPod | BlastHaScope | BlastCluster.

#[export] Instance Severity_eq_dec : EqDecision Severity.
Proof. solve_decision. Defined.
#[export] Instance Recoverability_eq_dec : EqDecision Recoverability.
Proof. solve_decision. Defined.
#[export] Instance Blast_eq_dec : EqDecision Blast.
Proof. solve_decision. Defined.

(** The [String] methods; their [default] branches print integers outside the
    constants above, which the inductive types do not have. *)
Definition Severity_String (s : Severity) : string :=
  match s with
  | SeverityInfo => "INFO"
  | SeverityWarn => "WARN"
  | SeverityError => "ERROR"
  | SeverityCritical => "CRITICAL"
  end.

Definition Recoverability_String (r : Recoverability) : string :=
  match r with
  | RecovNA => "N/A"
  | RecovTransient => "TRANSIENT"
  | RecovPermanent => "PERMANENT"
  | RecovOperator => "OPERATOR"
  end.

Definition Blast_String (b : Blast) : string :=
  match b with
  | BlastSingleENI => "SINGLE_ENI"
  | BlastSingleDevice => "SINGLE_DEVICE"
  | BlastShard => "SHARD"
  | BlastPod => "POD"
  | BlastHaScope => "HA_SCOPE"
  | BlastCluster => "CLUSTER"
  end.

Record Info : Type := mkInfo {
  info_Code : Code;
  info_Severity : Severity;
  info_Recoverability : Recoverability;
  info_Blast : Blast;
  info_Runbook : string;
  info_Meaning : string
}.

#[export] Instance Info_eq_dec : EqDecision Info.
Proof. solve_decision. Defined.

Definition Retryable (i : Info) : bool :=
  bool_decide (info_Recoverability i = RecovTransient).

(** The map literal, entry by entry. *)
Definition catalog_entries : list (Code * Info) := [
  (API_001_BAD_REQUEST, mkInfo API_001_BAD_REQUEST SeverityWarn RecovOperator BlastSingleENI ""
     "Schema violation in input");
  (API_002_AUTH_FAILED, mkInfo API_002_AUTH_FAILED SeverityWarn RecovOperator BlastSingleENI ""
     "mTLS/JWT rejected");
  (API_003_NOT_FOUND, mkInfo API_003_NOT_FOUND SeverityInfo RecovNA BlastSingleENI ""
     "Device/ENI doesn't exist");
  (API_004_CONFLICT, mkInfo API_004_CONFLICT SeverityWarn RecovTransient BlastSingleENI ""
     "ETag mismatch (concurrent modify)");
  (API_005_RATE_LIMITED, mkInfo API_005_RATE_LIMITED SeverityInfo RecovTransient BlastSingleENI ""
     "Client over quota");
  (API_006_ADMISSION_REJECTED, mkInfo API_006_ADMISSION_REJECTED SeverityWarn RecovOperator BlastPod ""
     "Pod over capacity");
  (API_007_SHARD_NOT_OWNED, mkInfo API_007_SHARD_NOT_OWNED SeverityInfo RecovTransient BlastSingleENI ""
     "Request to wrong pod; redirect");
  (API_008_TIMEOUT, mkInfo API_008_TIMEOUT SeverityError RecovTransient BlastSingleENI ""
     "Backend slow");
  (REG_001_KEY_NOT_FOUND, mkInfo REG_001_KEY_NOT_FOUND SeverityInfo RecovNA BlastSingleENI ""
     "Acquire on non-existent key");
  (REG_002_WATCH_LOST, mkInfo REG_002_WATCH_LOST SeverityWarn RecovTransient BlastSingleENI ""
     "etcd stream dropped");
  (REG_003_WATCH_FAILED, mkInfo REG_003_WATCH_FAILED SeverityError RecovTransient BlastShard ""
     "etcd unreachable after retries");
  (REG_004_ACQUIRE_TIMEOUT, mkInfo REG_004_ACQUIRE_TIMEOUT SeverityWarn RecovTransient BlastSingleENI ""
     "Ready not closed within deadline");
  (REG_005_ASSEMBLER_INCOMPLETE, mkInfo REG_005_ASSEMBLER_INCOMPLETE SeverityWarn RecovTransient BlastSingleENI ""
     "VnetMapping chunks missing");
  (REG_006_VALUE_DECODE_FAILED, mkInfo REG_006_VALUE_DECODE_FAILED SeverityError RecovPermanent BlastSingleENI ""
     "T1 has invalid proto");
  (REG_007_REFCOUNT_UNDERFLOW, mkInfo REG_007_REFCOUNT_UNDERFLOW SeverityCritical RecovPermanent BlastPod "Specs/Runbooks/REG_007_REFCOUNT_UNDERFLOW.md"
     "Bug: more Releases than Acquires");
  (REG_008_CACHE_OOM, mkInfo REG_008_CACHE_OOM SeverityCritical RecovTransient BlastPod "Specs/Runbooks/REG_008_CACHE_OOM.md"
     "Memory budget exceeded");
  (ACT_001_PARENT_NOT_READY, mkInfo ACT_001_PARENT_NOT_READY SeverityInfo RecovTransient BlastSingleENI ""
     "NicActor waiting on HDO");
  (ACT_002_INPUTS_NOT_READY, mkInfo ACT_002_INPUTS_NOT_READY SeverityInfo RecovTransient BlastSingleENI ""
     "NicActor waiting on registries");
  (ACT_003_COMPOSE_FAILED, mkInfo ACT_003_COMPOSE_FAILED SeverityError RecovPermanent BlastSingleENI ""
     "Validation rejected (bad spec)");
  (ACT_004_MAILBOX_DROPPED, mkInfo ACT_004_MAILBOX_DROPPED SeverityWarn RecovTransient BlastSingleENI ""
     "Registry burst overflowed");
  (ACT_005_PANIC_RECOVERED, mkInfo ACT_005_PANIC_RECOVERED SeverityError RecovPermanent BlastSingleENI ""
     "Goroutine recovered from panic");
  (ACT_006_REPEATED_PANIC, mkInfo ACT_006_REPEATED_PANIC SeverityCritical RecovPermanent BlastSingleENI "Specs/Runbooks/ACT_006_REPEATED_PANIC.md"
     "Quarantined (3 panics in 10min)");
  (ACT_007_STATE_INVARIANT_BROKEN, mkInfo ACT_007_STATE_INVARIANT_BROKEN SeverityCritical RecovPermanent BlastPod "Specs/Runbooks/ACT_007_STATE_INVARIANT_BROKEN.md"
     "State machine corrupted (bug)");
  (ACT_008_DEADLINE_EXCEEDED, mkInfo ACT_008_DEADLINE_EXCEEDED SeverityWarn RecovTransient BlastSingleENI ""
     "Compose/program exceeded budget");
  (DRV_001_CONNECTION_LOST, mkInfo DRV_001_CONNECTION_LOST SeverityWarn RecovTransient BlastSingleDevice ""
     "gRPC/SAI broken");
  (DRV_002_TIMEOUT, mkInfo DRV_002_TIMEOUT SeverityWarn RecovTransient BlastSingleENI ""
     "Per-command deadline");
  (DRV_003_INVALID_PAYLOAD, mkInfo DRV_003_INVALID_PAYLOAD SeverityError RecovOperator BlastSingleENI ""
     "Device rejected schema");
  (DRV_004_RESOURCE_EXHAUSTED, mkInfo DRV_004_RESOURCE_EXHAUSTED SeverityError RecovOperator BlastSingleDevice ""
     "Device tables full");
  (DRV_005_VERSION_MISMATCH, mkInfo DRV_005_VERSION_MISMATCH SeverityWarn RecovTransient BlastSingleENI ""
     "Plan stale; recompose");
  (DRV_006_PARTIAL_APPLY, mkInfo DRV_006_PARTIAL_APPLY SeverityError RecovTransient BlastSingleENI ""
     "Mid-wave failure");
  (DRV_007_DEVICE_REJECTED, mkInfo DRV_007_DEVICE_REJECTED SeverityError RecovOperator BlastSingleENI ""
     "Device-level validation");
  (DRV_008_PERMANENT_FAILURE, mkInfo DRV_008_PERMANENT_FAILURE SeverityCritical RecovPermanent BlastSingleDevice "Specs/Runbooks/DRV_008_PERMANENT_FAILURE.md"
     "Quarantine");
  (DRV_009_CAPABILITY_MISSING, mkInfo DRV_009_CAPABILITY_MISSING SeverityError RecovOperator BlastSingleDevice ""
     "Device lacks required feature");
  (DRV_010_HASH_MISMATCH, mkInfo DRV_010_HASH_MISMATCH SeverityError RecovTransient BlastSingleENI ""
     "Post-apply hash ≠ target");
  (ADP_001_LEASE_LOST, mkInfo ADP_001_LEASE_LOST SeverityWarn RecovTransient BlastPod ""
     "Adapter pod lost leadership");
  (ADP_002_CAS_CONFLICT, mkInfo ADP_002_CAS_CONFLICT SeverityInfo RecovTransient BlastSingleENI ""
     "Concurrent T1 write");
  (ADP_003_SCHEMA_REJECTED, mkInfo ADP_003_SCHEMA_REJECTED SeverityError RecovOperator BlastSingleENI ""
     "CB sent invalid event");
  (ADP_004_UNKNOWN_EVENT_TYPE, mkInfo ADP_004_UNKNOWN_EVENT_TYPE SeverityError RecovOperator BlastSingleENI ""
     "CB plugin/FM version skew");
  (ADP_005_T1_UNREACHABLE, mkInfo ADP_005_T1_UNREACHABLE SeverityCritical RecovTransient BlastCluster "Specs/Runbooks/ADP_005_T1_UNREACHABLE.md"
     "etcd down");
  (ADP_006_T2_UNREACHABLE, mkInfo ADP_006_T2_UNREACHABLE SeverityCritical RecovTransient BlastCluster "Specs/Runbooks/ADP_006_T2_UNREACHABLE.md"
     "etcd down");
  (ADP_007_DLQ_INSERTED, mkInfo ADP_007_DLQ_INSERTED SeverityWarn RecovOperator BlastSingleENI ""
     "Event dead-lettered");
  (ADP_008_WATERMARK_REGRESS, mkInfo ADP_008_WATERMARK_REGRESS SeverityCritical RecovPermanent BlastCluster "Specs/Runbooks/ADP_008_WATERMARK_REGRESS.md"
     "Bug: watermark went backwards");
  (STO_001_T1_TIMEOUT, mkInfo STO_001_T1_TIMEOUT SeverityWarn RecovTransient BlastShard ""
     "etcd slow");
  (STO_002_T1_OOM, mkInfo STO_002_T1_OOM SeverityCritical RecovOperator BlastCluster "Specs/Runbooks/STO_002_T1_OOM.md"
     "etcd memory exhausted");
  (STO_003_T1_CAS_RETRY_EXHAUSTED, mkInfo STO_003_T1_CAS_RETRY_EXHAUSTED SeverityError RecovTransient BlastSingleENI ""
     "Lost CAS race repeatedly");
  (STO_004_T2_LEASE_EXPIRED, mkInfo STO_004_T2_LEASE_EXPIRED SeverityWarn RecovTransient BlastPod ""
     "Lease lost mid-op");
  (STO_005_T3_CORRUPTION, mkInfo STO_005_T3_CORRUPTION SeverityCritical RecovPermanent BlastPod "Specs/Runbooks/STO_005_T3_CORRUPTION.md"
     "RocksDB integrity check failed");
  (STO_006_T3_FULL, mkInfo STO_006_T3_FULL SeverityError RecovOperator BlastPod ""
     "Local cache full; eviction can't keep up");
  (REC_001_DRIFT_TRANSIENT, mkInfo REC_001_DRIFT_TRANSIENT SeverityInfo RecovTransient BlastSingleENI ""
     "Cleared on retry");
  (REC_002_DRIFT_STALE_DEVICE, mkInfo REC_002_DRIFT_STALE_DEVICE SeverityWarn RecovTransient BlastSingleENI ""
     "Re-applying");
  (REC_003_DRIFT_OBJECT, mkInfo REC_003_DRIFT_OBJECT SeverityWarn RecovTransient BlastSingleENI ""
     "Targeted fix");
  (REC_004_DRIFT_TOTAL, mkInfo REC_004_DRIFT_TOTAL SeverityError RecovTransient BlastSingleENI ""
     "Full re-program");
  (REC_005_DRIFT_UNKNOWN, mkInfo REC_005_DRIFT_UNKNOWN SeverityCritical RecovOperator BlastSingleENI "Specs/Runbooks/REC_005_DRIFT_UNKNOWN.md"
     "Quarantined; external edit suspected");
  (REC_006_PEER_DRIFT, mkInfo REC_006_PEER_DRIFT SeverityInfo RecovTransient BlastSingleENI ""
     "HA failover artifact");
  (REC_007_HASH_RPC_FAIL, mkInfo REC_007_HASH_RPC_FAIL SeverityWarn RecovTransient BlastSingleDevice ""
     "Device unreachable");
  (REC_008_PERSISTENT_DRIFT, mkInfo REC_008_PERSISTENT_DRIFT SeverityCritical RecovOperator BlastSingleENI "Specs/Runbooks/REC_008_PERSISTENT_DRIFT.md"
     "5+ drifts in 1hr");
  (HA_001_FAILOVER_INITIATED, mkInfo HA_001_FAILOVER_INITIATED SeverityInfo RecovNA BlastSingleENI ""
     "Normal HA op");
  (HA_002_FAILOVER_TIMEOUT, mkInfo HA_002_FAILOVER_TIMEOUT SeverityError RecovTransient BlastSingleENI ""
     "Peer didn't take over in budget");
  (HA_003_SPLIT_BRAIN_SUSPECTED, mkInfo HA_003_SPLIT_BRAIN_SUSPECTED SeverityCritical RecovOperator BlastHaScope "Specs/Runbooks/HA_003_SPLIT_BRAIN_SUSPECTED.md"
     "Both peers claim PRIMARY");
  (HA_004_SESSION_REPL_LAG, mkInfo HA_004_SESSION_REPL_LAG SeverityWarn RecovTransient BlastHaScope ""
     "Replication lag > 1s");
  (HA_005_ORPHANED_STANDBY, mkInfo HA_005_ORPHANED_STANDBY SeverityWarn RecovOperator BlastHaScope ""
     "Standby has no primary")
].

Definition catalog : gmap string Info := list_to_map catalog_entries.

Definition unknownInfo : Info :=
  mkInfo Unknown SeverityError RecovPermanent BlastSingleENI "" "Unrecognised error code".

Definition Classify (c : Code) : Info :=
  match catalog !! c with
  | Some info => info
  | None => unknownInfo
  end.

(** [All] returns the keys in an unspecified order; the model fixes one. *)
Definition All : list Code := fst <$> map_to_list catalog.

(** ** Lemmas *)

(** The path of the runbook of a code. *)
Definition runbook_path (c : Code) : string := "Specs/Runbooks/" +:+ c +:+ ".md".

(** What the spec asks of one catalog entry. *)
Definition entry_ok (p : Code * Info) : Prop :=
  info_Code p.2 = p.1 ∧
  info_Runbook p.2 = if decide (info_Severity p.2 = SeverityCritical)
                     then runbook_path p.1 else "".

Lemma catalog_entries_ok : Forall entry_ok catalog_entries.
Proof. apply (bool_decide_unpack _). vm_compute. exact I. Qed.

Lemma catalog_NoDup : NoDup (fst <$> catalog_entries).
Proof. apply (bool_decide_unpack _). vm_compute. exact I. Qed.

Lemma catalog_lookup c i : catalog !! c = Some i ↔ (c, i) ∈ catalog_entries.
Proof. symmetry. apply elem_of_list_to_map, catalog_NoDup. Qed.

Lemma elem_of_All c : c ∈ All ↔ is_Some (catalog !! c).
Proof.
  unfold All. rewrite list_elem_of_fmap. split.
  - intros ([k i] & -> & H%elem_of_map_to_list). eauto.
  - intros [i H]. exists (c, i). by rewrite elem_of_map_to_list.
Qed.

Lemma Classify_known c i : catalog !! c = Some i → Classify c = i ∧ entry_ok (c, i).
Proof.
  intros H. unfold Classify. rewrite H. split; [done|].
  apply catalog_lookup in H.
  by apply (proj1 (Forall_forall _ _) catalog_entries_ok).
Qed.

Lemma Classify_unknown c : c ∉ All → Classify c = unknownInfo.
Proof.
  rewrite elem_of_All, <- eq_None_not_Some. unfold Classify. by intros ->.
Qed.

Lemma runbook_path_nonempty c : runbook_path c ≠ "".
Proof. done. Qed.

(** [Classify] is total and consistent: a catalogued code gets its own
    record, any other string gets [unknownInfo]; exactly the CRITICAL records
    carry a runbook, whose path is that of the code; and only a catalogued
    TRANSIENT code is retryable, so an unknown code is never retried. *)
Theorem Classify_consistent (c : Code) :
  ((c ∈ All ∧ info_Code (Classify c) = c) ∨ (c ∉ All ∧ Classify c = unknownInfo)) ∧
  info_Runbook (Classify c) =
    (if decide (info_Severity (Classify c) = SeverityCritical)
     then runbook_path c else "") ∧
  (Retryable (Classify c) = true ↔
     c ∈ All ∧ info_Recoverability (Classify c) = RecovTransient).
Proof.
  unfold Retryable. rewrite bool_decide_eq_true, elem_of_All.
  destruct (catalog !! c) as [i|] eqn:E.
  - destruct (Classify_known c i E) as [-> [Hc Hr]]. naive_solver.
  - assert (c ∉ All) as Hn by (rewrite elem_of_All, E; by intros [? [=]]).
    rewrite (Classify_unknown c Hn). rewrite elem_of_All, E in *.
    split_and!; [right; done | done | split; [done | by intros [[? [=]] _]]].
Qed.

(** The catalog has the 61 codes of the specification, each listed once. *)
Lemma All_complete : NoDup All ∧ length All = 61%nat.
Proof.
  split; [apply NoDup_fst_map_to_list|]. vm_compute. reflexivity.
Qed.
