(* ===== verification/Registry.v ===== *)
(** * The reference-counted registry of the Fabric Manager

    [src/src/FM/pkg/registry]: [semantics.go] (the generic [Registry]) and
    [refcount.go] (its entries and the underflow error).  Every operation takes
    the registry's mutex for its whole body, so concurrent callers interleave
    whole operations: a history of the registry is a list of [op]s, and [exec]
    is one of them.

    The [Ready] channels live in a store of channels, since an entry and its
    waiters share them: [ChanStore] hands out fresh channels and remembers the
    closed ones, and closing one twice panics as it does in Go. *)

From S2P Require Import Prelude FmErrors.

(** ** Channels that are only ever closed ([chan struct{}]) *)

Record ChanStore : Type := mkChans {
  next_chan : nat;
  closed_chans : gset nat
}.

Definition no_chans : ChanStore := mkChans 0 ∅.

Definition make_chan (h : ChanStore) : nat * ChanStore :=
  (next_chan h, mkChans (S (next_chan h)) (closed_chans h)).

Definition chan_closed (h : ChanStore) (c : nat) : bool := bool_decide (c ∈ closed_chans h).

Definition close_chan (h : ChanStore) (c : nat) : outcome ChanStore :=
  if chan_closed h c then Panic "close of closed channel"
  else Ret (mkChans (next_chan h) ({[c]} ∪ closed_chans h)).

(** ** refcount.go *)

Record entry (V : Type) : Type := mkEntry {
  value : V;
  hasValue : bool;
  refs : Z;
  ready : nat
}.
Arguments mkEntry {V} value hasValue refs ready.
Arguments value {V} e.
Arguments hasValue {V} e.
Arguments refs {V} e.
Arguments ready {V} e.

(** [zero] is Go's zero value of the value type. *)
Definition newEntry {V} (zero : V) (h : ChanStore) : entry V * ChanStore :=
  let '(c, h) := make_chan h in (mkEntry zero false 0 c, h).

(** [Key any]: the sentinel has no key. *)
Record UnderflowError (K : Type) : Type := mkUnderflow {
  ue_Code : Code;
  ue_Registry : string;
  ue_Key : option K
}.
Arguments mkUnderflow {K} ue_Code ue_Registry ue_Key.
Arguments ue_Code {K} u.
Arguments ue_Registry {K} u.
Arguments ue_Key {K} u.

(** [show] formats the key as [%v] does; the sentinel's key is [nil]. *)
Definition UnderflowError_Error {K} (show : K → string) (e : UnderflowError K) : string :=
  ue_Code e +:+ ": registry=" +:+ ue_Registry e +:+ " key=" +:+
  match ue_Key e with Some k => show k | None => "<nil>" end.

(** [Is]: [errors.As] found an [UnderflowError] in the target ([Some t]) with
    the same code. *)
Definition UnderflowError_Is {K} (e : UnderflowError K) (target : option (UnderflowError K)) : bool :=
  match target with
  | Some t => bool_decide (ue_Code t = ue_Code e)
  | None => false
  end.

Definition ErrRefcountUnderflow {K} : UnderflowError K :=
  mkUnderflow REG_007_REFCOUNT_UNDERFLOW "" None.

Definition newUnderflow {K} (name : string) (key : K) : UnderflowError K :=
  mkUnderflow REG_007_REFCOUNT_UNDERFLOW name (Some key).

(** ** semantics.go *)

Record Registry (K V : Type) `{Countable K} : Type := mkRegistry {
  entries : gmap K (entry V);
  name : string
}.
Arguments mkRegistry {K V _ _} entries name.
Arguments entries {K V _ _} r.
Arguments name {K V _ _} r.

Section Operations.
Context {K V : Type} `{Countable K} (zero : V).
Implicit Types (r : Registry K V) (h : ChanStore) (key : K).

Definition New (nm : string) : Registry K V := mkRegistry ∅ nm.

Definition Name r : string := name r.

Definition Acquire r h key : Registry K V * ChanStore * nat :=
  let '(e, h) := match entries r !! key with
                 | Some e => (e, h)
                 | None => newEntry zero h
                 end in
  let e := mkEntry (value e) (hasValue e) (refs e +64 1) (ready e) in
  (mkRegistry (<[key := e]> (entries r)) (name r), h, ready e).

Definition Release r key : Registry K V * option (UnderflowError K) :=
  match entries r !! key with
  | None => (r, Some (newUnderflow (name r) key))
  | Some e =>
      if refs e <=? 0 then (r, Some (newUnderflow (name r) key))
      else
        let e := mkEntry (value e) (hasValue e) (refs e -64 1) (ready e) in
        let r := mkRegistry (<[key := e]> (entries r)) (name r) in
        if refs e =? 0 then (mkRegistry (delete key (entries r)) (name r), None)
        else (r, None)
  end.

Definition Add r h key (v : V) : outcome (Registry K V * ChanStore) :=
  let '(e, h) := match entries r !! key with
                 | Some e => (e, h)
                 | None => newEntry zero h
                 end in
  let first := negb (hasValue e) in
  let e := mkEntry v true (refs e) (ready e) in
  let r := mkRegistry (<[key := e]> (entries r)) (name r) in
  if first then h ← close_chan h (ready e); Ret (r, h) else Ret (r, h).

Definition Get r key : V * bool :=
  match entries r !! key with
  | Some e => if hasValue e then (value e, true) else (zero, false)
  | None => (zero, false)
  end.

Definition Ready r key : bool :=
  match entries r !! key with Some e => hasValue e | None => false end.

Definition Refcount r key : Z :=
  match entries r !! key with Some e => refs e | None => 0 end.

Definition Len r : Z := Z.of_nat (size (entries r)).

(** The map of the values present; ranging over a map visits each key once, in
    an unspecified order that the result does not depend on. *)
Definition Snapshot r : gmap K V :=
  omap (λ e, if hasValue e then Some (value e) else None) (entries r).

(** *** Histories *)

Inductive op : Type :=
| OpAcquire (key : K)
| OpRelease (key : K)
| OpAdd (key : K) (v : V).

(** What the caller gets back: a channel, an error or nothing. *)
Inductive reply : Type :=
| RChan (c : nat)
| RErr (e : option (UnderflowError K))
| RUnit.

Definition exec (s : Registry K V * ChanStore) (o : op)
    : outcome (Registry K V * ChanStore * reply) :=
  let '(r, h) := s in
  match o with
  | OpAcquire key => let '(r, h, c) := Acquire r h key in Ret (r, h, RChan c)
  | OpRelease key => let '(r, e) := Release r key in Ret (r, h, RErr e)
  | OpAdd key v => '(r, h) ← Add r h key v; Ret (r, h, RUnit)
  end.

(** What a caller observes of a reply: whether the channel is closed at that
    moment, whether there was an error. *)
Inductive obs : Type := ObsReady (b : bool) | ObsErr (b : bool) | ObsUnit.

Definition observe (h : ChanStore) (p : reply) : obs :=
  match p with
  | RChan c => ObsReady (chan_closed h c)
  | RErr e => ObsErr (bool_decide (is_Some e))
  | RUnit => ObsUnit
  end.

Fixpoint run (s : Registry K V * ChanStore) (ops : list op)
    : outcome (Registry K V * ChanStore * list obs) :=
  match ops with
  | [] => Ret (s.1, s.2, [])
  | o :: ops =>
      '(r, h, p) ← exec s o;
      '(r', h', ps) ← run (r, h) ops;
      Ret (r', h', observe h p :: ps)
  end.

End Operations.

Arguments op K V : clear implicits.

(** ** The abstract contract

    A registry promises, per key, a number of holders and perhaps a value: an
    Acquire adds a holder, a Release removes one, and the last holder to leave
    takes the value with it; a Release without a holder is refused. *)
Module Spec.

Definition st (K V : Type) : Type := K → nat * option V.

Definition init {K V} : st K V := λ _, (0%nat, None).

Section Step.
Context {K V : Type} `{Countable K}.

Definition upd (s : st K V) (k : K) (x : nat * option V) : st K V :=
  λ k', if decide (k' = k) then x else s k'.

Definition step (s : st K V) (o : op K V) : st K V * obs :=
  match o with
  | OpAcquire k => (upd s k (S (s k).1, (s k).2), ObsReady (bool_decide (is_Some (s k).2)))
  | OpRelease k =>
      match (s k).1 with
      | O => (s, ObsErr true)
      | S O => (upd s k (0%nat, None), ObsErr false)
      | S n => (upd s k (n, (s k).2), ObsErr false)
      end
  | OpAdd k v => (upd s k ((s k).1, Some v), ObsUnit)
  end.

Fixpoint steps (s : st K V) (ops : list (op K V)) : st K V * list obs :=
  match ops with
  | [] => (s, [])
  | o :: ops =>
      let '(s, p) := step s o in
      let '(s', ps) := steps s ops in (s', p :: ps)
  end.

End Step.
End Spec.

(** ** Invariant and refinement *)

(** The abstract state of a registry. *)
Definition abs {K V} `{Countable K} (r : Registry K V) : Spec.st K V := λ k,
  match entries r !! k with
  | Some e => (Z.to_nat (refs e), if hasValue e then Some (value e) else None)
  | None => (0%nat, None)
  end.

(** Well-formedness after at most [n] operations: refcounts are between 0 and
    [n]; an entry nobody holds was cold-written; the Ready channel of an entry
    is closed exactly when the entry has a value; no two keys share a channel. *)
Record wf {K V} `{Countable K} (n : Z) (r : Registry K V) (h : ChanStore) : Prop := {
  wf_refs k e : entries r !! k = Some e → 0 ≤ refs e ≤ n;
  wf_cold k e : entries r !! k = Some e → refs e = 0 → hasValue e = true;
  wf_ready k e : entries r !! k = Some e → hasValue e = chan_closed h (ready e);
  wf_fresh k e : entries r !! k = Some e → (ready e < next_chan h)%nat;
  wf_closed c : c ∈ closed_chans h → (c < next_chan h)%nat;
  wf_inj k1 k2 e1 e2 : entries r !! k1 = Some e1 → entries r !! k2 = Some e2 →
    ready e1 = ready e2 → k1 = k2
}.

Section Proofs.
Context {K V : Type} `{Countable K} (zero : V).
Implicit Types (r : Registry K V) (h : ChanStore) (k : K) (e : entry V).

Lemma wf_new nm : wf 0 (New nm : Registry K V) no_chans.
Proof. split; intros; simpl in *; try (by rewrite lookup_empty in *); set_solver. Qed.

Lemma wf_mono n m r h : wf n r h → n ≤ m → wf m r h.
Proof.
  intros W Hm. split; [|apply W..].
  intros k e He. pose proof (wf_refs _ _ _ W _ _ He). lia.
Qed.

(** A channel about to be handed out is open. *)
Lemma fresh_open n r h : wf n r h → chan_closed h (next_chan h) = false.
Proof.
  intros W. apply bool_decide_eq_false. intros Hc. apply (wf_closed _ _ _ W) in Hc. lia.
Qed.

(** The entry [Acquire] and [Add] work on: the key's own, or a new one. *)
Definition entry_of r h k : entry V * ChanStore :=
  match entries r !! k with Some e => (e, h) | None => newEntry zero h end.

Lemma entry_of_cases r h k e h' :
  entry_of r h k = (e, h') →
  (entries r !! k = Some e ∧ h' = h) ∨
  (entries r !! k = None ∧ e = mkEntry zero false 0 (next_chan h) ∧
   h' = mkChans (S (next_chan h)) (closed_chans h)).
Proof.
  unfold entry_of, newEntry, make_chan. destruct (entries r !! k) eqn:E; naive_solver.
Qed.

Lemma chan_closed_next c n S : chan_closed (mkChans n S) c = bool_decide (c ∈ S).
Proof. done. Qed.

(** Writing an entry of [entry_of] back keeps the invariant, whatever its value
    and refcount, if those agree with its channel. *)
Lemma wf_insert n m r h k e h' e' S' :
  wf n r h → entry_of r h k = (e, h') → n ≤ m →
  ready e' = ready e → 0 ≤ refs e' ≤ m → (refs e' = 0 → hasValue e' = true) →
  (S' = closed_chans h ∧ hasValue e' = hasValue e ∨
   S' = {[ready e]} ∪ closed_chans h ∧ hasValue e' = true) →
  wf m (mkRegistry (<[k := e']> (entries r)) (name r)) (mkChans (next_chan h') S').
Proof.
  intros W He%entry_of_cases Hm Hr Hrefs Hcold HS.
  assert (next_chan h ≤ next_chan h')%nat as Hnext.
  { destruct He as [[_ ->]|(_ & _ & ->)]; simpl; lia. }
  assert (ready e < next_chan h')%nat as Hlt.
  { destruct He as [[E ->]|(_ & -> & ->)]; simpl; [by eapply wf_fresh | lia]. }
  assert (hasValue e = chan_closed h (ready e)) as Hopen.
  { destruct He as [[E ->]|(_ & -> & ->)]; simpl; [by eapply wf_ready|].
    symmetry. apply (fresh_open _ _ _ W). }
  assert (∀ k2 e2, k2 ≠ k → entries r !! k2 = Some e2 → ready e2 ≠ ready e) as Hne.
  { intros k2 e2 Hk H2 Heq. destruct He as [[E ->]|(_ & -> & ->)]; simpl in *.
    - apply Hk. eapply wf_inj; eauto.
    - apply (wf_fresh _ _ _ W) in H2. lia. }
  split; simpl.
  - intros k2 e2 [[-> ->]|[_ H2]]%lookup_insert_Some; [done|].
    apply (wf_refs _ _ _ W) in H2. lia.
  - intros k2 e2 [[-> ->]|[_ H2]]%lookup_insert_Some; [done|]. by eapply wf_cold.
  - intros k2 e2 [[-> ->]|[Hk H2]]%lookup_insert_Some; rewrite chan_closed_next.
    + rewrite Hr. destruct HS as [[-> ->]|[-> ->]]; [done|].
      symmetry. apply bool_decide_eq_true. set_solver.
    + rewrite (wf_ready _ _ _ W _ _ H2). apply bool_decide_ext.
      specialize (Hne _ _ (not_eq_sym Hk) H2). destruct HS as [[-> _]|[-> _]]; set_solver.
  - intros k2 e2 [[-> ->]|[_ H2]]%lookup_insert_Some; [by rewrite Hr|].
    apply (wf_fresh _ _ _ W) in H2. lia.
  - intros c Hc. destruct HS as [[-> _]|[-> _]].
    + apply (wf_closed _ _ _ W) in Hc. lia.
    + apply elem_of_union in Hc as [->%elem_of_singleton|Hc]; [done|].
      apply (wf_closed _ _ _ W) in Hc. lia.
  - intros k1 k2 e1 e2 [[-> ->]|[Hk1 H1]]%lookup_insert_Some
      [[-> ->]|[Hk2 H2]]%lookup_insert_Some Heq; try done.
    + rewrite Hr in Heq. by destruct (Hne k2 e2).
    + rewrite Hr in Heq. by destruct (Hne k1 e1).
    + eapply wf_inj; eauto.
Qed.

Lemma wf_delete n r h k nm :
  wf n r h → wf n (mkRegistry (delete k (entries r)) nm) h.
Proof.
  intros W. split; simpl.
  - intros k2 e2 [_ H2]%lookup_delete_Some. by eapply wf_refs.
  - intros k2 e2 [_ H2]%lookup_delete_Some. by eapply wf_cold.
  - intros k2 e2 [_ H2]%lookup_delete_Some. by eapply wf_ready.
  - intros k2 e2 [_ H2]%lookup_delete_Some. by eapply wf_fresh.
  - by eapply wf_closed.
  - intros k1 k2 e1 e2 [_ H1]%lookup_delete_Some [_ H2]%lookup_delete_Some.
    by eapply wf_inj.
Qed.

Lemma abs_insert r k e nm k' :
  abs (mkRegistry (<[k := e]> (entries r)) nm) k' =
  Spec.upd (abs r) k (Z.to_nat (refs e), if hasValue e then Some (value e) else None) k'.
Proof.
  unfold abs, Spec.upd; simpl. rewrite lookup_insert.
  by destruct (decide (k = k')) as [->|]; destruct (decide _).
Qed.

Lemma abs_delete r k nm k' :
  abs (mkRegistry (delete k (entries r)) nm) k' = Spec.upd (abs r) k (0%nat, None) k'.
Proof.
  unfold abs, Spec.upd; simpl. rewrite lookup_delete.
  by destruct (decide (k = k')) as [->|]; destruct (decide _).
Qed.

(** The entry [entry_of] returns stands for the key's abstract state. *)
Lemma abs_entry_of n r h k e h' :
  wf n r h → entry_of r h k = (e, h') →
  abs r k = (Z.to_nat (refs e), if hasValue e then Some (value e) else None) ∧
  0 ≤ refs e ≤ Z.max 0 n ∧ closed_chans h' = closed_chans h ∧
  hasValue e = chan_closed h' (ready e).
Proof.
  intros W [[E ->]|(E & -> & ->)]%entry_of_cases; unfold abs; rewrite E.
  - pose proof (wf_refs _ _ _ W _ _ E). simpl. split_and!; [done|lia|lia|done|by eapply wf_ready].
  - simpl. split_and!; [done|lia|lia|done|]. symmetry. apply (fresh_open _ _ _ W).
Qed.

(** Abstract states are compared key by key. *)
Definition st_eq (s1 s2 : Spec.st K V) : Prop := ∀ k, s1 k = s2 k.

#[export] Instance st_eq_equivalence : Equivalence st_eq.
Proof. split; unfold st_eq; repeat intro; congruence. Qed.

#[export] Instance upd_proper : Proper (st_eq ==> eq ==> eq ==> st_eq) Spec.upd.
Proof. intros s1 s2 Hs k ? <- x ? <- k'. unfold Spec.upd. by case_decide. Qed.

Lemma step_proper s1 s2 o :
  st_eq s1 s2 → st_eq (Spec.step s1 o).1 (Spec.step s2 o).1 ∧
                (Spec.step s1 o).2 = (Spec.step s2 o).2.
Proof.
  intros Hs. destruct o as [k|k|k v]; simpl; rewrite (Hs k).
  - split; [by rewrite Hs | done].
  - destruct (s2 k).1 as [|[|m]]; simpl; split; try done; by rewrite Hs.
  - split; [by rewrite Hs | done].
Qed.

Lemma steps_proper s1 s2 ops :
  st_eq s1 s2 → st_eq (Spec.steps s1 ops).1 (Spec.steps s2 ops).1 ∧
                (Spec.steps s1 ops).2 = (Spec.steps s2 ops).2.
Proof.
  revert s1 s2. induction ops as [|o ops IH]; intros s1 s2 Hs; simpl; [done|].
  destruct (step_proper s1 s2 o Hs) as [H1 H2].
  destruct (Spec.step s1 o) as [t1 p1], (Spec.step s2 o) as [t2 p2]; simpl in *.
  destruct (IH t1 t2 H1) as [H3 H4].
  destruct (Spec.steps t1 ops), (Spec.steps t2 ops); simpl in *. by subst.
Qed.

(** One operation implements the abstract step and never panics. *)
Definition simulates n r h o : Prop := ∃ r' h' p,
  exec zero (r, h) o = Ret (r', h', p) ∧ wf (n + 1) r' h' ∧
  st_eq (abs r') (Spec.step (abs r) o).1 ∧ observe h' p = (Spec.step (abs r) o).2 ∧
  name r' = name r.

Lemma Acquire_simulates n r h k :
  wf n r h → 0 ≤ n < int64_max → simulates n r h (OpAcquire k).
Proof.
  intros W Hn. unfold simulates; simpl. unfold Acquire. fold (entry_of r h k).
  destruct (entry_of r h k) as [e h'] eqn:E.
  destruct (abs_entry_of _ _ _ _ _ _ W E) as (Ha & Hr & Hc & Hrd).
  rewrite wrap64_id by (unfold in_int64, int64_min in *; lia).
  eexists _, _, _; split; [done|]. split; [|split; [|split; [|done]]].
  - destruct h' as [nc S']; simpl in *.
    eapply (wf_insert n (n + 1) r h k e (mkChans nc S') _ S'); eauto; simpl; lia.
  - intros k'. rewrite abs_insert, Ha; simpl.
    by rewrite Z2Nat.inj_add, Nat.add_1_r by lia.
  - simpl. rewrite Ha, <- Hrd; simpl. by destruct (hasValue e).
Qed.

Lemma Release_simulates n r h k :
  wf n r h → 0 ≤ n < int64_max → simulates n r h (OpRelease k).
Proof.
  intros W Hn. unfold simulates; simpl. unfold Release.
  destruct (entries r !! k) as [e|] eqn:E.
  2:{ eexists _, _, _; split; [done|].
      assert (abs r k = (0%nat, None)) as -> by (unfold abs; by rewrite E). simpl.
      split; [eapply wf_mono; [done|lia]|done]. }
  pose proof (wf_refs _ _ _ W _ _ E) as Hr.
  assert (abs r k = (Z.to_nat (refs e), if hasValue e then Some (value e) else None)) as Ha
    by (unfold abs; by rewrite E).
  rewrite Ha; simpl. destruct (refs e <=? 0) eqn:E0; go_bool.
  { replace (refs e) with 0 by lia. eexists _, _, _; split; [done|]; simpl.
    split; [eapply wf_mono; [done|lia]|done]. }
  rewrite wrap64_id by (unfold in_int64, int64_min in *; lia).
  destruct (refs e - 1 =? 0) eqn:E1; go_bool.
  - replace (refs e) with 1 by lia. eexists _, _, _; split; [done|]; simpl.
    rewrite delete_insert_eq. split; [|split; [|done]].
    + eapply wf_mono; [by apply wf_delete | lia].
    + intros k'. apply abs_delete.
  - destruct (Z.to_nat (refs e)) as [|[|m]] eqn:Em; [lia|lia|].
    eexists _, _, _; split; [done|]; simpl. split; [|split; [|done]].
    + destruct h as [nc S'].
      eapply (wf_insert n (n + 1) r _ k e (mkChans nc S') _ S'); simpl; eauto; try lia.
      unfold entry_of. by rewrite E.
    + intros k'. rewrite abs_insert; simpl. by replace (Z.to_nat (refs e - 1)) with (S m) by lia.
Qed.

Lemma Add_simulates n r h k v :
  wf n r h → 0 ≤ n < int64_max → simulates n r h (OpAdd k v).
Proof.
  intros W Hn. unfold simulates; simpl. unfold Add. fold (entry_of r h k).
  destruct (entry_of r h k) as [e h'] eqn:E.
  destruct (abs_entry_of _ _ _ _ _ _ W E) as (Ha & Hr & Hc & Hrd).
  destruct (hasValue e) eqn:Ev; simpl.
  - eexists _, _, _; split; [done|]; simpl. split; [|split; [|done]].
    + destruct h' as [nc S']; simpl in *.
      eapply (wf_insert n (n + 1) r h k e (mkChans nc S') _ S'); eauto; simpl; try lia.
    + intros k'. by rewrite abs_insert, Ha.
  - unfold close_chan. rewrite <- Hrd; simpl.
    eexists _, _, _; split; [done|]; simpl. split; [|split; [|done]].
    + rewrite Hc. eapply (wf_insert n (n + 1) r h k e h' _ ({[ready e]} ∪ closed_chans h));
        eauto; simpl; lia.
    + intros k'. by rewrite abs_insert, Ha.
Qed.

Lemma exec_simulates n r h o : wf n r h → 0 ≤ n < int64_max → simulates n r h o.
Proof.
  destruct o; [apply Acquire_simulates | apply Release_simulates | apply Add_simulates].
Qed.

Lemma run_simulates n r h ops :
  wf n r h → 0 ≤ n → n + Z.of_nat (length ops) ≤ int64_max →
  ∃ r' h', run zero (r, h) ops = Ret (r', h', (Spec.steps (abs r) ops).2) ∧
    wf (n + Z.of_nat (length ops)) r' h' ∧ st_eq (abs r') (Spec.steps (abs r) ops).1.
Proof.
  revert n r h. induction ops as [|o ops IH]; intros n r h W H0 Hn;
    cbn [length run Spec.steps] in *.
  - exists r, h. split; [done|]. by rewrite Z.add_0_r.
  - destruct (exec_simulates n r h o W) as (r1 & h1 & p & Hx & W1 & Ha & Hp & _); [lia|].
    unfold mbind, outcome_bind. rewrite Hx.
    destruct (IH (n + 1) r1 h1 W1) as (r2 & h2 & Hrun & W2 & Ha2); [lia|lia|].
    destruct (steps_proper _ _ ops Ha) as [Hs1 Hs2].
    destruct (Spec.step (abs r) o) as [s p'] eqn:Es; simpl in *.
    destruct (Spec.steps s ops) as [s' ps] eqn:Es'; simpl in *.
    rewrite Hrun, Hp, Hs2. exists r2, h2. split; [done|]. split.
    + eapply wf_mono; [exact W2|lia].
    + by rewrite Ha2.
Qed.

(** What the read operations return is the abstract state. *)
Lemma reads_abs n r h k :
  wf n r h →
  Refcount r k = Z.of_nat (abs r k).1 ∧
  Get zero r k = match (abs r k).2 with Some v => (v, true) | None => (zero, false) end ∧
  Ready r k = bool_decide (is_Some (abs r k).2) ∧
  Snapshot r !! k = (abs r k).2.
Proof.
  intros W. unfold Refcount, Get, Ready, Snapshot, abs. rewrite lookup_omap.
  destruct (entries r !! k) as [e|] eqn:E; simpl; [|done].
  pose proof (wf_refs _ _ _ W _ _ E). rewrite Z2Nat.id by lia.
  by destruct (hasValue e).
Qed.

End Proofs.

(** ** The holder's view

    [protected k others ops]: along [ops], no Release of [k] takes the place of
    a holder that did not arrive, [others] being the holders of [k] besides
    ours; so our own Acquire is never released on our behalf. *)
Section Holder.
Context {K V : Type} `{Countable K} (zero : V).
Implicit Types (r : Registry K V) (h : ChanStore) (k : K) (e : entry V).

Fixpoint protected k (others : nat) (ops : list (op K V)) : bool :=
  match ops with
  | [] => true
  | OpAcquire k' :: ops => protected k (if decide (k' = k) then S others else others) ops
  | OpRelease k' :: ops =>
      if decide (k' = k) then
        match others with O => false | S others => protected k others ops end
      else protected k others ops
  | OpAdd _ _ :: ops => protected k others ops
  end.

(** The value of [k] after [ops], if it was [v] before and [k] stays held. *)
Fixpoint last_added k (v : option V) (ops : list (op K V)) : option V :=
  match ops with
  | [] => v
  | OpAdd k' v' :: ops => last_added k (if decide (k' = k) then Some v' else v) ops
  | _ :: ops => last_added k v ops
  end.

Definition op_key (o : op K V) : K :=
  match o with OpAcquire k | OpRelease k | OpAdd k _ => k end.

Definition entry_value e : option V := if hasValue e then Some (value e) else None.

(** An operation on another key leaves the entry alone. *)
Lemma exec_other r h o r' h' p k :
  exec zero (r, h) o = Ret (r', h', p) → op_key o ≠ k → entries r' !! k = entries r !! k.
Proof.
  intros Hx Hk. destruct o as [k'|k'|k' v]; simpl in *.
  - unfold Acquire in Hx. fold (entry_of zero r h k') in Hx.
    destruct (entry_of zero r h k'). simplify_eq/=. by rewrite lookup_insert_ne.
  - unfold Release in Hx. go_cases; by rewrite ?lookup_delete_ne, ?lookup_insert_ne.
  - unfold Add, close_chan in Hx. fold (entry_of zero r h k') in Hx.
    destruct (entry_of zero r h k'). unfold mbind, outcome_bind in Hx.
    go_cases; by rewrite lookup_insert_ne.
Qed.

(** An operation on a held key keeps its entry and its channel. *)
Lemma exec_held r h o r' h' p k e others :
  exec zero (r, h) o = Ret (r', h', p) → entries r !! k = Some e →
  refs e = 1 + Z.of_nat others → Z.of_nat others + 2 ≤ int64_max →
  protected k others [o] = true →
  ∃ e' others', entries r' !! k = Some e' ∧ ready e' = ready e ∧
    refs e' = 1 + Z.of_nat others' ∧ (others' ≤ S others)%nat ∧
    (∀ ops, protected k others (o :: ops) = protected k others' ops) ∧
    entry_value e' = last_added k (entry_value e) [o].
Proof.
  intros Hx He Hr Hb Hp. destruct (decide (op_key o = k)) as [Hk|Hk].
  2:{ exists e, others. rewrite (exec_other _ _ _ _ _ _ _ Hx Hk).
      destruct o; simpl in *; repeat case_decide; go_split. }
  destruct o as [k'|k'|k' v]; simpl in Hk; subst k'; simpl in *.
  - unfold Acquire in Hx. rewrite He in Hx. simplify_eq/=.
    eexists _, (S others). simpl. rewrite lookup_insert_eq, decide_True by done.
    split; [done|]; simpl.
    rewrite wrap64_id by (unfold in_int64, int64_min in *; lia). go_split.
  - rewrite decide_True in Hp by done. destruct others as [|m]; [done|].
    unfold Release in Hx. rewrite He in Hx. simpl in Hx.
    rewrite wrap64_id in Hx by (unfold in_int64, int64_min in *; lia).
    destruct (refs e <=? 0) eqn:E0; go_bool; [lia|].
    destruct (refs e - 1 =? 0) eqn:E1; go_bool; [lia|]. simplify_eq/=.
    eexists _, m. simpl. rewrite lookup_insert_eq. split; [done|]; simpl.
    split_and!; try done; [lia..|]. intros ops. by rewrite decide_True.
  - unfold Add, close_chan in Hx. rewrite He in Hx.
    exists (mkEntry v true (refs e) (ready e)), others.
    rewrite decide_True by done. split; [|go_split; lia].
    go_cases; by rewrite lookup_insert_eq.
Qed.

Lemma run_held n r h k e others ops :
  wf n r h → 0 ≤ n → n + Z.of_nat (length ops) + 2 ≤ int64_max →
  entries r !! k = Some e → refs e = 1 + Z.of_nat others →
  protected k others ops = true →
  ∃ r' h' ps e', run zero (r, h) ops = Ret (r', h', ps) ∧
    wf (n + Z.of_nat (length ops)) r' h' ∧
    entries r' !! k = Some e' ∧ ready e' = ready e ∧
    entry_value e' = last_added k (entry_value e) ops.
Proof.
  revert n r h e others. induction ops as [|o ops IH]; intros n r h e others W H0 Hn He Hr Hp.
  - exists r, h, [], e. split; [done|]. split; [eapply wf_mono; [done|lia]|done].
  - cbn [length run] in *.
    destruct (exec_simulates zero n r h o W) as (r1 & h1 & p & Hx & W1 & _); [lia|].
    pose proof (wf_refs _ _ _ W _ _ He).
    destruct (exec_held _ _ _ _ _ _ _ _ others Hx He Hr) as
      (e1 & m & He1 & Hrd & Hr1 & Hm & Hpr & Hv); [lia| |].
    { revert Hp. destruct o; simpl; try done. case_decide; [by destruct others | done]. }
    rewrite Hpr in Hp.
    destruct (IH (n + 1) r1 h1 e1 m W1) as (r2 & h2 & ps & e2 & Hrun & W2 & He2 & Hrd2 & Hv2);
      [lia|lia|done|done|done|].
    unfold mbind, outcome_bind. rewrite Hx, Hrun. eexists r2, h2, _, e2. split; [done|].
    split; [eapply wf_mono; [exact W2|lia]|]. rewrite Hrd2, Hv2, Hv. go_split.
    destruct o; simpl; try done.
Qed.

End Holder.

(** ** Theorems *)

(** C1 Refinement: any history of a new registry runs without panicking, every
    call returns what the abstract contract says (the Ready channel of an
    Acquire is closed at once exactly when there is a value, a Release is
    refused exactly when nobody holds the key), and afterwards [Refcount],
    [Get], [Ready] and [Snapshot] read the abstract state.  Up to [2^63 - 1]
    operations, so that no refcount wraps around. *)
Theorem registry_refines_spec {K V} `{Countable K} (zero : V) (nm : string)
    (ops : list (op K V)) (Hlen : Z.of_nat (length ops) ≤ int64_max) :
  ∃ r h, run zero (New nm, no_chans) ops = Ret (r, h, (Spec.steps Spec.init ops).2) ∧
    ∀ k, let s := (Spec.steps Spec.init ops).1 k in
      Refcount r k = Z.of_nat s.1 ∧
      Get zero r k = match s.2 with Some v => (v, true) | None => (zero, false) end ∧
      Ready r k = bool_decide (is_Some s.2) ∧
      Snapshot r !! k = s.2.
Proof.
  destruct (run_simulates zero 0 (New nm) no_chans ops) as (r & h & Hrun & W & Ha);
    [apply wf_new | lia | lia |].
  destruct (steps_proper (abs (New nm : Registry K V)) Spec.init ops) as [H1 H2].
  { intros k. unfold abs; simpl. by rewrite lookup_empty. }
  exists r, h. rewrite Hrun, H2. split; [done|]. intros k. simpl.
  rewrite <- (H1 k), <- (Ha k). by eapply reads_abs.
Qed.

Lemma registry_refines_spec_witness :
  ∃ r h, run 0 (New "vnet", no_chans)
      [OpAcquire "a"; OpAcquire "a"; OpAdd "a" 7; OpRelease "a"; OpRelease "b";
       OpRelease "a"; OpRelease "a"] =
    Ret (r, h, [ObsReady false; ObsReady false; ObsUnit; ObsErr false; ObsErr true;
                ObsErr false; ObsErr true]) ∧ Get 0 r "a" = (0, false).
Proof.
  destruct (registry_refines_spec 0 "vnet"
    [OpAcquire "a"; OpAcquire "a"; OpAdd "a" 7; OpRelease "a"; OpRelease "b";
     OpRelease "a"; OpRelease "a"]) as (r & h & Hrun & Hk).
  - vm_compute. discriminate.
  - exists r, h. split; [exact Hrun|]. destruct (Hk "a") as (_ & Hg & _). exact Hg.
Defined.

(** C21 [Release]: with no live Acquire (absent key or refcount 0) it returns the
    [REG_007] underflow error naming the registry and the key, which
    [errors.Is] matches with [ErrRefcountUnderflow], and changes nothing;
    otherwise it succeeds, lowers the refcount by one, and evicts the entry
    exactly when the count reaches zero, leaving every other key alone. *)
Theorem Release_spec {K V} `{Countable K} (r : Registry K V) (key : K) :
  if Refcount r key <=? 0
  then Release r key = (r, Some (newUnderflow (Name r) key)) ∧
       UnderflowError_Is (newUnderflow (Name r) key) (Some ErrRefcountUnderflow) = true
  else (Release r key).2 = None ∧
       Refcount (Release r key).1 key = Refcount r key -64 1 ∧
       (entries (Release r key).1 !! key = None ↔ Refcount r key -64 1 = 0) ∧
       (∀ k, k ≠ key → entries (Release r key).1 !! k = entries r !! k).
Proof.
  unfold Refcount, Release, Name. destruct (entries r !! key) as [e|] eqn:E; [|done].
  destruct (refs e <=? 0) eqn:E0; [by split|]. simpl.
  destruct (refs e -64 1 =? 0) eqn:E1; go_bool; simpl.
  - rewrite lookup_delete_eq. split_and!; [done|done|done|].
    intros k Hk. by rewrite lookup_delete_ne, lookup_insert_ne.
  - rewrite lookup_insert_eq. split_and!; [done|done|done|].
    intros k Hk. by rewrite lookup_insert_ne.
Qed.

(** C22 The channel of an Acquire stays the key's Ready channel for as long as
    the acquirer holds the key, whatever the other callers do meanwhile: the
    entry is not evicted, the channel is closed exactly when a value is there,
    and the value is the last one added. *)
Theorem Acquire_holds {K V} `{Countable K} (zero : V) (nm : string)
    (before after : list (op K V)) (key : K)
    (Hlen : Z.of_nat (length before) + Z.of_nat (length after) + 4 ≤ int64_max)
    (Hprot : protected key ((Spec.steps Spec.init before).1 key).1 after = true) :
  ∃ r0 h0 ps0 r1 h1 c r2 h2 ps2,
    run zero (New nm, no_chans) before = Ret (r0, h0, ps0) ∧
    Acquire zero r0 h0 key = (r1, h1, c) ∧
    run zero (r1, h1) after = Ret (r2, h2, ps2) ∧
    (∃ e, entries r2 !! key = Some e ∧ ready e = c) ∧
    chan_closed h2 c = Ready r2 key ∧
    Get zero r2 key =
      match last_added key ((Spec.steps Spec.init before).1 key).2 after with
      | Some v => (v, true)
      | None => (zero, false)
      end.
Proof.
  destruct (run_simulates zero 0 (New nm) no_chans before) as (r0 & h0 & Hrun0 & W0 & Ha0);
    [apply wf_new | lia | lia |].
  destruct (steps_proper (abs (New nm : Registry K V)) Spec.init before) as [H1 _].
  { intros k. unfold abs; simpl. by rewrite lookup_empty. }
  assert (abs r0 key = (Spec.steps Spec.init before).1 key) as Hkey by (by rewrite Ha0, H1).
  rewrite <- Hkey in *.
  destruct (exec_simulates zero _ r0 h0 (OpAcquire key) W0) as (r1 & h1 & p & Hx & W1 & _);
    [lia|].
  pose proof Hx as Hacq. simpl in Hacq. unfold Acquire in Hacq.
  fold (entry_of zero r0 h0 key) in Hacq.
  destruct (entry_of zero r0 h0 key) as [e0 h'] eqn:E.
  destruct (abs_entry_of _ _ _ _ _ _ _ W0 E) as (Hae & Hr & _ & _).
  rewrite wrap64_id in Hacq by (unfold in_int64, int64_min in *; lia). simplify_eq/=.
  destruct (run_held zero _ _ h1 key (mkEntry (value e0) (hasValue e0) (refs e0 + 1) (ready e0))
    (Z.to_nat (refs e0)) after W1) as (r2 & h2 & ps2 & e2 & Hrun2 & W2 & He2 & Hrd & Hv);
    [lia|lia|apply lookup_insert_eq|simpl; lia|by rewrite Hae in Hprot|].
  eexists r0, h0, _, _, h1, (ready e0), r2, h2, ps2. split; [done|].
  split.
  { unfold Acquire. fold (entry_of zero r0 h0 key). rewrite E.
    by rewrite wrap64_id by (unfold in_int64, int64_min in *; lia). }
  split; [done|]. split; [eauto|].
  unfold Ready, Get. rewrite He2. simpl in Hrd. rewrite <- Hrd.
  split; [symmetry; by eapply wf_ready|].
  rewrite Hae. unfold entry_value in Hv. simpl in *. rewrite <- Hv. by destruct (hasValue e2).
Qed.

Lemma Acquire_holds_witness :
  ∃ r0 h0 ps0 r1 h1 c r2 h2 ps2,
    run 0 (New "acl", no_chans) [OpAcquire "g"] = Ret (r0, h0, ps0) ∧
    Acquire 0 r0 h0 "g" = (r1, h1, c) ∧
    run 0 (r1, h1) [OpAdd "g" 5; OpRelease "g"; OpAcquire "g"; OpAdd "g" 6] = Ret (r2, h2, ps2) ∧
    (∃ e, entries r2 !! "g" = Some e ∧ ready e = c) ∧
    chan_closed h2 c = Ready r2 "g" ∧ Get 0 r2 "g" = (6, true).
Proof.
  exact (Acquire_holds 0 "acl" [OpAcquire "g"]
           [OpAdd "g" 5; OpRelease "g"; OpAcquire "g"; OpAdd "g" 6] "g"
           ltac:(vm_compute; discriminate) eq_refl).
Defined.
