(* ===== verification/GoNet.v ===== *)
(** * What the registries use of Go's [net] and [net/netip]

    [net.ParseMAC], as [NicState.validate] uses it (does the address parse, and
    with what error), and [netip.Addr]'s [IsValid] and [IsUnspecified]. *)

From S2P Require Import Prelude.

(** ** netip *)

(** The zero [Addr], an IPv4 address, an IPv6 address with its zone. *)
Inductive Addr : Type :=
| AddrZero
| AddrV4 (bits : Z)
| AddrV6 (bits : Z) (zone : string).

#[export] Instance Addr_eq_dec : EqDecision Addr.
Proof. solve_decision. Defined.

Definition IsValid (a : Addr) : bool := negb (bool_decide (a = AddrZero)).

(** [IPv4Unspecified()] or [IPv6Unspecified()], which has no zone. *)
Definition IsUnspecified (a : Addr) : bool :=
  bool_decide (a = AddrV4 0) || bool_decide (a = AddrV6 0 "").

(** [String] on the addresses [IsUnspecified] accepts. *)
Definition unspecified_String (a : Addr) : string :=
  match a with AddrV4 _ => "0.0.0.0" | _ => "::" end.

(** ** net.ParseMAC *)

Definition byte_is (c : Ascii.ascii) (n : nat) : bool := Nat.eqb (Ascii.nat_of_ascii c) n.

Definition is_hex (c : Ascii.ascii) : bool :=
  let n := Ascii.nat_of_ascii c in
  ((48 <=? n) && (n <=? 57) || (97 <=? n) && (n <=? 102) || (65 <=? n) && (n <=? 70))%nat.

(** [xtoi2(s, e)]: two hex digits, then [e] or the end. *)
Definition xtoi2_ok (s : list Ascii.ascii) (e : nat) : bool :=
  match s with
  | a :: b :: c :: _ => byte_is c e && is_hex a && is_hex b
  | [a; b] => is_hex a && is_hex b
  | _ => false
  end.

(** The loop of the colon (or hyphen) form: [n] groups, three bytes apart. *)
Fixpoint groups3_ok (n : nat) (s : list Ascii.ascii) (e : nat) : bool :=
  match n with
  | O => true
  | S n => xtoi2_ok s e && groups3_ok n (drop 3 s) e
  end.

(** The loop of the dot form: [n] groups of four digits, five bytes apart. *)
Fixpoint groups5_ok (n : nat) (s : list Ascii.ascii) : bool :=
  match n with
  | O => true
  | S n => xtoi2_ok (take 2 s) 0 && xtoi2_ok (drop 2 s) 46 && groups5_ok n (drop 5 s)
  end.

Definition mac_length (n : nat) : bool := ((n =? 6) || (n =? 8) || (n =? 20))%nat.

Definition mac_ok (s : list Ascii.ascii) : bool :=
  let len := length s in
  if (len <? 14)%nat then false
  else
    match s !! 2%nat, s !! 4%nat with
    | Some c2, Some c4 =>
        if byte_is c2 58 || byte_is c2 45 then
          ((len + 1) mod 3 =? 0)%nat && mac_length ((len + 1) / 3) &&
          groups3_ok ((len + 1) / 3) s (Ascii.nat_of_ascii c2)
        else if byte_is c4 46 then
          ((len + 1) mod 5 =? 0)%nat && mac_length (2 * (len + 1) / 5) &&
          groups5_ok ((len + 1) / 5) s
        else false
    | _, _ => false
    end.

(** The error of [net.ParseMAC], [None] if it parses. *)
Definition ParseMAC (s : string) : option error :=
  if mac_ok (str_bytes s) then None
  else Some (Errorf ((if str_len s =? 0 then "" else "address " +:+ s +:+ ": ") +:+
                     "invalid MAC address")).

Example ParseMAC_colon : ParseMAC "00:0a:95:9d:68:16" = None.
Proof. reflexivity. Qed.

Example ParseMAC_dot : ParseMAC "000a.959d.6816" = None.
Proof. reflexivity. Qed.

Example ParseMAC_mixed :
  ParseMAC "00:0a:95-9d:68:16" = Some (Errorf "address 00:0a:95-9d:68:16: invalid MAC address").
Proof. reflexivity. Qed.

(** What the registries ask of an address. *)
Definition usable_addr (a : Addr) : Prop :=
  match a with
  | AddrZero => False
  | AddrV4 b => b ≠ 0
  | AddrV6 b z => b ≠ 0 ∨ z ≠ ""
  end.

Lemma usable_addr_iff a : usable_addr a ↔ IsValid a = true ∧ IsUnspecified a = false.
Proof.
  unfold IsValid, IsUnspecified. destruct a as [|b|b z]; simpl;
    rewrite ?orb_false_iff, ?negb_true_iff, ?bool_decide_eq_false; [naive_solver|naive_solver|].
  destruct (decide (b = 0)); destruct (decide (z = "")); naive_solver.
Qed.
