(* ===== verification/GoHeap.v ===== *)
(** * A heap of Go structs and string slices

    The typed registries hand pointers in and out and promise that nobody can
    corrupt what they store ([Clone] on the way in and on the way out), so they
    are modelled over a heap where pointers alias: [cells] holds the structs,
    [arrays] the backing arrays of their ID slices.  This file has the heap, the
    [Clone] method every state type has, and the sort-and-deduplicate pass that
    the VNET and NIC registries run on the stored copy
    ([sortDedupPeers], [sortDedupAclGroups]). *)

From S2P Require Import Prelude.

(** ** The heap *)

(** A slice of strings: nil, or [len] elements of array [arr] from [off]. *)
Inductive slice : Type :=
| SNil
| SArr (arr off len : nat).

#[export] Instance slice_eq_dec : EqDecision slice.
Proof. solve_decision. Defined.

Record heap (S : Type) : Type := mkHeap {
  cells : gmap nat S;
  arrays : gmap nat (list string);
  next_loc : nat
}.
Arguments mkHeap {S} cells arrays next_loc.
Arguments cells {S} h.
Arguments arrays {S} h.
Arguments next_loc {S} h.

(** A pointer to a struct; [None] is nil. *)
Abbreviation ptr := (option nat) (only parsing).

Definition slice_len (sl : slice) : nat :=
  match sl with SNil => 0%nat | SArr _ _ n => n end.

Definition slice_arr (sl : slice) : option nat :=
  match sl with SNil => None | SArr a _ _ => Some a end.

Section Heap.
Context {S : Type}.
Implicit Types (h : heap S) (l a : nat) (sl : slice) (xs : list string).

Definition read_slice h sl : list string :=
  match sl with
  | SNil => []
  | SArr a off n => take n (drop off (default [] (arrays h !! a)))
  end.

(** Overwrite the elements of a slice (in place: every alias sees it). *)
Definition write_slice h sl xs : heap S :=
  match sl with
  | SNil => h
  | SArr a off n =>
      let old := default [] (arrays h !! a) in
      mkHeap (cells h) (<[a := take off old ++ xs ++ drop (off + n) old]> (arrays h)) (next_loc h)
  end.

Definition deref h (p : ptr) : option S :=
  match p with Some l => cells h !! l | None => None end.

Definition store h l (s : S) : heap S := mkHeap (<[l := s]> (cells h)) (arrays h) (next_loc h).

Definition alloc_cell h (s : S) : nat * heap S :=
  (next_loc h, mkHeap (<[next_loc h := s]> (cells h)) (arrays h) (Datatypes.S (next_loc h))).

Definition alloc_array h xs : nat * heap S :=
  (next_loc h, mkHeap (cells h) (<[next_loc h := xs]> (arrays h)) (Datatypes.S (next_loc h))).

End Heap.

(** ** Structs with at most one slice field *)

(** [slice_of] is the slice field ([SNil] for a struct that has none). *)
Class GoStruct (S : Type) : Type := {
  slice_of : S → slice;
  set_slice : S → slice → S;
  slice_of_set s sl : slice_of s ≠ SNil → slice_of (set_slice s sl) = sl;
  set_slice_id s : set_slice s (slice_of s) = s;
  set_slice_twice s sl sl' : set_slice (set_slice s sl) sl' = set_slice s sl'
}.

Section Clone.
Context {S : Type} `{GoStruct S}.

(** [func (v *T) Clone() *T]: nil for nil; otherwise a new struct, whose slice,
    if not nil, is a new array with the same elements. *)
Definition clone (h : heap S) (p : ptr) : ptr * heap S :=
  match deref h p with
  | None => (None, h)
  | Some s =>
      let '(s, h) :=
        match slice_of s with
        | SNil => (s, h)
        | sl =>
            let '(a, h') := alloc_array h (read_slice h sl) in
            (set_slice s (SArr a 0 (slice_len sl)), h')
        end in
      let '(l, h) := alloc_cell h s in (Some l, h)
  end.

(** The compaction loop [for i := 1; i < len; i++ { if xs[i] != xs[i-1] {
    xs[w] = xs[i]; w++ } }], [n] being the iterations left. *)
Fixpoint dedup_loop (n i w : nat) (xs : list string) : list string * nat :=
  match n with
  | O => (xs, w)
  | Datatypes.S n =>
      match xs !! i, xs !! (i - 1)%nat with
      | Some x, Some y =>
          if decide (x = y) then dedup_loop n (Datatypes.S i) w xs
          else dedup_loop n (Datatypes.S i) (Datatypes.S w) (<[w := x]> xs)
      | _, _ => (xs, w)
      end
  end.

Definition sort_dedup (h : heap S) (l : nat) : heap S :=
  match cells h !! l with
  | None => h
  | Some s =>
      match slice_of s with
      | SNil => h
      | SArr a off n =>
          if (n <=? 1)%nat then h
          else
            let h := write_slice h (SArr a off n) (sort_strings (read_slice h (SArr a off n))) in
            let '(xs, w) := dedup_loop (n - 1) 1 1 (read_slice h (SArr a off n)) in
            let h := write_slice h (SArr a off n) xs in
            store h l (set_slice s (SArr a off w))
      end
  end.

End Clone.

(** ** The functional specification of the pass *)

(** Collapse runs of equal strings. *)
Definition dedup_step (acc : list string) (x : string) : list string :=
  if decide (last acc = Some x) then acc else acc ++ [x].

Definition dedup_runs (xs : list string) : list string := fold_left dedup_step xs [].

(** The canonical form: strictly sorted, same elements. *)
Definition canonical (xs : list string) : list string := dedup_runs (sort_strings xs).

Definition string_lt (x y : string) : Prop := String.le x y ∧ x ≠ y.

(** ** Lemmas *)

Lemma dedup_runs_snoc xs x : dedup_runs (xs ++ [x]) = dedup_step (dedup_runs xs) x.
Proof. unfold dedup_runs. by rewrite fold_left_app. Qed.

Lemma last_dedup_step acc x : last (dedup_step acc x) = Some x.
Proof. unfold dedup_step. case_decide; [done|]. apply last_snoc. Qed.

Lemma last_dedup_runs xs : last (dedup_runs xs) = last xs.
Proof.
  destruct xs as [|x xs _] using rev_ind; [done|].
  by rewrite dedup_runs_snoc, last_dedup_step, last_snoc.
Qed.

Lemma elem_of_dedup_runs xs x : x ∈ dedup_runs xs ↔ x ∈ xs.
Proof.
  induction xs as [|y xs IH] using rev_ind; [done|].
  rewrite dedup_runs_snoc. unfold dedup_step. case_decide as E.
  - rewrite last_dedup_runs in E. apply last_Some_elem_of in E. set_solver.
  - set_solver.
Qed.

Lemma dedup_runs_length xs : (length (dedup_runs xs) ≤ length xs)%nat.
Proof.
  induction xs as [|y xs IH] using rev_ind; [done|].
  rewrite dedup_runs_snoc. unfold dedup_step. case_decide; rewrite ?length_app; simpl; lia.
Qed.

(** Deduplicating a sorted list makes it strictly sorted. *)
Lemma dedup_runs_sorted xs :
  StronglySorted String.le xs → StronglySorted string_lt (dedup_runs xs).
Proof.
  induction xs as [|x xs IH] using rev_ind; intros Hs; [constructor|].
  apply StronglySorted_app in Hs as (Hle & Hs & _). specialize (IH Hs).
  rewrite dedup_runs_snoc. unfold dedup_step. case_decide as E; [done|].
  apply StronglySorted_app. split_and!; [|done|by repeat constructor].
  intros a b Ha ->%list_elem_of_singleton. rewrite elem_of_dedup_runs in Ha.
  split; [apply Hle; set_solver|]. intros ->. apply E. rewrite last_dedup_runs.
  destruct xs as [|z xs _] using rev_ind; [by apply elem_of_nil in Ha|].
  rewrite last_snoc. f_equal. apply (anti_symm String.le).
  - apply Hle; set_solver.
  - apply elem_of_app in Ha as [Ha| ->%list_elem_of_singleton]; [|done].
    apply StronglySorted_app in Hs as (Hz & _ & _). apply Hz; set_solver.
Qed.

Lemma canonical_sorted xs : StronglySorted string_lt (canonical xs).
Proof. apply dedup_runs_sorted, sort_strings_sorted. Qed.

Lemma elem_of_canonical xs x : x ∈ canonical xs ↔ x ∈ xs.
Proof. unfold canonical. by rewrite elem_of_dedup_runs, sort_strings_perm. Qed.

(** The loop invariant: after the first [i] elements, the compacted prefix is
    their deduplication and the rest is untouched. *)
Lemma dedup_loop_inv n i w xs0 xs :
  length xs = length xs0 → (i + n = length xs0)%nat → (1 ≤ i)%nat → (w ≤ i)%nat →
  take w xs = dedup_runs (take i xs0) → (∀ j, (i - 1 ≤ j)%nat → xs !! j = xs0 !! j) →
  let '(ys, w') := dedup_loop n i w xs in
  take w' ys = dedup_runs xs0 ∧ length ys = length xs0 ∧ (w' ≤ length xs0)%nat.
Proof.
  revert i w xs. induction n as [|n IH]; intros i w xs Hl Hi H1 Hw Ht Hj; simpl.
  - rewrite (take_ge xs0 i) in Ht by lia. go_split.
  - destruct (lookup_lt_is_Some_2 xs0 i) as [x Hx]; [lia|].
    destruct (lookup_lt_is_Some_2 xs0 (i - 1)) as [y Hy]; [lia|].
    rewrite (Hj i), (Hj (i - 1)%nat), Hx, Hy by lia.
    assert (dedup_runs (take (Datatypes.S i) xs0) = dedup_step (dedup_runs (take i xs0)) x) as Hs
      by (by rewrite (take_S_r _ _ _ Hx), dedup_runs_snoc).
    assert (last (take i xs0) = Some y) as Hlast.
    { rewrite last_lookup, length_take.
      replace (pred (i `min` length xs0)) with (i - 1)%nat by lia.
      by rewrite lookup_take_lt by lia. }
    unfold dedup_step in Hs. rewrite last_dedup_runs, Hlast in Hs.
    destruct (decide (x = y)) as [->|E].
    + rewrite decide_True in Hs by done.
      apply (IH (Datatypes.S i) w xs); try lia; [by rewrite Hs|intros j ?; apply Hj; lia].
    + rewrite decide_False in Hs by congruence.
      apply (IH (Datatypes.S i) (Datatypes.S w) (<[w := x]> xs)); try lia.
      * by rewrite length_insert.
      * rewrite Hs, (take_S_r _ _ x) by (apply list_lookup_insert_eq; lia).
        by rewrite take_insert_ge, Ht by lia.
      * intros j ?. destruct (decide (j = w)) as [->|Hne].
        -- rewrite list_lookup_insert_eq by lia. by replace w with i by lia.
        -- rewrite list_lookup_insert_ne by done. apply Hj. lia.
Qed.

Lemma dedup_loop_spec xs :
  xs ≠ [] →
  let '(ys, w) := dedup_loop (length xs - 1) 1 1 xs in
  take w ys = dedup_runs xs ∧ length ys = length xs ∧ (w ≤ length xs)%nat.
Proof.
  intros Hne. destruct xs as [|x xs]; [done|].
  apply dedup_loop_inv; simpl; try lia; done.
Qed.

Lemma canonical_short xs : (length xs ≤ 1)%nat → canonical xs = xs.
Proof. destruct xs as [|x [|y xs]]; simpl; [done|done|lia]. Qed.

(** *** What a struct shows, and what the pass does to it *)

Section HeapLemmas.
Context {S : Type} `{GoStruct S}.
Implicit Types (h : heap S) (s : S) (l : nat).

(** A slice within the bounds of its array. *)
Definition slice_ok h (sl : slice) : Prop :=
  match sl with
  | SNil => True
  | SArr a off n => ∃ xs, arrays h !! a = Some xs ∧ (off + n ≤ length xs)%nat
  end.

(** Nothing lives at or above [next_loc]. *)
Definition heap_ok h : Prop :=
  (∀ l s, cells h !! l = Some s → (l < next_loc h)%nat ∧ slice_ok h (slice_of s)) ∧
  (∀ a xs, arrays h !! a = Some xs → (a < next_loc h)%nat).

Lemma read_slice_length h sl : slice_ok h sl → length (read_slice h sl) = slice_len sl.
Proof.
  destruct sl as [|a off n]; [done|]. intros (xs & Ha & Hn). simpl. rewrite Ha. simpl.
  rewrite length_take, length_drop. lia.
Qed.

Lemma read_write_slice h sl xs :
  slice_ok h sl → length xs = slice_len sl → read_slice (write_slice h sl xs) sl = xs.
Proof.
  destruct sl as [|a off n]; simpl; intros Hok Hl; [by destruct xs|].
  destruct Hok as (ys & Ha & Hn). rewrite lookup_insert_eq, Ha. simpl.
  rewrite drop_app_length' by (rewrite length_take; lia).
  by rewrite take_app_length'.
Qed.

(** Overwriting elements changes no length, so every slice stays in bounds. *)
Lemma slice_ok_write h sl sl' xs :
  slice_ok h sl → length xs = slice_len sl → slice_ok h sl' → slice_ok (write_slice h sl xs) sl'.
Proof.
  destruct sl as [|a off n]; [done|]. intros (ys & Ha & Hn) Hl Hok'.
  destruct sl' as [|a' off' n']; [done|]. destruct Hok' as (zs & Ha' & Hn'). simpl in *.
  rewrite Ha. simpl. destruct (decide (a = a')) as [<-|].
  - rewrite lookup_insert_eq. eexists; split; [done|]. simplify_eq.
    rewrite !length_app, length_take, length_drop. lia.
  - rewrite lookup_insert_ne by done. by eexists.
Qed.

Lemma sort_dedup_short h l s :
  cells h !! l = Some s → slice_ok h (slice_of s) →
  (length (read_slice h (slice_of s)) ≤ 1)%nat →
  ∃ sl,
    cells h = <[l := set_slice s sl]> (cells h) ∧
    read_slice h sl = canonical (read_slice h (slice_of s)) ∧
    slice_ok h sl ∧
    slice_arr sl = slice_arr (slice_of s) ∧
    (∀ a, slice_arr (slice_of s) ≠ Some a → arrays h !! a = arrays h !! a) ∧
    (∀ sl', slice_ok h sl' → slice_ok h sl') ∧
    next_loc h = next_loc h.
Proof.
  intros Hs Hok Hl. exists (slice_of s).
  by rewrite set_slice_id, insert_id, canonical_short.
Qed.

(** The pass touches nothing but the struct and the array of its slice, and
    leaves there the canonical form of the elements. *)
Lemma sort_dedup_spec h l s :
  cells h !! l = Some s → slice_ok h (slice_of s) →
  ∃ sl,
    cells (sort_dedup h l) = <[l := set_slice s sl]> (cells h) ∧
    read_slice (sort_dedup h l) sl = canonical (read_slice h (slice_of s)) ∧
    slice_ok (sort_dedup h l) sl ∧
    slice_arr sl = slice_arr (slice_of s) ∧
    (∀ a, slice_arr (slice_of s) ≠ Some a → arrays (sort_dedup h l) !! a = arrays h !! a) ∧
    (∀ sl', slice_ok h sl' → slice_ok (sort_dedup h l) sl') ∧
    next_loc (sort_dedup h l) = next_loc h.
Proof.
  intros Hs Hok. unfold sort_dedup. rewrite Hs.
  pose proof (read_slice_length _ _ Hok) as Hlen.
  pose proof (sort_dedup_short h l s Hs) as Hshort.
  destruct (slice_of s) as [|a off n] eqn:Esl; [by apply Hshort; simpl; try lia|].
  destruct (n <=? 1)%nat eqn:En.
  { apply Nat.leb_le in En. by apply Hshort; rewrite ?Hlen. }
  clear Hshort. simpl in Hlen.
  apply Nat.leb_gt in En. set (sl := SArr a off n) in *.
  set (h1 := write_slice h sl (sort_strings (read_slice h sl))).
  assert (length (sort_strings (read_slice h sl)) = n) as Hl1
    by (rewrite sort_strings_perm; exact Hlen).
  pose proof (read_write_slice h sl _ Hok Hl1) as Hr1. fold h1 in Hr1.
  pose proof (slice_ok_write h sl sl _ Hok Hl1 Hok) as Hok1. fold h1 in Hok1.
  pose proof (dedup_loop_spec (read_slice h1 sl)) as Hd. rewrite Hr1 in Hd |- *.
  rewrite Hl1 in Hd.
  destruct (dedup_loop _ _ _ _) as [ys w] eqn:Ed.
  destruct Hd as (Hw & Hly & Hwn); [intros E; rewrite E in Hl1; simpl in Hl1; lia|].
  assert (slice_ok (write_slice h1 sl ys) (SArr a off w)) as Hok2.
  { destruct (slice_ok_write h1 sl sl ys Hok1) as (zs & Hz & ?); [simpl; congruence|done|].
    exists zs. split; [done|lia]. }
  assert (read_slice (write_slice h1 sl ys) (SArr a off w) = take w ys) as Hr2.
  { rewrite <- (read_write_slice h1 sl ys Hok1) at 2 by (simpl; congruence).
    simpl. rewrite take_take. f_equal. lia. }
  exists (SArr a off w). split_and!; try done.
  - change (read_slice (write_slice h1 sl ys) (SArr a off w) = canonical (read_slice h sl)).
    by rewrite Hr2, Hw.
  - intros b Hb. assert (a ≠ b) by (simpl in Hb; congruence).
    subst h1. simpl. by rewrite !lookup_insert_ne.
  - intros sl' Hsl'.
    by apply (slice_ok_write h1 sl sl' ys); [|simpl; congruence|by apply slice_ok_write].
Qed.

End HeapLemmas.
