(* ===== verification/TypedRegistry.v ===== *)
(** * The wrapper every typed registry is

    The six packages under [src/src/FM/pkg/registry] wrap the generic registry
    the same way: [Add] validates, clones and (for VNETs and NICs) normalises,
    [Get] and [Snapshot] hand out clones.  This file has that wrapper over a
    heap of structs, with the validation, the key and the normalisation as
    arguments that each package's file fills in, and proves the promise all six
    make: whatever a client does with the structs it passed in or got back, what
    the registry stores is what was validated and added. *)

From S2P Require Import Prelude FmErrors Registry GoHeap.

(** The registry, the heap its values live in, and its channels. *)
Record World (S : Type) : Type := mkWorld {
  inner : Registry string ptr;
  mem : heap S;
  chans : ChanStore
}.
Arguments mkWorld {S} inner mem chans.
Arguments inner {S} w.
Arguments mem {S} w.
Arguments chans {S} w.

Definition nil_deref : string := "runtime error: invalid memory address or nil pointer dereference".

Section Wrapper.
Context {S : Type} `{GoStruct S}.
Context (validate : heap S → ptr → option error) (key_of : S → string).
Context (normalise : heap S → nat → heap S).
Implicit Types (w : World S) (p : ptr) (k : string).

Definition wrap_New (nm : string) (h : heap S) (c : ChanStore) : World S :=
  mkWorld (Registry.New nm) h c.

Definition wrap_Name w : string := Registry.Name (inner w).

Definition wrap_Acquire w k : World S * nat :=
  let '(r, c, ch) := Registry.Acquire None (inner w) (chans w) k in
  (mkWorld r (mem w) c, ch).

Definition wrap_Release w k : World S * option (UnderflowError string) :=
  let '(r, e) := Registry.Release (inner w) k in (mkWorld r (mem w) (chans w), e).

Definition wrap_Add w p : outcome (World S * option error) :=
  match validate (mem w) p with
  | Some err => Ret (w, Some err)
  | None =>
      let '(stored, h) := clone (mem w) p in
      match stored with
      | None => Panic nil_deref
      | Some l =>
          let h := normalise h l in
          match cells h !! l with
          | None => Panic nil_deref
          | Some s =>
              '(r, c) ← Registry.Add None (inner w) (chans w) (key_of s) (Some l);
              Ret (mkWorld r h c, None)
          end
      end
  end.

Definition wrap_Get w k : World S * (ptr * bool) :=
  let '(v, ok) := Registry.Get None (inner w) k in
  if negb ok then (w, (None, false))
  else
    let '(p, h) := clone (mem w) v in
    (mkWorld (inner w) h (chans w), (p, true)).

Definition wrap_Ready w k : bool := Registry.Ready (inner w) k.
Definition wrap_Refcount w k : Z := Registry.Refcount (inner w) k.
Definition wrap_Len w : Z := Registry.Len (inner w).

(** [for k, v := range raw { out[k] = v.Clone() }] *)
Fixpoint clone_all (raw : list (string * ptr)) (out : gmap string ptr) (h : heap S)
    : gmap string ptr * heap S :=
  match raw with
  | [] => (out, h)
  | (k, v) :: raw =>
      let '(p, h) := clone h v in
      clone_all raw (<[k := p]> out) h
  end.

Definition wrap_Snapshot w : World S * gmap string ptr :=
  let '(out, h) := clone_all (map_to_list (Registry.Snapshot (inner w))) ∅ (mem w) in
  (mkWorld (inner w) h (chans w), out).

(** ** What a client can do

    A client reaches the locations in [K] ([Reach]): those it allocated and
    those of the values it was handed.  It may overwrite the structs and arrays
    there at any time, and allocate; and it calls the registry. *)

(** What a struct shows through a pointer: its fields, and the elements of its
    slice (or that the slice is nil). *)
Definition view h p : option (S * option (list string)) :=
  s ← deref h p;
  Some (set_slice s SNil,
        match slice_of s with SNil => None | sl => Some (read_slice h sl) end).

Definition reach (h : heap S) (p : ptr) : gset nat :=
  match p with
  | None => ∅
  | Some l =>
      match cells h !! l with
      | Some s => {[l]} ∪ match slice_arr (slice_of s) with Some a => {[a]} | None => ∅ end
      | None => ∅
      end
  end.

Inductive event : Type :=
| EvClient
| EvAcquire (k : string)
| EvRelease (k : string) (evicted : bool)
| EvRejected (e : error)
| EvAdd (k : string) (v : S * option (list string))
| EvGet (k : string) (got : option (S * option (list string)))
| EvSnapshot (got : gmap string (S * option (list string))).

Inductive step : World S * gset nat → event → World S * gset nat → Prop :=
| StepAlloc w K s :
    (match slice_arr (slice_of s) with Some a => a ∈ K | None => True end) →
    slice_ok (mem w) (slice_of s) →
    step (w, K) EvClient
         (mkWorld (inner w) (alloc_cell (mem w) s).2 (chans w), {[next_loc (mem w)]} ∪ K)
| StepMake w K xs :
    step (w, K) EvClient
         (mkWorld (inner w) (alloc_array (mem w) xs).2 (chans w), {[next_loc (mem w)]} ∪ K)
| StepStore w K l s :
    l ∈ K → is_Some (cells (mem w) !! l) →
    (match slice_arr (slice_of s) with Some a => a ∈ K | None => True end) →
    slice_ok (mem w) (slice_of s) →
    step (w, K) EvClient (mkWorld (inner w) (store (mem w) l s) (chans w), K)
| StepWrite w K a off n xs :
    a ∈ K → slice_ok (mem w) (SArr a off n) → length xs = n →
    step (w, K) EvClient (mkWorld (inner w) (write_slice (mem w) (SArr a off n) xs) (chans w), K)
| StepAcquire w K k w' c :
    wrap_Acquire w k = (w', c) → step (w, K) (EvAcquire k) (w', K)
| StepRelease w K k w' e :
    wrap_Release w k = (w', e) →
    step (w, K) (EvRelease k (bool_decide (entries (inner w') !! k = None))) (w', K)
| StepReject w K p w' e :
    wrap_Add w p = Ret (w', Some e) → step (w, K) (EvRejected e) (w', K)
| StepAdd w K p w' s v :
    wrap_Add w p = Ret (w', None) → deref (mem w) p = Some s → view (mem w) p = Some v →
    step (w, K) (EvAdd (key_of s) v) (w', K)
| StepGet w K k w' p ok :
    wrap_Get w k = (w', (p, ok)) →
    step (w, K) (EvGet k (view (mem w') p)) (w', reach (mem w') p ∪ K)
| StepSnapshot w K w' out :
    wrap_Snapshot w = (w', out) →
    step (w, K) (EvSnapshot (omap (view (mem w')) out))
         (w', ⋃ (reach (mem w') <$> (map_to_list out).*2) ∪ K).

Inductive steps : World S * gset nat → list event → World S * gset nat → Prop :=
| steps_nil s : steps s [] s
| steps_cons s e s' es s'' : step s e s' → steps s' es s'' → steps s (e :: es) s''.

(** The contract: a map from keys to immutable values. *)
Context (normal : S * option (list string) → S * option (list string)).

Definition spec_step (m : gmap string (S * option (list string))) (e : event)
    : gmap string (S * option (list string)) :=
  match e with
  | EvAdd k v => <[k := normal v]> m
  | EvRelease k true => delete k m
  | _ => m
  end.

(** What the client is told, given the contents at that moment. *)
Definition spec_reply (m : gmap string (S * option (list string))) (e : event) : Prop :=
  match e with
  | EvGet k got => got = m !! k
  | EvSnapshot got => got = m
  | _ => True
  end.

Fixpoint spec_replies m (es : list event) : Prop :=
  match es with
  | [] => True
  | e :: es => spec_reply m e ∧ spec_replies (spec_step m e) es
  end.

(** What the registry stores, read through its pointers. *)
Definition contents w : gmap string (S * option (list string)) :=
  omap (λ e, if hasValue e then view (mem w) (value e) else None) (entries (inner w)).

End Wrapper.

(** ** The interface of a normalisation *)

(** [normalise] rewrites one freshly cloned struct in place, and nothing else;
    [normal] is what it does to the view. *)
Class Normalises {S : Type} `{GoStruct S} (key_of : S → string)
    (normalise : heap S → nat → heap S)
    (normal : S * option (list string) → S * option (list string)) : Prop := {
  key_of_set_slice s sl : key_of (set_slice s sl) = key_of s;
  normalise_spec h l s :
    cells h !! l = Some s → slice_ok h (slice_of s) →
    ∃ sl,
      cells (normalise h l) = <[l := set_slice s sl]> (cells h) ∧
      view (normalise h l) (Some l) = normal <$> view h (Some l) ∧
      slice_ok (normalise h l) (slice_of (set_slice s sl)) ∧
      slice_arr (slice_of (set_slice s sl)) = slice_arr (slice_of s) ∧
      (∀ a, slice_arr (slice_of s) ≠ Some a → arrays (normalise h l) !! a = arrays h !! a) ∧
      (∀ sl', slice_ok h sl' → slice_ok (normalise h l) sl') ∧
      next_loc (normalise h l) = next_loc h
}.

(** The packages without a slice field store the clone as it is. *)
Definition no_normalise {S} (h : heap S) (l : nat) : heap S := h.

Lemma no_normalise_ok {S} `{GoStruct S} (key_of : S → string) :
  (∀ s sl, key_of (set_slice s sl) = key_of s) → Normalises key_of no_normalise id.
Proof.
  intros Hk. split; [done|]. intros h l s Hs Hok. exists (slice_of s).
  rewrite set_slice_id, insert_id by done. unfold no_normalise.
  split_and!; try done. by destruct (view h (Some l)).
Qed.

(** The packages with one sort and deduplicate it. *)
Definition normal_sorted {S} (v : S * option (list string)) : S * option (list string) :=
  (v.1, canonical <$> v.2).

Lemma sort_dedup_ok {S} `{GoStruct S} (key_of : S → string) :
  (∀ s sl, key_of (set_slice s sl) = key_of s) → Normalises key_of sort_dedup normal_sorted.
Proof.
  intros Hk. split; [done|]. intros h l s Hs Hok.
  destruct (sort_dedup_spec h l s Hs Hok) as (sl & Hc & Hr & Hsl & Harr & Hfr & Hkeep & Hn).
  exists sl.
  assert (slice_of (set_slice s sl) = sl) as Hset.
  { destruct (slice_of s) as [|a off n] eqn:E.
    - destruct sl; [|done]. by rewrite <- E, set_slice_id.
    - apply slice_of_set. by rewrite E. }
  rewrite Hset. split_and!; try done.
  unfold view, deref. rewrite Hc, lookup_insert_eq, Hs. simpl.
  rewrite Hset, set_slice_twice. unfold normal_sorted. simpl. do 2 f_equal.
  destruct (slice_of s) as [|a off n] eqn:E, sl as [|b off' n']; simpl in Harr; try done.
  simpl in *. by rewrite Hr.
Qed.

Section Isolation.
Context {S : Type} `{GoStruct S}.
Context (validate : heap S → ptr → option error) (key_of : S → string).
Context (normalise : heap S → nat → heap S).
Context (normal : S * option (list string) → S * option (list string)).
Context `{!Normalises key_of normalise normal}.
Implicit Types (w : World S) (p : ptr) (k : string) (h : heap S) (K : gset nat).

(** [h'] differs from [h] only at the locations [K] and at fresh ones. *)
Definition frame K h h' : Prop :=
  (next_loc h ≤ next_loc h')%nat ∧
  ∀ l, l ∉ K → (l < next_loc h)%nat → cells h' !! l = cells h !! l ∧ arrays h' !! l = arrays h !! l.

(** A live pointer whose struct and array are out of reach of [K]. *)
Definition owned K h p : Prop :=
  ∃ l s, p = Some l ∧ cells h !! l = Some s ∧ l ∉ K ∧
         ∀ a, slice_arr (slice_of s) = Some a → a ∉ K.

Lemma frame_refl K h : frame K h h.
Proof. by split. Qed.

Lemma frame_trans K h1 h2 h3 : frame K h1 h2 → frame K h2 h3 → frame K h1 h3.
Proof.
  intros [H1 F1] [H2 F2]. split; [lia|]. intros l Hl Hlt.
  destruct (F1 l Hl Hlt) as [<- <-]. apply F2; [done|lia].
Qed.

Lemma frame_weaken K K' h h' : K ⊆ K' → frame K h h' → frame K' h h'.
Proof. intros HK [Hn F]. split; [done|]. intros l Hl. apply F. set_solver. Qed.

Lemma slice_arr_lt h s l a :
  heap_ok h → cells h !! l = Some s → slice_arr (slice_of s) = Some a → (a < next_loc h)%nat.
Proof.
  intros [Hc Ha] Hs Hsl. destruct (Hc _ _ Hs) as [_ Hok].
  destruct (slice_of s) as [|b off n]; simplify_eq/=. destruct Hok as (xs & Hb & _). eauto.
Qed.

(** A frame keeps what is out of its reach. *)
Lemma frame_view K h h' p :
  heap_ok h → frame K h h' → owned K h p → view h' p = view h p ∧ owned K h' p.
Proof.
  intros Hok [Hn F] (l & s & -> & Hs & Hl & Ha).
  assert (l < next_loc h)%nat as Hlt by (by apply Hok in Hs as [? _]).
  destruct (F l Hl Hlt) as [Hc _]. split; [|exists l, s; by rewrite Hc].
  unfold view, deref. rewrite Hc, Hs. simpl.
  destruct (slice_of s) as [|a off n] eqn:Esl; [done|]. simpl.
  destruct (F a) as [_ ->]; [by apply Ha|eapply slice_arr_lt; eauto; by rewrite Esl|done].
Qed.

Lemma owned_shrink K K' h p :
  heap_ok h → owned K h p → (∀ x, x ∈ K' → x ∈ K ∨ (next_loc h ≤ x)%nat) → owned K' h p.
Proof.
  intros Hok (l & s & -> & Hs & Hl & Ha) HK. exists l, s. split_and!; try done.
  - intros [?|?]%HK; [done|]. apply Hok in Hs as [? _]. lia.
  - intros a Hsl [?|?]%HK; [by eapply Ha|]. pose proof (slice_arr_lt _ _ _ _ Hok Hs Hsl). lia.
Qed.

(** *** Allocation *)

Lemma alloc_cell_ok h s :
  heap_ok h → slice_ok h (slice_of s) →
  heap_ok (alloc_cell h s).2 ∧ frame ∅ h (alloc_cell h s).2.
Proof.
  intros [Hc Ha] Hsl. split; [|split; simpl; [lia|]].
  - split; simpl.
    + intros l s' [[<- <-]|[_ Hs']]%lookup_insert_Some; [split; [lia|by destruct (slice_of s)]|].
      destruct (Hc _ _ Hs') as [? Hok]. split; [lia|by destruct (slice_of s')].
    + intros a xs Hxs. apply Ha in Hxs. lia.
  - intros l _ Hl. rewrite lookup_insert_ne by lia. done.
Qed.

Lemma slice_ok_alloc h xs sl : heap_ok h → slice_ok h sl → slice_ok (alloc_array h xs).2 sl.
Proof.
  intros [_ Ha] Hok. destruct sl as [|b off n]; [done|]. destruct Hok as (ys & Hb & ?).
  exists ys. simpl. rewrite lookup_insert_ne; [done|]. apply Ha in Hb. lia.
Qed.

Lemma alloc_array_ok h xs :
  heap_ok h → heap_ok (alloc_array h xs).2 ∧ frame ∅ h (alloc_array h xs).2.
Proof.
  intros Hok. pose proof Hok as [Hc Ha]. split; [split; simpl|split; simpl; [lia|]].
  - intros l s Hs. destruct (Hc _ _ Hs) as [? Hsl]. split; [lia|].
    by apply slice_ok_alloc.
  - intros a ys [[<- _]|[_ Hys]]%lookup_insert_Some; [lia|]. apply Ha in Hys. lia.
  - intros l _ Hl. by rewrite lookup_insert_ne by lia.
Qed.

(** [Clone]: a fresh struct with a fresh array that shows the same. *)
Lemma clone_ok h p s :
  heap_ok h → deref h p = Some s →
  ∃ l h' sl,
    clone h p = (Some l, h') ∧ heap_ok h' ∧ frame ∅ h h' ∧ view h' (Some l) = view h p ∧
    cells h' !! l = Some (set_slice s sl) ∧ (next_loc h ≤ l)%nat ∧
    ∀ a, slice_arr (slice_of (set_slice s sl)) = Some a → (next_loc h ≤ a)%nat.
Proof.
  intros Hok Hs. unfold clone. rewrite Hs.
  assert (slice_ok h (slice_of s)) as Hsl.
  { unfold deref in Hs. destruct p as [l|]; [|done]. by apply Hok in Hs as [_ ?]. }
  destruct (slice_of s) as [|a off n] eqn:Esl.
  - destruct (alloc_cell_ok h s Hok) as [Hok' Hf]; [by rewrite Esl|].
    exists (next_loc h), (alloc_cell h s).2, SNil. rewrite <- Esl, set_slice_id, Esl.
    split_and!; try done; [|apply lookup_insert_eq].
    unfold view. rewrite Hs. simpl. rewrite lookup_insert_eq. simpl. by rewrite Esl.
  - simpl. set (xs := take n (drop off (default [] (arrays h !! a)))).
    destruct (alloc_array_ok h xs Hok) as [Hok1 Hf1].
    set (h1 := (alloc_array h xs).2) in *.
    set (sl := SArr (next_loc h) 0 n).
    assert (slice_of (set_slice s sl) = sl) as Hset by (apply slice_of_set; by rewrite Esl).
    assert (length xs = n) as Hlen by (apply (read_slice_length h (SArr a off n)), Hsl).
    destruct (alloc_cell_ok h1 (set_slice s sl) Hok1) as [Hok2 Hf2].
    { rewrite Hset. exists xs. simpl. rewrite lookup_insert_eq. split; [done|lia]. }
    exists (Datatypes.S (next_loc h)), (alloc_cell h1 (set_slice s sl)).2, sl. rewrite Hset.
    split_and!; try done.
    + by eapply frame_trans.
    + unfold view. rewrite Hs. simpl. rewrite lookup_insert_eq. simpl.
      rewrite Hset, set_slice_twice, Esl. simpl. rewrite lookup_insert_eq. simpl.
      rewrite drop_0, take_ge by lia. done.
    + apply lookup_insert_eq.
    + lia.
    + intros b [= <-]. lia.
Qed.

(** The copy [Add] stores: normalised, fresh, under the key of the argument. *)
Lemma stored_ok h p s :
  heap_ok h → deref h p = Some s →
  ∃ l h1 h' s',
    clone h p = (Some l, h1) ∧ h' = normalise h1 l ∧ cells h' !! l = Some s' ∧
    key_of s' = key_of s ∧ heap_ok h' ∧ frame ∅ h h' ∧
    view h' (Some l) = normal <$> view h p ∧ (next_loc h ≤ l)%nat ∧
    ∀ a, slice_arr (slice_of s') = Some a → (next_loc h ≤ a)%nat.
Proof.
  intros Hok Hs. destruct (clone_ok h p s Hok Hs) as (l & h1 & sl & Hcl & Hok1 & Hf & Hv & Hc & Hl & Ha).
  assert (slice_ok h1 (slice_of (set_slice s sl))) as Hsl by (by apply Hok1 in Hc as [_ ?]).
  destruct (normalise_spec h1 l _ Hc Hsl) as (sl' & Hcells & Hview & Hok' & Harr & Hfr & Hkeep & Hn).
  exists l, h1, (normalise h1 l), (set_slice (set_slice s sl) sl').
  rewrite Hcells, lookup_insert_eq, !key_of_set_slice, Hview, Hv, Harr.
  split_and!; try done.
  - destruct Hok1 as [Hc1 Ha1]. split; rewrite Hn.
    + intros l' s'. rewrite Hcells. intros [[<- <-]|[_ Hs']]%lookup_insert_Some.
      * split; [by eapply Hc1|done].
      * destruct (Hc1 _ _ Hs') as [? ?]. eauto.
    + intros a xs Hxs.
      destruct (decide (slice_arr (slice_of (set_slice s sl)) = Some a)) as [E|E].
      * by eapply slice_arr_lt.
      * rewrite Hfr in Hxs by done. eauto.
  - destruct Hf as [Hn1 F]. split; [lia|]. intros l' _ Hlt. rewrite Hcells.
    destruct (F l') as [<- <-]; [set_solver|done|].
    rewrite lookup_insert_ne by lia. split; [done|]. apply Hfr. intros E.
    apply Ha in E. lia.
Qed.

(** *** The invariant *)

(** After at most [n] calls: the registry is well formed, the heap too, the
    client only reaches what exists, and nothing the registry stores. *)
Record good (n : Z) (s : World S * gset nat) : Prop := {
  good_wf : wf n (inner s.1) (chans s.1);
  good_heap : heap_ok (mem s.1);
  good_known x : x ∈ s.2 → (x < next_loc (mem s.1))%nat;
  good_owned k p : Registry.Snapshot (inner s.1) !! k = Some p → owned s.2 (mem s.1) p
}.

Lemma good_mono n m s : good n s → n ≤ m → good m s.
Proof. intros [] ?. split; [by eapply wf_mono|done..]. Qed.

(** A step of the heap that stays in the client's reach, the client perhaps
    getting new locations, changes nothing the registry stores. *)
Lemma good_frame n w K h' K' :
  good n (w, K) → heap_ok h' → frame K (mem w) h' →
  (∀ x, x ∈ K' → (x ∈ K ∨ next_loc (mem w) ≤ x)%nat ∧ (x < next_loc h')%nat) →
  good n (mkWorld (inner w) h' (chans w), K') ∧
  contents (mkWorld (inner w) h' (chans w)) = contents w.
Proof.
  intros [W Hh HK Ho] Hh' Hf HK'. simpl in *.
  assert (∀ k p, Registry.Snapshot (inner w) !! k = Some p →
          view h' p = view (mem w) p ∧ owned K' h' p) as Hown.
  { intros k p Hp. specialize (Ho k p Hp).
    destruct (frame_view K _ h' p Hh Hf Ho) as [Hv _]. split; [done|].
    assert (owned K' (mem w) p) as Ho'
      by (eapply owned_shrink; [done..|]; intros x Hx; by destruct (HK' x Hx)).
    destruct Ho as (l & s & -> & Hs & Hl & Ha), Ho' as (l' & s' & [= <-] & Hs' & Hl' & Ha').
    assert (l < next_loc (mem w))%nat as Hlt by (by apply Hh in Hs as [? _]).
    destruct Hf as [_ F]. destruct (F l Hl Hlt) as [Hc _].
    exists l, s'. by rewrite Hc. }
  split.
  - split; simpl; [done|done| |]; [intros x Hx; by destruct (HK' x Hx)|].
    intros k p Hp. by eapply Hown.
  - unfold contents. simpl. apply map_eq. intros k. rewrite !lookup_omap.
    pose proof (Hown k) as Hk. unfold Registry.Snapshot in Hk. setoid_rewrite lookup_omap in Hk.
    destruct (entries (inner w) !! k) as [e|]; simpl in *; [|done].
    destruct (hasValue e); [|done]. simpl in *. by destruct (Hk (value e)).
Qed.

(** The contents through the registry's own snapshot. *)
Lemma contents_lookup w k :
  contents w !! k = Registry.Snapshot (inner w) !! k ≫= view (mem w).
Proof.
  unfold contents, Registry.Snapshot. rewrite !lookup_omap.
  destruct (entries (inner w) !! k) as [e|]; simpl; [|done]. by destruct (hasValue e).
Qed.

Lemma Snapshot_abs n r c k :
  wf n r c → Registry.Snapshot r !! k = (Registry.abs (V := option nat) r k).2.
Proof. intros W. by destruct (reads_abs (None : ptr) n r c k W) as (_ & _ & _ & ?). Qed.

(** *** One step of the client *)

Lemma store_ok K h l s :
  heap_ok h → l ∈ K → is_Some (cells h !! l) → slice_ok h (slice_of s) →
  heap_ok (store h l s) ∧ frame K h (store h l s).
Proof.
  intros [Hc Ha] Hl [s0 Hs0] Hsl. split; [split; simpl; [|done]|split; simpl; [lia|]].
  - intros l' s' [[<- <-]|[_ Hs']]%lookup_insert_Some.
    + destruct (Hc _ _ Hs0). split; [done|by destruct (slice_of s)].
    + destruct (Hc _ _ Hs'). split; [done|by destruct (slice_of s')].
  - intros l' Hl' _. split; [|done]. rewrite lookup_insert_ne; [done|set_solver].
Qed.

Lemma write_ok K h a off n xs :
  heap_ok h → a ∈ K → slice_ok h (SArr a off n) → length xs = n →
  heap_ok (write_slice h (SArr a off n) xs) ∧ frame K h (write_slice h (SArr a off n) xs).
Proof.
  intros [Hc Ha] HK Hok Hl. split; [split|split; simpl; [lia|]].
  - intros l s Hs. destruct (Hc _ _ Hs) as [? Hsl]. split; [done|]. by apply slice_ok_write.
  - simpl. intros b ys [[<- _]|[_ Hb]]%lookup_insert_Some; [|by eapply Ha].
    destruct Hok as (zs & Hz & _). by eapply Ha.
  - intros l Hl' _. split; [done|]. rewrite lookup_insert_ne; [done|set_solver].
Qed.

(** A call on the registry alone, the heap untouched. *)
Lemma good_exec n w K o r' c' rep :
  good n (w, K) → 0 ≤ n < int64_max → exec None (inner w, chans w) o = Ret (r', c', rep) →
  wf (n + 1) r' c' ∧
  ∀ k, Registry.Snapshot r' !! k = ((Spec.step (Registry.abs (inner w)) o).1 k).2.
Proof.
  intros [W _ _ _] Hn Hx. simpl in W.
  destruct (exec_simulates None n (inner w) (chans w) o W Hn) as (r1 & c1 & p1 & Hx1 & W1 & Ha & _).
  rewrite Hx in Hx1. simplify_eq/=. split; [done|]. intros k.
  rewrite (Snapshot_abs _ _ _ _ W1). by rewrite Ha.
Qed.

(** What the client does itself. *)
Lemma client_ok n w K h' K' :
  good n (w, K) → heap_ok h' → frame K (mem w) h' →
  (K' = K ∨ K' = {[next_loc (mem w)]} ∪ K ∧ (next_loc (mem w) < next_loc h')%nat) →
  good (n + 1) (mkWorld (inner w) h' (chans w), K') ∧
  contents (mkWorld (inner w) h' (chans w)) = contents w ∧ True.
Proof.
  intros G Hh' Hf HK'. destruct (good_frame n w K h' K' G Hh' Hf) as [G' Hc].
  - intros x Hx. destruct G as [_ _ HK _], Hf as [Hn _]. simpl in *.
    destruct HK' as [->|[-> ?]]; [specialize (HK x Hx); split; [by left|lia]|].
    apply elem_of_union in Hx as [->%elem_of_singleton|Hx]; [lia|].
    specialize (HK x Hx). split; [by left|lia].
  - split; [eapply good_mono; [done|lia]|done].
Qed.

Lemma acquire_ok n w K k w' c :
  good n (w, K) → 0 ≤ n < int64_max → wrap_Acquire w k = (w', c) →
  good (n + 1) (w', K) ∧ contents w' = contents w ∧ True.
Proof.
  intros G Hn Hx. unfold wrap_Acquire in Hx.
  destruct (Registry.Acquire None (inner w) (chans w) k) as [[r' c'] ch] eqn:E. simplify_eq.
  destruct (good_exec n w K (OpAcquire k) r' c' (RChan c) G Hn) as [W' Hs]; [simpl; by rewrite E|].
  assert (∀ k', Registry.Snapshot r' !! k' = Registry.Snapshot (inner w) !! k') as Hsnap.
  { intros k'. destruct G as [W _ _ _]. rewrite Hs, (Snapshot_abs _ _ _ _ W). simpl.
    unfold Spec.upd. by case_decide; subst. }
  destruct G as [W Hh HK Ho]. simpl in *. split_and!; [|apply map_eq; intros k'|done].
  - split; simpl; [done|done|done|]. intros k' p. rewrite Hsnap. apply Ho.
  - by rewrite !contents_lookup, Hsnap.
Qed.

Lemma release_ok n w K k w' e :
  good n (w, K) → 0 ≤ n < int64_max → wrap_Release w k = (w', e) →
  good (n + 1) (w', K) ∧
  contents w' = spec_step normal (contents w)
                  (EvRelease k (bool_decide (entries (inner w') !! k = None))) ∧ True.
Proof.
  intros G Hn Hx. unfold wrap_Release in Hx.
  destruct (Registry.Release (inner w) k) as [r' u] eqn:E. simplify_eq. simpl.
  destruct (good_exec n w K (OpRelease k) r' (chans w) (RErr e) G Hn) as [W' Hs]; [simpl; by rewrite E|].
  assert (∀ k', Registry.Snapshot r' !! k' =
            if bool_decide (entries r' !! k = None)
            then delete k (Registry.Snapshot (inner w)) !! k' else Registry.Snapshot (inner w) !! k')
    as Hsnap.
  { intros k'. unfold Registry.Snapshot. rewrite lookup_delete, !lookup_omap.
    unfold Registry.Release in E. destruct (entries (inner w) !! k) as [en|] eqn:Ek.
    2:{ simplify_eq. rewrite Ek, bool_decide_true by done. case_decide; subst; by rewrite ?Ek. }
    destruct (refs en <=? 0); [simplify_eq; by rewrite Ek, bool_decide_false|].
    destruct (_ =? 0); simplify_eq; simpl.
    - rewrite lookup_delete_eq, bool_decide_true by done.
      case_decide; subst; by rewrite ?lookup_delete_eq, ?lookup_delete_ne, ?lookup_insert_ne.
    - rewrite lookup_insert_eq, bool_decide_false by done.
      destruct (decide (k = k')) as [<-|]; by rewrite ?lookup_insert_eq, ?lookup_insert_ne, ?Ek. }
  destruct G as [W Hh HK Ho]. simpl in *. split_and!; [|apply map_eq; intros k'|done].
  - split; simpl; [done|done|done|]. intros k' p. rewrite Hsnap. case_match; [|by apply Ho].
    intros [_ ?]%lookup_delete_Some. by eapply Ho.
  - rewrite contents_lookup, Hsnap. simpl. case_match; rewrite ?lookup_delete, contents_lookup; [|done].
    by case_decide.
Qed.

Lemma reach_lt h p x : heap_ok h → x ∈ reach h p → (x < next_loc h)%nat.
Proof.
  intros Hok Hx. destruct p as [l|]; [|set_solver]. unfold reach in Hx.
  destruct (cells h !! l) as [s|] eqn:Hs; [|set_solver].
  apply elem_of_union in Hx as [->%elem_of_singleton|Hx]; [by apply Hok in Hs as [? _]|].
  destruct (slice_arr (slice_of s)) as [a|] eqn:Ha; [|set_solver].
  apply elem_of_singleton in Hx as ->. by eapply slice_arr_lt.
Qed.

(** Handing out fresh locations [F]. *)
Lemma hand_out n w K h' (F : gset nat) :
  good n (w, K) → heap_ok h' → frame ∅ (mem w) h' →
  (∀ x, x ∈ F → (next_loc (mem w) ≤ x < next_loc h')%nat) →
  good (n + 1) (mkWorld (inner w) h' (chans w), F ∪ K) ∧
  contents (mkWorld (inner w) h' (chans w)) = contents w.
Proof.
  intros G Hh' Hf HF. destruct (good_frame n w K h' (F ∪ K) G Hh') as [G' Hc].
  - eapply frame_weaken; [|done]. set_solver.
  - destruct G as [_ _ HK _], Hf as [? _]. simpl in *.
    intros x [Hx%HF|Hx]%elem_of_union; [split; [right|]; lia|].
    specialize (HK x Hx). split; [by left|lia].
  - split; [eapply good_mono; [done|lia]|done].
Qed.

Lemma get_ok n w K k w' p ok :
  good n (w, K) → wrap_Get w k = (w', (p, ok)) →
  good (n + 1) (w', reach (mem w') p ∪ K) ∧ contents w' = contents w ∧
  view (mem w') p = contents w !! k.
Proof.
  intros G Hx. unfold wrap_Get in Hx.
  assert (Registry.Snapshot (inner w) !! k =
          (let '(v, b) := Registry.Get None (inner w) k in if b : bool then Some v else None)) as Hs.
  { unfold Registry.Snapshot, Registry.Get. rewrite lookup_omap.
    destruct (entries (inner w) !! k) as [e|]; simpl; [|done]. by destruct (hasValue e). }
  rewrite contents_lookup, Hs.
  destruct (Registry.Get None (inner w) k) as [v []] eqn:E; simpl in Hx; simplify_eq/=.
  - pose proof G as [W Hh HK Ho]. simpl in *.
    destruct (Ho k v Hs) as (l & s & -> & Hl & _).
    destruct (clone_ok (mem w) (Some l) s Hh Hl) as (l' & h' & sl & Hcl & Hh' & Hf & Hv & Hc & Hlt & Ha).
    rewrite Hcl in Hx. simplify_eq/=. rewrite Hc, Hv.
    destruct (hand_out n w K h' (reach h' (Some l')) G Hh' Hf) as [G' Hc'].
    { intros x Hx. split; [|by apply (reach_lt h' (Some l'))]. simpl in Hx. rewrite Hc in Hx.
      apply elem_of_union in Hx as [->%elem_of_singleton|Hx]; [done|].
      destruct (slice_arr _) as [a|] eqn:Ea; [|set_solver].
      apply elem_of_singleton in Hx as ->. by apply Ha. }
    simpl in G'. by rewrite Hc in G'.
  - rewrite union_empty_l_L. split; [eapply good_mono; [done|lia]|done].
Qed.

Lemma reject_ok w p w' e : wrap_Add validate key_of normalise w p = Ret (w', Some e) → w' = w.
Proof.
  unfold wrap_Add. intros Hx. destruct (validate (mem w) p); [by simplify_eq|].
  destruct (clone (mem w) p) as [[l|] h]; [|done]. destruct (cells (normalise h l) !! l); [|done].
  unfold mbind, outcome_bind in Hx. destruct (Registry.Add _ _ _ _ _) as [[]|]; simplify_eq.
Qed.

Lemma add_ok n w K p w' s v :
  good n (w, K) → 0 ≤ n < int64_max →
  wrap_Add validate key_of normalise w p = Ret (w', None) →
  deref (mem w) p = Some s → view (mem w) p = Some v →
  good (n + 1) (w', K) ∧ contents w' = <[key_of s := normal v]> (contents w).
Proof.
  intros G Hn Hx Hs Hv. pose proof G as [W Hh HK Ho]. simpl in *.
  destruct (stored_ok (mem w) p s Hh Hs)
    as (l & h1 & h' & s' & Hcl & Eh & Hc & Hkey & Hh' & Hf & Hview & Hl & Ha).
  unfold wrap_Add in Hx. destruct (validate (mem w) p); [done|].
  rewrite Hcl, <- Eh, Hc, Hkey in Hx. unfold mbind, outcome_bind in Hx.
  destruct (Registry.Add _ _ _ _ _) as [[r' c']|] eqn:E; simplify_eq.
  destruct (good_exec n w K (OpAdd (key_of s) (Some l)) r' c' RUnit G Hn) as [W' Hsnap].
  { simpl. by rewrite E. }
  rewrite Hv in Hview. simpl in Hview.
  assert (∀ k p', Registry.Snapshot (inner w) !! k = Some p' →
          view (normalise h1 l) p' = view (mem w) p' ∧ owned K (normalise h1 l) p') as Hold.
  { intros k p' Hp. apply frame_view; [done| |by eapply Ho].
    eapply frame_weaken; [|done]. set_solver. }
  assert (∀ k, Registry.Snapshot r' !! k =
          if decide (k = key_of s) then Some (Some l) else Registry.Snapshot (inner w) !! k) as Hr.
  { intros k. rewrite Hsnap, (Snapshot_abs _ _ _ _ W). simpl. unfold Spec.upd. by case_decide. }
  split.
  - split; simpl; [done|done| |].
    + intros x Hx. destruct Hf as [? _]. specialize (HK x Hx). lia.
    + intros k p'. rewrite Hr. case_decide; intros E'; [|by eapply Hold].
      simplify_eq. exists l, s'. split_and!; try done.
      * intros Hx%HK. lia.
      * intros a Ea Hx%HK. specialize (Ha a Ea). lia.
  - apply map_eq. intros k. rewrite contents_lookup. simpl. rewrite Hr, lookup_insert.
    destruct (decide (k = key_of s)) as [->|].
    + by rewrite decide_True.
    + rewrite decide_False by done. rewrite contents_lookup.
      destruct (Registry.Snapshot (inner w) !! k) as [p'|] eqn:Ep; [|done]. simpl.
      by eapply Hold.
Qed.

(** [Add] of a live struct that validates returns: no channel is closed twice. *)
Lemma add_returns n w K p s :
  good n (w, K) → 0 ≤ n < int64_max → validate (mem w) p = None → deref (mem w) p = Some s →
  ∃ w', wrap_Add validate key_of normalise w p = Ret (w', None).
Proof.
  intros [W Hh _ _] Hn Hok Hs. simpl in *.
  destruct (stored_ok (mem w) p s Hh Hs)
    as (l & h1 & h' & s' & Hcl & -> & Hc & Hkey & _).
  unfold wrap_Add. rewrite Hok, Hcl, Hc, Hkey.
  destruct (exec_simulates None n _ _ (OpAdd (key_of s) (Some l)) W Hn) as (r' & c' & rep & Hx & _).
  simpl in Hx. unfold mbind, outcome_bind in *.
  destruct (Registry.Add _ _ _ _ _) as [[]|]; [by eexists|done].
Qed.

(** The clones of a snapshot. *)
Lemma clone_all_ok raw out h out' h' :
  heap_ok h → (∀ k p, (k, p) ∈ raw → is_Some (deref h p)) →
  (∀ k p, out !! k = Some p → owned ∅ h p) → NoDup raw.*1 →
  clone_all raw out h = (out', h') →
  heap_ok h' ∧ frame ∅ h h' ∧
  (∀ k p, (k, p) ∈ raw → ∃ p', out' !! k = Some p' ∧ view h' p' = view h p ∧
     ∀ x, x ∈ reach h' p' → (next_loc h ≤ x)%nat) ∧
  (∀ k, k ∉ raw.*1 → out' !! k = out !! k).
Proof.
  revert out h. induction raw as [|[k p] raw IH]; intros out h Hok Hlive Hout Hnd Hx; simpl in *.
  { simplify_eq. split_and!; [done|apply frame_refl|by intros ?? ?%elem_of_nil|done]. }
  apply NoDup_cons in Hnd as [Hk Hnd].
  destruct (Hlive k p) as [s Hs]; [set_solver|].
  destruct (clone_ok h p s Hok Hs) as (l & h1 & sl & Hcl & Hok1 & Hf1 & Hv1 & Hc1 & Hl & Ha).
  rewrite Hcl in Hx.
  assert (owned ∅ h1 (Some l)) as Hown by (exists l, (set_slice s sl); set_solver).
  assert (∀ p0 s0, deref h p0 = Some s0 → owned ∅ h p0) as Hlo.
  { intros [l0|] s0; [|done]. intros H0. exists l0, s0. set_solver. }
  destruct (IH (<[k := Some l]> out) h1) as (Hok' & Hf & Hin & Hnot); auto.
  - intros k0 p0 Hp. destruct (Hlive k0 p0) as [s0 Hs0]; [set_solver|].
    destruct (frame_view ∅ h h1 p0 Hok Hf1) as [_ (l' & s' & -> & Hs' & _)]; [by eapply Hlo|].
    by eexists.
  - intros k0 p0 [[<- <-]|[_ Hp]]%lookup_insert_Some; [done|].
    eapply frame_view; [exact Hok|exact Hf1|by eapply Hout].
  - split_and!; [done|by eapply frame_trans| |].
    + intros k0 p0 [[= -> ->]|Hp]%elem_of_cons.
      * exists (Some l). rewrite Hnot, lookup_insert_eq by done. split; [done|].
        destruct (frame_view ∅ h1 h' (Some l) Hok1 Hf Hown) as [Hv (l' & s' & [= <-] & Hs' & _)].
        split; [by rewrite Hv|]. simpl. destruct Hf as [_ F].
        destruct (F l) as [Hcl' _]; [set_solver|by apply Hok1 in Hc1 as [? _]|].
        rewrite Hcl', Hc1. intros x [->%elem_of_singleton|Hx']%elem_of_union; [done|].
        destruct (slice_arr _) as [a|] eqn:Ea; [|set_solver].
        apply elem_of_singleton in Hx' as ->. by apply Ha.
      * destruct (Hin k0 p0 Hp) as (p' & Hp' & Hv & Hr). exists p'. split; [done|].
        destruct (Hlive k0 p0) as [s0 Hs0]; [set_solver|].
        destruct (frame_view ∅ h h1 p0 Hok Hf1) as [Hv0 _]; [by eapply Hlo|].
        split; [by rewrite Hv, Hv0|]. intros x Hx'. destruct Hf1 as [? _].
        specialize (Hr x Hx'). lia.
    + intros k0 Hk0. apply not_elem_of_cons in Hk0 as [? ?].
      rewrite Hnot by done. by rewrite lookup_insert_ne.
Qed.

Lemma elem_of_reaches h (ps : list ptr) x :
  x ∈ ⋃ (reach h <$> ps) ↔ ∃ p, p ∈ ps ∧ x ∈ reach h p.
Proof.
  rewrite elem_of_union_list. setoid_rewrite list_elem_of_fmap. naive_solver.
Qed.

Lemma snapshot_ok n w K w' out :
  good n (w, K) → wrap_Snapshot w = (w', out) →
  good (n + 1) (w', ⋃ (reach (mem w') <$> (map_to_list out).*2) ∪ K) ∧
  contents w' = contents w ∧ omap (view (mem w')) out = contents w.
Proof.
  intros G Hx. pose proof G as [W Hh HK Ho]. simpl in *. unfold wrap_Snapshot in Hx.
  set (snap := Registry.Snapshot (inner w)) in *.
  destruct (clone_all (map_to_list snap) ∅ (mem w)) as [o h'] eqn:E. simplify_eq/=.
  destruct (clone_all_ok (map_to_list snap) ∅ (mem w) out h') as (Hh' & Hf & Hin & Hnot); auto.
  { intros k p Hp%elem_of_map_to_list. destruct (Ho k p Hp) as (l & s & -> & Hs & _). by eexists. }
  { intros k p Hp. by rewrite lookup_empty in Hp. }
  { apply NoDup_fst_map_to_list. }
  assert (∀ k p, out !! k = Some p → ∃ q, snap !! k = Some q ∧ view h' p = view (mem w) q ∧
            ∀ x, x ∈ reach h' p → (next_loc (mem w) ≤ x)%nat) as Hout.
  { intros k p Hp. destruct (snap !! k) as [q|] eqn:Eq.
    - destruct (Hin k q) as (p' & Hp' & Hv & Hr); [by apply elem_of_map_to_list|].
      simplify_eq. eauto.
    - rewrite Hnot in Hp; [by rewrite lookup_empty in Hp|].
      intros ([k' q'] & -> & Hq%elem_of_map_to_list)%list_elem_of_fmap. simpl in *. congruence. }
  destruct (hand_out n w K h' (⋃ (reach h' <$> (map_to_list out).*2)) G Hh' Hf) as [G' Hc'].
  { intros x (p & ([k p'] & -> & Hp%elem_of_map_to_list)%list_elem_of_fmap & Hx)%elem_of_reaches.
    simpl in *. destruct (Hout k p' Hp) as (q & _ & _ & Hr). split; [by apply Hr|by eapply reach_lt]. }
  split_and!; [done|done|]. apply map_eq. intros k. rewrite lookup_omap, contents_lookup. fold snap.
  destruct (out !! k) as [p|] eqn:Ep; simpl.
  - destruct (Hout k p Ep) as (q & -> & Hv & _). by rewrite Hv.
  - destruct (snap !! k) as [q|] eqn:Eq; [|done].
    destruct (Hin k q) as (p' & Hp' & _); [by apply elem_of_map_to_list|]. congruence.
Qed.

(** One step keeps the invariant and does what the contract says. *)
Lemma step_ok n w K e w' K' :
  good n (w, K) → 0 ≤ n < int64_max →
  step validate key_of normalise (w, K) e (w', K') →
  good (n + 1) (w', K') ∧ contents w' = spec_step normal (contents w) e ∧
  spec_reply (contents w) e.
Proof.
  intros G Hn Hst. pose proof G as [W Hh HK Ho]. simpl in *.
  inversion Hst; subst; clear Hst; simpl.
  - destruct (alloc_cell_ok (mem w) s Hh) as [Hh' Hf]; [done|].
    apply (client_ok n w K); [done|done|eapply frame_weaken; [|done]; set_solver|right; simpl; split; [done|lia]].
  - destruct (alloc_array_ok (mem w) xs Hh) as [Hh' Hf].
    apply (client_ok n w K); [done|done|eapply frame_weaken; [|done]; set_solver|right; simpl; split; [done|lia]].
  - destruct (store_ok K' (mem w) l s) as [Hh' Hf]; auto. by apply (client_ok n w K'); auto.
  - destruct (write_ok K' (mem w) a off (length xs) xs) as [Hh' Hf]; auto. by apply (client_ok n w K'); auto.
  - by eapply acquire_ok.
  - by eapply release_ok.
  - match goal with Hx : wrap_Add _ _ _ _ _ = _ |- _ => apply reject_ok in Hx as -> end.
    split; [eapply good_mono; [done|lia]|done].
  - destruct (add_ok n w K' p w' s v) as [? ?]; auto.
  - by eapply get_ok.
  - by eapply snapshot_ok.
Qed.

Lemma steps_ok n s es s' :
  good n s → 0 ≤ n → n + Z.of_nat (length es) ≤ int64_max →
  steps validate key_of normalise s es s' →
  good (n + Z.of_nat (length es)) s' ∧
  contents s'.1 = fold_left (spec_step normal) es (contents s.1) ∧
  spec_replies normal (contents s.1) es.
Proof.
  intros G H0 Hn Hst. revert n G H0 Hn.
  induction Hst as [s|[w K] e [w1 K1] es s'' Hs Hst IH]; intros n G H0 Hn.
  - simpl. split_and!; [eapply good_mono; [done|lia]|done|done].
  - cbn [length] in Hn. destruct (step_ok n w K e w1 K1 G) as (G1 & Hc & Hr); [lia|done|].
    destruct (IH (n + 1) G1) as (G2 & Hc2 & Hr2); [lia|lia|]. simpl in *.
    rewrite Hc in Hc2, Hr2. split_and!; [eapply good_mono; [done|lia]|done|done|done].
Qed.

(** A fresh registry on any heap, the client reaching all of it. *)
Lemma good_new nm h K :
  heap_ok h → (∀ x, x ∈ K → (x < next_loc h)%nat) → good 0 (wrap_New nm h no_chans, K).
Proof.
  intros Hh HK. split; simpl; [apply wf_new|done|done|].
  intros k p Hp. unfold Registry.Snapshot in Hp. by rewrite lookup_omap in Hp.
Qed.

(** The contract of a typed registry, for a client that does what it likes with
    every struct and slice it can reach. *)
Definition isolated (nm : string) : Prop :=
  ∀ h K es w K',
    heap_ok h → (∀ x, x ∈ K → (x < next_loc h)%nat) → Z.of_nat (length es) < int64_max →
    steps validate key_of normalise (wrap_New nm h no_chans, K) es (w, K') →
    contents w = fold_left (spec_step normal) es ∅ ∧
    spec_replies normal ∅ es ∧
    (∀ p, validate (mem w) p = None → is_Some (deref (mem w) p) →
       ∃ w', wrap_Add validate key_of normalise w p = Ret (w', None)).

Lemma isolation nm : isolated nm.
Proof.
  intros h K es w K' Hh HK Hn Hst.
  destruct (steps_ok 0 _ es (w, K') (good_new nm h K Hh HK)) as (G & Hc & Hr); [lia|lia|done|].
  split_and!; [done|done|]. intros p Hok [s Hs]. eapply add_returns; [done|lia|done|done].
Qed.

End Isolation.
