(* ===== verification/RegVnet.v ===== *)
(** * The VNET registry

    [src/src/FM/pkg/registry/vnet/vnet.go]: the state of a VNET, its
    validation, and the operations of [VnetRegistry], which stores the peer
    list sorted and deduplicated. *)

From S2P Require Import Prelude FmTypes FmErrors Registry GoHeap TypedRegistry.

Record VnetState : Type := mkVnet {
  VnetID : FmTypes.VnetID;
  VNI : Z;
  PeerVnetIDs : slice;
  SpecRevision : FmTypes.SpecRevision;
  LastUpdated : Time
}.

#[export] Instance VnetState_eq_dec : EqDecision VnetState.
Proof. unfold FmTypes.VnetID, FmTypes.SpecRevision. solve_decision. Defined.

Definition set_peers (v : VnetState) (sl : slice) : VnetState :=
  mkVnet (VnetID v) (VNI v) sl (SpecRevision v) (LastUpdated v).

#[export] Instance VnetState_struct : GoStruct VnetState.
Proof. by refine {| slice_of := PeerVnetIDs; set_slice := set_peers |}; try done; intros []. Defined.

Definition Clone (h : heap VnetState) (v : ptr) : ptr * heap VnetState := clone h v.

Fixpoint validate_peers (vid : string) (i : Z) (peers : list string) : option error :=
  match peers with
  | [] => None
  | p :: peers =>
      match ValidateID p with
      | Some err => Some (Wrapf ("vnet: PeerVnetIDs[" +:+ Itoa i +:+ "]: ") err "")
      | None =>
          if decide (p = vid)
          then Some (Errorf ("vnet: self-peer not allowed (VnetID=" +:+ vid +:+ ")"))
          else validate_peers vid (i + 1) peers
      end
  end.

Definition validate (h : heap VnetState) (p : ptr) : option error :=
  match deref h p with
  | None => Some (Errorf "vnet: nil VnetState")
  | Some v =>
      match ValidateID (VnetID v) with
      | Some err => Some (Wrapf "vnet: VnetID: " err "")
      | None =>
          if VNI v =? 0 then Some (Errorf "vnet: VNI=0 reserved (means unassigned)")
          else validate_peers (VnetID v) 0 (read_slice h (PeerVnetIDs v))
      end
  end.

Definition sortDedupPeers (h : heap VnetState) (s : nat) : heap VnetState := sort_dedup h s.

Definition VnetRegistry : Type := World VnetState.

Definition New : heap VnetState → ChanStore → VnetRegistry := wrap_New "vnet".
Definition Name : VnetRegistry → string := wrap_Name.
Definition Acquire : VnetRegistry → string → VnetRegistry * nat := wrap_Acquire.
Definition Release : VnetRegistry → string → VnetRegistry * option (UnderflowError string) :=
  wrap_Release.
Definition Add : VnetRegistry → ptr → outcome (VnetRegistry * option error) :=
  wrap_Add validate VnetID sortDedupPeers.
Definition Get : VnetRegistry → string → VnetRegistry * (ptr * bool) := wrap_Get.
Definition Ready : VnetRegistry → string → bool := wrap_Ready.
Definition Refcount : VnetRegistry → string → Z := wrap_Refcount.
Definition Len : VnetRegistry → Z := wrap_Len.
Definition Snapshot : VnetRegistry → VnetRegistry * gmap string ptr := wrap_Snapshot.

(** ** Theorems *)

#[export] Instance VnetState_normalises : Normalises VnetID sortDedupPeers normal_sorted.
Proof. by apply sort_dedup_ok. Qed.

Lemma validate_peers_None vid i peers :
  validate_peers vid i peers = None ↔ ∀ p, p ∈ peers → valid_id p ∧ p ≠ vid.
Proof.
  revert i. induction peers as [|p peers IH]; intros i; simpl.
  { split; [by intros _ p ?%elem_of_nil|done]. }
  destruct (ValidateID p) eqn:E.
  - split; [done|]. intros Hall. destruct (Hall p) as [Hv%ValidateID_None _]; [set_solver|congruence].
  - apply ValidateID_None in E. destruct (decide (p = vid)) as [->|Hne].
    + split; [done|]. intros Hall. destruct (Hall vid); [set_solver|done].
    + rewrite IH. setoid_rewrite elem_of_cons. naive_solver.
Qed.

(** [validate] accepts exactly the VNETs the comment promises: the ID is
    valid, the VNI assigned, every peer ID valid and none the VNET itself. *)
Theorem vnet_validate_spec (h : heap VnetState) (p : ptr) :
  validate h p = None ↔
  ∃ v, deref h p = Some v ∧ valid_id (VnetID v) ∧ VNI v ≠ 0 ∧
    ∀ q, q ∈ read_slice h (PeerVnetIDs v) → valid_id q ∧ q ≠ VnetID v.
Proof.
  unfold validate. destruct (deref h p) as [v|]; [|naive_solver].
  destruct (ValidateID (VnetID v)) eqn:E.
  - split; [done|]. intros (v' & [= <-] & Hv%ValidateID_None & _). congruence.
  - apply ValidateID_None in E. destruct (VNI v =? 0) eqn:Ev; go_bool.
    + naive_solver.
    + rewrite validate_peers_None. naive_solver.
Qed.

(** C11 A client cannot corrupt the VNET registry. Whatever it does with the
    structs and slices it allocated, passed to [Add] or got from [Get] and
    [Snapshot], the registry contains for each key the value that was last
    added and not evicted since, as it was when it was added, with its peers in
    canonical form; [Get] and [Snapshot] return exactly that; and [Add] of a
    valid struct never panics. *)
Theorem vnet_isolation (h : heap VnetState) (K : gset nat) (es : list event) (w : VnetRegistry)
    (K' : gset nat)
    (Hh : heap_ok h) (HK : ∀ x, x ∈ K → (x < next_loc h)%nat)
    (Hn : Z.of_nat (length es) < int64_max)
    (Hst : steps validate VnetID sortDedupPeers (New h no_chans, K) es (w, K')) :
  contents w = fold_left (spec_step normal_sorted) es ∅ ∧
  spec_replies normal_sorted ∅ es ∧
  (∀ p, validate (mem w) p = None → ∃ w', Add w p = Ret (w', None)).
Proof.
  destruct (isolation validate VnetID sortDedupPeers normal_sorted "vnet" h K es w K')
    as (Hc & Hr & Ha); try done.
  split_and!; [done|done|]. intros p Hp. apply Ha; [done|].
  unfold validate in Hp. by destruct (deref (mem w) p).
Qed.

(** A run for the witness: the client adds a VNET, scribbles over the slice it
    passed, reads the VNET back, scribbles over what it got, and reads again. *)
Module Demo.

Definition vnet1 : VnetState := mkVnet "v1" 5 (SArr 1 0 3) 7 0.
Definition heap1 : heap VnetState := mkHeap {[0%nat := vnet1]} {[1%nat := ["b"; "a"; "b"]]} 2.
Definition w0 : VnetRegistry := New heap1 no_chans.
Definition w1 : VnetRegistry :=
  match Add w0 (Some 0%nat) with Ret (w, _) => w | Panic _ => w0 end.
Definition w2 : VnetRegistry :=
  mkWorld (inner w1) (write_slice (mem w1) (SArr 1 0 3) ["x"; "y"; "z"]) (chans w1).
Definition w3 : VnetRegistry := (Get w2 "v1").1.
Definition w4 : VnetRegistry :=
  mkWorld (inner w3) (write_slice (mem w3) (SArr 4 0 2) ["x"; "y"]) (chans w3).
Definition w5 : VnetRegistry := (Get w4 "v1").1.

Definition stored : VnetState * option (list string) :=
  (mkVnet "v1" 5 SNil 7 0, Some ["a"; "b"]).

Definition trace : list event :=
  [EvAdd "v1" (mkVnet "v1" 5 SNil 7 0, Some ["b"; "a"; "b"]); EvClient;
   EvGet "v1" (view (mem w3) (Some 5%nat)); EvClient; EvGet "v1" (view (mem w5) (Some 7%nat))].

End Demo.

Lemma vnet_isolation_witness :
  contents Demo.w5 = {["v1" := Demo.stored]} ∧
  view (mem Demo.w5) (Some 7%nat) = Some Demo.stored.
Proof.
  destruct (vnet_isolation Demo.heap1 {[0%nat; 1%nat]} Demo.trace Demo.w5
    (reach (mem Demo.w5) (Some 7%nat) ∪ (reach (mem Demo.w3) (Some 5%nat) ∪ {[0%nat; 1%nat]})))
    as (Hc & Hr & _).
  - split.
    + intros l s. unfold Demo.heap1; simpl. rewrite lookup_singleton_Some. intros [<- <-].
      split; [lia|]. eexists. split; [reflexivity|simpl; lia].
    + intros a xs. unfold Demo.heap1; simpl. rewrite lookup_singleton_Some. intros [<- _]. lia.
  - unfold Demo.heap1; simpl. set_solver by lia.
  - vm_compute. done.
  - eapply steps_cons;
      [apply (StepAdd validate VnetID sortDedupPeers Demo.w0 _ (Some 0%nat) Demo.w1 Demo.vnet1
                (mkVnet "v1" 5 SNil 7 0, Some ["b"; "a"; "b"])); vm_compute; reflexivity|].
    eapply steps_cons; [apply (StepWrite validate VnetID sortDedupPeers Demo.w1 _ 1 0 3 ["x"; "y"; "z"]); [set_solver| |reflexivity]|].
    { eexists. split; [vm_compute; reflexivity|simpl; lia]. }
    eapply steps_cons; [apply (StepGet validate VnetID sortDedupPeers Demo.w2 _ "v1" Demo.w3 (Some 5%nat) true); vm_compute; reflexivity|].
    eapply steps_cons; [apply (StepWrite validate VnetID sortDedupPeers Demo.w3 _ 4 0 2 ["x"; "y"]); [by vm_compute; set_solver| |reflexivity]|].
    { eexists. split; [vm_compute; reflexivity|simpl; lia]. }
    eapply steps_cons; [apply (StepGet validate VnetID sortDedupPeers Demo.w4 _ "v1" Demo.w5 (Some 7%nat) true); vm_compute; reflexivity|].
    apply steps_nil.
  - split; [exact Hc|]. destruct Hr as (_ & _ & _ & _ & Hr & _). exact Hr.
Defined.
