(* ===== verification/RegNic.v ===== *)
(** * The NIC registry

    [src/src/FM/pkg/registry/nic/nic.go]: the state of an ENI, its validation,
    and the operations of [NicRegistry], which stores the ACL-group list sorted
    and deduplicated. *)

From S2P Require Import Prelude FmTypes FmErrors GoNet Registry GoHeap TypedRegistry.

Record NicState : Type := mkNic {
  ENIID : FmTypes.ENIID;
  VnetID : FmTypes.VnetID;
  MacAddress : string;
  AclGroupIDs : slice;
  RouteGroupID : FmTypes.RouteGroupID;
  MeterPolicyID : FmTypes.MeterPolicyID;
  SpecRevision : FmTypes.SpecRevision;
  LastUpdated : Time
}.

#[export] Instance NicState_eq_dec : EqDecision NicState.
Proof.
  unfold FmTypes.ENIID, FmTypes.VnetID, FmTypes.RouteGroupID, FmTypes.MeterPolicyID,
    FmTypes.SpecRevision. solve_decision.
Defined.

Definition set_acls (n : NicState) (sl : slice) : NicState :=
  mkNic (ENIID n) (VnetID n) (MacAddress n) sl (RouteGroupID n) (MeterPolicyID n)
    (SpecRevision n) (LastUpdated n).

#[export] Instance NicState_struct : GoStruct NicState.
Proof. by refine {| slice_of := AclGroupIDs; set_slice := set_acls |}; try done; intros []. Defined.

Definition Clone (h : heap NicState) (p : ptr) : ptr * heap NicState := clone h p.

Fixpoint validate_acls (i : Z) (ids : list string) : option error :=
  match ids with
  | [] => None
  | id :: ids =>
      match ValidateID id with
      | Some err => Some (Wrapf ("nic: AclGroupIDs[" +:+ Itoa i +:+ "]: ") err "")
      | None => validate_acls (i + 1) ids
      end
  end.

(** An optional reference: checked only when it is not empty. *)
Definition validate_opt (field id : string) : option error :=
  if decide (id = "") then None
  else match ValidateID id with
       | Some err => Some (Wrapf ("nic: " +:+ field +:+ ": ") err "")
       | None => None
       end.

(** [strconv.Quote], which the message of a bad MAC address prints with [%q]:
    the text of an error only. *)
Section Quote.
Context (Quote : string → string).

Definition validate (h : heap NicState) (p : ptr) : option error :=
  match deref h p with
  | None => Some (Errorf "nic: nil NicState")
  | Some n =>
      match ValidateID (ENIID n) with
      | Some err => Some (Wrapf "nic: ENIID: " err "")
      | None =>
      match ValidateID (VnetID n) with
      | Some err => Some (Wrapf "nic: VnetID: " err "")
      | None =>
      if decide (MacAddress n = "") then Some (Errorf "nic: MacAddress is empty")
      else
      match ParseMAC (MacAddress n) with
      | Some err => Some (Wrapf ("nic: MacAddress " +:+ Quote (MacAddress n) +:+ ": ") err "")
      | None =>
      match validate_acls 0 (read_slice h (AclGroupIDs n)) with
      | Some err => Some err
      | None =>
      match validate_opt "RouteGroupID" (RouteGroupID n) with
      | Some err => Some err
      | None => validate_opt "MeterPolicyID" (MeterPolicyID n)
      end end end end end
  end.

Definition sortDedupAclGroups (h : heap NicState) (n : nat) : heap NicState := sort_dedup h n.

Definition NicRegistry : Type := World NicState.

Definition New : heap NicState → ChanStore → NicRegistry := wrap_New "nic".
Definition Name : NicRegistry → string := wrap_Name.
Definition Acquire : NicRegistry → string → NicRegistry * nat := wrap_Acquire.
Definition Release : NicRegistry → string → NicRegistry * option (UnderflowError string) :=
  wrap_Release.
Definition Add : NicRegistry → ptr → outcome (NicRegistry * option error) :=
  wrap_Add validate ENIID sortDedupAclGroups.
Definition Get : NicRegistry → string → NicRegistry * (ptr * bool) := wrap_Get.
Definition Ready : NicRegistry → string → bool := wrap_Ready.
Definition Refcount : NicRegistry → string → Z := wrap_Refcount.
Definition Len : NicRegistry → Z := wrap_Len.
Definition Snapshot : NicRegistry → NicRegistry * gmap string ptr := wrap_Snapshot.

(** ** Theorems *)

#[export] Instance NicState_normalises : Normalises ENIID sortDedupAclGroups normal_sorted.
Proof. by apply sort_dedup_ok. Qed.

(** What the registry stores is out of its clients' reach. *)
Lemma nic_isolated : isolated validate ENIID sortDedupAclGroups normal_sorted "nic".
Proof. exact (isolation validate ENIID sortDedupAclGroups normal_sorted "nic"). Qed.

Lemma validate_acls_None i ids :
  validate_acls i ids = None ↔ ∀ id, id ∈ ids → valid_id id.
Proof.
  revert i. induction ids as [|id ids IH]; intros i; simpl.
  { split; [by intros _ id ?%elem_of_nil|done]. }
  setoid_rewrite elem_of_cons. pose proof (ValidateID_None id) as Hid.
  destruct (ValidateID id) eqn:E; [split; [done|]|].
  - intros Hall. assert (Some e = None) by (apply Hid, Hall; by left). done.
  - rewrite IH. destruct Hid as [Hid _]. specialize (Hid eq_refl). naive_solver.
Qed.

Lemma validate_opt_None f id : validate_opt f id = None ↔ id = "" ∨ valid_id id.
Proof.
  unfold validate_opt. rewrite <- ValidateID_None. repeat case_match; naive_solver.
Qed.

(** [validate] of a NIC accepts it exactly when the ENI and VNET IDs are
    valid, the MAC address parses, every ACL group ID is valid, and the route
    group and meter policy are each unset or valid. *)
Theorem nic_validate_spec (h : heap NicState) (p : ptr) :
  validate h p = None ↔
  ∃ n, deref h p = Some n ∧ valid_id (ENIID n) ∧ valid_id (VnetID n) ∧
       ParseMAC (MacAddress n) = None ∧
       (∀ id, id ∈ read_slice h (AclGroupIDs n) → valid_id id) ∧
       (RouteGroupID n = "" ∨ valid_id (RouteGroupID n)) ∧
       (MeterPolicyID n = "" ∨ valid_id (MeterPolicyID n)).
Proof.
  unfold validate. destruct (deref h p) as [n|]; [|naive_solver].
  rewrite ex_some.
  pose proof (ValidateID_None (ENIID n)) as H1. pose proof (ValidateID_None (VnetID n)) as H2.
  pose proof (validate_acls_None 0 (read_slice h (AclGroupIDs n))) as H3.
  pose proof (validate_opt_None "RouteGroupID" (RouteGroupID n)) as H4.
  pose proof (validate_opt_None "MeterPolicyID" (MeterPolicyID n)) as H5.
  change (@eq FmTypes.RouteGroupID) with (@eq string).
  change (@eq FmTypes.MeterPolicyID) with (@eq string).
  rewrite <- H1, <- H2, <- H3, <- H4, <- H5. clear.
  destruct (ValidateID (ENIID n)); [naive_solver|].
  destruct (ValidateID (VnetID n)); [naive_solver|].
  destruct (decide (MacAddress n = "")) as [E|E]; [rewrite E; vm_compute; naive_solver|].
  destruct (ParseMAC (MacAddress n)); [naive_solver|].
  destruct (validate_acls _ _); [naive_solver|].
  destruct (validate_opt "RouteGroupID" _); naive_solver.
Qed.

End Quote.
