(* ===== verification/RegMapping.v ===== *)
(** * The VIP-DIP mapping registry

    [src/src/FM/pkg/registry/mapping/mapping.go]. *)

From S2P Require Import Prelude FmTypes FmErrors GoNet Registry GoHeap TypedRegistry.

Record MappingState : Type := mkMapping {
  MappingID : FmTypes.MappingID;
  VnetID : FmTypes.VnetID;
  VIP : Addr;
  DIP : Addr;
  SNAT : bool;
  BindingTime : Time;
  SpecRevision : FmTypes.SpecRevision;
  LastUpdated : Time
}.

#[export] Instance MappingState_eq_dec : EqDecision MappingState.
Proof. unfold FmTypes.MappingID, FmTypes.VnetID, FmTypes.SpecRevision. solve_decision. Defined.

(** No slice field: [Clone] is a plain struct copy. *)
#[export] Instance MappingState_struct : GoStruct MappingState :=
  {| slice_of _ := SNil; set_slice s _ := s;
     slice_of_set _ _ H := match H eq_refl with end;
     set_slice_id _ := eq_refl; set_slice_twice _ _ _ := eq_refl |}.

Definition Clone (h : heap MappingState) (p : ptr) : ptr * heap MappingState := clone h p.

Definition validate (h : heap MappingState) (p : ptr) : option error :=
  match deref h p with
  | None => Some (Errorf "mapping: nil MappingState")
  | Some m =>
      match ValidateID (MappingID m) with
      | Some err => Some (Wrapf "mapping: MappingID: " err "")
      | None =>
          match ValidateID (VnetID m) with
          | Some err => Some (Wrapf "mapping: VnetID: " err "")
          | None =>
              if negb (IsValid (VIP m)) then Some (Errorf "mapping: VIP is zero (unset)")
              else if IsUnspecified (VIP m) then
                Some (Errorf ("mapping: VIP " +:+ unspecified_String (VIP m) +:+
                              " is unspecified (0.0.0.0 / ::)"))
              else if negb (IsValid (DIP m)) then Some (Errorf "mapping: DIP is zero (unset)")
              else if IsUnspecified (DIP m) then
                Some (Errorf ("mapping: DIP " +:+ unspecified_String (DIP m) +:+
                              " is unspecified (0.0.0.0 / ::)"))
              else None
          end
      end
  end.

Definition MappingRegistry : Type := World MappingState.

Definition New : heap MappingState → ChanStore → MappingRegistry := wrap_New "mapping".
Definition Name : MappingRegistry → string := wrap_Name.
Definition Acquire : MappingRegistry → string → MappingRegistry * nat := wrap_Acquire.
Definition Release : MappingRegistry → string → MappingRegistry * option (UnderflowError string) :=
  wrap_Release.
Definition Add : MappingRegistry → ptr → outcome (MappingRegistry * option error) :=
  wrap_Add validate MappingID no_normalise.
Definition Get : MappingRegistry → string → MappingRegistry * (ptr * bool) := wrap_Get.
Definition Ready : MappingRegistry → string → bool := wrap_Ready.
Definition Refcount : MappingRegistry → string → Z := wrap_Refcount.
Definition Len : MappingRegistry → Z := wrap_Len.
Definition Snapshot : MappingRegistry → MappingRegistry * gmap string ptr := wrap_Snapshot.

(** ** Theorems *)

#[export] Instance MappingState_normalises : Normalises MappingID no_normalise id.
Proof. by apply no_normalise_ok. Qed.

(** What the registry stores is out of its clients' reach. *)
Lemma mapping_isolated : isolated validate MappingID no_normalise id "mapping".
Proof. exact (isolation validate MappingID no_normalise id "mapping"). Qed.

(** [validate] of a mapping accepts it exactly when both IDs are valid and
    both addresses are set and not the unspecified address. *)
Theorem mapping_validate_spec (h : heap MappingState) (p : ptr) :
  validate h p = None ↔
  ∃ m, deref h p = Some m ∧ valid_id (MappingID m) ∧ valid_id (VnetID m) ∧
       usable_addr (VIP m) ∧ usable_addr (DIP m).
Proof.
  unfold validate. setoid_rewrite <- ValidateID_None. setoid_rewrite usable_addr_iff.
  destruct (deref h p) as [m|]; [|naive_solver].
  rewrite ex_some. destruct (ValidateID (MappingID m)); [naive_solver|].
  destruct (ValidateID (VnetID m)); [naive_solver|].
  destruct (IsValid (VIP m)), (IsUnspecified (VIP m)); try naive_solver.
  destruct (IsValid (DIP m)), (IsUnspecified (DIP m)); naive_solver.
Qed.
