(* ===== verification/RegRoute.v ===== *)
(** * The route-group registry

    [src/src/FM/pkg/registry/route/route.go]. *)

From S2P Require Import Prelude FmTypes FmErrors GoNet Registry GoHeap TypedRegistry.

Record RouteGroupState : Type := mkRoute {
  RouteGroupID : FmTypes.RouteGroupID;
  VnetID : FmTypes.VnetID;
  NextHop : Addr;
  SpecRevision : FmTypes.SpecRevision;
  LastUpdated : Time
}.

#[export] Instance RouteGroupState_eq_dec : EqDecision RouteGroupState.
Proof. unfold FmTypes.RouteGroupID, FmTypes.VnetID, FmTypes.SpecRevision. solve_decision. Defined.

(** No slice field: [Clone] is a plain struct copy. *)
#[export] Instance RouteGroupState_struct : GoStruct RouteGroupState :=
  {| slice_of _ := SNil; set_slice s _ := s;
     slice_of_set _ _ H := match H eq_refl with end;
     set_slice_id _ := eq_refl; set_slice_twice _ _ _ := eq_refl |}.

Definition Clone (h : heap RouteGroupState) (p : ptr) : ptr * heap RouteGroupState := clone h p.

Definition validate (h : heap RouteGroupState) (p : ptr) : option error :=
  match deref h p with
  | None => Some (Errorf "route: nil RouteGroupState")
  | Some s =>
      match ValidateID (RouteGroupID s) with
      | Some err => Some (Wrapf "route: RouteGroupID: " err "")
      | None =>
          match ValidateID (VnetID s) with
          | Some err => Some (Wrapf "route: VnetID: " err "")
          | None =>
              if negb (IsValid (NextHop s)) then Some (Errorf "route: NextHop is zero (unset)")
              else if IsUnspecified (NextHop s) then
                Some (Errorf ("route: NextHop " +:+ unspecified_String (NextHop s) +:+
                              " is unspecified (0.0.0.0 / ::)"))
              else None
          end
      end
  end.

Definition RouteGroupRegistry : Type := World RouteGroupState.

Definition New : heap RouteGroupState → ChanStore → RouteGroupRegistry := wrap_New "route".
Definition Name : RouteGroupRegistry → string := wrap_Name.
Definition Acquire : RouteGroupRegistry → string → RouteGroupRegistry * nat := wrap_Acquire.
Definition Release : RouteGroupRegistry → string → RouteGroupRegistry * option (UnderflowError string) :=
  wrap_Release.
Definition Add : RouteGroupRegistry → ptr → outcome (RouteGroupRegistry * option error) :=
  wrap_Add validate RouteGroupID no_normalise.
Definition Get : RouteGroupRegistry → string → RouteGroupRegistry * (ptr * bool) := wrap_Get.
Definition Ready : RouteGroupRegistry → string → bool := wrap_Ready.
Definition Refcount : RouteGroupRegistry → string → Z := wrap_Refcount.
Definition Len : RouteGroupRegistry → Z := wrap_Len.
Definition Snapshot : RouteGroupRegistry → RouteGroupRegistry * gmap string ptr := wrap_Snapshot.

(** ** Theorems *)

#[export] Instance RouteGroupState_normalises : Normalises RouteGroupID no_normalise id.
Proof. by apply no_normalise_ok. Qed.

(** What the registry stores is out of its clients' reach. *)
Lemma route_isolated : isolated validate RouteGroupID no_normalise id "route".
Proof. exact (isolation validate RouteGroupID no_normalise id "route"). Qed.

Lemma route_validate_spec (h : heap RouteGroupState) (p : ptr) :
  validate h p = None ↔
  ∃ s, deref h p = Some s ∧ valid_id (RouteGroupID s) ∧ valid_id (VnetID s) ∧
       usable_addr (NextHop s).
Proof.
  unfold validate. setoid_rewrite <- ValidateID_None. setoid_rewrite usable_addr_iff.
  destruct (deref h p) as [s|]; [|naive_solver].
  rewrite ex_some. destruct (ValidateID (RouteGroupID s)); [naive_solver|].
  destruct (ValidateID (VnetID s)); [naive_solver|].
  destruct (IsValid (NextHop s)), (IsUnspecified (NextHop s)); naive_solver.
Qed.
