(* ===== verification/RegAcl.v ===== *)
(** * The ACL-group registry

    [src/src/FM/pkg/registry/acl/acl.go]. *)

From S2P Require Import Prelude FmTypes FmErrors Registry GoHeap TypedRegistry.

Record AclGroupState : Type := mkAcl {
  AclGroupID : FmTypes.AclGroupID;
  VnetID : FmTypes.VnetID;
  RuleCount : Z;
  SpecRevision : FmTypes.SpecRevision;
  LastUpdated : Time
}.

#[export] Instance AclGroupState_eq_dec : EqDecision AclGroupState.
Proof. unfold FmTypes.AclGroupID, FmTypes.VnetID, FmTypes.SpecRevision. solve_decision. Defined.

(** No slice field: [Clone] is a plain struct copy. *)
#[export] Instance AclGroupState_struct : GoStruct AclGroupState :=
  {| slice_of _ := SNil; set_slice s _ := s;
     slice_of_set _ _ H := match H eq_refl with end;
     set_slice_id _ := eq_refl; set_slice_twice _ _ _ := eq_refl |}.

Definition Clone (h : heap AclGroupState) (p : ptr) : ptr * heap AclGroupState := clone h p.

Definition validate (h : heap AclGroupState) (p : ptr) : option error :=
  match deref h p with
  | None => Some (Errorf "acl: nil AclGroupState")
  | Some a =>
      match ValidateID (AclGroupID a) with
      | Some err => Some (Wrapf "acl: AclGroupID: " err "")
      | None =>
          match ValidateID (VnetID a) with
          | Some err => Some (Wrapf "acl: VnetID: " err "")
          | None =>
              if RuleCount a <? 0
              then Some (Errorf ("acl: RuleCount " +:+ Itoa (RuleCount a) +:+ " is negative"))
              else None
          end
      end
  end.

Definition AclGroupRegistry : Type := World AclGroupState.

Definition New : heap AclGroupState → ChanStore → AclGroupRegistry := wrap_New "acl".
Definition Name : AclGroupRegistry → string := wrap_Name.
Definition Acquire : AclGroupRegistry → string → AclGroupRegistry * nat := wrap_Acquire.
Definition Release : AclGroupRegistry → string → AclGroupRegistry * option (UnderflowError string) :=
  wrap_Release.
Definition Add : AclGroupRegistry → ptr → outcome (AclGroupRegistry * option error) :=
  wrap_Add validate AclGroupID no_normalise.
Definition Get : AclGroupRegistry → string → AclGroupRegistry * (ptr * bool) := wrap_Get.
Definition Ready : AclGroupRegistry → string → bool := wrap_Ready.
Definition Refcount : AclGroupRegistry → string → Z := wrap_Refcount.
Definition Len : AclGroupRegistry → Z := wrap_Len.
Definition Snapshot : AclGroupRegistry → AclGroupRegistry * gmap string ptr := wrap_Snapshot.

(** ** Theorems *)

#[export] Instance AclGroupState_normalises : Normalises AclGroupID no_normalise id.
Proof. by apply no_normalise_ok. Qed.

(** What the registry stores is out of its clients' reach. *)
Lemma acl_isolated : isolated validate AclGroupID no_normalise id "acl".
Proof. exact (isolation validate AclGroupID no_normalise id "acl"). Qed.

Lemma acl_validate_spec (h : heap AclGroupState) (p : ptr) :
  validate h p = None ↔
  ∃ a, deref h p = Some a ∧ valid_id (AclGroupID a) ∧ valid_id (VnetID a) ∧ 0 ≤ RuleCount a.
Proof.
  unfold validate. setoid_rewrite <- ValidateID_None.
  destruct (deref h p) as [a|]; [|naive_solver].
  repeat case_match; go_bool; naive_solver lia.
Qed.
