(* ===== verification/RegMeter.v ===== *)
(** * The meter-policy registry

    [src/src/FM/pkg/registry/meter/meter.go]. *)

From S2P Require Import Prelude FmTypes FmErrors Registry GoHeap TypedRegistry.

Record MeterPolicyState : Type := mkMeter {
  MeterPolicyID : FmTypes.MeterPolicyID;
  VnetID : FmTypes.VnetID;
  RateBps : Z;
  BurstBps : Z;
  SpecRevision : FmTypes.SpecRevision;
  LastUpdated : Time
}.

#[export] Instance MeterPolicyState_eq_dec : EqDecision MeterPolicyState.
Proof. unfold FmTypes.MeterPolicyID, FmTypes.VnetID, FmTypes.SpecRevision. solve_decision. Defined.

(** No slice field: [Clone] is a plain struct copy. *)
#[export] Instance MeterPolicyState_struct : GoStruct MeterPolicyState :=
  {| slice_of _ := SNil; set_slice s _ := s;
     slice_of_set _ _ H := match H eq_refl with end;
     set_slice_id _ := eq_refl; set_slice_twice _ _ _ := eq_refl |}.

Definition Clone (h : heap MeterPolicyState) (p : ptr) : ptr * heap MeterPolicyState := clone h p.

Definition validate (h : heap MeterPolicyState) (p : ptr) : option error :=
  match deref h p with
  | None => Some (Errorf "meter: nil MeterPolicyState")
  | Some m =>
      match ValidateID (MeterPolicyID m) with
      | Some err => Some (Wrapf "meter: MeterPolicyID: " err "")
      | None =>
          match ValidateID (VnetID m) with
          | Some err => Some (Wrapf "meter: VnetID: " err "")
          | None =>
              if RateBps m =? 0 then Some (Errorf "meter: RateBps must be > 0") else None
          end
      end
  end.

Definition MeterPolicyRegistry : Type := World MeterPolicyState.

Definition New : heap MeterPolicyState → ChanStore → MeterPolicyRegistry := wrap_New "meter".
Definition Name : MeterPolicyRegistry → string := wrap_Name.
Definition Acquire : MeterPolicyRegistry → string → MeterPolicyRegistry * nat := wrap_Acquire.
Definition Release : MeterPolicyRegistry → string → MeterPolicyRegistry * option (UnderflowError string) :=
  wrap_Release.
Definition Add : MeterPolicyRegistry → ptr → outcome (MeterPolicyRegistry * option error) :=
  wrap_Add validate MeterPolicyID no_normalise.
Definition Get : MeterPolicyRegistry → string → MeterPolicyRegistry * (ptr * bool) := wrap_Get.
Definition Ready : MeterPolicyRegistry → string → bool := wrap_Ready.
Definition Refcount : MeterPolicyRegistry → string → Z := wrap_Refcount.
Definition Len : MeterPolicyRegistry → Z := wrap_Len.
Definition Snapshot : MeterPolicyRegistry → MeterPolicyRegistry * gmap string ptr := wrap_Snapshot.

(** ** Theorems *)

#[export] Instance MeterPolicyState_normalises : Normalises MeterPolicyID no_normalise id.
Proof. by apply no_normalise_ok. Qed.

(** What the registry stores is out of its clients' reach. *)
Lemma meter_isolated : isolated validate MeterPolicyID no_normalise id "meter".
Proof. exact (isolation validate MeterPolicyID no_normalise id "meter"). Qed.

Lemma meter_validate_spec (h : heap MeterPolicyState) (p : ptr) :
  validate h p = None ↔
  ∃ m, deref h p = Some m ∧ valid_id (MeterPolicyID m) ∧ valid_id (VnetID m) ∧ RateBps m ≠ 0.
Proof.
  unfold validate. setoid_rewrite <- ValidateID_None.
  destruct (deref h p) as [m|]; [|naive_solver].
  repeat case_match; go_bool; naive_solver.
Qed.
