(* ===== verification/GoFloat.v ===== *)
(** * Go's [float64]

    IEEE 754 binary64 with round-to-nearest-even, as the standard library's
    reference implementation [SpecFloat] computes it (on sign, mantissa and
    exponent, so every operation evaluates), the conversions between [float64]
    and [int64], and [math.Pow] for the exponents the repository raises to: the
    retry counters, which are integers and not negative. *)

From Stdlib Require Import SpecFloat.
From S2P Require Import Prelude.

Abbreviation f64 := spec_float (only parsing).

Definition prec : Z := 53.
Definition emax : Z := 1024.

Definition f_add (x y : f64) : f64 := SFadd prec emax x y.
Definition f_sub (x y : f64) : f64 := SFsub prec emax x y.
Definition f_mul (x y : f64) : f64 := SFmul prec emax x y.
Definition f_div (x y : f64) : f64 := SFdiv prec emax x y.

(** [<], [<=], [==]: false as soon as one side is NaN. *)
Definition f_lt (x y : f64) : bool := SFltb x y.
Definition f_le (x y : f64) : bool := SFleb x y.
Definition f_eq (x y : f64) : bool := SFeqb x y.
Definition f_gt (x y : f64) : bool := SFltb y x.
Definition f_ge (x y : f64) : bool := SFleb y x.

Definition f_zero : f64 := S754_zero false.

(** [float64(n)] for an integer. *)
Definition f_of_Z (z : Z) : f64 := binary_normalize prec emax z 0 false.

(** The constant [m / n]: the rounding of the exact quotient, which is how the
    compiler rounds a decimal constant. *)
Definition f_lit (m n : Z) : f64 := f_div (f_of_Z m) (f_of_Z n).

Definition f_one : f64 := f_of_Z 1.
Definition f_two : f64 := f_of_Z 2.
Definition f_half : f64 := f_lit 1 2.

(** Truncation towards zero; [None] for NaN and the infinities. *)
Definition f_trunc (x : f64) : option Z :=
  match x with
  | S754_zero _ => Some 0
  | S754_finite s m e =>
      let a := if 0 <=? e then Z.pos m * 2 ^ e else Z.pos m / 2 ^ (- e) in
      Some (if s then - a else a)
  | _ => None
  end.

Section Conversion.
(** What the conversion of an out-of-range value yields: the language leaves it
    to the implementation. *)
Context (f2i_undefined : f64 → Z).

(** [int64(x)] (also [time.Duration(x)], [int(x)]). *)
Definition i64_of_f (x : f64) : Z :=
  match f_trunc x with
  | Some z => if (int64_min <=? z) && (z <=? int64_max) then z else f2i_undefined x
  | None => f2i_undefined x
  end.

End Conversion.

(** ** math.Pow(x, n) for an integer [0 ≤ n < 2^63]

    The special cases in the order of the library, then its loop over the bits
    of [n], on a fraction in [[1/2, 1)] and a separate exponent. *)

Fixpoint pow_loop (fuel : nat) (i : Z) (a1 : f64) (ae : Z) (x1 : f64) (xe : Z) : f64 * Z :=
  match fuel with
  | O => (a1, ae)
  | S fuel =>
      if i =? 0 then (a1, ae)
      else if (xe <? - 4096) || (4096 <? xe) then (a1, ae + xe)
      else
        let '(a1, ae) := if Z.odd i then (f_mul a1 x1, ae + xe) else (a1, ae) in
        let x1 := f_mul x1 x1 in
        let xe := 2 * xe in
        let '(x1, xe) := if f_lt x1 f_half then (f_add x1 x1, xe - 1) else (x1, xe) in
        pow_loop fuel (i / 2) a1 ae x1 xe
  end.

Definition is_nan (x : f64) : bool := match x with S754_nan => true | _ => false end.

Definition pow_nat (x : f64) (n : Z) : f64 :=
  if (n =? 0) || f_eq x f_one then f_one
  else if n =? 1 then x
  else if is_nan x then S754_nan
  else
    match x with
    | S754_zero true => if Z.odd n then x else f_zero
    | S754_zero false => f_zero
    | S754_infinity true => if Z.odd n then x else S754_infinity false
    | S754_infinity false => x
    | _ =>
        let '(x1, xe) := SFfrexp prec emax x in
        let '(a1, ae) := pow_loop 64 n f_one 0 x1 xe in
        SFldexp prec emax a1 ae
    end.

Example pow_2_10 : pow_nat f_two 10 = f_of_Z 1024.
Proof. reflexivity. Qed.

Example pow_big : pow_nat f_two 2000 = S754_infinity false.
Proof. reflexivity. Qed.

Example lit_tenth : f_lit 1 10 = S754_finite false 7205759403792794 (-56).
Proof. reflexivity. Qed.

Example trunc_neg : f_trunc (f_lit (-7) 2) = Some (-3).
Proof. reflexivity. Qed.

(** ** The order of floats

    Apart from NaN, comparison is the lexicographic order of sign (with zero and
    the infinities), exponent and mantissa. *)

Definition f_key (x : f64) : Z * Z * Z :=
  match x with
  | S754_nan => (0, 0, 0)
  | S754_zero _ => (0, 0, 0)
  | S754_infinity s => (if s then -2 else 2, 0, 0)
  | S754_finite s m e => if s then (-1, - e, - Z.pos m) else (1, e, Z.pos m)
  end.

Definition key_lt (a b : Z * Z * Z) : Prop :=
  a.1.1 < b.1.1 ∨ a.1.1 = b.1.1 ∧ (a.1.2 < b.1.2 ∨ a.1.2 = b.1.2 ∧ a.2 < b.2).

Lemma SFcompare_key x y :
  is_nan x = false → is_nan y = false →
  match SFcompare x y with
  | Some Lt => key_lt (f_key x) (f_key y)
  | Some Gt => key_lt (f_key y) (f_key x)
  | Some Eq => f_key x = f_key y
  | None => False
  end.
Proof.
  intros Hx Hy. unfold key_lt.
  destruct x as [s1|s1| |s1 m1 e1], y as [s2|s2| |s2 m2 e2]; try discriminate Hx; try discriminate Hy;
    destruct s1; try destruct s2; cbn -[Z.compare Pos.compare_cont]; try lia; try done;
    change (Pos.compare_cont Eq m1 m2) with (m1 ?= m2)%positive;
    destruct (Z.compare_spec e1 e2); cbn -[Pos.compare]; try lia;
    subst; destruct (Pos.compare_spec m1 m2); cbn; subst; try lia; done.
Qed.

Lemma f_lt_key x y :
  is_nan x = false → is_nan y = false → f_lt x y = true ↔ key_lt (f_key x) (f_key y).
Proof.
  intros Hx Hy. pose proof (SFcompare_key x y Hx Hy) as H. unfold f_lt, SFltb.
  destruct (SFcompare x y) as [[]|]; split; try done; unfold key_lt in *; intros K;
    [rewrite H in K|]; lia.
Qed.

Lemma f_le_key x y :
  is_nan x = false → is_nan y = false → f_le x y = true ↔ ¬ key_lt (f_key y) (f_key x).
Proof.
  intros Hx Hy. pose proof (SFcompare_key x y Hx Hy) as H. unfold f_le, SFleb.
  destruct (SFcompare x y) as [[]|]; split; try done; unfold key_lt in *; intros K;
    [rewrite H|..]; lia.
Qed.

Lemma f_not_lt x y : is_nan x = false → is_nan y = false → f_lt x y = false → f_le y x = true.
Proof.
  intros Hx Hy. rewrite f_le_key by done. intros H K%f_lt_key; congruence.
Qed.

Lemma f_gt_lt x y : f_gt x y = f_lt y x.
Proof. done. Qed.

Lemma f_ge_le x y : f_ge x y = f_le y x.
Proof. done. Qed.

Lemma f_lt_nan x y : f_lt x y = true → is_nan x = false ∧ is_nan y = false.
Proof. by destruct x, y. Qed.

Lemma f_le_nan x y : f_le x y = true → is_nan x = false ∧ is_nan y = false.
Proof. by destruct x, y. Qed.

Lemma f_le_lt_trans x y z : f_le x y = true → f_lt y z = true → f_lt x z = true.
Proof.
  intros H1 H2. destruct (f_le_nan _ _ H1) as [Hx Hy], (f_lt_nan _ _ H2) as [_ Hz].
  rewrite f_le_key in H1 by done. rewrite f_lt_key in * by done. unfold key_lt in *. lia.
Qed.

Lemma f_lt_not_le x y : f_lt x y = true → f_le y x = false.
Proof.
  intros H. destruct (f_lt_nan _ _ H) as [Hx Hy]. apply f_lt_key in H; [|done..].
  apply not_true_iff_false. rewrite f_le_key by done. auto.
Qed.
