(* ===== verification/GoFloatVal.v ===== *)
(** * What a float is worth

    The value of a [float64] as a rational, and upper bounds on what addition,
    subtraction, multiplication and division of non-negative floats yield: the
    exact result, up to a relative error of [2^-53] (and, where the result may be
    subnormal, half of the smallest float).  [val_le] ties the comparisons of
    floats to their values. *)

From Stdlib Require Import SpecFloat QArith Qpower Lqa.
From S2P Require Import Prelude GoFloat.
Local Open Scope Z_scope.

(** ** Powers of two *)

Definition pw (e : Z) : Q := Qpower 2 e.

Lemma pw_pos e : (0 < pw e)%Q.
Proof. unfold pw. by apply Qpower_0_lt. Qed.

Lemma pw_add a b : (pw (a + b) == pw a * pw b)%Q.
Proof. unfold pw. by apply Qpower_plus. Qed.

Lemma pw_Z e : 0 ≤ e → (pw e == inject_Z (2 ^ e))%Q.
Proof. intros He. unfold pw. rewrite Zpower_Qpower by done. reflexivity. Qed.

Lemma pw_S e : (pw (e + 1) == 2 * pw e)%Q.
Proof. rewrite pw_add. change (pw 1) with (2 ^ 1)%Q. rewrite Qmult_comm. reflexivity. Qed.

Lemma pw_le a b : a ≤ b → (pw a <= pw b)%Q.
Proof.
  intros H. replace b with (a + (b - a)) by lia. rewrite pw_add.
  pose proof (pw_pos a). rewrite (pw_Z (b - a)) by lia.
  assert (1 <= inject_Z (2 ^ (b - a)))%Q.
  { change 1%Q with (inject_Z 1). rewrite <- Zle_Qle. pose proof (Z.pow_pos_nonneg 2 (b - a)). lia. }
  nra.
Qed.

(** ** Digits and shifts *)

Lemma digits2_log2 p : Z.pos (digits2_pos p) = Z.log2 (Z.pos p) + 1.
Proof.
  induction p as [p IH|p IH|]; cbn [digits2_pos]; [..|done]; rewrite Pos2Z.inj_succ, IH.
  - rewrite Pos2Z.inj_xI, Z.log2_succ_double by lia. lia.
  - rewrite Pos2Z.inj_xO, Z.log2_double by lia. lia.
Qed.

(** The digits of a number that is not negative. *)
Lemma Zdigits2_bounds m : 0 ≤ m → m < 2 ^ Zdigits2 m ∧ 0 ≤ Zdigits2 m ∧ (0 < m → 2 ^ (Zdigits2 m - 1) ≤ m).
Proof.
  intros Hm. destruct m as [|p|p]; [cbn; lia| |lia].
  unfold Zdigits2. rewrite digits2_log2, Z.add_simpl_r.
  pose proof (Z.log2_spec (Z.pos p) ltac:(lia)). pose proof (Z.log2_nonneg (Z.pos p)).
  replace (Z.log2 (Z.pos p) + 1) with (Z.succ (Z.log2 (Z.pos p))) by lia. lia.
Qed.

Lemma Zdigits2_unique m d : 0 < d → 2 ^ (d - 1) ≤ m < 2 ^ d → Zdigits2 m = d.
Proof.
  intros Hd [H1 H2]. assert (0 < m) by (pose proof (Z.pow_pos_nonneg 2 (d - 1)); lia).
  destruct m as [|p|p]; try lia. unfold Zdigits2. rewrite digits2_log2.
  rewrite (Z.log2_unique (Z.pos p) (d - 1)); [lia|lia|]. by replace (Z.succ (d - 1)) with d by lia.
Qed.

Lemma iter_pos_iter {A} (f : A → A) n x : SpecFloat.iter_pos f n x = Nat.iter (Pos.to_nat n) f x.
Proof.
  revert x. induction n as [n IH|n IH|]; intros x; cbn [SpecFloat.iter_pos]; [| |done].
  - rewrite !IH, <- Nat.iter_add, <- Nat.iter_succ_r. f_equal. lia.
  - rewrite !IH, <- Nat.iter_add. f_equal. lia.
Qed.

(** The least number a record stands for: its mantissa, and a half if its round
    bit is set. *)
Definition least (r : shr_record) : Q := (inject_Z (shr_m r) + if shr_r r then 1 # 2 else 0)%Q.

Lemma shr_1_spec r : 0 ≤ shr_m r →
  shr_m (shr_1 r) = shr_m r / 2 ∧ (2 * least (shr_1 r) <= least r)%Q.
Proof.
  destruct r as [m r s]. cbn [shr_m]. intros Hm. unfold least.
  assert (Ho : ∀ p, (inject_Z (Z.pos p~0) == 2 * inject_Z (Z.pos p))%Q) by (intros; reflexivity).
  assert (Hi : ∀ p, (inject_Z (Z.pos p~1) == 2 * inject_Z (Z.pos p) + 1)%Q)
    by (intros; unfold Qeq; cbn; lia).
  destruct m as [|p|p]; [|destruct p as [p|p|]|lia]; cbn [shr_1 shr_m shr_r].
  - split; [done|]. change (inject_Z 0) with 0%Q. destruct r; lra.
  - split; [rewrite Pos2Z.inj_xI; Z.to_euclidean_division_equations; lia|].
    specialize (Hi p). destruct r; lra.
  - split; [rewrite Pos2Z.inj_xO; Z.to_euclidean_division_equations; lia|].
    specialize (Ho p). destruct r; lra.
  - split; [done|]. change (inject_Z 0) with 0%Q. change (inject_Z 1) with 1%Q. destruct r; lra.
Qed.

Lemma shr_iter_spec n r : 0 ≤ shr_m r →
  shr_m (Nat.iter n shr_1 r) = shr_m r / 2 ^ Z.of_nat n ∧
  (least (Nat.iter n shr_1 r) * pw (Z.of_nat n) <= least r)%Q.
Proof.
  intros Hm. induction n as [|n [IHm IHl]].
  - change (Nat.iter 0 shr_1 r) with r. rewrite Z.div_1_r. change (pw (Z.of_nat 0)) with 1%Q. split; [done|lra].
  - rewrite Nat.iter_succ.
    assert (0 ≤ shr_m (Nat.iter n shr_1 r)) as H0 by (rewrite IHm; apply Z.div_pos; [done|apply Z.pow_pos_nonneg; lia]).
    destruct (shr_1_spec _ H0) as [H1 H2]. rewrite H1, IHm. split.
    + rewrite Z.div_div by (try apply Z.pow_pos_nonneg; lia).
      rewrite Nat2Z.inj_succ, Z.pow_succ_r by lia. f_equal. lia.
    + rewrite Nat2Z.inj_succ, <- Z.add_1_r, pw_S. pose proof (pw_pos (Z.of_nat n)). nra.
Qed.

(** A shift by [n] places, none if [n] is not positive. *)
Lemma shr_spec r e n : 0 ≤ shr_m r →
  let '(r', e') := shr r e n in
  e' = e + Z.max 0 n ∧ shr_m r' = shr_m r / 2 ^ Z.max 0 n ∧
  (least r' * pw e' <= least r * pw e)%Q ∧ (n ≤ 0 → r' = r).
Proof.
  intros Hm. unfold shr.
  assert (Hid : e = e + 0 ∧ shr_m r = shr_m r / 2 ^ 0 ∧ (least r * pw e <= least r * pw e)%Q).
  { rewrite Z.div_1_r. split_and!; [lia|done|lra]. }
  destruct Hid as (Hi1 & Hi2 & Hi3). destruct n as [|p|p]; [by split_and!| |by split_and!].
  rewrite iter_pos_iter. destruct (shr_iter_spec (Pos.to_nat p) r Hm) as [H1 H2].
  rewrite positive_nat_Z in *. replace (Z.max 0 (Z.pos p)) with (Z.pos p) by lia.
  split; [done|]. split; [done|]. split; [|lia].
  rewrite pw_add. pose proof (pw_pos e). nra.
Qed.

(** ** Rounding *)

(** The value of a finite float. *)
Definition val (x : f64) : Q :=
  match x with
  | S754_finite s m e => inject_Z (if s then Z.neg m else Z.pos m) * pw e
  | _ => 0
  end%Q.

(** Finite, not negative (or the negative zero), and well formed. *)
Definition fin_pos (x : f64) : Prop :=
  match x with
  | S754_zero _ => True
  | S754_finite false m e => bounded prec emax m e = true
  | _ => False
  end.

(** Half the distance of 1 to the next float, and half the smallest float. *)
Definition ulp1 : Q := pw (-53).
Definition eta : Q := pw (-1075).

(** [x] may stand for [v] if it is a float of at most [b], or infinity for a [v]
    that is out of range. *)
Definition at_most (x : f64) (v b : Q) : Prop :=
  match x with
  | S754_infinity false => pw 1000 <= v
  | _ => fin_pos x ∧ val x <= b
  end%Q.

Lemma fexp_max e : fexp prec emax e = Z.max (e - 53) (-1074).
Proof. done. Qed.

Lemma bounded_spec m e :
  bounded prec emax m e = true ↔ fexp prec emax (Zdigits2 (Z.pos m) + e) = e ∧ e ≤ 971.
Proof. unfold bounded, canonical_mantissa. rewrite andb_true_iff, Z.eqb_eq, Z.leb_le. done. Qed.

(** The first shift: to the exponent of the result. *)
Lemma shr_fexp_first m e l : 0 ≤ m → e ≤ fexp prec emax (Zdigits2 m + e) →
  let '(r1, e1) := shr_fexp prec emax m e l in
  e1 = fexp prec emax (Zdigits2 m + e) ∧
  0 ≤ shr_m r1 < 2 ^ 53 ∧ (-1074 < e1 → 2 ^ 52 ≤ shr_m r1 ∧ 2 ^ (e1 - e + 52) ≤ m) ∧
  (least r1 * pw e1 <= least (shr_record_of_loc m l) * pw e)%Q ∧
  (e1 = e → r1 = shr_record_of_loc m l).
Proof.
  intros Hm He. unfold shr_fexp.
  assert (Hl : shr_m (shr_record_of_loc m l) = m) by (by destruct l as [|[]]).
  pose proof (shr_spec (shr_record_of_loc m l) e (fexp prec emax (Zdigits2 m + e) - e)) as H.
  destruct (shr _ _ _) as [r1 e1]. rewrite Hl in H. destruct H as (He1 & Hm1 & Hv & Hid); [done|].
  replace (Z.max 0 (fexp prec emax (Zdigits2 m + e) - e)) with (fexp prec emax (Zdigits2 m + e) - e) in * by lia.
  assert (e1 = fexp prec emax (Zdigits2 m + e)) as E by lia. rewrite <- E in *.
  destruct (Zdigits2_bounds m Hm) as (Hu & Hd & Hlo). rewrite fexp_max in E.
  split; [done|]. rewrite Hm1. split; [|split; [|split; [done|intros; apply Hid; lia]]].
  - split; [apply Z.div_pos; [done|apply Z.pow_pos_nonneg; lia]|].
    apply Z.div_lt_upper_bound; [apply Z.pow_pos_nonneg; lia|]. rewrite <- Z.pow_add_r by lia.
    eapply Z.lt_le_trans; [exact Hu|]. apply Z.pow_le_mono_r; lia.
  - intros Hn. assert (Zdigits2 m = e1 - e + 53) as Ed by lia. rewrite Ed in *.
    assert (m ≠ 0) by (intros ->; cbn in Ed; lia). specialize (Hlo ltac:(lia)).
    replace (e1 - e + 53 - 1) with (e1 - e + 52) in Hlo by lia. split; [|done].
    apply Z.div_le_lower_bound; [apply Z.pow_pos_nonneg; lia|]. by rewrite <- Z.pow_add_r by lia.
Qed.

Lemma rne_spec r : 0 ≤ shr_m r →
  let m := round_nearest_even (shr_m r) (loc_of_shr_record r) in
  shr_m r ≤ m ≤ shr_m r + 1 ∧ (inject_Z m <= least r + (1 # 2))%Q ∧
  (shr_r r = false → m = shr_m r).
Proof.
  destruct r as [m [] []]; cbn; intros Hm; unfold least; cbn; [| |split_and!; [lia|lia|lra|done]..].
  - rewrite inject_Z_plus. change (inject_Z 1) with 1%Q. split_and!; [lia|lia|lra|done].
  - destruct (Z.even m); [split_and!; [lia|lia|lra|done]|].
    rewrite inject_Z_plus. change (inject_Z 1) with 1%Q. split_and!; [lia|lia|lra|done].
Qed.

(** The second shift only undoes a carry, without a change of value. *)
Lemma shr_fexp_second m e : 0 ≤ m ≤ 2 ^ 53 → -1074 ≤ e → (-1074 < e → 2 ^ 52 ≤ m) →
  let '(r2, e2) := shr_fexp prec emax m e loc_Exact in
  (inject_Z (shr_m r2) * pw e2 <= inject_Z m * pw e)%Q ∧ 0 ≤ shr_m r2 ∧ (shr_m r2 = 0 → m = 0) ∧
  (0 < shr_m r2 → fexp prec emax (Zdigits2 (shr_m r2) + e2) = e2) ∧ e2 ≤ e + 1.
Proof.
  intros Hm He Hn. unfold shr_fexp. cbn [shr_record_of_loc].
  pose proof (shr_spec {| shr_m := m; shr_r := false; shr_s := false |} e (fexp prec emax (Zdigits2 m + e) - e)) as H.
  cbn [shr_m] in H. destruct (shr _ _ _) as [r2 e2]. destruct H as (He2 & Hm2 & Hv & Hid); [lia|].
  destruct (decide (m = 2 ^ 53)) as [->|Hne].
  - change (Zdigits2 (2 ^ 53)) with 54 in *. rewrite ?fexp_max in *.
    replace (Z.max 0 (Z.max (54 + e - 53) (-1074) - e)) with 1 in * by lia.
    change (2 ^ 53 / 2 ^ 1) with (2 ^ 52) in Hm2. rewrite Hm2, He2.
    change (Zdigits2 (2 ^ 52)) with 53. split_and!; [|lia|lia|lia|lia].
    rewrite pw_S. change (2 ^ 53) with (2 * 2 ^ 52). rewrite inject_Z_mult. change (inject_Z 2) with 2%Q. lra.
  - destruct (Zdigits2_bounds m) as (Hu & Hd & Hlo); [lia|].
    assert (Zdigits2 m ≤ 53).
    { destruct (decide (m = 0)) as [->|]; [cbn; lia|]. specialize (Hlo ltac:(lia)).
      destruct (decide (Zdigits2 m ≤ 53)); [done|]. exfalso.
      pose proof (Z.pow_le_mono_r 2 53 (Zdigits2 m - 1)). lia. }
    rewrite ?fexp_max in *. rewrite (Hid ltac:(lia)). cbn [shr_m].
    replace e2 with e by lia. split_and!; [lra|lia|done| |lia].
    intros Hp. destruct (decide (e = -1074)) as [->|]; [lia|].
    rewrite (Zdigits2_unique m 53) by (change (53 - 1) with 52; lia). lia.
Qed.

Lemma least_mantissa m l : (inject_Z m <= least (shr_record_of_loc m l))%Q.
Proof. destruct l as [|[]]; unfold least; cbn [shr_record_of_loc shr_m shr_r]; lra. Qed.

Definition slack (l : location) (e : Z) : Q :=
  match l with loc_Exact => if -1074 <=? e then 0 else eta | _ => eta end%Q.

Lemma slack_cases l e : l = loc_Exact ∧ -1074 ≤ e ∧ slack l e = 0%Q ∨ slack l e = eta.
Proof. destruct l; cbn; [destruct (Z.leb_spec (-1074) e)|]; auto. Qed.

(** Rounding something that is at least [least]: the result is at most the exact
    value, the relative error and, unless the input is a multiple of the smallest
    float, half the smallest float. *)
Lemma round_aux_at_most m e l v b : 0 ≤ m → e ≤ fexp prec emax (Zdigits2 m + e) →
  (least (shr_record_of_loc m l) * pw e <= v)%Q →
  (v * (1 + ulp1) + slack l e <= b)%Q →
  at_most (binary_round_aux prec emax false m e l) v b.
Proof.
  intros Hm He Hv Hb. unfold binary_round_aux.
  pose proof (shr_fexp_first m e l Hm He) as H1. destruct (shr_fexp _ _ m e l) as [r1 e1].
  destruct H1 as (E1 & [H0 H53] & Hn & Hl & Hid). rewrite fexp_max in E1, He.
  pose proof (rne_spec r1 H0) as H2. cbn zeta in H2. set (m2 := round_nearest_even _ _) in *.
  destruct H2 as ([Hlo Hhi] & Hr & Hex).
  pose proof (shr_fexp_second m2 e1 ltac:(lia) ltac:(lia) ltac:(lia)) as H3.
  destruct (shr_fexp _ _ m2 e1 loc_Exact) as [r2 e2]. destruct H3 as (Hval & Hr2 & Hz & Hcan & He2).
  pose proof (pw_pos e) as Pe. pose proof (pw_pos e1) as Pe1.
  assert (Hmv : (inject_Z m * pw e <= v)%Q) by (pose proof (least_mantissa m l); nra).
  assert (Hbig : -1074 < e1 → (pw (e1 + 52) <= v)%Q).
  { intros H. destruct (Hn H) as [_ Hp]. eapply Qle_trans; [|exact Hmv].
    replace (e1 + 52) with ((e1 - e + 52) + e) by lia. pose proof (pw_Z (e1 - e + 52) ltac:(lia)) as Hpz. rewrite pw_add, Hpz.
    rewrite Zle_Qle in Hp. nra. }
  assert (Hv0 : (0 <= v)%Q).
  { rewrite Zle_Qle in Hm. change (inject_Z 0) with 0%Q in Hm. nra. }
  pose proof (pw_pos (-53) : (0 < ulp1)%Q) as Pu. pose proof (pw_pos (-1075) : (0 < eta)%Q) as Pt.
  assert (Hvu : (0 <= v * ulp1)%Q) by nra.
  assert (Hm2 : (inject_Z m2 * pw e1 <= v + (1 # 2) * pw e1)%Q) by nra.
  assert (Hrel : -1074 < e1 → ((1 # 2) * pw e1 <= v * ulp1)%Q).
  { intros H. specialize (Hbig H). pose proof (pw_add (e1 + 52) (-53)) as Hp.
    replace (e1 + 52 + -53) with (e1 + -1) in Hp by lia. rewrite (pw_add e1 (-1)) in Hp.
    change (pw (-1)) with (1 # 2)%Q in Hp. unfold ulp1 in *. nra. }
  assert (Hfin : (inject_Z m2 * pw e1 <= b)%Q).
  { eapply Qle_trans; [|exact Hb]. destruct (slack_cases l e) as [(-> & Hx & ->)| ->].
    - destruct (decide (e1 = e)) as [->|Hne]; [|specialize (Hrel ltac:(lia)); lra].
      rewrite (Hid eq_refl) in Hex. rewrite Hex by done. cbn [shr_record_of_loc shr_m]. lra.
    - destruct (decide (e1 = -1074)) as [->|Hne]; [|specialize (Hrel ltac:(lia)); lra].
      change eta with ((1 # 2) * pw (-1074))%Q. lra. }
  assert (Hb0 : (0 <= b)%Q).
  { assert (0 <= inject_Z m2)%Q by (change 0%Q with (inject_Z 0); rewrite <- Zle_Qle; lia). nra. }
  destruct (shr_m r2) as [|p|p] eqn:Ep; [by split|..|lia].
  change (emax - prec) with 971. destruct (e2 <=? 971) eqn:E; cbn [at_most].
  - split; [|cbn [val]; lra]. cbn [fin_pos]. apply bounded_spec. split; [apply Hcan; lia|lia].
  - eapply Qle_trans; [|apply Hbig; lia]. apply pw_le. lia.
Qed.

(** ** The operations *)

Lemma Zdigits2_shift p d : 0 ≤ d → Zdigits2 (Z.pos p * 2 ^ d) = Zdigits2 (Z.pos p) + d.
Proof.
  intros Hd. destruct (Zdigits2_bounds (Z.pos p) ltac:(lia)) as (Hu & _ & Hl). specialize (Hl ltac:(lia)).
  assert (0 < Zdigits2 (Z.pos p)) by (cbn; lia).
  apply Zdigits2_unique; [lia|]. rewrite Z.pow_add_r by lia.
  replace (Zdigits2 (Z.pos p) + d - 1) with (Zdigits2 (Z.pos p) - 1 + d) by lia.
  rewrite Z.pow_add_r by lia. pose proof (Z.pow_pos_nonneg 2 d ltac:(lia) Hd). nia.
Qed.

Lemma iter_xO p d : Z.pos (Pos.iter xO p d) = Z.pos p * 2 ^ Z.pos d.
Proof.
  revert p. induction d as [|d IH] using Pos.peano_ind; intros p.
  - cbn. lia.
  - rewrite Pos.iter_succ, Pos2Z.inj_succ, Z.pow_succ_r, Pos2Z.inj_xO, IH by lia. lia.
Qed.

Lemma shl_align_spec m e e' :
  let '(m', e'') := shl_align m e e' in
  e'' = Z.min e e' ∧ Z.pos m' = Z.pos m * 2 ^ (e - e'').
Proof.
  unfold shl_align. destruct (e' - e) eqn:E; rewrite ?iter_xO.
  1,2: replace (e - e) with 0 by lia; split; lia.
  split; [lia|]. do 2 f_equal. lia.
Qed.

Lemma scale m e e' : e' ≤ e → (inject_Z (m * 2 ^ (e - e')) * pw e' == inject_Z m * pw e)%Q.
Proof.
  intros H. pose proof (pw_Z (e - e') ltac:(lia)) as Hp. pose proof (pw_add (e - e') e') as Ha.
  replace (e - e' + e') with e in Ha by lia. rewrite inject_Z_mult, <- Hp, Ha. ring.
Qed.

(** Nothing more than the relative error for a multiple of the smallest float. *)
Lemma binary_round_at_most m e b : -1074 ≤ e →
  (inject_Z (Z.pos m) * pw e * (1 + ulp1) <= b)%Q →
  at_most (binary_round prec emax false m e) (inject_Z (Z.pos m) * pw e) b.
Proof.
  intros He Hb. unfold binary_round. change (Z.pos (digits2_pos m)) with (Zdigits2 (Z.pos m)).
  pose proof (shl_align_spec m e (fexp prec emax (Zdigits2 (Z.pos m) + e))) as H.
  destruct (shl_align _ _ _) as [m' e']. destruct H as [He' Hm'].
  assert (Hd : Zdigits2 (Z.pos m') + e' = Zdigits2 (Z.pos m) + e)
    by (rewrite Hm', Zdigits2_shift by lia; lia).
  rewrite fexp_max in He'.
  assert (Hs : (inject_Z (Z.pos m') * pw e' == inject_Z (Z.pos m) * pw e)%Q)
    by (rewrite Hm'; apply scale; lia).
  apply round_aux_at_most; [lia|rewrite Hd, fexp_max; lia| |].
  - unfold least. cbn. lra.
  - unfold slack. destruct (Z.leb_spec (-1074) e'); [lra|lia].
Qed.

Lemma normalize_at_most m e s b : 0 ≤ m → -1074 ≤ e →
  (inject_Z m * pw e * (1 + ulp1) <= b)%Q →
  at_most (binary_normalize prec emax m e s) (inject_Z m * pw e) b.
Proof.
  intros Hm He Hb. destruct m as [|m|m]; [|by apply binary_round_at_most|lia].
  cbn [binary_normalize at_most fin_pos val]. split; [done|]. change (inject_Z 0) with 0%Q in Hb. lra.
Qed.

Lemma at_most_weaken x v v' b b' : (v <= v')%Q → (b <= b')%Q → at_most x v b → at_most x v' b'.
Proof.
  intros Hv Hb. destruct x as [|[]| |[]]; cbn [at_most]; intros H;
    first [by eapply Qle_trans; eassumption | destruct H as [H1 H2]; split; [exact H1|by eapply Qle_trans; eassumption]].
Qed.

Lemma f_of_Z_at_most n : 0 ≤ n → at_most (f_of_Z n) (inject_Z n) (inject_Z n * (1 + ulp1)).
Proof.
  intros Hn. assert (pw 0 == 1)%Q as H0 by reflexivity.
  eapply at_most_weaken; [|apply Qle_refl|apply (normalize_at_most n 0 false); [done|lia|]];
    rewrite H0; lra.
Qed.

Lemma val_nonneg x : fin_pos x → (0 <= val x)%Q.
Proof.
  destruct x as [|[]| |[] m e]; cbn [val fin_pos]; intros H; try done; try lra.
  pose proof (pw_pos e). assert (0 <= inject_Z (Z.pos m))%Q by done. nra.
Qed.

Lemma at_most_fin x b : fin_pos x → (val x * (1 + ulp1) <= b)%Q → at_most x (val x) b.
Proof.
  intros Hf Hb. pose proof (val_nonneg x Hf). pose proof (pw_pos (-53) : (0 < ulp1)%Q).
  assert (val x <= b)%Q by nra. destruct x as [|[]| |[]]; cbn [at_most]; done.
Qed.

Lemma fin_pos_exp m e : fin_pos (S754_finite false m e) →
  e = Z.max (Zdigits2 (Z.pos m) + e - 53) (-1074) ∧ e ≤ 971.
Proof. cbn [fin_pos]. rewrite bounded_spec, fexp_max. intros [? ?]. lia. Qed.

(** Both operands at the smaller exponent. *)
Lemma align_val m e e' : e' ≤ e →
  (inject_Z (Z.pos (shl_align m e e').1) * pw e' == inject_Z (Z.pos m) * pw e)%Q.
Proof.
  intros H. pose proof (shl_align_spec m e e') as Hs. destruct (shl_align m e e') as [m' e'']. cbn [fst].
  destruct Hs as [-> ->]. replace (Z.min e e') with e' by lia. by apply scale.
Qed.

Lemma f_add_at_most x y : fin_pos x → fin_pos y →
  at_most (f_add x y) (val x + val y) ((val x + val y) * (1 + ulp1)).
Proof.
  intros Hx Hy.
  assert (Hzx : at_most y (0 + val y) ((0 + val y) * (1 + ulp1)))
    by (eapply at_most_weaken; [|apply Qle_refl|apply at_most_fin; [done|]]; lra).
  destruct x as [s1|[]| |[] m1 e1]; try done; destruct y as [s2|[]| |[] m2 e2]; try done.
  - cbn -[val]. destruct s1, s2; cbn; (split; [done|]); lra.
  - change (f_add _ _) with (S754_finite false m1 e1). eapply at_most_weaken; [|apply Qle_refl|apply at_most_fin; [done|]];
      cbn [val]; lra.
  - destruct (fin_pos_exp _ _ Hx) as [He1 _], (fin_pos_exp _ _ Hy) as [He2 _]. unfold f_add, SFadd. cbn [cond_Zopp].
    set (ez := Z.min e1 e2). pose proof (align_val m1 e1 ez ltac:(lia)) as H1.
    pose proof (align_val m2 e2 ez ltac:(lia)) as H2.
    set (a := Z.pos (shl_align m1 e1 ez).1) in *. set (c := Z.pos (shl_align m2 e2 ez).1) in *.
    assert (HE : (inject_Z (a + c) * pw ez == val (S754_finite false m1 e1) + val (S754_finite false m2 e2))%Q)
      by (rewrite inject_Z_plus; cbn [val]; lra).
    eapply at_most_weaken; [|apply Qle_refl|apply normalize_at_most; [lia|lia|]]; rewrite HE; apply Qle_refl.
Qed.

Lemma f_sub_at_most x y : fin_pos x → fin_pos y → (val y <= val x)%Q →
  at_most (f_sub x y) (val x - val y) ((val x - val y) * (1 + ulp1)).
Proof.
  intros Hx Hy Hle. pose proof (pw_pos (-53) : (0 < ulp1)%Q).
  destruct x as [s1|[]| |[] m1 e1]; try done; destruct y as [s2|[]| |[] m2 e2]; try done.
  - cbn -[val]. destruct s1, s2; cbn; (split; [done|]); lra.
  - cbn [val] in Hle. pose proof (pw_pos e2). assert (0 < inject_Z (Z.pos m2))%Q by done. nra.
  - change (f_sub _ _) with (S754_finite false m1 e1). eapply at_most_weaken; [|apply Qle_refl|apply at_most_fin; [done|]];
      cbn [val]; lra.
  - destruct (fin_pos_exp _ _ Hx) as [He1 _], (fin_pos_exp _ _ Hy) as [He2 _]. unfold f_sub, SFsub. cbn [cond_Zopp].
    set (ez := Z.min e1 e2). pose proof (align_val m1 e1 ez ltac:(lia)) as H1.
    pose proof (align_val m2 e2 ez ltac:(lia)) as H2. cbn [val] in *. pose proof (pw_pos ez) as Pz.
    set (a := Z.pos (shl_align m1 e1 ez).1) in *. set (c := Z.pos (shl_align m2 e2 ez).1) in *.
    assert (c ≤ a) by (rewrite Zle_Qle; nra).
    assert (HE : (inject_Z (a - c) * pw ez ==
                  inject_Z (Z.pos m1) * pw e1 - inject_Z (Z.pos m2) * pw e2)%Q)
      by (unfold Z.sub; rewrite inject_Z_plus, inject_Z_opp; lra).
    eapply at_most_weaken; [|apply Qle_refl|apply normalize_at_most; [lia|lia|]]; rewrite HE; apply Qle_refl.
Qed.

Lemma f_mul_at_most x y : fin_pos x → fin_pos y →
  at_most (f_mul x y) (val x * val y) (val x * val y * (1 + ulp1) + eta).
Proof.
  intros Hx Hy. pose proof (pw_pos (-1075) : (0 < eta)%Q).
  destruct x as [s1|[]| |[] m1 e1]; try done; destruct y as [s2|[]| |[] m2 e2]; try done;
    try (unfold f_mul; cbn [SFmul at_most fin_pos val]; split; [done|lra]).
  destruct (fin_pos_exp _ _ Hx) as [He1 _], (fin_pos_exp _ _ Hy) as [He2 _]. unfold f_mul, SFmul.
  assert (Hd : Zdigits2 (Z.pos m1) + Zdigits2 (Z.pos m2) - 1 ≤ Zdigits2 (Z.pos (m1 * m2))).
  { unfold Zdigits2. rewrite !digits2_log2, Pos2Z.inj_mul.
    pose proof (Z.log2_mul_below (Z.pos m1) (Z.pos m2) ltac:(lia) ltac:(lia)). lia. }
  assert (0 < Zdigits2 (Z.pos m1) ∧ 0 < Zdigits2 (Z.pos m2)) by (cbn; lia).
  apply round_aux_at_most; [lia|rewrite fexp_max; lia| |].
  - unfold least. cbn [shr_record_of_loc shr_m shr_r val]. rewrite Pos2Z.inj_mul, inject_Z_mult, pw_add. lra.
  - unfold slack. destruct (_ <=? _); lra.
Qed.

(** The quotient and the location of the exact one in the step above it. *)
Lemma new_location_least m r q : 0 < m → 0 ≤ r < m →
  (least (shr_record_of_loc q (new_location m r)) * inject_Z m <= inject_Z (q * m + r))%Q.
Proof.
  intros Hm Hr.
  assert (Hl : ∀ b, (b = true → m ≤ 2 * r) →
            ((inject_Z q + if b then 1 # 2 else 0) * inject_Z m <= inject_Z (q * m + r))%Q).
  { intros b Hb. rewrite inject_Z_plus, inject_Z_mult.
    assert (0 <= inject_Z r)%Q by (change 0%Q with (inject_Z 0); rewrite <- Zle_Qle; lia).
    destruct b; [|lra]. specialize (Hb eq_refl). rewrite Zle_Qle, inject_Z_mult in Hb.
    change (inject_Z 2) with 2%Q in Hb. lra. }
  unfold new_location, new_location_even, new_location_odd, least.
  destruct (Z.even m), (Z.eqb_spec r 0);
    [|destruct (Z.compare_spec (2 * r) m)| |destruct (Z.compare_spec (2 * r + 1) m)];
    cbn [shr_record_of_loc shr_m shr_r]; first [by apply (Hl false)|apply (Hl true); intros _; lia].
Qed.

Lemma f_div_at_most x y : fin_pos x → fin_pos y → (0 < val y)%Q →
  at_most (f_div x y) (val x / val y) (val x / val y * (1 + ulp1) + eta).
Proof.
  intros Hx Hy Hy0. pose proof (pw_pos (-1075) : (0 < eta)%Q).
  destruct y as [s2|[]| |[] m2 e2]; try done; destruct x as [s1|[]| |[] m1 e1]; try done.
  destruct (fin_pos_exp _ _ Hx) as [He1 _], (fin_pos_exp _ _ Hy) as [He2 _].
  unfold f_div, SFdiv, SFdiv_core_binary. set (d1 := Zdigits2 (Z.pos m1)) in *. set (d2 := Zdigits2 (Z.pos m2)) in *.
  set (e' := Z.min _ _). set (s := e1 - e2 - e').
  assert (He' : e' ≤ fexp prec emax (d1 + e1 - (d2 + e2)) ∧ e' ≤ e1 - e2) by lia.
  clearbody e'. rewrite fexp_max in He'.
  replace (match s with Z.pos _ => _ | 0 => _ | Z.neg _ => _ end) with (Z.pos m1 * 2 ^ s).
  2: { subst s. destruct (e1 - e2 - e') eqn:E; [lia| |lia]. by rewrite Z.shiftl_mul_pow2 by lia. }
  pose proof (Z_div_mod (Z.pos m1 * 2 ^ s) (Z.pos m2) ltac:(lia)) as Hq.
  destruct (Z.div_eucl _ _) as [q r]. destruct Hq as [Hq Hr].
  pose proof (Z.pow_pos_nonneg 2 s ltac:(lia) ltac:(lia)) as Hs.
  assert (Hq0 : 0 ≤ q) by nia.
  apply round_aux_at_most; [done| | |unfold slack; destruct (new_location _ _); [destruct (_ <=? _)|]; lra].
  - rewrite fexp_max. destruct (decide (e' ≤ -1074)); [lia|].
    destruct (Zdigits2_bounds (Z.pos m1)) as (_ & _ & Hl1), (Zdigits2_bounds (Z.pos m2)) as (Hu2 & Hd2 & _); [lia..|].
    destruct (Zdigits2_bounds q Hq0) as (Huq & Hdq & _). specialize (Hl1 ltac:(lia)).
    fold d1 in Hl1. fold d2 in Hu2, Hd2. assert (0 < d1) by (subst d1; cbn; lia).
    destruct (decide (53 ≤ Zdigits2 q)); [lia|]. exfalso.
    pose proof (Z.pow_le_mono_r 2 (Zdigits2 q) 52 ltac:(lia) ltac:(lia)) as Hq52.
    assert (2 ^ (d1 - 1) * 2 ^ s < 2 ^ 52 * 2 ^ d2) as Hc by nia.
    rewrite <- !Z.pow_add_r in Hc by lia. apply Z.pow_lt_mono_r_iff in Hc; lia.
  - apply Qle_shift_div_l; [done|]. cbn [val].
    pose proof (new_location_least (Z.pos m2) r q ltac:(lia) Hr) as Hl.
    replace (q * Z.pos m2 + r) with (Z.pos m1 * 2 ^ s) in Hl by lia.
    pose proof (scale (Z.pos m1) (e1 - e2) e' ltac:(lia)) as Hsc. fold s in Hsc.
    pose proof (pw_add (e1 - e2) e2) as Ha. replace (e1 - e2 + e2) with e1 in Ha by lia.
    pose proof (pw_pos e'). pose proof (pw_pos e2). pose proof (pw_pos (e1 - e2)).
    rewrite Ha. set (L := least _) in *.
    assert (L * inject_Z (Z.pos m2) * pw e' <= inject_Z (Z.pos m1) * pw (e1 - e2))%Q by nra. nra.
Qed.

(** ** The order *)

Lemma SFcompare_val x y : fin_pos x → fin_pos y →
  match SFcompare x y with
  | Some Lt => val x <= val y
  | Some Eq => val x == val y
  | Some Gt => val y <= val x
  | None => False
  end%Q.
Proof.
  assert (Hlt : ∀ m1 e1 m2 e2, fin_pos (S754_finite false m1 e1) → fin_pos (S754_finite false m2 e2) → e1 < e2 →
            (inject_Z (Z.pos m1) * pw e1 <= inject_Z (Z.pos m2) * pw e2)%Q).
  { intros m1 e1 m2 e2 [H1 _]%fin_pos_exp [H2 _]%fin_pos_exp Hlt.
    destruct (Zdigits2_bounds (Z.pos m1)) as (Hu & _ & _), (Zdigits2_bounds (Z.pos m2)) as (_ & _ & Hl); [lia..|].
    specialize (Hl ltac:(lia)).
    assert (Z.pos m1 ≤ 2 ^ 53) as Hm1.
    { pose proof (Z.pow_le_mono_r 2 (Zdigits2 (Z.pos m1)) 53 ltac:(lia) ltac:(lia)). lia. }
    assert (2 ^ 53 ≤ 2 * Z.pos m2) as Hm2.
    { pose proof (Z.pow_le_mono_r 2 52 (Zdigits2 (Z.pos m2) - 1) ltac:(lia) ltac:(lia)). lia. }
    pose proof (pw_le (e1 + 1) e2 ltac:(lia)) as Hp. rewrite pw_S in Hp. pose proof (pw_pos e1).
    assert (Z.pos m1 ≤ 2 * Z.pos m2) as Hm by lia. rewrite Zle_Qle, inject_Z_mult in Hm.
    change (inject_Z 2) with 2%Q in Hm.
    assert (0 <= inject_Z (Z.pos m2))%Q by done. nra. }
  intros Hx Hy. pose proof (val_nonneg x Hx). pose proof (val_nonneg y Hy).
  destruct x as [s1|[]| |[] m1 e1]; try done; destruct y as [s2|[]| |[] m2 e2]; try done.
  cbn [SFcompare val]. destruct (Z.compare_spec e1 e2) as [->|?|?]; [|by apply Hlt..].
  change (Pos.compare_cont Eq m1 m2) with (m1 ?= m2)%positive. pose proof (pw_pos e2).
  destruct (Pos.compare_spec m1 m2) as [->|Hm|Hm]; [reflexivity|..];
    assert (Hz := Pos2Z.pos_le_pos _ _ (Pos.lt_le_incl _ _ Hm)); rewrite Zle_Qle in Hz; nra.
Qed.

Lemma f_le_val x y : fin_pos x → fin_pos y → f_le x y = true → (val x <= val y)%Q.
Proof.
  intros Hx Hy. pose proof (SFcompare_val x y Hx Hy) as H. unfold f_le, SFleb.
  destruct (SFcompare x y) as [[]|]; try done. intros _. lra.
Qed.

Lemma f_not_lt_val x y : fin_pos x → fin_pos y → f_lt x y = false → (val y <= val x)%Q.
Proof.
  intros Hx Hy. pose proof (SFcompare_val x y Hx Hy) as H. unfold f_lt, SFltb.
  destruct (SFcompare x y) as [[]|]; try done. intros _. lra.
Qed.

Lemma f_lt_val x y : fin_pos x → fin_pos y → f_lt x y = true → (val x <= val y)%Q.
Proof.
  intros Hx Hy. pose proof (SFcompare_val x y Hx Hy) as H. unfold f_lt, SFltb.
  by destruct (SFcompare x y) as [[]|].
Qed.
