(* ===== verification/Resilience.v ===== *)
(** * Circuit breaker, retries and timeouts of the Fabric Manager

    [src/src/FM/pkg/resilience]: [circuit_breaker.go], [retry.go], [timeout.go].
    The clock, the protected function and the random source are arguments: each
    operation takes the readings of the clock it makes and what the function
    returned. *)

From S2P Require Import Prelude GoFloat.

(** ** circuit_breaker.go *)

Inductive CircuitState : Type := StateClosed | StateOpen | StateHalfOpen.

#[export] Instance CircuitState_eq_dec : EqDecision CircuitState.
Proof. solve_decision. Defined.

Definition CircuitState_String (cs : CircuitState) : string :=
  match cs with
  | StateClosed => "CLOSED"
  | StateOpen => "OPEN"
  | StateHalfOpen => "HALF_OPEN"
  end.

Record CircuitBreaker : Type := mkCB {
  state : CircuitState;
  failureCount : Z;
  failureThreshold : Z;
  successCount : Z;
  successThreshold : Z;
  lastFailureTime : Time;
  timeout : Duration
}.

Definition NewCircuitBreaker (failureThreshold successThreshold timeout : Z) : CircuitBreaker :=
  let failureThreshold := if failureThreshold <? 1 then 5 else failureThreshold in
  let successThreshold := if successThreshold <? 1 then 2 else successThreshold in
  let timeout := if timeout <? 1 then 30 * Second else timeout in
  mkCB StateClosed 0 failureThreshold 0 successThreshold zero_time timeout.

Definition set_state (cb : CircuitBreaker) (s : CircuitState) : CircuitBreaker :=
  mkCB s (failureCount cb) (failureThreshold cb) (successCount cb) (successThreshold cb)
       (lastFailureTime cb) (timeout cb).

Definition recordFailure (now : Time) (cb : CircuitBreaker) : CircuitBreaker :=
  let cb := mkCB (state cb) (failureCount cb +64 1) (failureThreshold cb) 0
                 (successThreshold cb) now (timeout cb) in
  if failureThreshold cb <=? failureCount cb then set_state cb StateOpen else cb.

Definition recordSuccess (cb : CircuitBreaker) : CircuitBreaker :=
  let cb := mkCB (state cb) 0 (failureThreshold cb) (successCount cb +64 1)
                 (successThreshold cb) (lastFailureTime cb) (timeout cb) in
  if bool_decide (state cb = StateHalfOpen) && (successThreshold cb <=? successCount cb)
  then set_state cb StateClosed else cb.

(** What the protected function does: return an error or nil, or panic. *)
Abbreviation fn_outcome := (outcome (option error)) (only parsing).

Definition ErrCircuitOpen : error := Errorf "circuit breaker open: service unavailable".

(** The transition at the start of [Call], at the clock reading [now]. *)
Definition try_half_open (now : Time) (cb : CircuitBreaker) : CircuitBreaker :=
  if bool_decide (state cb = StateOpen) && (timeout cb <? time_Since now (lastFailureTime cb))
  then mkCB StateHalfOpen (failureCount cb) (failureThreshold cb) 0 (successThreshold cb)
            (lastFailureTime cb) (timeout cb)
  else cb.

(** [Call fn]: [now] is read before, [after] when a failure is recorded; [fn] is
    what the function does if it is called.  The result also says whether it
    was. *)
Definition Call (cb : CircuitBreaker) (now after : Time) (fn : fn_outcome)
    : CircuitBreaker * fn_outcome * bool :=
  let cb := try_half_open now cb in
  if bool_decide (state cb = StateOpen) then (cb, Ret (Some ErrCircuitOpen), false)
  else
    match fn with
    | Panic s => (cb, Panic s, true)
    | Ret (Some err) => (recordFailure after cb, Ret (Some err), true)
    | Ret None => (recordSuccess cb, Ret None, true)
    end.

Definition State (cb : CircuitBreaker) : CircuitState := state cb.

Definition Reset (cb : CircuitBreaker) : CircuitBreaker :=
  mkCB StateClosed 0 (failureThreshold cb) 0 (successThreshold cb) zero_time (timeout cb).

(** A history of calls. *)
Record call : Type := mkCall { c_now : Time; c_after : Time; c_fn : fn_outcome }.

Fixpoint calls (cb : CircuitBreaker) (cs : list call) : CircuitBreaker * list (fn_outcome * bool) :=
  match cs with
  | [] => (cb, [])
  | c :: cs =>
      let '(cb, r, b) := Call cb (c_now c) (c_after c) (c_fn c) in
      let '(cb, rs) := calls cb cs in
      (cb, (r, b) :: rs)
  end.

(** ** retry.go *)

Record RetryPolicy : Type := mkPolicy {
  MaxRetries : Z;
  InitialBackoff : Duration;
  MaxBackoff : Duration;
  BackoffMultiplier : f64;
  JitterFraction : f64
}.

Definition DefaultRetryPolicy : RetryPolicy :=
  mkPolicy 3 (100 * Millisecond) (10 * Second) (f_of_Z 2) (f_lit 1 10).

Section Retry.
(** See [GoFloat.i64_of_f]. *)
Context (f2i_undefined : f64 → Z).

(** [r] is the value [rand.Float64()] returns. *)
Definition calculateBackoff (rp : RetryPolicy) (attempt : Z) (r : f64) : Duration :=
  let backoff := i64_of_f f2i_undefined
    (f_mul (f_of_Z (InitialBackoff rp)) (pow_nat (BackoffMultiplier rp) attempt)) in
  let backoff := if MaxBackoff rp <? backoff then MaxBackoff rp else backoff in
  let jitter := i64_of_f f2i_undefined
    (f_mul (f_mul (f_of_Z backoff) (JitterFraction rp)) (f_sub (f_mul r f_two) f_one)) in
  backoff +64 jitter.

(** The surroundings of one [Attempt]: what the function returns the i-th time
    it is called, the context's error at the check before attempt [i] and during
    the wait after it ([None]: not done, or the timer fired), and the random
    numbers drawn. *)
Record Env : Type := mkEnv {
  env_fn : nat → option error;
  env_done : nat → option error;
  env_wait : nat → option error;
  env_rand : nat → f64
}.

(** Result, number of calls of the function, and the waits entered. *)
Record trace : Type := mkTrace {
  t_err : option error;
  t_calls : nat;
  t_waits : list Duration
}.

Definition retry_cancelled (e : error) : error := Wrapf "retry cancelled: " e "".

(** With no attempt made, [%w] formats a nil error. *)
Definition max_retries (lastErr : option error) : error :=
  match lastErr with
  | Some e => Wrapf "max retries exceeded (last error: " e ")"
  | None => Errorf "max retries exceeded (last error: %!w(<nil>))"
  end.

(** The loop from attempt [i] on, [n] attempts being left; [waits] is in reverse
    order. *)
Fixpoint attempt_loop (rp : RetryPolicy) (env : Env) (n i : nat) (lastErr : option error)
    (waits : list Duration) : trace :=
  match n with
  | O => mkTrace (Some (max_retries lastErr)) i (rev waits)
  | S n =>
      match env_done env i with
      | Some e => mkTrace (Some (retry_cancelled e)) i (rev waits)
      | None =>
          match env_fn env i with
          | None => mkTrace None (S i) (rev waits)
          | Some err =>
              if Z.of_nat i <? MaxRetries rp then
                let backoff := calculateBackoff rp (Z.of_nat i) (env_rand env i) in
                match env_wait env i with
                | Some e => mkTrace (Some (retry_cancelled e)) (S i) (rev (backoff :: waits))
                | None => attempt_loop rp env n (S i) (Some err) (backoff :: waits)
                end
              else attempt_loop rp env n (S i) (Some err) waits
          end
      end
  end.

(** [for attempt := 0; attempt <= MaxRetries; attempt++] *)
Definition Attempt (rp : RetryPolicy) (env : Env) : trace :=
  attempt_loop rp env (Z.to_nat (MaxRetries rp + 1)) 0 None [].

(** [AttemptAsync] sends the result of [Attempt] on a channel of capacity one;
    the channel as the list of what can be received from it once the goroutine
    is done. *)
Definition AttemptAsync (rp : RetryPolicy) (env : Env) : list (option error) :=
  [t_err (Attempt rp env)].

End Retry.

(** ** timeout.go *)

(** A context, by its deadline and its error once it is done. *)
Record Context : Type := mkCtx {
  Deadline : option Time;
  ctx_Err : option error
}.

(** [context.WithDeadline]: the parent's deadline wins if it is earlier; the child
    of a context that is done is done, and so is one whose deadline has passed. *)
Definition WithDeadline (now : Time) (parent : Context) (d : Time) : Context :=
  let child :=
    mkCtx (Some d) (match ctx_Err parent with
                    | Some e => Some e
                    | None => if d <=? now then Some ctx_DeadlineExceeded else None
                    end) in
  match Deadline parent with
  | Some c => if c <? d then parent else child
  | None => child
  end.

Definition context_WithTimeout (now : Time) (parent : Context) (d : Duration) : Context :=
  WithDeadline now parent (now + d).

Record TimeoutManager : Type := mkTM {
  totalTimeout : Duration;
  stageTimeouts : gmap string Duration
}.

Definition NewTimeoutManager (totalTimeout : Duration) : TimeoutManager := mkTM totalTimeout ∅.

Definition SetStageTimeout (tm : TimeoutManager) (stage : string) (timeout : Duration) : TimeoutManager :=
  mkTM (totalTimeout tm) (<[stage := timeout]> (stageTimeouts tm)).

(** The timeout [WithTimeout] chooses. *)
Definition stage_timeout (tm : TimeoutManager) (stage : string) : Duration :=
  let timeout := match stageTimeouts tm !! stage with Some t => t | None => totalTimeout tm end in
  if timeout =? 0 then 30 * Second else timeout.

Definition WithTimeout (tm : TimeoutManager) (now : Time) (ctx : Context) (stage : string) : Context :=
  context_WithTimeout now ctx (stage_timeout tm stage).

Definition IsExceeded (tm : TimeoutManager) (ctx : Context) : bool :=
  match ctx_Err ctx with Some _ => true | None => false end.

Inductive ErrorType : Type :=
| ErrorTypeTransient
| ErrorTypePermanent
| ErrorTypeTimeout
| ErrorTypeCircuitOpen.

#[export] Instance ErrorType_eq_dec : EqDecision ErrorType.
Proof. solve_decision. Defined.

Definition transientPatterns : list string :=
  ["connection refused"; "network unreachable"; "temporary failure";
   "temporarily unavailable"; "deadline exceeded"].

Definition ClassifyError (err : option error) : ErrorType :=
  match err with
  | None => ErrorTypePermanent
  | Some err =>
      let errStr := Error err in
      if bool_decide (errStr = "circuit breaker open: service unavailable") then ErrorTypeCircuitOpen
      else if bool_decide (errStr = "context deadline exceeded") || bool_decide (errStr = "i/o timeout")
      then ErrorTypeTimeout
      else if existsb (λ pattern, bool_decide (errStr = pattern)) transientPatterns
      then ErrorTypeTransient
      else ErrorTypePermanent
  end.

Definition IsRetryable (err : option error) : bool :=
  bool_decide (ClassifyError err = ErrorTypeTransient).

Definition ErrDeviceProgrammingFailed : error := Errorf "device programming failed".
Definition ErrDeviceProgrammingTimeout : error := Errorf "device programming timeout".
Definition ErrDeviceNotReady : error := Errorf "device not ready".
Definition ErrDeviceUnreachable : error := Errorf "device unreachable".
Definition ErrPluginNotFound : error := Errorf "plugin not found".
Definition ErrPluginInitFailed : error := Errorf "plugin initialization failed".
Definition ErrPluginExecutionFailed : error := Errorf "plugin execution failed".
Definition ErrPluginCrashed : error := Errorf "plugin crashed".
Definition ErrVendorNotSupported : error := Errorf "vendor not supported".
Definition ErrVendorUnreachable : error := Errorf "vendor unreachable".
Definition ErrVendorQuotaExceeded : error := Errorf "vendor quota exceeded".
Definition ErrVendorAuthFailed : error := Errorf "vendor authentication failed".
Definition ErrInvalidConfiguration : error := Errorf "invalid configuration".
Definition ErrMissingConfiguration : error := Errorf "missing required configuration".
Definition ErrConsistencyViolation : error := Errorf "consistency violation detected".
Definition ErrConsistencyCheckFailed : error := Errorf "consistency check failed".
Definition ErrPoolExhausted : error := Errorf "worker pool exhausted".
Definition ErrQueueFull : error := Errorf "job queue full".
Definition ErrResourceLimitExceeded : error := Errorf "resource limit exceeded".

(** ** Lemmas: the breaker *)

(** Consecutive failures at the end of a history of results ([true] a failure),
    [s] being those before it, and the longest such streak it ever reaches. *)
Fixpoint streak (s : Z) (rs : list bool) : Z :=
  match rs with
  | [] => s
  | true :: rs => streak (s + 1) rs
  | false :: rs => streak 0 rs
  end.

Fixpoint peak (s : Z) (rs : list bool) : Z :=
  match rs with
  | [] => s
  | true :: rs => Z.max s (peak (s + 1) rs)
  | false :: rs => Z.max s (peak 0 rs)
  end.

Lemma peak_ge s rs : s ≤ peak s rs.
Proof. destruct rs as [|[] rs]; simpl; lia. Qed.

Lemma peak_app s rs rs' : peak s (rs ++ rs') = Z.max (peak s rs) (peak (streak s rs) rs').
Proof.
  revert s. induction rs as [|[] rs IH]; intros s; simpl; [|rewrite IH; lia..].
  pose proof (peak_ge s rs'). lia.
Qed.

Lemma streak_nonneg s rs : 0 ≤ s → 0 ≤ streak s rs.
Proof. revert s. induction rs as [|[] rs IH]; intros s Hs; simpl; [done|apply IH; lia|apply IH; lia]. Qed.

Lemma streak_le_peak s rs : streak s rs ≤ peak s rs.
Proof.
  revert s. induction rs as [|[] rs IH]; intros s; simpl; [lia|..].
  - specialize (IH (s + 1)). lia.
  - specialize (IH 0). lia.
Qed.

Lemma streak_snoc s rs b : streak s (rs ++ [b]) = if b then streak s rs + 1 else 0.
Proof. revert s. induction rs as [|[] rs IH]; intros s; simpl; [by destruct b|apply IH..]. Qed.

(** A call whose function returns. *)
Definition plain (c : call) (failed : bool) : Prop :=
  ∃ r, c_fn c = Ret r ∧ failed = bool_decide (is_Some r).

(** The counters after a history that stayed closed. *)
Definition closed_at (cb cb' : CircuitBreaker) (n : Z) : Prop :=
  state cb' = StateClosed ∧ failureCount cb' = n ∧
  failureThreshold cb' = failureThreshold cb ∧ successThreshold cb' = successThreshold cb ∧
  timeout cb' = timeout cb.

Lemma Call_closed cb c failed :
  state cb = StateClosed → plain c failed →
  0 ≤ failureCount cb < failureThreshold cb → failureThreshold cb ≤ int64_max →
  let '(cb', r, ran) := Call cb (c_now c) (c_after c) (c_fn c) in
  r = c_fn c ∧ ran = true ∧
  if failed then
    if failureThreshold cb <=? failureCount cb + 1
    then state cb' = StateOpen ∧ lastFailureTime cb' = c_after c ∧
         failureCount cb' = failureCount cb + 1 ∧ failureThreshold cb' = failureThreshold cb
    else closed_at cb cb' (failureCount cb + 1)
  else closed_at cb cb' 0.
Proof.
  intros Hst (r & Hr & ->) Hc Ht. unfold Call, try_half_open. rewrite Hst, Hr. simpl.
  rewrite Hst. simpl. destruct r as [err|]; simpl.
  - unfold recordFailure. simpl. rewrite wrap64_id by (unfold in_int64, int64_min in *; lia).
    split; [done|]. split; [done|]. destruct (_ <=? _) eqn:E; simpl; [done|]. by split_and!.
  - unfold recordSuccess. simpl. rewrite Hst. simpl. by split_and!.
Qed.

(** A history without a long enough streak of failures: every call runs its
    function and returns its result, and the breaker stays closed. *)
Lemma calls_closed cb cs fails :
  Forall2 plain cs fails → state cb = StateClosed →
  0 ≤ failureCount cb → peak (failureCount cb) fails < failureThreshold cb →
  failureThreshold cb ≤ int64_max →
  let '(cb', rs) := calls cb cs in
  rs = map (λ c, (c_fn c, true)) cs ∧ closed_at cb cb' (streak (failureCount cb) fails).
Proof.
  intros HF. revert cb. induction HF as [|c failed cs fails Hc HF IH]; intros cb Hst H0 Hp Ht; simpl.
  { by split_and!. }
  pose proof (Call_closed cb c failed Hst Hc) as Hcall.
  pose proof (peak_ge (failureCount cb) (failed :: fails)) as Hge.
  destruct (Call cb _ _ _) as [[cb1 r] ran].
  destruct Hcall as (-> & -> & Hcl); [lia|lia|].
  pose proof (peak_ge (failureCount cb + 1) fails) as Hg1.
  assert (closed_at cb cb1 (if failed then failureCount cb + 1 else 0)) as (Hs1 & Hf1 & Ht1 & Hu1 & Hv1).
  { destruct failed; [|done]. simpl in Hp. destruct (_ <=? _) eqn:E; [go_bool; lia|done]. }
  specialize (IH cb1 Hs1). destruct (calls cb1 cs) as [cb2 rs].
  destruct IH as (-> & Hs2 & Hf2 & Ht2 & Hu2 & Hv2);
    [rewrite Hf1; destruct failed; lia
    |rewrite Hf1, Ht1; destruct failed; simpl in Hp; lia|by rewrite Ht1|].
  split; [done|]. split_and!; try congruence. rewrite Hf2, Hf1. by destruct failed.
Qed.

Lemma calls_app cb cs cs' :
  calls cb (cs ++ cs') =
  let '(cb1, rs) := calls cb cs in let '(cb2, rs') := calls cb1 cs' in (cb2, rs ++ rs').
Proof.
  revert cb. induction cs as [|c cs IH]; intros cb; simpl.
  { by destruct (calls cb cs'). }
  destruct (Call cb _ _ _) as [[cb1 r] ran]. rewrite IH.
  destruct (calls cb1 cs) as [cb2 rs]. by destruct (calls cb2 cs').
Qed.

(** Successes in the half-open state, [k] of them still missing. *)
Lemma calls_half_open cb cs :
  state cb = StateHalfOpen → (∀ c, c ∈ cs → c_fn c = Ret None) →
  0 ≤ successCount cb → successCount cb < successThreshold cb ≤ int64_max →
  Z.of_nat (length cs) = successThreshold cb - successCount cb →
  let '(cb', rs) := calls cb cs in
  rs = map (λ c, (c_fn c, true)) cs ∧ closed_at cb cb' 0.
Proof.
  revert cb. induction cs as [|c cs IH]; intros cb Hst Hok H0 Hlt Hn; simpl in *; [lia|].
  unfold Call, try_half_open. rewrite Hst. simpl. rewrite Hst, (Hok c) by set_solver. simpl.
  unfold recordSuccess at 1. simpl. rewrite Hst. simpl.
  rewrite wrap64_id by (unfold in_int64, int64_min in *; lia).
  destruct (successThreshold cb <=? successCount cb + 1) eqn:E; go_bool.
  - destruct cs; simpl in *; [|lia]. unfold closed_at, set_state; simpl. by split_and!.
  - specialize (IH (mkCB StateHalfOpen 0 (failureThreshold cb) (successCount cb + 1)
      (successThreshold cb) (lastFailureTime cb) (timeout cb))). simpl in IH.
    destruct (calls _ cs) as [cb' rs].
    destruct IH as (-> & Hcl); [done|set_solver|lia|lia|lia|]. split; [done|].
    destruct Hcl as (? & ? & ? & ? & ?). by split_and!.
Qed.

(** ** Theorems: the breaker *)

(** C23 The breaker trips exactly on [failureThreshold] consecutive failures.
    From a new breaker, as long as no run of that many calls in a row failed,
    every call runs the function and returns its result and the circuit stays
    closed, counting the failures since the last success; the failure that
    completes such a run opens it, at the time that failure was recorded. *)
Theorem breaker_trips (ft sth : Z) (tmo : Duration) (cs : list call) (fails : list bool)
    (c : call) (failed : bool)
    (Hcs : Forall2 plain cs fails) (Hc : plain c failed) (Hft : ft ≤ int64_max)
    (Hp : peak 0 fails < failureThreshold (NewCircuitBreaker ft sth tmo)) :
  let '(cb, rs) := calls (NewCircuitBreaker ft sth tmo) cs in
  let '(cb', r, ran) := Call cb (c_now c) (c_after c) (c_fn c) in
  rs = map (λ c, (c_fn c, true)) cs ∧ state cb = StateClosed ∧
  failureCount cb = streak 0 fails ∧ r = c_fn c ∧ ran = true ∧
  (state cb' = StateOpen ↔ streak 0 (fails ++ [failed]) = failureThreshold cb) ∧
  (state cb' = StateOpen → lastFailureTime cb' = c_after c).
Proof.
  set (cb0 := NewCircuitBreaker ft sth tmo) in *.
  assert (failureThreshold cb0 ≤ int64_max) as Ht0.
  { unfold cb0, NewCircuitBreaker; simpl. destruct (ft <? 1); unfold int64_max in *; lia. }
  pose proof (calls_closed cb0 cs fails Hcs eq_refl) as Hcl. simpl in Hcl.
  destruct (calls cb0 cs) as [cb rs].
  destruct Hcl as (-> & Hst & Hf & Ht & _ & _); [lia|done|done|].
  pose proof (streak_nonneg 0 fails ltac:(lia)) as Hs0. pose proof (streak_le_peak 0 fails) as Hsp.
  rename Ht into Ht'.
  pose proof (Call_closed cb c failed Hst Hc ltac:(rewrite Hf, Ht'; lia) ltac:(rewrite Ht'; lia)) as Hcall.
  destruct (Call cb _ _ _) as [[cb' r] ran]. destruct Hcall as (-> & -> & Hcase).
  rewrite streak_snoc. split_and!; try done.
  - destruct failed; [|destruct Hcase as (-> & _); split; [done|lia]].
    rewrite Hf in Hcase. destruct (_ <=? _) eqn:E; go_bool.
    + destruct Hcase as (-> & _). split; [lia|done].
    + destruct Hcase as (-> & _). split; [done|lia].
  - intros Ho. destruct failed; [|destruct Hcase as (? & _); congruence].
    destruct (_ <=? _); [by destruct Hcase as (_ & -> & _)|destruct Hcase as (? & _); congruence].
Qed.

Definition fails_at (t : Time) : call := mkCall t (t + 1) (Ret (Some (Errorf "down"))).
Definition works_at (t : Time) : call := mkCall t (t + 1) (Ret None).

Lemma breaker_trips_witness :
  let cs := [fails_at 10; fails_at 20; works_at 30; fails_at 40; fails_at 50] in
  let '(cb, rs) := calls (NewCircuitBreaker 3 2 Second) cs in
  let '(cb', r, ran) := Call cb 60 61 (Ret (Some (Errorf "down"))) in
  rs = map (λ c, (c_fn c, true)) cs ∧ state cb = StateClosed ∧ failureCount cb = 2 ∧
  r = Ret (Some (Errorf "down")) ∧ ran = true ∧
  (state cb' = StateOpen ↔ 3 = failureThreshold cb) ∧
  (state cb' = StateOpen → lastFailureTime cb' = 61).
Proof.
  refine (breaker_trips 3 2 Second [fails_at 10; fails_at 20; works_at 30; fails_at 40; fails_at 50]
    [true; true; false; true; true] (fails_at 60) true _ _ _ _).
  - repeat constructor; eexists; split; reflexivity.
  - eexists. split; reflexivity.
  - vm_compute. discriminate.
  - vm_compute. reflexivity.
Defined.

(** C24 An open circuit fails fast and recovers by trial. Until [timeout] has
    passed since the failure that opened it, a call does not run the function,
    returns the error that [ClassifyError] calls [ErrorTypeCircuitOpen], and
    changes nothing. After that the next call is a trial: if it fails the circuit
    is open again from that moment; [successThreshold] successes in a row close
    it, with no failures counted. *)
Theorem breaker_recovers (cb : CircuitBreaker) (now after : Time)
    (Hst : state cb = StateOpen)
    (Hf : 1 ≤ failureThreshold cb ∧ failureThreshold cb ≤ failureCount cb < int64_max)
    (Hs : 1 ≤ successThreshold cb ≤ int64_max) :
  if time_Since now (lastFailureTime cb) <=? timeout cb then
    ∀ fn, Call cb now after fn = (cb, Ret (Some ErrCircuitOpen), false) ∧
          ClassifyError (Some ErrCircuitOpen) = ErrorTypeCircuitOpen
  else
    (∀ err, let '(cb', r, ran) := Call cb now after (Ret (Some err)) in
       r = Ret (Some err) ∧ ran = true ∧ state cb' = StateOpen ∧ lastFailureTime cb' = after) ∧
    (∀ c cs, c_now c = now → c_fn c = Ret None → (∀ c', c' ∈ cs → c_fn c' = Ret None) →
       Z.of_nat (length (c :: cs)) = successThreshold cb →
       let '(cb', rs) := calls cb (c :: cs) in
       rs = map (λ c, (c_fn c, true)) (c :: cs) ∧ closed_at cb cb' 0).
Proof.
  destruct (_ <=? _) eqn:E; go_bool.
  - intros fn. split; [|done]. unfold Call, try_half_open. rewrite Hst. simpl.
    rewrite (proj2 (Z.ltb_ge _ _)) by done. by rewrite Hst.
  - assert (try_half_open now cb = mkCB StateHalfOpen (failureCount cb) (failureThreshold cb) 0
      (successThreshold cb) (lastFailureTime cb) (timeout cb)) as Ht.
    { unfold try_half_open. rewrite Hst, (proj2 (Z.ltb_lt _ _)) by done. done. }
    split.
    + intros err. unfold Call. rewrite Ht. simpl. unfold recordFailure. simpl.
      rewrite wrap64_id by (unfold in_int64, int64_min, int64_max in *; lia).
      rewrite (proj2 (Z.leb_le _ _)) by lia. done.
    + intros c cs <- Hc Hcs Hn.
      pose proof (calls_half_open (try_half_open (c_now c) cb) (c :: cs)) as Hh.
      assert (calls (try_half_open (c_now c) cb) (c :: cs) = calls cb (c :: cs)) as Heq.
      { simpl. unfold Call. by rewrite !Ht. }
      rewrite Heq, Ht in Hh. apply Hh; simpl in *; [done| |lia|lia|lia].
      intros c' [->|?]%elem_of_cons; [done|by apply Hcs].
Qed.

Lemma breaker_recovers_witness :
  let cb := mkCB StateOpen 3 3 0 2 0 Second in
  (∀ err, let '(cb', r, ran) := Call cb (2 * Second) 7 (Ret (Some err)) in
     r = Ret (Some err) ∧ ran = true ∧ state cb' = StateOpen ∧ lastFailureTime cb' = 7) ∧
  (∀ c cs, c_now c = 2 * Second → c_fn c = Ret None → (∀ c', c' ∈ cs → c_fn c' = Ret None) →
     Z.of_nat (length (c :: cs)) = 2 →
     let '(cb', rs) := calls cb (c :: cs) in
     rs = map (λ c, (c_fn c, true)) (c :: cs) ∧ closed_at cb cb' 0).
Proof.
  exact (breaker_recovers (mkCB StateOpen 3 3 0 2 0 Second) (2 * Second) 7 eq_refl
           ltac:(vm_compute; repeat split; discriminate)
           ltac:(vm_compute; split; discriminate)).
Defined.

(** One success in the half-open state disarms the trial: after it, a failure
    leaves the circuit half-open (it takes [failureThreshold] failures in a row
    to open it again), since the success reset the failure count. *)
Theorem half_open_disarmed (cb : CircuitBreaker) (n1 a1 n2 a2 : Time) (err : error)
    (Hst : state cb = StateHalfOpen) (Hf : 1 < failureThreshold cb)
    (Hs : 0 ≤ successCount cb) (Hs1 : successCount cb + 1 < successThreshold cb ≤ int64_max) :
  let '(cb1, _, _) := Call cb n1 a1 (Ret None) in
  let '(cb2, _, ran) := Call cb1 n2 a2 (Ret (Some err)) in
  ran = true ∧ state cb2 = StateHalfOpen ∧ failureCount cb2 = 1 ∧ successCount cb2 = 0.
Proof.
  unfold Call at 1, try_half_open. rewrite Hst. simpl. rewrite Hst. simpl.
  unfold recordSuccess. simpl. rewrite Hst. simpl.
  rewrite wrap64_id by (unfold in_int64, int64_min, int64_max in *; lia).
  rewrite (proj2 (Z.leb_gt _ _)) by lia. unfold Call. simpl. unfold recordFailure. simpl.
  rewrite wrap64_id by (unfold in_int64, int64_min, int64_max in *; lia).
  by rewrite (proj2 (Z.leb_gt _ _)) by lia.
Qed.

Lemma half_open_disarmed_witness :
  let '(cb1, _, _) := Call (mkCB StateHalfOpen 5 5 0 3 0 Second) 1 2 (Ret None) in
  let '(cb2, _, ran) := Call cb1 3 4 (Ret (Some (Errorf "down"))) in
  ran = true ∧ state cb2 = StateHalfOpen ∧ failureCount cb2 = 1 ∧ successCount cb2 = 0.
Proof.
  exact (half_open_disarmed (mkCB StateHalfOpen 5 5 0 3 0 Second) 1 2 3 4 (Errorf "down") eq_refl
    ltac:(vm_compute; reflexivity) ltac:(vm_compute; discriminate)
    ltac:(vm_compute; split; [reflexivity|discriminate])).
Defined.

(** ** Retries *)

Section RetryProofs.
Context (f2i_undefined : f64 → Z).
Implicit Types (rp : RetryPolicy) (env : Env).

(** Attempt [k] is reached and succeeds: every earlier one failed and was waited
    for, and nobody cancelled. *)
Definition succeeds_at env (k : nat) : Prop :=
  env_done env k = None ∧ env_fn env k = None ∧
  ∀ j, (j < k)%nat → env_done env j = None ∧ is_Some (env_fn env j) ∧ env_wait env j = None.

(** The waits before attempt [k]. *)
Definition backoffs rp env (i k : nat) : list Duration :=
  map (λ j, calculateBackoff f2i_undefined rp (Z.of_nat j) (env_rand env j)) (seq i (k - i)).

Lemma backoffs_snoc rp env (i : nat) :
  backoffs rp env 0 (S i) =
  backoffs rp env 0 i ++ [calculateBackoff f2i_undefined rp (Z.of_nat i) (env_rand env i)].
Proof. unfold backoffs. by rewrite !Nat.sub_0_r, seq_S, map_app. Qed.

(** The loop entered at attempt [i] with the waits so far. *)
Lemma attempt_loop_spec rp env n i last :
  Z.of_nat (i + n) = MaxRetries rp + 1 →
  (∀ j, (j < i)%nat → env_done env j = None ∧ is_Some (env_fn env j) ∧ env_wait env j = None) →
  let t := attempt_loop f2i_undefined rp env n i last (rev (backoffs rp env 0 i)) in
  (t_calls t ≤ i + n)%nat ∧
  match t_err t with
  | None => ∃ k, (i ≤ k < i + n)%nat ∧ succeeds_at env k ∧ t_calls t = S k ∧
                 t_waits t = backoffs rp env 0 k
  | Some e =>
      (∀ k, (k < i + n)%nat → ¬ succeeds_at env k) ∧
      (e = max_retries (match n with O => last | S _ => env_fn env (i + n - 1) end) ∧
       t_calls t = (i + n)%nat ∧
       (n ≠ 0%nat → t_waits t = backoffs rp env 0 (i + n - 1)) ∨
       ∃ c j, (env_done env j = Some c ∨ env_wait env j = Some c) ∧ e = retry_cancelled c)
  end.
Proof.
  revert i last. induction n as [|n IH]; intros i last Hn Hpre; cbn [attempt_loop].
  { simpl. split; [lia|]. split; [|by left; split_and!; [|lia|]].
    intros k Hk (_ & Hs & _). destruct (Hpre k) as (_ & Hf & _); [lia|]. rewrite Hs in Hf. by destruct Hf. }
  assert (∀ c, env_done env i = Some c ∨ env_wait env i = Some c ∧ is_Some (env_fn env i) →
          ∀ k, (k < i + S n)%nat → ¬ succeeds_at env k) as Hno.
  { intros c Hc k Hk (Hd & Hs & Hj). destruct (decide (k < i)%nat) as [Hlt|].
    - destruct (Hpre k Hlt) as (_ & [? ?] & _). congruence.
    - destruct (decide (k = i)) as [->|]; [destruct Hc as [?|[_ [? ?]]]; congruence|].
      destruct (Hj i) as (? & _ & ?); [lia|]. destruct Hc as [?|[? _]]; congruence. }
  destruct (env_done env i) as [c|] eqn:Hd.
  { simpl. split; [lia|]. split; [by apply (Hno c); left|right; eauto]. }
  destruct (env_fn env i) as [err|] eqn:Hf.
  2:{ simpl. split; [lia|]. exists i. rewrite rev_involutive.
      split; [lia|]. split; [by split|done]. }
  assert (env_wait env i = None → ∀ j, (j < S i)%nat →
          env_done env j = None ∧ is_Some (env_fn env j) ∧ env_wait env j = None) as Hpre'.
  { intros Hw j Hj. destruct (decide (j = i)) as [->|]; [by rewrite Hf|apply Hpre; lia]. }
  destruct (Z.of_nat i <? MaxRetries rp) eqn:Em; go_bool.
  - destruct (env_wait env i) as [c|] eqn:Hw.
    { simpl. split; [lia|]. split; [by apply (Hno c); right|right; eauto]. }
    rewrite <- rev_unit, <- backoffs_snoc.
    specialize (IH (S i) (Some err) ltac:(lia) (Hpre' eq_refl)). cbn zeta in *.
    destruct (attempt_loop _ _ _ n (S i) _ _) as [e calls' ws]; simpl in *.
    replace (i + S n)%nat with (S (i + n)) in * by lia.
    destruct IH as [Hc IH]. split; [lia|]. destruct n as [|n]; [lia|].
    destruct e as [e|]; [|destruct IH as (k & ? & ?); exists k; split; [lia|done]].
    destruct IH as [Hk [(-> & Hcs & Hws)|Hx]]; (split; [done|]); [left|by right].
    split_and!; [|done|by intros _; apply Hws]. do 2 f_equal; lia.
  - assert (n = 0%nat) as -> by lia. simpl. rewrite rev_involutive.
    replace (i + 1 - 1)%nat with i by lia. split; [lia|]. split.
    + intros k Hk (_ & Hs & _). destruct (decide (k = i)) as [->|]; [congruence|].
      destruct (Hpre k) as (_ & [? ?] & _); [lia|]. congruence.
    + left. rewrite Hf. split_and!; [done|lia|done].
Qed.

(** C25 [Attempt] terminates after at most [MaxRetries + 1] calls. It succeeds
    exactly if some attempt within the budget succeeds with nothing cancelled
    before it: then it has called the function once per attempt up to that one,
    with the computed backoff between attempts. Otherwise it reports the
    cancellation, or, having used the whole budget and waited between attempts
    but not after the last, wraps the last error. *)
Theorem Attempt_spec rp env (Hmax : 0 ≤ MaxRetries rp) :
  let n := Z.to_nat (MaxRetries rp) in
  let t := Attempt f2i_undefined rp env in
  (t_calls t ≤ n + 1)%nat ∧
  match t_err t with
  | None => ∃ k, (k ≤ n)%nat ∧ succeeds_at env k ∧ t_calls t = S k ∧
                 t_waits t = backoffs rp env 0 k
  | Some e =>
      (∀ k, (k ≤ n)%nat → ¬ succeeds_at env k) ∧
      (e = max_retries (env_fn env n) ∧ t_calls t = (n + 1)%nat ∧ t_waits t = backoffs rp env 0 n ∨
       ∃ c j, (env_done env j = Some c ∨ env_wait env j = Some c) ∧ e = retry_cancelled c)
  end.
Proof.
  cbn zeta. unfold Attempt. replace (Z.to_nat (MaxRetries rp + 1)) with (S (Z.to_nat (MaxRetries rp))) by lia.
  set (n := Z.to_nat (MaxRetries rp)).
  pose proof (attempt_loop_spec rp env (S n) 0 None ltac:(lia)) as Hl.
  change (rev (backoffs rp env 0 0)) with (@nil Duration) in Hl. cbn zeta in Hl.
  destruct (attempt_loop _ _ _ _ _ _ _) as [e calls' ws]; simpl in *.
  destruct Hl as [Hc Hl]; [lia|]. split; [lia|]. destruct e as [e|].
  - destruct Hl as [Hk Hl]. split; [intros k ?; apply Hk; lia|].
    destruct Hl as [(-> & -> & Hw)|Hx]; [left|by right].
    rewrite Nat.sub_0_r in *. split_and!; [done|lia|by apply Hw].
  - destruct Hl as (k & ? & ?). exists k. split; [lia|done].
Qed.

End RetryProofs.

Lemma Attempt_spec_witness :
  let env := mkEnv (λ i, if (i <? 2)%nat then Some (Errorf "connection refused") else None)
                   (λ _, None) (λ _, None) (λ _, f_half) in
  let t := Attempt (λ _, 0) DefaultRetryPolicy env in
  (t_calls t ≤ 4)%nat ∧ t = mkTrace None 3 [100 * Millisecond; 200 * Millisecond].
Proof.
  set (env := mkEnv (λ i, if (i <? 2)%nat then Some (Errorf "connection refused") else None)
                   (λ _, None) (λ _, None) (λ _, f_half)).
  destruct (Attempt_spec (λ _, 0) DefaultRetryPolicy env ltac:(vm_compute; discriminate)) as [H1 _].
  split; [exact H1|vm_compute; reflexivity].
Defined.

(** The waits of the default policy: without jitter they double from 100ms,
    and they are capped at 10s however late the attempt; the jitter moves a wait
    by at most a tenth either way. *)
Theorem default_backoffs (f2i_undefined : f64 → Z) :
  let wait r i := calculateBackoff f2i_undefined DefaultRetryPolicy i r in
  map (wait f_half) [0; 1; 2; 3; 4; 5; 6; 7; 8; 30] =
    map (λ ms, ms * Millisecond) [100; 200; 400; 800; 1600; 3200; 6400; 10000; 10000; 10000] ∧
  map (wait f_zero) [0; 1; 2; 3] = map (λ ms, ms * Millisecond) [90; 180; 360; 720] ∧
  map (wait (f_lit (2 ^ 53 - 1) (2 ^ 53))) [0; 1; 2; 3] =
    [109999999; 219999999; 439999999; 879999999].
Proof. vm_compute. repeat split. Qed.
