(* ===== verification/CmCache.v ===== *)
(** * The deduplication cache of configuration management

    [src/src/FM/pkg/cm]: the events and their fingerprints ([types.go]) and the
    LRU cache of fingerprints ([cache.go]).  The pipeline ([CmPipeline]) uses the
    cache through the interface [DedupCache], whose laws the LRU cache
    discharges here. *)

From S2P Require Import Prelude GoFloat.

(** ** types.go *)

(** A JSON value of a payload: what [interfaceToString] tells apart. *)
Inductive value : Type :=
| VString (s : string)
| VFloat (f : f64)
| VBool (b : bool)
| VOther (json : string).

Record Event : Type := mkEvent {
  ID : string;
  VnetID : string;
  Type_ : string;
  Timestamp : Time;
  Payload : gmap string value;
  Fingerprint : string
}.

Record CacheStats : Type := mkCacheStats {
  cs_Size : Z;
  cs_Capacity : Z;
  cs_Hits : Z;
  cs_Misses : Z;
  cs_Evictions : Z;
  cs_HitRate : f64
}.

Section Fingerprint.
(** [strconv.FormatFloat(f, 'g', -1, 64)] and the hexadecimal SHA-256. *)
Context (FormatFloat : f64 → string) (sha256_hex : string → string).

Definition formatFloat (f : f64) : string := FormatFloat f.

Definition formatBool (b : bool) : string := if b then "true" else "false".

Definition interfaceToString (v : value) : string :=
  match v with
  | VString val => val
  | VFloat val => formatFloat val
  | VBool val => formatBool val
  | VOther _ => ""
  end.

Definition sortedKeys (m : gmap string value) : list string := sort_strings (map_to_list m).*1.

Fixpoint canonical_fields (data : gmap string value) (keys : list string) (result : string) : string :=
  match keys with
  | [] => result
  | k :: keys =>
      let v := match data !! k with Some v => v | None => VOther "" end in
      canonical_fields data keys (result +:+ (k +:+ ":" +:+ interfaceToString v +:+ ";"))
  end.

Definition canonicalJSON (data : gmap string value) : string :=
  canonical_fields data (sortedKeys data) "".

Definition ComputeFingerprint (e : Event) : string := sha256_hex (canonicalJSON (Payload e)).

End Fingerprint.

(** The interface [DedupCache], as the pipeline uses it. [CheckAndStore] reads
    the clock. *)
Class DedupCache (C : Type) : Type := {
  dc_CheckAndStore : Time → C → string → C * bool;
  dc_Size : C → Z;
  dc_Stats : C → CacheStats;
  dc_Clear : C → C
}.

(** What it promises: an abstract set of the remembered fingerprints. *)
Class DedupCacheLaws (C : Type) `{DedupCache C} : Type := {
  dc_ok : C → Prop;
  dc_remembers : C → string → Prop;
  dc_ok_check c now fp : dc_ok c → dc_ok (dc_CheckAndStore now c fp).1;
  dc_hit c now fp : dc_ok c → (dc_CheckAndStore now c fp).2 = true ↔ dc_remembers c fp;
  dc_stored c now fp : dc_ok c → dc_remembers (dc_CheckAndStore now c fp).1 fp
}.

(** ** cache.go *)

(** An element of the doubly linked list: its identity and its value. *)
Abbreviation element := (nat * string)%type (only parsing).

Record cacheEntry : Type := mkCacheEntry {
  ce_fingerprint : string;
  ce_timestamp : Time;
  ce_element : nat
}.

(** [lru] is the list from front to back; [next_elem] names the next element. *)
Record LRUCache : Type := mkLRU {
  maxSize : Z;
  data : gmap string cacheEntry;
  lru : list element;
  next_elem : nat;
  hits : Z;
  misses : Z;
  evictions : Z
}.

Definition NewLRUCache (maxSize : Z) : LRUCache :=
  mkLRU (if maxSize <=? 0 then 10000 else maxSize) ∅ [] 0 0 0 0.

(** [list.Remove], [list.MoveToFront]: no effect on an element not in the list. *)
Definition list_Remove (l : list element) (e : nat) : list element := filter (λ x, x.1 ≠ e) l.

Definition MoveToFront (l : list element) (e : nat) : list element :=
  filter (λ x, x.1 = e) l ++ list_Remove l e.

Definition evictLRU (c : LRUCache) : LRUCache :=
  match last (lru c) with
  | None => c
  | Some (e, v) =>
      mkLRU (maxSize c) (delete v (data c)) (list_Remove (lru c) e) (next_elem c)
            (hits c) (misses c) (evictions c +64 1)
  end.

Definition CheckAndStore (now : Time) (c : LRUCache) (fingerprint : string) : LRUCache * bool :=
  match data c !! fingerprint with
  | Some entry =>
      (mkLRU (maxSize c) (data c) (MoveToFront (lru c) (ce_element entry)) (next_elem c)
             (hits c +64 1) (misses c) (evictions c), true)
  | None =>
      let elem := next_elem c in
      let c := mkLRU (maxSize c)
                 (<[fingerprint := mkCacheEntry fingerprint now elem]> (data c))
                 ((elem, fingerprint) :: lru c) (S elem)
                 (hits c) (misses c +64 1) (evictions c) in
      (if maxSize c <? Z.of_nat (length (lru c)) then evictLRU c else c, false)
  end.

Definition Size (c : LRUCache) : Z := Z.of_nat (size (data c)).

Definition MaxSize (c : LRUCache) : Z := maxSize c.

Definition Stats (c : LRUCache) : CacheStats :=
  let total := hits c +64 misses c in
  let hitRate := if 0 <? total then f_div (f_of_Z (hits c)) (f_of_Z total) else f_zero in
  mkCacheStats (Z.of_nat (size (data c))) (maxSize c) (hits c) (misses c) (evictions c) hitRate.

Definition Clear (c : LRUCache) : LRUCache := mkLRU (maxSize c) ∅ [] (next_elem c) 0 0 0.

#[export] Instance LRUCache_dedup : DedupCache LRUCache :=
  {| dc_CheckAndStore := CheckAndStore; dc_Size := Size; dc_Stats := Stats; dc_Clear := Clear |}.

(** A history of lookups, at one time each. *)
Fixpoint checks (c : LRUCache) (ops : list (Time * string)) : LRUCache * list bool :=
  match ops with
  | [] => (c, [])
  | (now, fp) :: ops =>
      let '(c, b) := CheckAndStore now c fp in
      let '(c, bs) := checks c ops in (c, b :: bs)
  end.

(** ** The specification: a list of fingerprints, most recent first *)

(** The distinct elements of a list, in the order of their first occurrence. *)
Fixpoint distinct (l : list string) : list string :=
  match l with
  | [] => []
  | x :: l => x :: filter (.≠ x) (distinct l)
  end.

(** The [n] fingerprints used most recently, most recent first. *)
Definition recent (n : nat) (history : list string) : list string :=
  take n (distinct (rev history)).

(** ** Lemmas *)

Lemma elem_of_distinct l x : x ∈ distinct l ↔ x ∈ l.
Proof.
  induction l as [|y l IH]; simpl; [done|].
  rewrite !elem_of_cons, list_elem_of_filter, IH. destruct (decide (x = y)); naive_solver.
Qed.

Lemma filter_other (l : list string) x : x ∉ l → filter (.≠ x) l = l.
Proof.
  induction l as [|y l IH]; [done|]. intros Hx. apply not_elem_of_cons in Hx as [? ?].
  rewrite filter_cons_True by done. by rewrite IH.
Qed.

Lemma NoDup_distinct l : NoDup (distinct l).
Proof.
  induction l as [|x l IH]; simpl; constructor.
  - rewrite list_elem_of_filter. naive_solver.
  - by apply NoDup_filter.
Qed.

Lemma elem_of_take n (l : list string) x : x ∈ take n l → x ∈ l.
Proof. intros Hx. rewrite <- (take_drop n l). set_solver. Qed.

(** Using a remembered fingerprint moves it to the front of the window. *)
Lemma take_filter_hit n (l : list string) x :
  NoDup l → x ∈ take n l →
  take n (x :: filter (.≠ x) l) = x :: filter (.≠ x) (take n l).
Proof.
  revert n. induction l as [|y l IH]; intros n Hnd Hx; [by rewrite take_nil in Hx; apply elem_of_nil in Hx|].
  destruct n as [|n]; [by apply elem_of_nil in Hx|]. cbn [take] in *. f_equal.
  apply NoDup_cons in Hnd as [Hy Hnd].
  destruct (decide (y = x)) as [->|Hne].
  - rewrite !filter_cons_False by naive_solver.
    rewrite !filter_other; [done|by intros ?%elem_of_take|done].
  - rewrite !filter_cons_True by done. apply elem_of_cons in Hx as [?|Hx]; [by subst|].
    specialize (IH n Hnd Hx). destruct n as [|n]; [by apply elem_of_nil in Hx|].
    cbn [take] in *. by injection IH as ->.
Qed.

(** Using another one pushes the oldest out. *)
Lemma take_filter_miss n (l : list string) x :
  x ∉ take (S n) l → take n (filter (.≠ x) l) = take n l.
Proof.
  revert n. induction l as [|y l IH]; intros n Hx; [done|].
  cbn [take] in Hx. apply not_elem_of_cons in Hx as [Hne Hx].
  rewrite filter_cons_True by done. destruct n as [|n]; [done|]. cbn [take].
  by rewrite IH.
Qed.

Lemma recent_snoc n hs x :
  recent n (hs ++ [x]) = take n (x :: filter (.≠ x) (distinct (rev hs))).
Proof. unfold recent. by rewrite rev_unit. Qed.

Lemma filter_fmap_iff {A B} (f : A → B) (P : A → Prop) (Q : B → Prop)
    `{∀ x, Decision (P x)} `{∀ y, Decision (Q y)} (l : list A) :
  (∀ x, x ∈ l → P x ↔ Q (f x)) → f <$> filter P l = filter Q (f <$> l).
Proof.
  induction l as [|x l IH]; intros Hl; [done|]. cbn [fmap list_fmap].
  assert (P x ↔ Q (f x)) as Hx by (apply Hl; set_solver).
  destruct (decide (P x)) as [HP|HP].
  - rewrite !filter_cons_True by naive_solver. cbn [fmap list_fmap]. f_equal. apply IH. set_solver.
  - rewrite !filter_cons_False by naive_solver. apply IH. set_solver.
Qed.

(** ** The invariant *)

Record lru_ok (c : LRUCache) : Prop := {
  ok_max : 1 ≤ maxSize c;
  ok_len : Z.of_nat (length (lru c)) ≤ maxSize c;
  ok_elems : NoDup (lru c).*1;
  ok_values : NoDup (lru c).*2;
  ok_next e v : (e, v) ∈ lru c → (e < next_elem c)%nat;
  ok_data fp : match data c !! fp with
               | Some entry => (ce_element entry, fp) ∈ lru c
               | None => fp ∉ (lru c).*2
               end
}.

Lemma elem_of_snd (l : list element) e v : (e, v) ∈ l → v ∈ l.*2.
Proof. intros Hx. apply list_elem_of_fmap. by exists (e, v). Qed.

Lemma elem_of_fst (l : list element) e v : (e, v) ∈ l → e ∈ l.*1.
Proof. intros Hx. apply list_elem_of_fmap. by exists (e, v). Qed.

(** Within the list, identity and value determine each other. *)
Lemma ok_inj c e v e' v' :
  lru_ok c → (e, v) ∈ lru c → (e', v') ∈ lru c → e = e' ↔ v = v'.
Proof.
  intros W H1 H2. destruct W as [_ _ He Hv _ _]. revert He Hv H1 H2.
  induction (lru c) as [|[a b] l IH]; [by intros ?? ?%elem_of_nil|].
  intros [Ha He]%NoDup_cons [Hb Hv]%NoDup_cons H1 H2.
  apply elem_of_cons in H1 as [H1|H1]; apply elem_of_cons in H2 as [H2|H2]; simplify_eq/=.
  - done.
  - pose proof (elem_of_fst _ _ _ H2). pose proof (elem_of_snd _ _ _ H2). naive_solver.
  - pose proof (elem_of_fst _ _ _ H1). pose proof (elem_of_snd _ _ _ H1). naive_solver.
  - by apply IH.
Qed.

Lemma remembered_iff c fp : lru_ok c → is_Some (data c !! fp) ↔ fp ∈ (lru c).*2.
Proof.
  intros W. pose proof (ok_data c W fp) as Hd. destruct (data c !! fp) as [en|].
  - split; [intros _; by eapply elem_of_snd|by eexists].
  - split; [by intros [? ?]|done].
Qed.

Lemma size_data c : lru_ok c → size (data c) = length (lru c).
Proof.
  intros W. rewrite <- (length_fmap snd), <- (size_list_to_set (C := gset string)) by apply W.
  rewrite <- size_dom. f_equal. apply set_eq. intros fp.
  by rewrite elem_of_dom, remembered_iff, elem_of_list_to_set.
Qed.

(** The values the list keeps after [Remove] and [MoveToFront]. *)
Lemma Remove_values c e v :
  lru_ok c → (e, v) ∈ lru c → (list_Remove (lru c) e).*2 = filter (.≠ v) (lru c).*2.
Proof.
  intros W He. unfold list_Remove. apply filter_fmap_iff. intros [e' v'] H'. simpl.
  pose proof (ok_inj c e' v' e v W H' He). naive_solver.
Qed.

Lemma filter_element c e v : lru_ok c → (e, v) ∈ lru c → filter (λ x, x.1 = e) (lru c) = [(e, v)].
Proof.
  intros W He. pose proof (λ e' v', ok_inj c e' v' e v W) as Hinj.
  destruct W as [_ _ Hn _ _ _]. revert Hn He Hinj.
  induction (lru c) as [|[a b] l IH]; [by intros _ ?%elem_of_nil|].
  intros [Ha Hn]%NoDup_cons He Hinj. destruct (decide (a = e)) as [->|Hne].
  - rewrite filter_cons_True by done. f_equal.
    + f_equal. apply (Hinj e b); [set_solver|done|done].
    + destruct (filter _ l) as [|[e' v'] l'] eqn:E; [done|]. destruct Ha.
      assert ((e', v') ∈ filter (λ x, x.1 = e) l) as Hx by (rewrite E; set_solver).
      apply list_elem_of_filter in Hx as [? Hx]. simplify_eq/=. by eapply elem_of_fst.
  - rewrite filter_cons_False by done. apply IH; [done| |].
    + apply elem_of_cons in He as [?|?]; [by simplify_eq|done].
    + intros e' v' ? ?. by apply Hinj; apply elem_of_cons; right.
Qed.

(** *** [CheckAndStore] *)

Lemma NoDup_fmap_filter {A B} (f : A → B) (P : A → Prop) `{∀ x, Decision (P x)} (l : list A) :
  NoDup (f <$> l) → NoDup (f <$> filter P l).
Proof.
  induction l as [|x l IH]; [done|]. cbn [fmap list_fmap]. intros [Hx Hn]%NoDup_cons.
  destruct (decide (P x)); [rewrite filter_cons_True by done|rewrite filter_cons_False by done; auto].
  cbn [fmap list_fmap]. constructor; [|auto].
  intros (y & Heq & [_ Hy]%list_elem_of_filter)%list_elem_of_fmap. apply Hx.
  rewrite Heq. apply list_elem_of_fmap. eauto.
Qed.

Lemma Permutation_MoveToFront c e v :
  lru_ok c → (e, v) ∈ lru c → MoveToFront (lru c) e = (e, v) :: list_Remove (lru c) e.
Proof. intros W He. unfold MoveToFront. by rewrite (filter_element c e v). Qed.

Lemma elem_of_Remove (l : list element) e x : x ∈ list_Remove l e ↔ x.1 ≠ e ∧ x ∈ l.
Proof. unfold list_Remove. by rewrite list_elem_of_filter. Qed.

(** Removing the last element. *)
Lemma Remove_last (l : list element) e v :
  NoDup (l ++ [(e, v)]).*1 → list_Remove (l ++ [(e, v)]) e = l.
Proof.
  intros Hn. unfold list_Remove. rewrite filter_app, filter_cons_False by naive_solver.
  rewrite filter_nil, app_nil_r. rewrite fmap_app in Hn.
  apply NoDup_app in Hn as (_ & Hd & _).
  induction l as [|x l IH]; [done|]. rewrite filter_cons_True.
  - f_equal. apply IH. intros y Hy. apply Hd. set_solver.
  - intros Heq. apply (Hd x.1); [set_solver|]. simpl. set_solver.
Qed.

(** A hit: the fingerprint moves to the front. *)
Lemma check_hit c now fp :
  lru_ok c → fp ∈ (lru c).*2 →
  let '(c', b) := CheckAndStore now c fp in
  b = true ∧ lru_ok c' ∧ (lru c').*2 = fp :: filter (.≠ fp) (lru c).*2 ∧
  maxSize c' = maxSize c ∧ hits c' = hits c +64 1 ∧ misses c' = misses c ∧
  evictions c' = evictions c ∧ length (lru c') = length (lru c).
Proof.
  intros W Hfp. unfold CheckAndStore. pose proof (ok_data c W fp) as Hd.
  destruct (data c !! fp) as [en|] eqn:E; [|done]. simpl.
  set (e := ce_element en) in *.
  pose proof (Permutation_MoveToFront c e fp W Hd) as Hmv.
  pose proof (Remove_values c e fp W Hd) as Hval.
  assert (MoveToFront (lru c) e ≡ₚ lru c) as Hperm.
  { unfold MoveToFront, list_Remove. clear. induction (lru c) as [|x l IH]; [done|].
    destruct (decide (x.1 = e)).
    - rewrite filter_cons_True, filter_cons_False by naive_solver. simpl. by rewrite IH.
    - rewrite filter_cons_False, filter_cons_True by naive_solver.
      rewrite <- Permutation_middle. by rewrite IH. }
  split; [done|]. split_and!; try done.
  - split; simpl; try apply W.
    + rewrite Hperm. apply W.
    + rewrite Hperm. apply W.
    + rewrite Hperm. apply W.
    + intros e' v'. rewrite Hperm. apply W.
    + intros fp'. pose proof (ok_data c W fp') as Hd'. by destruct (data c !! fp'); rewrite Hperm.
  - simpl lru. by rewrite Hmv, fmap_cons, Hval.
  - simpl. by rewrite Hperm.
Qed.

(** A miss: the fingerprint is pushed at the front, and the last one dropped if
    the list was full. *)
Lemma check_miss c now fp :
  lru_ok c → fp ∉ (lru c).*2 →
  let '(c', b) := CheckAndStore now c fp in
  b = false ∧ lru_ok c' ∧ (lru c').*2 = take (Z.to_nat (maxSize c)) (fp :: (lru c).*2) ∧
  maxSize c' = maxSize c ∧ hits c' = hits c ∧ misses c' = misses c +64 1 ∧
  if Z.of_nat (length (lru c)) =? maxSize c
  then evictions c' = evictions c +64 1 ∧ length (lru c') = length (lru c)
  else evictions c' = evictions c ∧ length (lru c') = S (length (lru c)).
Proof.
  intros W Hfp. unfold CheckAndStore.
  pose proof (ok_data c W fp) as Hd. destruct (data c !! fp) as [en|] eqn:E.
  { destruct Hfp. by eapply elem_of_snd. }
  set (c1 := mkLRU (maxSize c) (<[fp := mkCacheEntry fp now (next_elem c)]> (data c))
               ((next_elem c, fp) :: lru c) (S (next_elem c)) (hits c) (misses c +64 1) (evictions c)).
  assert (∀ e v, (e, v) ∈ lru c1 → (e < S (next_elem c))%nat) as Hnext.
  { intros e v [?|He]%elem_of_cons; [simplify_eq; lia|]. apply (ok_next c W) in He. lia. }
  assert (NoDup (lru c1).*1) as He1.
  { simpl. constructor; [|apply W]. intros ([e v] & ? & He)%list_elem_of_fmap. simplify_eq/=.
    apply (ok_next c W) in He. lia. }
  assert (NoDup (lru c1).*2) as Hv1 by (simpl; by constructor; [|apply W]).
  assert (∀ fp', match data c1 !! fp' with
                 | Some entry => (ce_element entry, fp') ∈ lru c1
                 | None => fp' ∉ (lru c1).*2 end) as Hdat.
  { intros fp'. simpl. rewrite lookup_insert. case_decide as Heq; [subst; simpl; set_solver|].
    pose proof (ok_data c W fp') as Hd'. destruct (data c !! fp'); set_solver. }
  pose proof (ok_len c W) as Hlen. pose proof (ok_max c W) as Hmax.
  cbn [length lru] in *. destruct (maxSize c1 <? _) eqn:Ef; go_bool; simpl in Ef.
  - assert (∃ l0 e0 v0, lru c = l0 ++ [(e0, v0)]) as (l0 & e0 & v0 & El).
    { destruct (lru c) as [|x l0] using rev_ind; [simpl in *; lia|]. destruct x. eauto. }
    assert (lru c1 = ((next_elem c, fp) :: l0) ++ [(e0, v0)]) as El1 by (simpl; by rewrite El).
    assert (length (lru c) = S (length l0)) as Hl0 by (rewrite El, length_app; simpl; lia).
    unfold evictLRU. change (last ((next_elem c, fp) :: lru c)) with (last (lru c1)).
    rewrite El1, last_snoc, Remove_last by (by rewrite <- El1). cbn [data].
    rewrite El1 in *. rewrite (proj2 (Z.eqb_eq _ _)) by lia.
    rewrite !fmap_app in *. apply NoDup_app in He1 as (He1 & _ & _).
    apply NoDup_app in Hv1 as (Hv1 & Hv0 & _).
    split_and!; try done.
    + split; simpl; [done|lia|done|done| |].
      * intros e v He. apply (Hnext e v). apply elem_of_app. by left.
      * intros fp'. rewrite lookup_delete. specialize (Hdat fp').
        case_decide as Heq.
        -- subst. intros Hx. apply (Hv0 fp' Hx). set_solver.
        -- simpl in Hdat. destruct (<[fp:=_]> (data c) !! fp') as [en'|]; [|set_solver].
           rewrite app_comm_cons in Hdat. apply elem_of_app in Hdat as [?|Hx]; [done|]. apply list_elem_of_singleton in Hx. by simplify_eq.
    + simpl. rewrite El, fmap_app. simpl.
      replace (Z.to_nat (maxSize c)) with (S (length l0)) by lia. simpl. f_equal.
      rewrite take_app_le by (rewrite length_fmap; lia). by rewrite take_ge by (rewrite length_fmap; lia).
  - assert (Z.of_nat (length (lru c)) <> maxSize c) by lia.
    rewrite (proj2 (Z.eqb_neq _ _)) by done. split_and!; try done.
    simpl. rewrite take_ge by (simpl; rewrite length_fmap; lia). done.
Qed.

(** ** The interface is implemented *)

#[export] Instance LRUCache_laws : DedupCacheLaws LRUCache.
Proof.
  refine {| dc_ok := lru_ok; dc_remembers c fp := fp ∈ (lru c).*2 |};
    intros c now fp W; simpl; destruct (decide (fp ∈ (lru c).*2)) as [Hin|Hnin].
  - pose proof (check_hit c now fp W Hin) as Hc.
    destruct (CheckAndStore now c fp). by destruct Hc as (_ & ? & _).
  - pose proof (check_miss c now fp W Hnin) as Hc.
    destruct (CheckAndStore now c fp). by destruct Hc as (_ & ? & _).
  - pose proof (check_hit c now fp W Hin) as Hc.
    destruct (CheckAndStore now c fp). by destruct Hc as (-> & _).
  - pose proof (check_miss c now fp W Hnin) as Hc.
    destruct (CheckAndStore now c fp). destruct Hc as (-> & _). by split.
  - pose proof (check_hit c now fp W Hin) as Hc.
    destruct (CheckAndStore now c fp). simpl. destruct Hc as (_ & _ & -> & _). set_solver.
  - pose proof (check_miss c now fp W Hnin) as Hc.
    destruct (CheckAndStore now c fp). simpl. destruct Hc as (_ & _ & -> & _).
    pose proof (ok_max c W). destruct (Z.to_nat (maxSize c)) eqn:E; [lia|]. simpl. set_solver.
Defined.

(** ** Theorems *)

(** The state after a history, against the specification. *)
Record lru_after (n : Z) (hs : list string) (c : LRUCache) : Prop := {
  la_ok : lru_ok c;
  la_max : maxSize c = n;
  la_recent : (lru c).*2 = recent (Z.to_nat n) hs;
  la_total : hits c + misses c = Z.of_nat (length hs);
  la_size : Z.of_nat (length (lru c)) = misses c - evictions c;
  la_range : 0 ≤ hits c ∧ 0 ≤ misses c ∧ 0 ≤ evictions c ≤ misses c
}.

Lemma lru_after_step n hs c now fp :
  lru_after n hs c → Z.of_nat (length hs) < int64_max →
  let '(c', b) := CheckAndStore now c fp in
  b = bool_decide (fp ∈ recent (Z.to_nat n) hs) ∧ lru_after n (hs ++ [fp]) c'.
Proof.
  intros [W Hm Hr Ht Hs Hp] Hlen. pose proof (NoDup_distinct (rev hs)) as Hnd.
  assert (∀ z, 0 ≤ z < int64_max → wrap64 (z + 1) = z + 1) as Hw.
  { intros z Hz. apply wrap64_id. unfold in_int64, int64_min in *. lia. }
  pose proof (ok_len c W). pose proof (ok_max c W).
  rewrite <- Hr. destruct (decide (fp ∈ (lru c).*2)) as [Hin|Hnin].
  - pose proof (check_hit c now fp W Hin) as Hc. destruct (CheckAndStore now c fp) as [c' b].
    destruct Hc as (-> & W' & Hr' & Hm' & Hh & Hmi & He & Hl).
    rewrite bool_decide_true by done. split; [done|].
    split; rewrite ?Hh, ?Hmi, ?He, ?Hl, ?length_app, ?Hw by lia; simpl; try done; try lia.
    rewrite recent_snoc, Hr', Hr. rewrite take_filter_hit; [done|done|by rewrite Hr in Hin].
  - pose proof (check_miss c now fp W Hnin) as Hc. destruct (CheckAndStore now c fp) as [c' b].
    destruct Hc as (-> & W' & Hr' & Hm' & Hh & Hmi & He).
    rewrite bool_decide_false by done. split; [done|].
    assert (evictions c' ≤ misses c' ∧ 0 ≤ evictions c' ∧
            Z.of_nat (length (lru c')) = misses c' - evictions c') as (? & ? & ?).
    { rewrite Hmi, Hw by lia. destruct (_ =? _); destruct He as [-> ->]; rewrite ?Hw by lia; lia. }
    split; rewrite ?Hh, ?Hmi, ?length_app, ?Hw in * by lia; simpl; try done; try lia.
    rewrite recent_snoc, Hr', Hr, Hm. destruct (Z.to_nat n) as [|k] eqn:Ek; [lia|]. simpl.
      f_equal. unfold recent. rewrite take_take, Nat.min_l by lia.
      rewrite take_filter_miss; [done|]. by rewrite Hr in Hnin.
Qed.

(** C4 The cache is the LRU of its size: a lookup hits exactly when its
    fingerprint is one of the [maxSize] distinct fingerprints looked up most
    recently, and afterwards the cache holds exactly those, most recent first.
    It never exceeds its capacity, and its statistics account for every lookup:
    hits and misses add up to their number, misses less evictions to the size. *)
Theorem lru_refines_recent (n : Z) (ops : list (Time * string)) (now : Time) (fp : string)
    (Hn : Z.of_nat (length ops) < int64_max) :
  let '(c, _) := checks (NewLRUCache n) ops in
  let '(c', hit) := CheckAndStore now c fp in
  let window := recent (Z.to_nat (MaxSize (NewLRUCache n))) in
  hit = bool_decide (fp ∈ window ops.*2) ∧
  (lru c').*2 = window (ops.*2 ++ [fp]) ∧
  (∀ x, is_Some (data c' !! x) ↔ x ∈ window (ops.*2 ++ [fp])) ∧
  Size c' = Z.of_nat (length (window (ops.*2 ++ [fp]))) ∧ Size c' ≤ MaxSize c' ∧
  cs_Hits (Stats c') + cs_Misses (Stats c') = Z.of_nat (length ops) + 1 ∧
  cs_Size (Stats c') = cs_Misses (Stats c') - cs_Evictions (Stats c').
Proof.
  set (m := MaxSize (NewLRUCache n)).
  assert (∀ hs c ops, lru_after m hs c → Z.of_nat (length hs) + Z.of_nat (length ops) ≤ int64_max →
            lru_after m (hs ++ ops.*2) (checks c ops).1) as Hrun.
  { clear. intros hs c ops. revert hs c. induction ops as [|[now fp] ops IH]; intros hs c Ha Hl; simpl.
    - by rewrite app_nil_r.
    - cbn [length] in Hl. pose proof (lru_after_step m hs c now fp Ha) as Hst.
      destruct (CheckAndStore now c fp) as [c1 b]. destruct Hst as [_ Ha1]; [lia|].
      specialize (IH (hs ++ [fp]) c1 Ha1). rewrite length_app in IH. simpl in IH.
      rewrite <- app_assoc in IH. destruct (checks c1 ops). apply IH. lia. }
  assert (lru_after m [] (NewLRUCache n)) as H0.
  { subst m. unfold NewLRUCache, MaxSize. simpl. split; simpl; try done.
    - split; simpl; try done; try apply NoDup_nil_2.
      + destruct (n <=? 0) eqn:?; go_bool; lia.
      + destruct (n <=? 0) eqn:?; go_bool; lia.
      + by intros ?? ?%elem_of_nil.
      + intros x. rewrite lookup_empty. by intros ?%elem_of_nil.
    - unfold recent. simpl. by rewrite take_nil. }
  pose proof (Hrun [] (NewLRUCache n) ops H0 ltac:(simpl; lia)) as Ha. simpl in Ha.
  destruct (checks (NewLRUCache n) ops) as [c bs]. simpl in Ha.
  pose proof (lru_after_step m ops.*2 c now fp Ha ltac:(rewrite length_fmap; lia)) as Hst.
  destruct (CheckAndStore now c fp) as [c' hit]. destruct Hst as [-> [W Hm Hr Ht Hs Hp]].
  cbv zeta. fold m. rewrite <- Hr. split_and!; try done.
  - intros x. by apply remembered_iff.
  - unfold Size. by rewrite size_data, length_fmap.
  - unfold Size, MaxSize. rewrite size_data by done. apply W.
  - simpl. rewrite Ht, length_app, length_fmap. simpl. lia.
  - simpl. rewrite size_data by done. lia.
Qed.

Lemma lru_refines_recent_witness :
  let ops := [(1, "a"); (2, "b"); (3, "a"); (4, "c")] in
  let '(c, _) := checks (NewLRUCache 2) ops in
  let '(c', hit) := CheckAndStore 5 c "a" in
  let window := recent (Z.to_nat (MaxSize (NewLRUCache 2))) in
  hit = bool_decide ("a" ∈ window ops.*2) ∧
  (lru c').*2 = window (ops.*2 ++ ["a"]) ∧
  (∀ x, is_Some (data c' !! x) ↔ x ∈ window (ops.*2 ++ ["a"])) ∧
  Size c' = Z.of_nat (length (window (ops.*2 ++ ["a"]))) ∧ Size c' ≤ MaxSize c' ∧
  cs_Hits (Stats c') + cs_Misses (Stats c') = Z.of_nat (length ops) + 1 ∧
  cs_Size (Stats c') = cs_Misses (Stats c') - cs_Evictions (Stats c').
Proof.
  exact (lru_refines_recent 2 [(1, "a"); (2, "b"); (3, "a"); (4, "c")] 5 "a" eq_refl).
Defined.

Example lru_hit_and_miss :
  (checks (NewLRUCache 2) [(1, "a"); (2, "b"); (3, "a"); (4, "c"); (5, "a"); (6, "b")]).2 =
  [false; false; true; false; true; false].
Proof. vm_compute. reflexivity. Qed.

(** The fingerprint looks at the strings, floats and booleans of the payload
    only: replacing every other value (numbers decoded as anything but float64,
    arrays, objects, null) by any other such value does not change it. *)
Theorem fingerprint_ignores_structured (FormatFloat : f64 → string) (sha256_hex : string → string)
    (e : Event) (other : string → string) :
  ComputeFingerprint FormatFloat sha256_hex
    (mkEvent (ID e) (VnetID e) (Type_ e) (Timestamp e)
       ((λ v, match v with VOther j => VOther (other j) | _ => v end) <$> Payload e)
       (Fingerprint e)) =
  ComputeFingerprint FormatFloat sha256_hex e.
Proof.
  unfold ComputeFingerprint, canonicalJSON. simpl. set (f := λ v, match v with VOther j => _ | _ => _ end).
  assert (∀ keys r, canonical_fields FormatFloat (f <$> Payload e) keys r =
                    canonical_fields FormatFloat (Payload e) keys r) as Hfields.
  { induction keys as [|k keys IH]; intros r; simpl; [done|]. rewrite IH, lookup_fmap.
    by destruct (Payload e !! k) as [[]|]. }
  rewrite Hfields. f_equal. f_equal. unfold sortedKeys. f_equal.
  rewrite map_to_list_fmap, <- list_fmap_compose. by apply list_fmap_ext.
Qed.

(** The separators are not escaped: distinct payloads of strings share their
    canonical text. *)
Example canonical_not_injective (FormatFloat : f64 → string) :
  canonicalJSON FormatFloat {["a" := VString "1;b:2"]} =
  canonicalJSON FormatFloat (<["b" := VString "2"]> {["a" := VString "1"]}).
Proof. vm_compute. reflexivity. Qed.
