(* ===== verification/CmPipeline.v ===== *)
(** * The event pipeline of configuration management

    [src/src/FM/pkg/cm/pipeline.go].  The pipeline is a
    concurrent object: callers start and stop it and consume its output channel,
    and a goroutine per [Start] runs the event loop.  [exec] is one atomic step
    of it: a call that takes the mutex, or one communication of one loop; a step
    that is not enabled is [None], and a step may panic.

    The subscriber, the validator and the contexts are the environment here (in
    [CmSubscriber] the subscriber is in front of it): the channel a loop reads
    delivers any event at any time ([LoopRecv]), the
    validator is a function of the event (which it may change: it is passed by
    pointer), and contexts end when [CancelCtx] says so. *)

From S2P Require Import Prelude GoFloat CmCache.

Record PipelineStats : Type := mkPStats {
  EventsReceived : Z;
  EventsDuplicated : Z;
  EventsValidated : Z;
  EventsForwarded : Z;
  ValidationErrors : Z;
  SubscriptionErrors : Z;
  Uptime : Duration
}.

Definition zero_stats : PipelineStats := mkPStats 0 0 0 0 0 0 0.

Definition inc_received (s : PipelineStats) : PipelineStats :=
  mkPStats (EventsReceived s +64 1) (EventsDuplicated s) (EventsValidated s)
    (EventsForwarded s) (ValidationErrors s) (SubscriptionErrors s) (Uptime s).
Definition inc_duplicated (s : PipelineStats) : PipelineStats :=
  mkPStats (EventsReceived s) (EventsDuplicated s +64 1) (EventsValidated s)
    (EventsForwarded s) (ValidationErrors s) (SubscriptionErrors s) (Uptime s).
Definition inc_validated (s : PipelineStats) : PipelineStats :=
  mkPStats (EventsReceived s) (EventsDuplicated s) (EventsValidated s +64 1)
    (EventsForwarded s) (ValidationErrors s) (SubscriptionErrors s) (Uptime s).
Definition inc_forwarded (s : PipelineStats) : PipelineStats :=
  mkPStats (EventsReceived s) (EventsDuplicated s) (EventsValidated s)
    (EventsForwarded s +64 1) (ValidationErrors s) (SubscriptionErrors s) (Uptime s).
Definition inc_invalid (s : PipelineStats) : PipelineStats :=
  mkPStats (EventsReceived s) (EventsDuplicated s) (EventsValidated s)
    (EventsForwarded s) (ValidationErrors s +64 1) (SubscriptionErrors s) (Uptime s).

(** Where a loop is: at its outer select, at the inner one with an event to
    forward (and the context of that iteration), or gone. *)
Inductive loop : Type :=
| AtRecv
| AtSend (e : Event) (ctx : nat)
| Exited.

Section Pipeline.
Context {C : Type} `{DedupCache C}.

(** The validator, the fallback of [NewEventPipeline] being [NullValidator]. *)
Context (Validate : Event → option error * Event).

(** [cancelled] are the contexts that are done; [out] is what is buffered in
    [eventOut], oldest first, and [delivered] what consumers have taken. *)
Record EventPipeline : Type := mkPipe {
  ctx : nat;
  cache : C;
  running : bool;
  startTime : Time;
  out : list Event;
  out_closed : bool;
  done_closed : bool;
  stats : PipelineStats;
  loops : list loop;
  cancelled : gset nat;
  delivered : list Event
}.

(** The capacity of [eventOut]. *)
Definition out_cap : nat := 1000.

(** Errors of [Start] and [Stop]. *)
Definition err_running : error := Errorf "pipeline already running".
Definition err_not_running : error := Errorf "pipeline not running".

Definition NewEventPipeline (c : C) : EventPipeline :=
  mkPipe 0 c false zero_time [] false false zero_stats [] ∅ [].

(** [Start]: [sub] is the error of [Subscribe], if any. *)
Definition Start (p : EventPipeline) (now : Time) (c : nat) (sub : option error)
    : EventPipeline * option error :=
  if running p then (p, Some err_running)
  else
    match sub with
    | Some err =>
        (mkPipe c (cache p) false now (out p) (out_closed p) (done_closed p) zero_stats
           (loops p) (cancelled p) (delivered p),
         Some (Wrapf "failed to subscribe: " err ""))
    | None =>
        (mkPipe c (cache p) true now (out p) (out_closed p) (done_closed p) zero_stats
           (loops p ++ [AtRecv]) (cancelled p) (delivered p), None)
    end.

(** [Stop]: [cl] is the error of [subscriber.Close]. *)
Definition Stop (p : EventPipeline) (cl : option error)
    : outcome (EventPipeline * option error) :=
  if negb (running p) then Ret (p, Some err_not_running)
  else if done_closed p then Panic "close of closed channel"
  else if out_closed p then Panic "close of closed channel"
  else
    Ret (mkPipe (ctx p) (cache p) false (startTime p) (out p) true true (stats p)
           (loops p) (cancelled p) (delivered p),
         match cl with
         | Some err => Some (Wrapf "failed to close subscriber: " err "")
         | None => None
         end).

(** The channel [GetEventStream] returns: its buffer, and whether it is closed. *)
Definition GetEventStream (p : EventPipeline) : list Event * bool := (out p, out_closed p).

(** [Stats()] *)
Definition Stats (p : EventPipeline) (now : Time) : PipelineStats :=
  let s := stats p in
  mkPStats (EventsReceived s) (EventsDuplicated s) (EventsValidated s) (EventsForwarded s)
    (ValidationErrors s) (SubscriptionErrors s) (time_Since now (startTime p)).

Definition set_loop (p : EventPipeline) (i : nat) (l : loop) (s : PipelineStats) (c : C) : EventPipeline :=
  mkPipe (ctx p) c (running p) (startTime p) (out p) (out_closed p) (done_closed p) s
    (<[i := l]> (loops p)) (cancelled p) (delivered p).

(** The outer select received [event]: count it, drop a duplicate, validate,
    and go on to forward it.  The counters' locked sections, the cache's and the
    validation are one step here; in the code a reader of the statistics may see an
    event received that is not yet duplicated, invalid or validated. *)
Definition process (p : EventPipeline) (i : nat) (now : Time) (event : Event) : EventPipeline :=
  let s := inc_received (stats p) in
  let '(c, dup) := dc_CheckAndStore now (cache p) (Fingerprint event) in
  if dup then set_loop p i AtRecv (inc_duplicated s) c
  else
    let '(err, event) := Validate event in
    match err with
    | Some _ => set_loop p i AtRecv (inc_invalid s) c
    | None => set_loop p i (AtSend event (ctx p)) (inc_validated s) c
    end.

(** The inner select chose to send. *)
Definition forward (p : EventPipeline) (i : nat) (event : Event) : option (outcome EventPipeline) :=
  if out_closed p then Some (Panic "send on closed channel")
  else if (length (out p) <? out_cap)%nat then
    Some (Ret (mkPipe (ctx p) (cache p) (running p) (startTime p) (out p ++ [event])
                 (out_closed p) (done_closed p) (inc_forwarded (stats p))
                 (<[i := AtRecv]> (loops p)) (cancelled p) (delivered p)))
  else None.

(** The atomic steps. *)
Inductive action : Type :=
| DoStart (now : Time) (c : nat) (sub : option error)
| DoStop (cl : option error)
| LoopRecv (i : nat) (now : Time) (e : Event)
| LoopSourceClosed (i : nat)
| LoopDone (i : nat)
| LoopCtxDone (i : nat)
| LoopSend (i : nat)
| CancelCtx (c : nat)
| Consume.

Definition exec (p : EventPipeline) (a : action) : option (outcome EventPipeline) :=
  match a with
  | DoStart now c sub => Some (Ret (Start p now c sub).1)
  | DoStop cl => Some ('(p, _) ← Stop p cl; Ret p)
  | LoopRecv i now e =>
      match loops p !! i with
      | Some AtRecv => Some (Ret (process p i now e))
      | _ => None
      end
  | LoopSourceClosed i =>
      match loops p !! i with
      | Some AtRecv => Some (Ret (set_loop p i Exited (stats p) (cache p)))
      | _ => None
      end
  | LoopDone i =>
      match loops p !! i with
      | Some AtRecv | Some (AtSend _ _) =>
          if done_closed p then Some (Ret (set_loop p i Exited (stats p) (cache p))) else None
      | _ => None
      end
  | LoopCtxDone i =>
      match loops p !! i with
      | Some AtRecv =>
          if bool_decide (ctx p ∈ cancelled p)
          then Some (Ret (set_loop p i Exited (stats p) (cache p))) else None
      | Some (AtSend _ c) =>
          if bool_decide (c ∈ cancelled p)
          then Some (Ret (set_loop p i Exited (stats p) (cache p))) else None
      | _ => None
      end
  | LoopSend i =>
      match loops p !! i with
      | Some (AtSend e _) => forward p i e
      | _ => None
      end
  | CancelCtx c =>
      Some (Ret (mkPipe (ctx p) (cache p) (running p) (startTime p) (out p) (out_closed p)
                   (done_closed p) (stats p) (loops p) ({[c]} ∪ cancelled p) (delivered p)))
  | Consume =>
      match out p with
      | [] => None
      | e :: es =>
          Some (Ret (mkPipe (ctx p) (cache p) (running p) (startTime p) es (out_closed p)
                       (done_closed p) (stats p) (loops p) (cancelled p) (delivered p ++ [e])))
      end
  end.

(** A schedule: every step enabled; it may end in a panic. *)
Fixpoint exec_all (p : EventPipeline) (acts : list action) : option (outcome EventPipeline) :=
  match acts with
  | [] => Some (Ret p)
  | a :: acts =>
      match exec p a with
      | None => None
      | Some (Panic s) => Some (Panic s)
      | Some (Ret p) => exec_all p acts
      end
  end.

(** ** The specification: what becomes of a sequence of received events *)

(** In the order received: drop the duplicates, then the invalid ones. *)
Fixpoint pass (c : C) (es : list (Time * Event)) : C * list Event :=
  match es with
  | [] => (c, [])
  | (now, e) :: es =>
      let '(c, dup) := dc_CheckAndStore now c (Fingerprint e) in
      let '(c', out) := pass c es in
      (c', if dup then out
           else match Validate e with (None, e') => e' :: out | (Some _, _) => out end)
  end.

(** The events received along a schedule. *)
Definition received (acts : list action) : list (Time * Event) :=
  omap (λ a, match a with LoopRecv _ now e => Some (now, e) | _ => None end) acts.

(** What a loop still holds. *)
Definition held (l : loop) : list Event :=
  match l with AtSend e _ => [e] | _ => [] end.

(** The calls of [Start] in a schedule. *)
Definition starts (acts : list action) : nat :=
  length (omap (λ a, match a with DoStart _ _ _ => Some tt | _ => None end) acts).

End Pipeline.

(** Declared in types.go, and used by nothing yet: the configuration of a cache, and
    the statistics of the layer as a whole. *)
Record DeduplicationConfig : Type := mkDedupConfig {
  dd_CacheSize : Z;
  dd_TTL : Duration;
  EvictionPolicy : string
}.

Record Layer1Stats : Type := mkL1Stats {
  l1_EventsReceived : Z;
  l1_EventsForwarded : Z;
  l1_EventsDropped : Z;
  DedupCacheStats : CacheStats;
  l1_Uptime : Duration
}.

(** [NullValidator]. *)
Definition NullValidator_Validate (e : Event) : option error * Event := (None, e).

(** [NullSubscriber.Subscribe] never fails; its channel is closed and empty, so
    its only step is [LoopSourceClosed]. [Close] never fails. *)
Definition NullSubscriber_Subscribe : option error := None.
Definition NullSubscriber_Close : option error := None.

(** ** Lemmas *)

Section Proofs.
Context {C : Type} `{DedupCache C} (Validate : Event → option error * Event).
Implicit Types (p : EventPipeline (C := C)) (c : C).

(** What one received event contributes, the cache having been [c]. *)
Definition pass_one c now e : C * list Event :=
  let '(c, dup) := dc_CheckAndStore now c (Fingerprint e) in
  (c, if dup then [] else match Validate e with (None, e') => [e'] | (Some _, _) => [] end).

Lemma pass_snoc c es now e :
  pass Validate c (es ++ [(now, e)]) =
  let '(c1, o1) := pass Validate c es in
  let '(c2, o2) := pass_one c1 now e in (c2, o1 ++ o2).
Proof.
  revert c. induction es as [|[now' e'] es IH]; intros c; simpl.
  - unfold pass_one. destruct (dc_CheckAndStore now c (Fingerprint e)) as [c' dup].
    destruct dup; [done|]. by destruct (Validate e) as [[] ?].
  - destruct (dc_CheckAndStore now' c (Fingerprint e')) as [c1 dup]. rewrite IH.
    destruct (pass Validate c1 es) as [c2 o1]. destruct (pass_one c2 now e) as [c3 o2].
    destruct dup; [done|]. by destruct (Validate e') as [[] ?].
Qed.

(** The accounting after the events [es], starting with the cache [c0], of which
    [lost] passed and went away with the loop. *)
Record accounted (c0 : C) (es : list (Time * Event)) (lost : list Event) p : Prop := {
  acc_pass : pass Validate c0 es =
    (cache p, delivered p ++ out p ++ concat (map held (loops p)) ++ lost);
  acc_lost : (length lost ≤ 1)%nat;
  acc_alive : lost ≠ [] → loops p = [Exited];
  acc_loops : (length (loops p) ≤ 1)%nat;
  acc_idle : loops p = [] → es = [] ∧ stats p = zero_stats;
  acc_received : EventsReceived (stats p) = Z.of_nat (length es);
  acc_sum : EventsDuplicated (stats p) + ValidationErrors (stats p) + EventsValidated (stats p) =
            EventsReceived (stats p);
  acc_validated : EventsValidated (stats p) = Z.of_nat (length (pass Validate c0 es).2);
  acc_forwarded : EventsForwarded (stats p) = Z.of_nat (length (delivered p ++ out p));
  acc_range : 0 ≤ EventsDuplicated (stats p) ∧ 0 ≤ ValidationErrors (stats p)
}.

Lemma wrap64_succ z : 0 ≤ z < int64_max → z +64 1 = z + 1.
Proof. intros Hz. apply wrap64_id. unfold in_int64, int64_min in *. lia. Qed.

(** A step in which the only loop [i = 0] goes from [l] to [l']. *)
Lemma loops_singleton {A} (ls : list A) i l :
  (length ls ≤ 1)%nat → ls !! i = Some l → i = 0%nat ∧ ls = [l].
Proof. destruct ls as [|x [|y ls]], i; simpl; intros; simplify_eq; try lia; done. Qed.

(** The loop, having received [e], goes on with [l'] and the statistics [s]. *)
Lemma recv_accounted c0 es p now e l' s c :
  accounted c0 es [] p → loops p = [AtRecv] → pass_one (cache p) now e = (c, held l') →
  EventsReceived s = EventsReceived (stats p) + 1 →
  EventsDuplicated s + ValidationErrors s + EventsValidated s = EventsReceived s →
  EventsValidated s = EventsValidated (stats p) + Z.of_nat (length (held l')) →
  EventsForwarded s = EventsForwarded (stats p) →
  0 ≤ EventsDuplicated s ∧ 0 ≤ ValidationErrors s →
  accounted c0 (es ++ [(now, e)]) [] (set_loop p 0 l' s c).
Proof.
  intros [Hp _ _ _ _ Hr _ Hv Hf _] Hi Hone Hr' Hs' Hv' Hf' Hg.
  rewrite Hi in Hp. simpl in Hp. rewrite !app_nil_r in Hp.
  pose proof (pass_snoc c0 es now e) as Hsn. rewrite Hp, Hone in Hsn.
  unfold set_loop. split; simpl; rewrite ?Hi; simpl; rewrite ?app_nil_r.
  - by rewrite Hsn, <- app_assoc.
  - lia.
  - done.
  - lia.
  - done.
  - rewrite Hr', Hr, length_app. simpl. lia.
  - done.
  - rewrite Hv', Hv, Hsn, Hp. simpl. rewrite (length_app (delivered p ++ out p)). lia.
  - by rewrite Hf'.
  - done.
Qed.

Lemma process_accounted c0 es lost p i now e :
  accounted c0 es lost p → loops p !! i = Some AtRecv → Z.of_nat (length es) < int64_max →
  accounted c0 (es ++ [(now, e)]) lost (process Validate p i now e).
Proof.
  intros A Hi Hn. apply loops_singleton in Hi as [-> Hi]; [|apply A].
  assert (lost = []) as ->.
  { destruct lost; [done|]. rewrite (acc_alive _ _ _ _ A) in Hi by done. done. }
  pose proof (acc_received _ _ _ _ A). pose proof (acc_sum _ _ _ _ A).
  pose proof (acc_validated _ _ _ _ A). pose proof (acc_range _ _ _ _ A).
  unfold process. destruct (dc_CheckAndStore now (cache p) (Fingerprint e)) as [c dup] eqn:Ec.
  destruct dup; [|destruct (Validate e) as [[err|] e'] eqn:Ev];
    apply (recv_accounted _ _ _ _ _ _ _ _ A Hi); unfold pass_one; rewrite ?Ec, ?Ev; simpl;
    rewrite ?wrap64_succ by lia; try done; lia.
Qed.

(** A step that changes neither what was received nor the loops' events. *)
Lemma accounted_ext c0 es lost p p' :
  accounted c0 es lost p → cache p' = cache p → stats p' = stats p → loops p' = loops p →
  delivered p' ++ out p' = delivered p ++ out p → accounted c0 es lost p'.
Proof.
  intros [Hp Hl Ha Hls Hid Hr Hs Hv Hf Hg] E1 E2 E3 E4.
  split; rewrite ?E1, ?E2, ?E3; try done; rewrite ?E4; try done.
  rewrite app_assoc, E4, <- app_assoc. done.
Qed.

(** A loop that exits loses what it held. *)
Lemma exit_accounted c0 es lost p i l :
  accounted c0 es lost p → loops p !! i = Some l → l ≠ Exited →
  accounted c0 es (held l) (set_loop p i Exited (stats p) (cache p)).
Proof.
  intros [Hp Hl Ha Hls Hid Hr Hs Hv Hf Hg] Hi Hne.
  apply loops_singleton in Hi as [-> Hi]; [|done].
  assert (lost = []) as ->.
  { destruct lost; [done|]. rewrite Ha in Hi by done. by simplify_eq. }
  unfold set_loop. split; simpl; rewrite ?Hi; simpl; try done.
  - rewrite Hp, Hi. simpl. by rewrite !app_nil_r.
  - destruct l; simpl; lia.
Qed.

Lemma forward_accounted c0 es lost p i e k p' :
  accounted c0 es lost p → loops p !! i = Some (AtSend e k) → Z.of_nat (length es) ≤ int64_max →
  forward p i e = Some (Ret p') → accounted c0 es lost p'.
Proof.
  intros [Hp Hl Ha Hls Hid Hr Hs Hv Hf Hg] Hi Hn Hx.
  apply loops_singleton in Hi as [-> Hi]; [|done].
  assert (lost = []) as ->.
  { destruct lost; [done|]. rewrite Ha in Hi by done. by simplify_eq. }
  unfold forward in Hx. destruct (out_closed p); [done|]. destruct (_ <? _)%nat; [|done].
  simplify_eq. rewrite Hi in Hp. simpl in Hp. rewrite Hp in Hv. simpl in Hv.
  rewrite !length_app in Hv. rewrite length_app in Hf. simpl in Hv.
  split; simpl; rewrite ?Hi; simpl; try done; try lia.
  - rewrite Hp. simpl. by rewrite ?app_nil_r, <- ?app_assoc.
  - rewrite Hv, Hp. simpl. rewrite !length_app. simpl. done.
  - rewrite wrap64_succ by (unfold int64_max in *; lia). rewrite Hf, !length_app. simpl. lia.
Qed.

(** One step, [Start] apart. *)
Lemma exec_accounted c0 es lost p a p' :
  accounted c0 es lost p → Z.of_nat (length es) < int64_max →
  exec Validate p a = Some (Ret p') →
  (match a with DoStart _ _ _ => False | _ => True end) →
  ∃ lost', accounted c0 (es ++ received [a]) lost' p'.
Proof.
  intros A Hn Hx Hns. destruct a as [now c sub|cl|i now e|i|i|i|i|c|]; simpl in Hx; [done|..];
    unfold received; simpl; rewrite ?app_nil_r.
  - unfold Stop, mbind, outcome_bind in Hx. exists lost.
    go_cases; by eapply accounted_ext.
  - destruct (loops p !! i) as [[]|] eqn:Hi; simplify_eq. exists lost.
    by apply process_accounted.
  - destruct (loops p !! i) as [[]|] eqn:Hi; simplify_eq. eexists. by eapply exit_accounted.
  - destruct (loops p !! i) as [[]|] eqn:Hi; simplify_eq; destruct (done_closed p); simplify_eq;
      eexists; by eapply exit_accounted.
  - destruct (loops p !! i) as [[]|] eqn:Hi; simplify_eq; case_bool_decide; simplify_eq;
      eexists; by eapply exit_accounted.
  - destruct (loops p !! i) as [[]|] eqn:Hi; simplify_eq. exists lost.
    eapply forward_accounted; [done|done|lia|done].
  - simplify_eq. exists lost. by eapply accounted_ext.
  - destruct (out p) as [|e es'] eqn:Eo; simplify_eq. exists lost.
    eapply accounted_ext; [done..|]. simpl. by rewrite Eo, <- app_assoc.
Qed.

Lemma received_cons a acts : received (a :: acts) = received [a] ++ received acts.
Proof. unfold received. simpl. by destruct a. Qed.

Lemma starts_cons a acts : starts (a :: acts) = (starts [a] + starts acts)%nat.
Proof. unfold starts. simpl. by destruct a. Qed.

(** Only [Start] adds a loop. *)
Lemma exec_loops p a p' :
  exec Validate p a = Some (Ret p') → (match a with DoStart _ _ _ => False | _ => True end) →
  length (loops p') = length (loops p).
Proof.
  intros Hx Hns. destruct a as [now c sub|cl|i now e|i|i|i|i|c|]; simpl in Hx; [done|..].
  - unfold Stop, mbind, outcome_bind in Hx. go_cases.
  - destruct (loops p !! i) as [[]|] eqn:Hi; simplify_eq. unfold process, set_loop.
    destruct (dc_CheckAndStore _ _ _) as [? []]; simpl; [by rewrite length_insert|].
    destruct (Validate e) as [[] ?]; simpl; by rewrite length_insert.
  - destruct (loops p !! i) as [[]|]; simplify_eq. simpl. by rewrite length_insert.
  - destruct (loops p !! i) as [[]|]; simplify_eq; go_cases; by rewrite length_insert.
  - destruct (loops p !! i) as [[]|]; simplify_eq; go_cases; by rewrite length_insert.
  - destruct (loops p !! i) as [[]|]; simplify_eq. unfold forward in Hx.
    go_cases; by rewrite length_insert.
  - by simplify_eq.
  - destruct (out p); by simplify_eq.
Qed.

Lemma Start_accounted c0 es lost p now k sub :
  accounted c0 es lost p → loops p = [] → accounted c0 es lost (Start p now k sub).1.
Proof.
  intros A Hl. pose proof (acc_idle _ _ _ _ A Hl) as [-> Hst].
  assert (lost = []) as ->.
  { destruct lost; [done|]. by rewrite (acc_alive _ _ _ _ A) in Hl. }
  unfold Start. destruct (running p); [done|]. destruct A as [Hp _ _ _ _ _ _ Hv Hf _].
  rewrite Hst in *. rewrite Hl in *. destruct sub; split; simpl; try done; lia.
Qed.

Lemma exec_all_accounted c0 es lost p acts p' :
  accounted c0 es lost p → Z.of_nat (length es) + Z.of_nat (length acts) ≤ int64_max →
  (starts acts + length (loops p) ≤ 1)%nat →
  exec_all Validate p acts = Some (Ret p') →
  ∃ lost', accounted c0 (es ++ received acts) lost' p'.
Proof.
  revert es lost p. induction acts as [|a acts IH]; intros es lost p A Hn Hst Hx; simpl in Hx.
  { simplify_eq. exists lost. unfold received. simpl. by rewrite app_nil_r. }
  cbn [length] in Hn. rewrite received_cons, app_assoc.
  destruct (exec Validate p a) as [[p1|]|] eqn:E; [|done|done].
  destruct (decide (starts [a] = 0%nat)) as [Hs0|Hs0].
  - assert (match a with DoStart _ _ _ => False | _ => True end) as Hns by (by destruct a).
    destruct (exec_accounted c0 es lost p a p1 A) as [lost1 A1]; [lia|done|done|].
    apply (IH _ lost1 p1 A1); [|rewrite (exec_loops p a p1) by done|done].
    + rewrite length_app. unfold received. destruct a; simpl; lia.
    + rewrite starts_cons in Hst. lia.
  - rewrite starts_cons in Hst.
    assert (loops p = [] ∧ starts acts = 0%nat) as [Hl Hs1] by (rewrite <- length_zero_iff_nil; lia).
    destruct a as [now k sub| | | | | | | |]; try done. simpl in E. simplify_eq.
    unfold received at 1. simpl. rewrite app_nil_r.
    apply (IH _ lost _ (Start_accounted c0 es lost p now k sub A Hl)); [lia| |done].
    rewrite Hs1. unfold Start. destruct (running p), sub; simpl; rewrite ?Hl; simpl; lia.
Qed.

Lemma accounted_new c0 : accounted c0 [] [] (NewEventPipeline c0).
Proof. split; simpl; try done; lia. Qed.

End Proofs.

(** Of events that share a fingerprint at most one passes. *)
Lemma pass_same_fingerprint {C : Type} `{DedupCacheLaws C} (Validate : Event → option error * Event)
    (fp : string) (c0 : C) (es : list (Time * Event)) :
  dc_ok c0 → Forall (λ te : Time * Event, Fingerprint te.2 = fp) es →
  (length (pass Validate c0 es).2 ≤ 1)%nat.
Proof.
  intros Hok Hfp.
  assert (∀ c es, dc_ok c → dc_remembers c fp → Forall (λ te : Time * Event, Fingerprint te.2 = fp) es →
            (pass Validate c es).2 = []) as Hnone.
  { clear. intros c es Hc Hm Hfp. revert c Hc Hm.
    induction Hfp as [|[t e] es He Hes IH]; intros c Hc Hm; [done|].
    cbn [pass]. cbn in He. rewrite He. pose proof (dc_ok_check c t fp Hc) as Hok'. pose proof (dc_stored c t fp Hc) as Hs.
    apply (dc_hit c t) in Hm; [|done]. destruct (dc_CheckAndStore t c fp) as [c1 dup].
    simpl in *. subst dup. specialize (IH c1 Hok' Hs). by destruct (pass Validate c1 es). }
  destruct Hfp as [|[t e] es He Hes]; [simpl; lia|].
  cbn [pass]. cbn in He. rewrite He.
  pose proof (dc_ok_check c0 t fp Hok) as Hok'. pose proof (dc_stored c0 t fp Hok) as Hs.
  destruct (dc_CheckAndStore t c0 fp) as [c1 dup]. simpl in *.
  specialize (Hnone c1 es Hok' Hs Hes). destruct (pass Validate c1 es) as [c2 o].
  simpl in *. subst o. destruct dup; [simpl; lia|].
  destruct (Validate _) as [[] ?]; simpl; lia.
Qed.

(** ** Theorems *)

(** C2 The pipeline delivers what passes, in order. Along any schedule of a
    pipeline that is started at most once, what consumers took followed by what
    is buffered and what the loop is about to send is exactly the received
    events, in the order received, less the duplicates of the cache and the
    events the validator rejects, each as the validator left it; when the loop
    stops it drops at most the one event it was sending. The statistics account
    for every event: received is duplicated plus invalid plus validated,
    validated is the number that passed, forwarded the number taken or buffered. *)
Theorem pipeline_delivers {C : Type} `{DedupCache C} (Validate : Event → option error * Event)
    (c0 : C) (acts : list action) (p : EventPipeline)
    (Hn : Z.of_nat (length acts) ≤ int64_max) (Hst : (starts acts ≤ 1)%nat)
    (Hx : exec_all Validate (NewEventPipeline c0) acts = Some (Ret p)) :
  let '(c, passed) := pass Validate c0 (received acts) in
  let s := stats p in
  (∃ lost, passed = delivered p ++ out p ++ concat (map held (loops p)) ++ lost ∧
     (length lost ≤ 1)%nat ∧ (lost ≠ [] → loops p = [Exited])) ∧
  cache p = c ∧
  EventsReceived s = Z.of_nat (length (received acts)) ∧
  EventsReceived s = EventsDuplicated s + ValidationErrors s + EventsValidated s ∧
  EventsValidated s = Z.of_nat (length passed) ∧
  EventsForwarded s = Z.of_nat (length (delivered p ++ out p)).
Proof.
  destruct (exec_all_accounted Validate c0 [] [] _ acts p (accounted_new Validate c0)) as [lost A];
    [simpl; lia|simpl; lia|done|]. simpl in A.
  pose proof (acc_pass _ _ _ _ _ A) as Hp. pose proof (acc_validated _ _ _ _ _ A) as Hv.
  destruct (pass Validate c0 (received acts)) as [c passed]. simplify_eq.
  split; [exists lost; split; [done|split; apply A]|].
  split; [done|]. split; [apply A|]. split; [symmetry; apply A|]. split; [done|apply A].
Qed.

Definition demo_event (id fp : string) : Event := mkEvent id "" "t" 0 ∅ fp.

Definition demo_acts : list action :=
  [DoStart 0 1 None; LoopRecv 0 1 (demo_event "a" "x"); LoopSend 0;
   LoopRecv 0 2 (demo_event "b" "x"); LoopRecv 0 3 (demo_event "c" "y"); Consume;
   DoStop None; LoopDone 0].

Lemma pipeline_delivers_witness : ∃ p : EventPipeline,
  exec_all NullValidator_Validate (NewEventPipeline (NewLRUCache 10)) demo_acts = Some (Ret p) ∧
  delivered p = [demo_event "a" "x"] ∧ loops p = [Exited] ∧
  EventsReceived (stats p) = Z.of_nat (length (received demo_acts)).
Proof.
  destruct (exec_all NullValidator_Validate (NewEventPipeline (NewLRUCache 10)) demo_acts)
    as [[p|]|] eqn:E; [|exfalso; vm_compute in E; discriminate..].
  exists p. pose proof (pipeline_delivers NullValidator_Validate (NewLRUCache 10) demo_acts p
    ltac:(vm_compute; discriminate) ltac:(vm_compute; lia) E) as Ht.
  destruct (pass NullValidator_Validate (NewLRUCache 10) (received demo_acts)) as [c passed].
  split; [reflexivity|]. destruct Ht as (_ & _ & Hr & _).
  split; [|split; [|exact Hr]]; clear Hr; vm_compute in E; injection E as <-; reflexivity.
Defined.

(** Nothing follows a repeated fingerprint: against any cache that keeps its
    promises, an event whose fingerprint was just seen is dropped, even if the
    event it repeats was rejected by the validator and never forwarded. *)
Theorem repeat_dropped {C : Type} `{DedupCacheLaws C} (Validate : Event → option error * Event)
    (c0 : C) (es : list (Time * Event)) (t1 t2 : Time) (e1 e2 : Event)
    (Hok : dc_ok c0) (Hfp : Fingerprint e2 = Fingerprint e1) :
  (pass Validate c0 (es ++ [(t1, e1); (t2, e2)])).2 = (pass Validate c0 (es ++ [(t1, e1)])).2.
Proof.
  assert (∀ es, dc_ok (pass Validate c0 es).1) as Hpass.
  { clear es. revert c0 Hok. intros c0 Hok es. revert c0 Hok.
    induction es as [|[t e] es IH]; intros c0 Hok; simpl; [done|].
    pose proof (dc_ok_check c0 t (Fingerprint e) Hok) as Hok'.
    destruct (dc_CheckAndStore t c0 (Fingerprint e)) as [c dup].
    specialize (IH c Hok'). by destruct (pass Validate c es). }
  specialize (Hpass es).
  change [(t1, e1); (t2, e2)] with ([(t1, e1)] ++ [(t2, e2)]).
  rewrite app_assoc, !pass_snoc. destruct (pass Validate c0 es) as [c o]. simpl in Hpass.
  unfold pass_one at 1 2. destruct (dc_CheckAndStore t1 c (Fingerprint e1)) as [c1 dup] eqn:E1.
  pose proof (dc_stored c t1 (Fingerprint e1) Hpass) as Hs.
  pose proof (dc_ok_check c t1 (Fingerprint e1) Hpass) as Hok1. rewrite E1 in Hs, Hok1. simpl in *.
  unfold pass_one. rewrite Hfp, E1. apply (dc_hit c1 t2) in Hs; [|done].
  destruct (dc_CheckAndStore t2 c1 (Fingerprint e1)) as [c2 dup2]. simpl in Hs. subst dup2.
  simpl. by rewrite app_nil_r.
Qed.

Lemma repeat_dropped_witness :
  let bad := demo_event "a" "x" in let good := demo_event "b" "x" in
  let reject e := if decide (ID e = "a") then (Some (Errorf "bad"), e) else (None, e) in
  (pass reject (NewLRUCache 10) ([] ++ [(1, bad); (2, good)])).2 =
  (pass reject (NewLRUCache 10) ([] ++ [(1, bad)])).2 ∧
  (pass reject (NewLRUCache 10) ([] ++ [(1, bad)])).2 = [].
Proof.
  split; [|vm_compute; reflexivity].
  refine (repeat_dropped (λ e, if decide (ID e = "a") then (Some (Errorf "bad"), e) else (None, e))
           (NewLRUCache 10) [] 1 2 (demo_event "a" "x") (demo_event "b" "x") _ eq_refl).
  split; simpl; try apply NoDup_nil_2; try lia.
  - by intros ?? ?%elem_of_nil.
  - intros x. rewrite lookup_empty. by intros ?%elem_of_nil.
Defined.

(** A stopped pipeline cannot be used again, and stopping one that is
    forwarding can crash it. [Stop] closes both channels and nothing reopens
    them: the loop that was about to send panics if its select picks the send;
    and after another [Start], which succeeds, the next event to be forwarded
    panics and so does the next [Stop]. *)
Theorem stop_is_final {C : Type} `{DedupCache C} (Validate : Event → option error * Event)
    (p : EventPipeline (C := C)) (now : Time) (k : nat)
    (Hr : running p = true) (Hd : done_closed p = false) (Ho : out_closed p = false) :
  ∃ p1, Stop p None = Ret (p1, None) ∧
    (∀ i e c, loops p !! i = Some (AtSend e c) →
       exec Validate p1 (LoopSend i) = Some (Panic "send on closed channel")) ∧
    let '(p2, err) := Start p1 now k None in
    err = None ∧ Stop p2 None = Panic "close of closed channel" ∧
    ∀ i e, forward p2 i e = Some (Panic "send on closed channel").
Proof.
  unfold Stop. rewrite Hr, Hd, Ho. simpl. eexists. split; [done|].
  split; [|done]. intros i e c Hi. simpl. by rewrite Hi.
Qed.

Lemma stop_is_final_witness :
  let p := (Start (NewEventPipeline (NewLRUCache 10)) 0 1 None).1 in
  ∃ p1, Stop p None = Ret (p1, None) ∧
    (∀ i e c, loops p !! i = Some (AtSend e c) →
       exec NullValidator_Validate p1 (LoopSend i) = Some (Panic "send on closed channel")) ∧
    let '(p2, err) := Start p1 5 2 None in
    err = None ∧ Stop p2 None = Panic "close of closed channel" ∧
    ∀ i e, forward p2 i e = Some (Panic "send on closed channel").
Proof.
  exact (stop_is_final NullValidator_Validate
           (Start (NewEventPipeline (NewLRUCache 10)) 0 1 None).1 5 2 eq_refl eq_refl eq_refl).
Defined.

