(* ===== verification/CmSubscriber.v ===== *)
(** * The etcd subscriber, and the pipeline behind it

    [src/src/FM/pkg/cm/subscriber.go]: a goroutine per topic watches etcd and sends
    an event per change into a bounded channel.  [sub_exec] is one communication of
    one of them; what etcd's watch channel delivers is the environment
    ([SResp]: the keys of a response, or its error; a closed watch channel delivers
    empty responses for ever).  [sys_exec] composes it with [CmPipeline]: the loop
    of the pipeline receives from the subscriber's channel, [Start] subscribes and
    [Stop] closes. *)

From S2P Require Import Prelude GoFloat CmCache CmPipeline.

Record SubscriptionConfig : Type := mkSubConfig {
  ControlBrokerAddr : string;
  Topics : list string;
  MaxRetries : Z;
  RetryBackoff : Duration;
  MaxBackoff : Duration
}.

(** Where the goroutine of a topic is: at its outer select, at the inner one with
    an event to send and the rest of the response, or gone. *)
Inductive watch_at : Type :=
| WWait
| WSend (e : Event) (rest : list string)
| WGone.

Record watcher : Type := mkWatcher { w_topic : string; w_ctx : nat; w_at : watch_at }.

(** The client library is a parameter; [es_eventCh] holds at most 100 events,
    oldest first, each with the number of the watcher that sent it.  [es_taken]
    are the events received from it; [es_lost] only records the keys of the
    events a watcher went away with. *)
Record EtcdSubscriber : Type := mkEtcd {
  es_config : SubscriptionConfig;
  es_eventCh : list (nat * Event);
  es_stopped : bool;
  es_watchers : list watcher;
  es_taken : list (nat * Event);
  es_lost : list (nat * string)
}.

Definition eventCh_cap : nat := 100.

(** [dial] is the error [clientv3.New] returns, if any. *)
Definition NewEtcdSubscriber (cfg : option SubscriptionConfig) (dial : option error)
    : result EtcdSubscriber :=
  match cfg with
  | None => Err (Errorf "subscription config required")
  | Some cfg =>
      match dial with
      | Some err => Err (Wrapf "failed to connect to etcd: " err "")
      | None => Ok (mkEtcd cfg [] false [] [] [])
      end
  end.

(** One watcher per topic, under the context [ctx]. *)
Definition Subscribe (s : EtcdSubscriber) (ctx : nat) (topics : list string)
    : EtcdSubscriber * option error :=
  match topics with
  | [] => (s, Some (Errorf "at least one topic required"))
  | _ =>
      (mkEtcd (es_config s) (es_eventCh s) (es_stopped s)
         (es_watchers s ++ map (λ t, mkWatcher t ctx WWait) topics) (es_taken s) (es_lost s), None)
  end.

(** Closing twice panics; the client's [Close] reports [cl]. *)
Definition Close (s : EtcdSubscriber) (cl : option error) : outcome (EtcdSubscriber * option error) :=
  if es_stopped s then Panic "close of closed channel"
  else Ret (mkEtcd (es_config s) (es_eventCh s) true (es_watchers s) (es_taken s) (es_lost s), cl).

Section Watch.
Context (FormatFloat : f64 → string) (sha256_hex : string → string).

(** The event [watchTopic] makes of a change of [key]. *)
Definition watch_event (key : string) (now : Time) : Event :=
  let evt := mkEvent key "" "CB-Event" now ∅ "" in
  mkEvent (ID evt) (VnetID evt) (Type_ evt) (Timestamp evt) (Payload evt)
    (ComputeFingerprint FormatFloat sha256_hex evt).

(** The goroutine with the keys of a response left to send; the clock is read
    when an event is made. *)
Definition next_key (now : Time) (keys : list string) : watch_at :=
  match keys with
  | [] => WWait
  | key :: rest => WSend (watch_event key now) rest
  end.

(** The keys a watcher holds. *)
Definition in_hand (a : watch_at) : list string :=
  match a with WSend e rest => ID e :: rest | _ => [] end.

Definition set_watcher (i : nat) (w : watcher) (a : watch_at) (lost : list (nat * string))
    (s : EtcdSubscriber) : EtcdSubscriber :=
  mkEtcd (es_config s) (es_eventCh s) (es_stopped s)
    (<[i := mkWatcher (w_topic w) (w_ctx w) a]> (es_watchers s)) (es_taken s) (es_lost s ++ lost).

Definition push (i : nat) (e : Event) (s : EtcdSubscriber) : EtcdSubscriber :=
  mkEtcd (es_config s) (es_eventCh s ++ [(i, e)]) (es_stopped s) (es_watchers s) (es_taken s) (es_lost s).

Inductive sub_action : Type :=
| SResp (i : nat) (now : Time) (resp : result (list string))
| SSend (i : nat) (now : Time)
| SStopped (i : nat)
| SCtxDone (i : nat).

(** [watchTopic] of the watcher [i]; [done] says which contexts are. *)
Definition sub_exec (done : nat → bool) (s : EtcdSubscriber) (a : sub_action) : option EtcdSubscriber :=
  match a with
  | SResp i now resp =>
      w ← es_watchers s !! i;
      match w_at w, resp with
      | WWait, Err _ => Some (set_watcher i w WWait [] s)
      | WWait, Ok keys => Some (set_watcher i w (next_key now keys) [] s)
      | _, _ => None
      end
  | SSend i now =>
      w ← es_watchers s !! i;
      match w_at w with
      | WSend e rest =>
          if (length (es_eventCh s) <? eventCh_cap)%nat
          then Some (set_watcher i w (next_key now rest) [] (push i e s)) else None
      | _ => None
      end
  | SStopped i =>
      w ← es_watchers s !! i;
      match w_at w with
      | WGone => None
      | a => if es_stopped s then Some (set_watcher i w WGone (map (pair i) (in_hand a)) s) else None
      end
  | SCtxDone i =>
      w ← es_watchers s !! i;
      match w_at w with
      | WWait => if done (w_ctx w) then Some (set_watcher i w WGone [] s) else None
      | _ => None
      end
  end.

(** A receive from the channel. *)
Definition take_event (s : EtcdSubscriber) : option (EtcdSubscriber * Event) :=
  match es_eventCh s with
  | [] => None
  | (i, e) :: ch =>
      Some (mkEtcd (es_config s) ch (es_stopped s) (es_watchers s) (es_taken s ++ [(i, e)]) (es_lost s), e)
  end.

(** ** What the watchers make reaches the channel in order *)

(** The keys etcd reported to the watcher [i]. *)
Definition reported_by (i : nat) (a : sub_action) : list string :=
  match a with SResp j _ (Ok keys) => if decide (j = i) then keys else [] | _ => [] end.

Definition of_watcher {A} (i : nat) (l : list (nat * A)) : list A := (filter (λ x : nat * A, x.1 = i) l).*2.

Definition hand_of (i : nat) (s : EtcdSubscriber) : list string :=
  match es_watchers s !! i with Some w => in_hand (w_at w) | None => [] end.

(** Where the keys reported to [i] are, in order. *)
Definition whereabouts (i : nat) (s : EtcdSubscriber) : list string :=
  of_watcher i ((prod_map id ID) <$> es_taken s ++ es_eventCh s) ++ of_watcher i (es_lost s) ++ hand_of i s.

Record sub_ok (s : EtcdSubscriber) : Prop := {
  so_cap : (length (es_eventCh s) ≤ eventCh_cap)%nat;
  so_lost : es_lost s ≠ [] → es_stopped s = true;
  so_gone i : of_watcher i (es_lost s) ≠ [] → (λ w, w_at w) <$> es_watchers s !! i = Some WGone;
  so_events : Forall (λ x : nat * Event, Fingerprint x.2 = sha256_hex "") (es_taken s ++ es_eventCh s);
  so_hands i w : es_watchers s !! i = Some w →
    match w_at w with WSend e _ => Fingerprint e = sha256_hex "" | _ => True end
}.

Lemma of_watcher_app {A} i (l k : list (nat * A)) : of_watcher i (l ++ k) = of_watcher i l ++ of_watcher i k.
Proof. unfold of_watcher. by rewrite filter_app, fmap_app. Qed.

Lemma of_watcher_cons {A} i j (x : A) l :
  of_watcher i ((j, x) :: l) = (if decide (j = i) then [x] else []) ++ of_watcher i l.
Proof. unfold of_watcher. rewrite filter_cons. cbn [fst]. by destruct (decide (j = i)). Qed.

Lemma of_watcher_pairs {A} i j (l : list A) : of_watcher i (map (pair j) l) = if decide (j = i) then l else [].
Proof.
  induction l as [|x l IH]; [by destruct (decide _)|]. cbn [map]. rewrite of_watcher_cons, IH.
  by destruct (decide (j = i)).
Qed.

Lemma hand_set i j w a lost s :
  es_watchers s !! j = Some w →
  hand_of i (set_watcher j w a lost s) = if decide (j = i) then in_hand a else hand_of i s.
Proof.
  intros Hj. unfold hand_of, set_watcher. cbn. destruct (decide (j = i)) as [<-|Hne].
  - rewrite list_lookup_insert_eq; [done|]. by apply lookup_lt_Some in Hj.
  - by rewrite list_lookup_insert_ne.
Qed.

Lemma hand_at i s w : es_watchers s !! i = Some w → hand_of i s = in_hand (w_at w).
Proof. intros H. unfold hand_of. by rewrite H. Qed.

Lemma in_hand_next now keys : in_hand (next_key now keys) = keys.
Proof. by destruct keys. Qed.

(** What a step does to the keys of every watcher. *)
Lemma exec_whereabouts done s a s' i :
  sub_ok s → sub_exec done s a = Some s' → whereabouts i s' = whereabouts i s ++ reported_by i a.
Proof.
  intros [_ _ Hg _ _] Hx.
  destruct a as [j now resp|j now|j|j]; cbn [sub_exec] in Hx; unfold mbind, option_bind in Hx;
    destruct (es_watchers s !! j) as [w|] eqn:Ej; try discriminate Hx.
  - destruct (w_at w) eqn:Ew; try discriminate Hx. destruct resp as [keys|err]; injection Hx as <-;
      unfold whereabouts; rewrite (hand_set _ _ _ _ _ _ Ej); cbn [es_taken es_eventCh es_lost set_watcher push reported_by in_hand map]; rewrite !app_nil_r.
    + destruct (decide (j = i)) as [->|]; [|by rewrite app_nil_r].
      rewrite (hand_at _ _ _ Ej), Ew, in_hand_next. cbn. by rewrite app_nil_r, <- !app_assoc.
    + destruct (decide (j = i)) as [->|]; [|done]. by rewrite (hand_at _ _ _ Ej), Ew.
  - destruct (w_at w) as [|e rest|] eqn:Ew; try discriminate Hx.
    destruct (_ <? _)%nat; [|discriminate Hx]. injection Hx as <-.
    unfold whereabouts. rewrite hand_set by done. cbn [es_taken es_eventCh es_lost set_watcher push reported_by in_hand map]. rewrite !app_nil_r, (app_assoc (es_taken s)), fmap_app, of_watcher_app.
    change (prod_map id ID <$> [(j, e)]) with [(j, ID e)]. rewrite of_watcher_cons.
    destruct (decide (j = i)) as [->|]; [|by rewrite !app_nil_r].
    rewrite (hand_at _ _ _ Ej), Ew, in_hand_next. cbn.
    destruct (of_watcher i (es_lost s)) as [|k ks] eqn:El.
    + by rewrite <- app_assoc.
    + assert (of_watcher i (es_lost s) ≠ []) as Hne by congruence. apply Hg in Hne. rewrite Ej in Hne.
      cbn in Hne. congruence.
  - destruct (w_at w) as [|e rest|] eqn:Ew; try discriminate Hx;
      (destruct (es_stopped s); [|discriminate Hx]); injection Hx as <-;
      unfold whereabouts; rewrite hand_set by done; cbn [es_taken es_eventCh es_lost set_watcher push reported_by]; 
      rewrite of_watcher_app, ?of_watcher_cons, ?of_watcher_pairs;
      (destruct (decide (j = i)) as [->|]; [rewrite (hand_at _ _ _ Ej), Ew|]);
      cbn [in_hand app]; by rewrite ?app_nil_r, ?app_assoc.
  - destruct (w_at w) as [|e rest|] eqn:Ew; try discriminate Hx.
    destruct (done (w_ctx w)); [|discriminate Hx]. injection Hx as <-.
    unfold whereabouts. rewrite hand_set by done. cbn [es_taken es_eventCh es_lost set_watcher push reported_by in_hand map]. rewrite !app_nil_r.
    destruct (decide (j = i)) as [->|]; [|done]. by rewrite (hand_at _ _ _ Ej), Ew.
Qed.

Lemma set_watcher_at i j w a lost s :
  es_watchers s !! j = Some w →
  es_watchers (set_watcher j w a lost s) !! i =
  if decide (j = i) then Some (mkWatcher (w_topic w) (w_ctx w) a) else es_watchers s !! i.
Proof.
  intros Hj. cbn. destruct (decide (j = i)) as [<-|Hne].
  - apply list_lookup_insert_eq. by apply lookup_lt_Some in Hj.
  - by apply list_lookup_insert_ne.
Qed.

Definition fp_ok (a : watch_at) : Prop :=
  match a with WSend e _ => Fingerprint e = sha256_hex "" | _ => True end.

(** Moving a watcher that is not gone. *)
Lemma set_watcher_ok j w a lost s :
  sub_ok s → es_watchers s !! j = Some w → w_at w ≠ WGone → fp_ok a →
  (lost = [] ∨ ∃ ks, lost = map (pair j) ks ∧ a = WGone ∧ es_stopped s = true) →
  sub_ok (set_watcher j w a lost s).
Proof.
  intros [Hc Hl Hg He Hh] Hj Hw Ha Hlost. split.
  - done.
  - cbn. destruct Hlost as [->|(ks & -> & _ & Hs)]; [by rewrite app_nil_r|done].
  - intros i. rewrite set_watcher_at by done. cbn [es_lost set_watcher]. rewrite of_watcher_app. intros Hne.
    destruct (decide (j = i)) as [->|Hji].
    + destruct Hlost as [->|(ks & -> & -> & _)]; [|done].
      rewrite app_nil_r in Hne. apply Hg in Hne. rewrite Hj in Hne. cbn in Hne. congruence.
    + apply Hg. destruct Hlost as [->|(ks & -> & _)]; [by rewrite app_nil_r in Hne|].
      by rewrite of_watcher_pairs, decide_False, app_nil_r in Hne.
  - done.
  - intros i w'. rewrite set_watcher_at by done. destruct (decide (j = i)); [|by apply Hh].
    intros [= <-]. exact Ha.
Qed.

Lemma push_ok i e s :
  sub_ok s → (length (es_eventCh s) < eventCh_cap)%nat → Fingerprint e = sha256_hex "" → sub_ok (push i e s).
Proof.
  intros [Hc Hl Hg He Hh] Hlt Hf. split; cbn; try done.
  - rewrite length_app. cbn [length]. lia.
  - rewrite app_assoc. apply Forall_app. split; [done|]. by constructor.
Qed.

Lemma next_ok now keys : fp_ok (next_key now keys).
Proof. by destruct keys. Qed.

Lemma sub_exec_ok done s a s' : sub_ok s → sub_exec done s a = Some s' → sub_ok s'.
Proof.
  intros Hs Hx.
  destruct a as [j now resp|j now|j|j]; cbn [sub_exec] in Hx; unfold mbind, option_bind in Hx;
    destruct (es_watchers s !! j) as [w|] eqn:Ej; try discriminate Hx.
  - destruct (w_at w) eqn:Ew; try discriminate Hx.
    destruct resp; injection Hx as <-; apply set_watcher_ok; auto using next_ok; by rewrite ?Ew.
  - destruct (w_at w) as [|e rest|] eqn:Ew; try discriminate Hx.
    destruct (Nat.ltb_spec (length (es_eventCh s)) eventCh_cap); [|discriminate Hx]. injection Hx as <-.
    apply set_watcher_ok; auto using next_ok; [|by rewrite Ew].
    apply push_ok; [done..|]. pose proof (so_hands _ Hs j w Ej) as Hh. by rewrite Ew in Hh.
  - destruct (w_at w) eqn:Ew; try discriminate Hx; (destruct (es_stopped s) eqn:Es; [|discriminate Hx]);
      injection Hx as <-; apply set_watcher_ok; try done; try (by rewrite Ew);
      right; exists (in_hand (w_at w)); by rewrite Ew.
  - destruct (w_at w) eqn:Ew; try discriminate Hx. destruct (done (w_ctx w)); [|discriminate Hx].
    injection Hx as <-. apply set_watcher_ok; auto; [by rewrite Ew|done].
Qed.

Lemma sub_new_ok cfg s : NewEtcdSubscriber cfg None = Ok s → sub_ok s.
Proof.
  unfold NewEtcdSubscriber. destruct cfg; [|done]. intros [= <-]. split; cbn; try done; lia.
Qed.

Lemma subscribe_ok s ctx topics : sub_ok s → sub_ok (Subscribe s ctx topics).1.
Proof.
  intros [Hc Hl Hg He Hh]. unfold Subscribe. destruct topics as [|t ts]; [done|].
  split; cbn -[map]; try done.
  - intros i Hne. apply Hg in Hne. destruct (es_watchers s !! i) eqn:E; [|done].
    by rewrite (lookup_app_l_Some _ _ _ _ E).
  - intros i w [H|[_ H]]%lookup_app_Some; [by apply (Hh i)|].
    apply list_lookup_fmap_Some in H as (t' & -> & _). done.
Qed.

Lemma close_ok s cl s' e : sub_ok s → Close s cl = Ret (s', e) → sub_ok s' ∧ es_stopped s' = true.
Proof.
  intros [Hc Hl Hg He Hh]. unfold Close. destruct (es_stopped s); [done|]. intros [= <- <-].
  split; [|done]. by split.
Qed.

Lemma take_ok s s' e :
  sub_ok s → take_event s = Some (s', e) →
  sub_ok s' ∧ Fingerprint e = sha256_hex "" ∧ (∀ i, whereabouts i s' = whereabouts i s).
Proof.
  intros [Hc Hl Hg He Hh]. unfold take_event. destruct (es_eventCh s) as [|[i e'] ch] eqn:Ec; [done|].
  intros [= <- <-]. split; [|split].
  - split; cbn; try done; [cbn in Hc; lia|]. rewrite <- app_assoc. exact He.
  - apply Forall_app in He as [_ He]. by apply Forall_cons in He as [? _].
  - intros k. unfold whereabouts. cbn. by rewrite Ec, <- app_assoc.
Qed.

(** ** The pipeline behind the subscriber *)

Section System.
Context {C : Type} `{DedupCacheLaws C} (Validate : Event → option error * Event).

Record Sys : Type := mkSys { y_sub : EtcdSubscriber; y_pipe : EventPipeline (C := C) }.

Inductive sys_action : Type :=
| YStart (now : Time) (ctx : nat)
| YStop (cl : option error)
| YWatch (a : sub_action)
| YRecv (i : nat) (now : Time)
| YPipe (a : action).

(** The steps of the pipeline that do not touch the subscriber. *)
Definition pipe_only (a : action) : bool :=
  match a with LoopDone _ | LoopCtxDone _ | LoopSend _ | CancelCtx _ | Consume => true | _ => false end.

(** [Start] subscribes to the one topic "*". *)
Definition sys_exec (y : Sys) (a : sys_action) : option (outcome Sys) :=
  let p := y_pipe y in
  match a with
  | YStart now ctx =>
      Some (Ret (if running p then y
                 else let '(s, err) := Subscribe (y_sub y) ctx ["*"] in mkSys s (Start p now ctx err).1))
  | YStop cl =>
      Some (if negb (running p) then Ret y
            else '(p, _) ← Stop p cl; '(s, _) ← Close (y_sub y) cl; Ret (mkSys s p))
  | YWatch a =>
      s ← sub_exec (λ c, bool_decide (c ∈ cancelled p)) (y_sub y) a; Some (Ret (mkSys s p))
  | YRecv i now =>
      '(s, e) ← take_event (y_sub y);
      r ← exec Validate p (LoopRecv i now e);
      Some (p ← r; Ret (mkSys s p))
  | YPipe a =>
      if pipe_only a then r ← exec Validate p a; Some (p ← r; Ret (mkSys (y_sub y) p)) else None
  end.

Fixpoint sys_run (y : Sys) (acts : list sys_action) : option (outcome Sys) :=
  match acts with
  | [] => Some (Ret y)
  | a :: acts =>
      match sys_exec y a with
      | Some (Ret y) => sys_run y acts
      | Some (Panic x) => Some (Panic x)
      | None => None
      end
  end.

Definition reported (i : nat) (a : sys_action) : list string :=
  match a with YWatch a => reported_by i a | _ => [] end.

Definition is_start (a : sys_action) : nat := match a with YStart _ _ => 1 | _ => 0 end.

(** The invariant: what the loop received is what was taken from the channel. *)
Record sys_ok (c0 : C) (n : nat) (y : Sys) : Prop := {
  yo_sub : sub_ok (y_sub y);
  yo_pipe : ∃ es lost, accounted Validate c0 es lost (y_pipe y) ∧ es.*2 = (es_taken (y_sub y)).*2 ∧
              (length es ≤ n)%nat
}.

Lemma taken_same s s' : es_taken s' = es_taken s → (es_taken s').*2 = (es_taken s).*2.
Proof. by intros ->. Qed.

Lemma sub_exec_taken done s a s' : sub_exec done s a = Some s' → es_taken s' = es_taken s.
Proof.
  intros Hx. destruct a as [j now resp|j now|j|j]; cbn [sub_exec] in Hx; unfold mbind, option_bind in Hx;
    repeat (case_match; try discriminate Hx); by injection Hx as <-.
Qed.

Lemma pipe_step c0 es lost p a p' :
  accounted Validate c0 es lost p → Z.of_nat (length es) < int64_max → pipe_only a = true →
  exec Validate p a = Some (Ret p') →
  (∃ lost', accounted Validate c0 es lost' p') ∧ length (loops p') = length (loops p).
Proof.
  intros A Hn Ha Hx. assert (match a with DoStart _ _ _ => False | _ => True end) as Hns by (by destruct a).
  split; [|by eapply exec_loops].
  destruct (exec_accounted Validate c0 es lost p a p' A Hn Hx Hns) as [lost' A'].
  assert (received [a] = []) as Hr by (by destruct a). rewrite Hr, app_nil_r in A'. eauto.
Qed.

Lemma subscribe_whereabouts i s ctx topics :
  sub_ok s → whereabouts i (Subscribe s ctx topics).1 = whereabouts i s.
Proof.
  intros Hs. unfold Subscribe. destruct topics as [|t ts]; [done|].
  assert (hand_of i (Subscribe s ctx (t :: ts)).1 = hand_of i s) as Hh.
  { unfold hand_of. cbn [es_watchers Subscribe fst].
    destruct (es_watchers s !! i) as [w|] eqn:E; [by rewrite (lookup_app_l_Some _ _ _ _ E)|].
    rewrite lookup_app_r by (by apply lookup_ge_None). rewrite list_lookup_fmap.
    by destruct ((t :: ts) !! _). }
  unfold whereabouts. by rewrite <- Hh.
Qed.

Lemma sys_exec_ok c0 n y a y' :
  sys_ok c0 n y → Z.of_nat n < int64_max → (is_start a + length (loops (y_pipe y)) ≤ 1)%nat →
  sys_exec y a = Some (Ret y') →
  sys_ok c0 (S n) y' ∧ (length (loops (y_pipe y')) ≤ is_start a + length (loops (y_pipe y)))%nat ∧
  ∀ i, whereabouts i (y_sub y') = whereabouts i (y_sub y) ++ reported i a.
Proof.
  intros [Hs (es & lost & A & He & Hl)] Hn Hst Hx.
  assert (Hn' : Z.of_nat (length es) < int64_max) by lia.
  destruct a as [now ctx|cl|a|i now|a]; cbn [sys_exec] in Hx.
  - injection Hx as <-. destruct (running (y_pipe y)) eqn:Er.
    { split_and!; [split; eauto 10 using Nat.le_le_succ_r|lia|intros; cbn [reported]; by rewrite app_nil_r]. }
    cbn [Subscribe fst]. assert (loops (y_pipe y) = []) as Hnil
      by (apply length_zero_iff_nil; cbn in Hst; lia).
    split_and!.
    + split; cbn [y_sub y_pipe]; [by apply (subscribe_ok (y_sub y) ctx ["*"])|].
      exists es, lost. split_and!; [by apply Start_accounted|done|lia].
    + unfold Start. rewrite Er, Hnil. cbn. lia.
    + intros i. cbn [reported]. rewrite app_nil_r. by apply (subscribe_whereabouts i (y_sub y) ctx ["*"]).
  - destruct (running (y_pipe y)) eqn:Er; cbn [negb] in Hx.
    2: { injection Hx as <-. split_and!; [split; eauto 10 using Nat.le_le_succ_r|lia|intros; cbn [reported]; by rewrite app_nil_r]. }
    destruct (Stop (y_pipe y) cl) as [[p err]|x] eqn:Es; [|discriminate Hx].
    destruct (Close (y_sub y) cl) as [[s err']|x] eqn:Ec; [|discriminate Hx].
    injection Hx as <-. destruct (close_ok _ _ _ _ Hs Ec) as [Hs' _].
    assert (Hx : exec Validate (y_pipe y) (DoStop cl) = Some (Ret p)) by (cbn [exec]; by rewrite Es).
    destruct (exec_accounted Validate c0 es lost _ _ _ A Hn' Hx I) as [lost' A'].
    unfold received in A'. cbn in A'. rewrite app_nil_r in A'.
    unfold Close in Ec. destruct (es_stopped (y_sub y)); [done|]. injection Ec as <- <-.
    split_and!; [split; eauto 10 using Nat.le_le_succ_r| |].
    + cbn [y_pipe]. rewrite (exec_loops Validate _ _ _ Hx I). lia.
    + intros i. cbn [reported]. by rewrite app_nil_r.
  - unfold mbind, option_bind in Hx. destruct (sub_exec _ (y_sub y) a) as [s|] eqn:E; [|discriminate Hx].
    injection Hx as <-. split_and!.
    + split; [by eapply sub_exec_ok|]. exists es, lost. cbn. split_and!; [done| |lia].
      by rewrite (sub_exec_taken _ _ _ _ E).
    + cbn. lia.
    + intros i. by eapply exec_whereabouts.
  - unfold mbind, option_bind in Hx. destruct (take_event (y_sub y)) as [[s e]|] eqn:Et; [|discriminate Hx].
    destruct (exec Validate (y_pipe y) (LoopRecv i now e)) as [[p|x]|] eqn:E; try discriminate Hx.
    injection Hx as <-. destruct (take_ok _ _ _ Hs Et) as (Hs' & Hf & Hw).
    destruct (exec_accounted Validate c0 es lost _ _ _ A Hn' E I) as [lost' A'].
    split_and!.
    + split; [done|]. exists (es ++ [(now, e)]), lost'. split_and!; [exact A'| |rewrite length_app; cbn; lia].
      rewrite fmap_app, He. unfold take_event in Et. destruct (es_eventCh (y_sub y)) as [|[j e'] ch]; [done|].
      injection Et as <- <-. cbn. by rewrite fmap_app.
    + cbn [y_pipe]. rewrite (exec_loops Validate _ _ _ E I). lia.
    + intros k. cbn [reported]. rewrite app_nil_r. apply Hw.
  - destruct (pipe_only a) eqn:Ea; [|discriminate Hx]. unfold mbind, option_bind in Hx.
    destruct (exec Validate (y_pipe y) a) as [[p|x]|] eqn:E; try discriminate Hx. injection Hx as <-.
    destruct (pipe_step c0 es lost _ _ _ A Hn' Ea E) as [[lost' A'] Hloops].
    split_and!; [split; eauto 10 using Nat.le_le_succ_r|cbn; lia|intros; cbn [reported]; by rewrite app_nil_r].
Qed.

Lemma sys_run_ok c0 n acts y y' :
  sys_ok c0 n y → Z.of_nat n + Z.of_nat (length acts) ≤ int64_max →
  (sum_list_with is_start acts + length (loops (y_pipe y)) ≤ 1)%nat →
  sys_run y acts = Some (Ret y') →
  sys_ok c0 (n + length acts) y' ∧
  ∀ i, whereabouts i (y_sub y') = whereabouts i (y_sub y) ++ concat (map (reported i) acts).
Proof.
  revert n y. induction acts as [|a acts IH]; intros n y Hy Hn Hst Hr; cbn [sys_run] in Hr.
  { injection Hr as <-. rewrite Nat.add_0_r. split; [done|]. intros i. by rewrite app_nil_r. }
  destruct (sys_exec y a) as [[y1|x]|] eqn:E; try discriminate Hr. cbn [length sum_list_with] in *.
  destruct (sys_exec_ok c0 n y a y1 Hy) as (H1 & Hl & Hw); [lia|lia|done|].
  destruct (IH (S n) y1 H1) as [H2 Hw2]; [lia|lia|done|].
  split; [by rewrite Nat.add_succ_r|]. intros i. cbn [map concat]. by rewrite Hw2, Hw, app_assoc.
Qed.

(** ** Claims *)

(** C3 The subscriber in front of the pipeline, in any interleaving of a run that
    starts it once.  The subscriber does its part: the keys etcd reported to a
    watcher are, in order, those of its events the pipeline received, those in the
    channel (never more than 100), and what the watcher holds, or took away with
    it once [Close] was called; the pipeline counts what it received.  But its
    events carry nothing their fingerprint covers, so the pipeline drops all but
    the first: consumers never see a second event, whatever changes etcd reports. *)
Theorem etcd_pipeline (cfg : option SubscriptionConfig) (s0 : EtcdSubscriber) (c0 : C)
    (acts : list sys_action) (y : Sys)
    (Hnew : NewEtcdSubscriber cfg None = Ok s0) (Hc : dc_ok c0)
    (Hn : Z.of_nat (length acts) ≤ int64_max) (Hst : (sum_list_with is_start acts ≤ 1)%nat)
    (Hr : sys_run (mkSys s0 (NewEventPipeline c0)) acts = Some (Ret y)) :
  let s := y_sub y in let p := y_pipe y in
  (∀ i, of_watcher i ((prod_map id ID) <$> es_taken s ++ es_eventCh s) ++ of_watcher i (es_lost s) ++
        hand_of i s = concat (map (reported i) acts)) ∧
  (length (es_eventCh s) ≤ 100)%nat ∧ (es_lost s ≠ [] → es_stopped s = true) ∧
  EventsReceived (stats p) = Z.of_nat (length (es_taken s)) ∧
  (length (delivered p ++ out p) ≤ 1)%nat.
Proof.
  assert (Hok0 : sys_ok c0 0 (mkSys s0 (NewEventPipeline c0))).
  { split; [by eapply sub_new_ok|]. exists [], []. split_and!; [apply accounted_new| |cbn; lia].
    unfold NewEtcdSubscriber in Hnew. destruct cfg; [|done]. by injection Hnew as <-. }
  destruct (sys_run_ok c0 0 acts _ y Hok0) as [[Hs (es & lost & A & He & _)] Hw];
    [cbn; lia|cbn; lia|done|].
  cbn zeta. split_and!.
  - intros i. specialize (Hw i). unfold whereabouts in Hw. rewrite Hw.
    unfold NewEtcdSubscriber in Hnew. destruct cfg; [|done]. by injection Hnew as <-.
  - apply Hs.
  - apply Hs.
  - rewrite (acc_received _ _ _ _ _ A). rewrite <- (length_fmap snd es), He, length_fmap. done.
  - assert (Hf : Forall (λ te : Time * Event, Fingerprint te.2 = sha256_hex "") es).
    { assert (Forall (λ e, Fingerprint e = sha256_hex "") es.*2) as Hf.
      { rewrite He. pose proof (so_events _ Hs) as Hf. apply Forall_app in Hf as [Hf _].
        by apply Forall_fmap. }
      by apply Forall_fmap in Hf. }
    pose proof (pass_same_fingerprint Validate _ c0 es Hc Hf) as Hle.
    rewrite (acc_pass _ _ _ _ _ A) in Hle. cbn [snd] in Hle. rewrite !length_app in *. lia.
Qed.

End System.
End Watch.

(** Two responses with three changes in all, two of them received. *)
Definition demo_sys_acts : list sys_action :=
  [YStart 0 1; YWatch (SResp 0 5 (Ok ["vnets/a"; "vnets/b"])); YWatch (SSend 0 6); YWatch (SSend 0 7);
   YWatch (SResp 0 8 (Err (Errorf "compacted"))); YRecv 0 9; YPipe (LoopSend 0); YRecv 0 10;
   YWatch (SResp 0 11 (Ok ["nics/c"])); YStop None; YWatch (SStopped 0); YPipe (LoopDone 0)].

Lemma demo_cache_ok : dc_ok (NewLRUCache 10).
Proof.
  split; simpl; try apply NoDup_nil_2; try lia.
  - by intros ?? ?%elem_of_nil.
  - intros x. rewrite lookup_empty. by intros ?%elem_of_nil.
Qed.

Lemma etcd_pipeline_witness : ∃ s0 (y : Sys (C := LRUCache)),
  NewEtcdSubscriber (Some (mkSubConfig "etcd:2379" [] 3 0 0)) None = Ok s0 ∧
  sys_run (λ _, "") (λ s, "h" +:+ s) NullValidator_Validate
    (mkSys s0 (NewEventPipeline (NewLRUCache 10))) demo_sys_acts = Some (Ret y) ∧
  (ID <$> (es_taken (y_sub y)).*2) = ["vnets/a"; "vnets/b"] ∧ es_lost (y_sub y) = [(0%nat, "nics/c")] ∧
  (length (delivered (y_pipe y) ++ out (y_pipe y)) ≤ 1)%nat.
Proof.
  destruct (sys_run (λ _, "") (λ s, "h" +:+ s) NullValidator_Validate
    (mkSys (mkEtcd (mkSubConfig "etcd:2379" [] 3 0 0) [] false [] [] []) (NewEventPipeline (NewLRUCache 10)))
    demo_sys_acts) as [[y|x]|] eqn:E; [|exfalso; vm_compute in E; discriminate..].
  eexists _, y. split; [reflexivity|]. split; [exact E|].
  pose proof (etcd_pipeline (λ _, "") (λ s, "h" +:+ s) NullValidator_Validate
    (Some (mkSubConfig "etcd:2379" [] 3 0 0)) _ (NewLRUCache 10) demo_sys_acts y eq_refl demo_cache_ok
    ltac:(vm_compute; discriminate) ltac:(vm_compute; lia) E) as (_ & _ & _ & _ & Hle).
  split_and!; [by vm_compute in E; injection E as <-..|exact Hle].
Defined.
