(* ===== verification/GoalState.v ===== *)
(** * Goal state management

    [src/src/FM/pkg/gm]: the aggregator of a VNET's constructs, the generator of
    per-ENI goal states, the cache of goal states by fingerprint, and the manager
    that runs the three when a construct changes.

    Go ranges over a map in an unspecified order: where the code does, the
    order is an argument, any permutation of the map's entries.  The state of a
    context is an argument too: its error once it is done. *)

From S2P Require Import Prelude GoFloat.

(** ** types.go, errors.go *)

Record Route : Type := mkRoute { Destination : string; NextHop : string; Metric : Z }.

Record ACLRule : Type := mkACL {
  acl_ID : string; Action : string; Protocol : string;
  SrcIP : string; DstIP : string; SrcPort : Z; DstPort : Z
}.

Record VIPMapping : Type := mkVIP { VIP : string; DIP : string }.

Record PerENIGoalState : Type := mkGoal {
  ENI_ID : string;
  Routes : list Route;
  ACLs : list ACLRule;
  VIPMappings : list VIPMapping;
  Fingerprint : string;
  Version : Z;
  LastUpdated : Time
}.

Record ConstructState : Type := mkConstruct {
  ID : string;
  VnetID : string;
  Status : string;
  ConfigVersion : Z;
  TenantID : string;
  ConstructType : string;
  c_LastUpdated : Time;
  ReplicaID : string
}.

Record ReplicaState : Type := mkReplica {
  r_ID : string; r_VnetID : string; r_Status : string; HealthOK : bool
}.

Record AggregatedState : Type := mkAggregated {
  agg_VnetID : string;
  Constructs : list ConstructState;
  Replicas : list ReplicaState
}.

(** The last three are declared, and never set. *)
Record ManagerStats : Type := mkMStats {
  VNETsProcessed : Z;
  GoalStatesGenerated : Z;
  CacheHits : Z;
  CacheMisses : Z;
  AggregationErrors : Z;
  GenerationErrors : Z;
  AggregationTimeMs : f64;
  GenerationTimeMs : f64;
  gm_Uptime : Duration
}.

Definition zero_stats : ManagerStats := mkMStats 0 0 0 0 0 0 f_zero f_zero 0.

Definition ErrAggregationFailed : error := Errorf "goal state aggregation failed".
Definition ErrGenerationFailed : error := Errorf "goal state generation failed".
Definition ErrNoHealthyReplicas : error := Errorf "no healthy replicas available".
Definition ErrCacheError : error := Errorf "goal state cache error".

(** ** aggregator.go *)

(** The map of constructs; a nil pointer in it is [None]. *)
Definition VNETAggregator : Type := gmap string (option ConstructState).

(** A nil map is replaced by an empty one. *)
Definition NewVNETAggregator (constructs : option (gmap string (option ConstructState))) : VNETAggregator :=
  default ∅ constructs.

Definition nil_deref : string := "runtime error: invalid memory address or nil pointer dereference".

(** The filtering loop, over the entries in the order of the iteration. *)
Fixpoint filter_vnet (vnetID : string) (order : list (string * option ConstructState))
    : outcome (list ConstructState) :=
  match order with
  | [] => Ret []
  | (_, None) :: _ => Panic nil_deref
  | (_, Some construct) :: order =>
      rest ← filter_vnet vnetID order;
      Ret (if decide (VnetID construct = vnetID) then construct :: rest else rest)
  end.

Definition Aggregate (order : list (string * option ConstructState)) (ctx_err : option error)
    (vnetID : string) : outcome (result AggregatedState) :=
  match ctx_err with
  | Some e => Ret (Err (Wrapf "aggregation cancelled: " e ""))
  | None =>
      if decide (vnetID = "") then Ret (Err (Errorf "vnet ID required"))
      else
        vnetConstructs ← filter_vnet vnetID order;
        Ret (Ok (mkAggregated vnetID vnetConstructs []))
  end.

Definition AddConstruct (a : VNETAggregator) (construct : option ConstructState) : VNETAggregator :=
  match construct with
  | Some c => if decide (ID c = "") then a else <[ID c := Some c]> a
  | None => a
  end.

(** ** composer.go *)

Section Composer.
(** The quoted form of a string in JSON ([encoding/json]), and SHA-256 in
    hexadecimal. *)
Context (json_string : string → string) (sha256_hex : string → string).

(** [json.Marshal] of the payload: a map, so the keys come out sorted. *)
Definition construct_json (c : ConstructState) : string :=
  "{" +:+ json_string "config_ver" +:+ ":" +:+ Itoa (ConfigVersion c) +:+ "," +:+
  json_string "eni_id" +:+ ":" +:+ json_string (ID c) +:+ "," +:+
  json_string "status" +:+ ":" +:+ json_string (Status c) +:+ "," +:+
  json_string "vnet_id" +:+ ":" +:+ json_string (VnetID c) +:+ "}".

Definition goal_of (c : ConstructState) : PerENIGoalState :=
  mkGoal (ID c) [] [] [] (sha256_hex (construct_json c)) (ConfigVersion c) zero_time.

Definition Generate (ctx_err : option error) (agg : option AggregatedState)
    : result (list PerENIGoalState) :=
  match ctx_err with
  | Some e => Err (Wrapf "generation cancelled: " e "")
  | None =>
      match agg with
      | None => Err (Errorf "aggregated state required")
      | Some agg => Ok (map goal_of (Constructs agg))
      end
  end.

End Composer.

(** ** cache.go *)

Record CacheStats : Type := mkGStats { cs_Size : Z; cs_Hits : Z; cs_Misses : Z; cs_Evicted : Z }.

(** A nil state in the map is [None]. *)
Record GoalStateCache : Type := mkGCache {
  cache : gmap string (option PerENIGoalState);
  c_stats : CacheStats
}.

Definition NewGoalStateCache : GoalStateCache := mkGCache ∅ (mkGStats 0 0 0 0).

Definition Get (c : GoalStateCache) (fingerprint : string)
    : GoalStateCache * (option PerENIGoalState * bool) :=
  let s := c_stats c in
  match cache c !! fingerprint with
  | Some state =>
      (mkGCache (cache c) (mkGStats (cs_Size s) (cs_Hits s +64 1) (cs_Misses s) (cs_Evicted s)),
       (state, true))
  | None =>
      (mkGCache (cache c) (mkGStats (cs_Size s) (cs_Hits s) (cs_Misses s +64 1) (cs_Evicted s)),
       (None, false))
  end.

Definition Set_ (c : GoalStateCache) (fingerprint : string) (state : option PerENIGoalState)
    : GoalStateCache :=
  let m := <[fingerprint := state]> (cache c) in
  let s := c_stats c in
  mkGCache m (mkGStats (Z.of_nat (size m)) (cs_Hits s) (cs_Misses s) (cs_Evicted s)).

Definition Clear (c : GoalStateCache) : GoalStateCache :=
  let s := c_stats c in
  mkGCache ∅ (mkGStats 0 (cs_Hits s) (cs_Misses s) (cs_Evicted s +64 Z.of_nat (size (cache c)))).

Definition Cache_Stats (c : GoalStateCache) : CacheStats := c_stats c.

(** ** manager.go *)

(** [cancelled] says that [m.cancel] was called on the current [m.ctx]. *)
Record GoalStateManager : Type := mkGM {
  aggregator : VNETAggregator;
  m_cache : GoalStateCache;
  running : bool;
  cancelled : bool;
  stats : ManagerStats
}.

Definition NewGoalStateManager (agg : VNETAggregator) (c : GoalStateCache) : GoalStateManager :=
  mkGM agg c false false zero_stats.

Definition Start (m : GoalStateManager) : GoalStateManager * option error :=
  if running m then (m, Some (Errorf "goal state manager already running"))
  else (mkGM (aggregator m) (m_cache m) true false (stats m), None).

Definition Stop (m : GoalStateManager) : GoalStateManager * option error :=
  if negb (running m) then (m, Some (Errorf "goal state manager not running"))
  else (mkGM (aggregator m) (m_cache m) false true (stats m), None).

Definition add_stats (s : ManagerStats) (vnets gens hits misses aggerrs generrs : Z) : ManagerStats :=
  mkMStats (VNETsProcessed s +64 vnets) (GoalStatesGenerated s +64 gens) (CacheHits s +64 hits)
    (CacheMisses s +64 misses) (AggregationErrors s +64 aggerrs) (GenerationErrors s +64 generrs)
    (AggregationTimeMs s) (GenerationTimeMs s) (gm_Uptime s).

Definition set_stats (m : GoalStateManager) (s : ManagerStats) : GoalStateManager :=
  mkGM (aggregator m) (m_cache m) (running m) (cancelled m) s.

(** [for _, state := range states { m.cache.Set(...) }] *)
Definition cache_states (c : GoalStateCache) (states : list PerENIGoalState) : GoalStateCache :=
  fold_left (λ c state, Set_ c (Fingerprint state) (Some state)) states c.

(** The surroundings of a call: the caller's context at the manager's check, in
    the aggregator and in the generator; whether the parent of the manager's own
    context is done; which of two ready cases the select takes; the order in
    which the constructs come. *)
Record HandleEnv : Type := mkHEnv {
  he_ctx : option error;
  he_ctx_agg : option error;
  he_ctx_gen : option error;
  he_parent_done : bool;
  he_pick_ctx : bool;
  he_order : list (string * option ConstructState)
}.

Section Manager.
Context (json_string : string → string) (sha256_hex : string → string).

Definition stopped_error : error := Errorf "goal state manager stopped".

(** The select at the top of the handler. *)
Definition handle_select (m : GoalStateManager) (env : HandleEnv) : option error :=
  let done := cancelled m || he_parent_done env in
  match he_ctx env with
  | Some e =>
      if done && negb (he_pick_ctx env) then Some stopped_error
      else Some (Wrapf "construct change handling cancelled: " e "")
  | None => if done then Some stopped_error else None
  end.

(** The handler over any implementation of the aggregator's interface:
    [aggregate ctx_err vnetID] is its [Aggregate]. *)
Definition HandleWith (aggregate : option error → string → outcome (result AggregatedState))
    (m : GoalStateManager) (env : HandleEnv) (construct : option ConstructState)
    : outcome (GoalStateManager * option error) :=
  if negb (running m) then Ret (m, Some (Errorf "goal state manager not running"))
  else
    match handle_select m env with
    | Some e => Ret (m, Some e)
    | None =>
        match construct with
        | None => Ret (m, Some (Errorf "construct required"))
        | Some construct =>
            agg ← aggregate (he_ctx_agg env) (VnetID construct);
            match agg with
            | Err err =>
                Ret (set_stats m (add_stats (stats m) 0 0 0 0 1 0),
                     Some (Wrapf "aggregation failed: " err ""))
            | Ok agg =>
                let m := set_stats m (add_stats (stats m) 1 0 0 0 0 0) in
                match Generate json_string sha256_hex (he_ctx_gen env) (Some agg) with
                | Err err =>
                    Ret (set_stats m (add_stats (stats m) 0 0 0 0 0 1),
                         Some (Wrapf "goal state generation failed: " err ""))
                | Ok states =>
                    let m := set_stats m (add_stats (stats m) 0 (Z.of_nat (length states)) 0 0 0 0) in
                    Ret (mkGM (aggregator m) (cache_states (m_cache m) states) (running m)
                           (cancelled m) (stats m), None)
                end
            end
        end
    end.

(** With the aggregator over the constructs in memory. *)
Definition HandleConstructChange (m : GoalStateManager) (env : HandleEnv)
    (construct : option ConstructState) : outcome (GoalStateManager * option error) :=
  HandleWith (Aggregate (he_order env)) m env construct.

End Manager.

(** The search of [GetGoalState], over the cache in the order of the iteration. *)
Fixpoint find_eni (eniID : string) (order : list (string * option PerENIGoalState))
    : option PerENIGoalState :=
  match order with
  | [] => None
  | (_, Some state) :: order =>
      if decide (ENI_ID state = eniID) then Some state else find_eni eniID order
  | (_, None) :: order => find_eni eniID order
  end.

Definition GetGoalState (m : GoalStateManager) (order : list (string * option PerENIGoalState))
    (eniID : string) : GoalStateManager * (option PerENIGoalState * bool) :=
  if decide (eniID = "") then (m, (None, false))
  else
    match find_eni eniID order with
    | Some state => (set_stats m (add_stats (stats m) 0 0 1 0 0 0), (Some state, true))
    | None => (set_stats m (add_stats (stats m) 0 0 0 1 0 0), (None, false))
    end.

Definition Manager_Stats (m : GoalStateManager) : ManagerStats := stats m.

(** ** Lemmas *)

Lemma filter_vnet_ok vnetID order cs :
  order.*2 = Some <$> cs →
  filter_vnet vnetID order = Ret (filter (λ c, VnetID c = vnetID) cs).
Proof.
  revert cs. induction order as [|[k o] order IH]; intros [|c cs] Ho; simpl in *; try done.
  injection Ho as -> Ho. rewrite (IH cs Ho). unfold mbind; simpl. f_equal.
Qed.

Lemma filter_vnet_panics vnetID order :
  None ∈ order.*2 → filter_vnet vnetID order = Panic nil_deref.
Proof.
  induction order as [|[k [c|]] order IH]; simpl; intros Hin; [by apply elem_of_nil in Hin| |done].
  apply elem_of_cons in Hin as [?|Hin]; [done|]. by rewrite (IH Hin).
Qed.

Lemma cache_states_lookup c states fp :
  cache (cache_states c states) !! fp =
  match last (filter (λ s, Fingerprint s = fp) states) with
  | Some s => Some (Some s)
  | None => cache c !! fp
  end.
Proof.
  unfold cache_states. induction states as [|s states IH] using rev_ind; [done|].
  rewrite fold_left_app, filter_app. simpl. rewrite lookup_insert.
  destruct (decide (Fingerprint s = fp)) as [E|E].
  - rewrite filter_cons_True, filter_nil by done. by rewrite last_snoc.
  - rewrite filter_cons_False by done. by rewrite filter_nil, app_nil_r, IH.
Qed.

Lemma find_eni_Some eni order s :
  find_eni eni order = Some s → Some s ∈ order.*2 ∧ ENI_ID s = eni.
Proof.
  induction order as [|[k [s'|]] order IH]; simpl; [done| |].
  - case_decide; [intros [= <-]; set_solver|]. intros [? ?]%IH. set_solver.
  - intros [? ?]%IH. set_solver.
Qed.

Lemma find_eni_None eni order s :
  find_eni eni order = None → Some s ∈ order.*2 → ENI_ID s ≠ eni.
Proof.
  induction order as [|[k [s'|]] order IH]; simpl; intros Hf Hin; [by apply elem_of_nil in Hin| |].
  - case_decide; [done|]. apply elem_of_cons in Hin as [[= ->]|Hin]; [done|by apply IH].
  - apply elem_of_cons in Hin as [?|Hin]; [done|by apply IH].
Qed.

(** ** Theorems *)

(** An iteration over a map: its entries, in some order. *)
Definition iterates {A} (order : list (string * A)) (m : gmap string A) : Prop :=
  order ≡ₚ map_to_list m.

(** What a change does to a manager that handles it: [mine] are the constructs of
    the VNET, in the order they come. *)
Section Handling.
Context (json_string sha256_hex : string → string).
Notation goal := (goal_of json_string sha256_hex).

Definition handled (m : GoalStateManager) (mine : list ConstructState) : GoalStateManager :=
  mkGM (aggregator m) (cache_states (m_cache m) (map goal mine)) (running m) (cancelled m)
    (add_stats (add_stats (stats m) 1 0 0 0 0 0) 0 (Z.of_nat (length mine)) 0 0 0 0).

Lemma handle_live m env c :
  running m = true → cancelled m || he_parent_done env = false → he_ctx env = None →
  HandleConstructChange json_string sha256_hex m env (Some c) =
  (agg ← Aggregate (he_order env) (he_ctx_agg env) (VnetID c);
   match agg with
   | Err err => Ret (set_stats m (add_stats (stats m) 0 0 0 0 1 0), Some (Wrapf "aggregation failed: " err ""))
   | Ok agg =>
       match he_ctx_gen env with
       | Some e =>
           Ret (set_stats m (add_stats (add_stats (stats m) 1 0 0 0 0 0) 0 0 0 0 0 1),
                Some (Wrapf "goal state generation failed: " (Wrapf "generation cancelled: " e "") ""))
       | None => Ret (handled m (Constructs agg), None)
       end
   end).
Proof.
  intros Hrun Hlive Hctx. unfold HandleConstructChange, HandleWith, handle_select. rewrite Hrun, Hctx, Hlive. simpl.
  unfold mbind. destruct (Aggregate _ _ _) as [[agg|err]|]; simpl; [|done..].
  unfold Generate. destruct (he_ctx_gen env); [done|]. simpl. unfold handled. by rewrite length_map.
Qed.

Lemma order_cases (order : list (string * option ConstructState)) :
  (None ∈ order.*2) + {cs | order.*2 = Some <$> cs}.
Proof.
  induction order as [|[k [c|]] order [Hn|[cs Hcs]]]; cbn.
  - right. by exists [].
  - left. by right.
  - right. exists (c :: cs). cbn. by rewrite Hcs.
  - left. left.
  - left. left.
Qed.

Lemma omap_snd_order (order : list (string * option ConstructState)) cs :
  order.*2 = Some <$> cs → omap snd order = cs.
Proof.
  revert cs. induction order as [|[k o] order IH]; intros [|c cs] Hcs; try done.
  cbn in Hcs. injection Hcs as -> Hcs. cbn. by rewrite (IH cs).
Qed.

(** A change that is handled leaves a goal state for the fingerprint of every
    construct of the VNET. *)
Lemma handled_caches m mine x :
  x ∈ mine → ∃ y, y ∈ mine ∧ Fingerprint (goal y) = Fingerprint (goal x) ∧
    cache (m_cache (handled m mine)) !! Fingerprint (goal x) = Some (Some (goal y)).
Proof.
  intros Hin. cbn [m_cache handled]. setoid_rewrite cache_states_lookup.
  destruct (last _) as [s|] eqn:El.
  - apply last_Some_elem_of, list_elem_of_filter in El as [Hfp Hs].
    apply list_elem_of_fmap in Hs as (y & -> & Hy). by exists y.
  - apply last_None in El. exfalso.
    assert (goal x ∈ @nil PerENIGoalState) as Hbad; [|by apply elem_of_nil in Hbad].
    rewrite <- El. apply list_elem_of_filter. split; [done|]. apply list_elem_of_fmap. by exists x.
Qed.

Lemma handled_keeps m mine fp :
  (∀ x, x ∈ mine → Fingerprint (goal x) ≠ fp) →
  cache (m_cache (handled m mine)) !! fp = cache (m_cache m) !! fp.
Proof.
  intros Hno. cbn [m_cache handled]. rewrite cache_states_lookup. destruct (last _) as [s|] eqn:El; [|done].
  apply last_Some_elem_of, list_elem_of_filter in El as [Hfp Hs].
  apply list_elem_of_fmap in Hs as (y & -> & Hy). by destruct (Hno y Hy).
Qed.

(** The constructs that come are those of the map. *)
Lemma order_elem m env cs x :
  iterates (he_order env) (aggregator m) → (he_order env).*2 = Some <$> cs →
  x ∈ cs ↔ ∃ k, aggregator m !! k = Some (Some x).
Proof.
  intros Hord Hcs. assert (x ∈ cs ↔ Some x ∈ (he_order env).*2) as ->.
  { rewrite Hcs, list_elem_of_fmap. split; [intros; by exists x|by intros (? & [= <-] & ?)]. }
  rewrite list_elem_of_fmap. split.
  - intros ([k o] & Ho & Hx). cbn in Ho. subst o. exists k. rewrite Hord in Hx. by apply elem_of_map_to_list in Hx.
  - intros [k Hk]. exists (k, Some x). split; [done|]. rewrite Hord. by apply elem_of_map_to_list.
Qed.

(** A change that succeeds was handled. *)
Lemma handle_success m env c m' :
  iterates (he_order env) (aggregator m) →
  HandleConstructChange json_string sha256_hex m env (Some c) = Ret (m', None) →
  running m = true ∧ ∃ mine, m' = handled m mine ∧
    ∀ x, x ∈ mine ↔ VnetID x = VnetID c ∧ ∃ k, aggregator m !! k = Some (Some x).
Proof.
  intros Hord Hx. destruct (running m) eqn:Hrun; [|unfold HandleConstructChange, HandleWith in Hx; by rewrite Hrun in Hx].
  split; [done|]. destruct (handle_select m env) as [e|] eqn:Hsel.
  { unfold HandleConstructChange, HandleWith in Hx. by rewrite Hrun, Hsel in Hx. }
  unfold handle_select in Hsel. destruct (he_ctx env) eqn:Hctx; [by destruct (_ && _)|].
  destruct (cancelled m || he_parent_done env) eqn:Hlive; [done|].
  rewrite handle_live in Hx by done. unfold Aggregate in Hx. destruct (he_ctx_agg env); [done|].
  case_decide; [done|]. destruct (order_cases (he_order env)) as [Hn|[cs Hcs]].
  { by rewrite filter_vnet_panics in Hx. }
  rewrite (filter_vnet_ok _ _ cs Hcs) in Hx. simpl in Hx. destruct (he_ctx_gen env); simplify_eq.
  eexists. split; [done|]. intros x. by rewrite list_elem_of_filter, (order_elem m env cs x Hord Hcs).
Qed.
End Handling.

(** C20 A construct change, on every branch. A manager that is not running, or
    whose context or caller's context is done, refuses it, and a nil construct too,
    and nothing changes; a construct without a VNET ID, and a context that ends
    before the aggregation, are an aggregation error, one that ends before the
    generation a generation error: each is counted, and the cache stays as it is. A
    nil construct among those of the aggregator is dereferenced: a panic. Otherwise
    it succeeds and refreshes the whole VNET: the cache maps the fingerprint of
    every construct of the VNET to a goal state with that fingerprint, generated
    from such a construct, no other fingerprint changes, and the statistics count one
    VNET and one goal state per construct of it. *)
Theorem HandleConstructChange_spec (json_string sha256_hex : string → string)
    (m : GoalStateManager) (env : HandleEnv) (construct : option ConstructState)
    (Hord : iterates (he_order env) (aggregator m)) :
  let out := HandleConstructChange json_string sha256_hex m env construct in
  let goal := goal_of json_string sha256_hex in
  let dead := cancelled m || he_parent_done env in
  (running m = false → out = Ret (m, Some (Errorf "goal state manager not running"))) ∧
  (running m = true → dead = true → he_ctx env = None → out = Ret (m, Some (Errorf "goal state manager stopped"))) ∧
  (running m = true → ∀ e, he_ctx env = Some e →
     out = Ret (m, Some (Wrapf "construct change handling cancelled: " e "")) ∨
     dead = true ∧ out = Ret (m, Some (Errorf "goal state manager stopped"))) ∧
  (running m = true → dead = false → he_ctx env = None →
   match construct with
   | None => out = Ret (m, Some (Errorf "construct required"))
   | Some c =>
       let agg_failed err := Ret (set_stats m (add_stats (stats m) 0 0 0 0 1 0),
                                  Some (Wrapf "aggregation failed: " err "")) in
       (∀ e, he_ctx_agg env = Some e → out = agg_failed (Wrapf "aggregation cancelled: " e "")) ∧
       (he_ctx_agg env = None → VnetID c = "" → out = agg_failed (Errorf "vnet ID required")) ∧
       (he_ctx_agg env = None → VnetID c ≠ "" → (∃ k, aggregator m !! k = Some None) → out = Panic nil_deref) ∧
       (he_ctx_agg env = None → VnetID c ≠ "" → (∀ k, aggregator m !! k ≠ Some None) →
          (∀ e, he_ctx_gen env = Some e →
             out = Ret (set_stats m (add_stats (add_stats (stats m) 1 0 0 0 0 0) 0 0 0 0 0 1),
                        Some (Wrapf "goal state generation failed: " (Wrapf "generation cancelled: " e "") ""))) ∧
          (he_ctx_gen env = None → ∃ m', out = Ret (m', None) ∧
             let mine := filter (λ x, VnetID x = VnetID c) (omap snd (he_order env)) in
             (aggregator m', running m', cancelled m') = (aggregator m, running m, cancelled m) ∧
             (∀ k x, aggregator m !! k = Some (Some x) → VnetID x = VnetID c →
                ∃ y, y ∈ mine ∧ Fingerprint (goal y) = Fingerprint (goal x) ∧
                     cache (m_cache m') !! Fingerprint (goal x) = Some (Some (goal y))) ∧
             (∀ fp, (∀ x, x ∈ mine → Fingerprint (goal x) ≠ fp) →
                cache (m_cache m') !! fp = cache (m_cache m) !! fp) ∧
             stats m' = add_stats (add_stats (stats m) 1 0 0 0 0 0) 0 (Z.of_nat (length mine)) 0 0 0 0))
   end).
Proof.
  intros out goal dead. split_and!.
  - intros Hrun. unfold out, HandleConstructChange, HandleWith. by rewrite Hrun.
  - intros Hrun Hdead Hctx. unfold out, HandleConstructChange, HandleWith, handle_select. rewrite Hrun, Hctx.
    unfold dead in Hdead. by rewrite Hdead.
  - intros Hrun e Hctx. unfold out, HandleConstructChange, HandleWith, handle_select, dead. rewrite Hrun, Hctx. simpl.
    destruct (cancelled m || he_parent_done env), (he_pick_ctx env); simpl; auto.
  - intros Hrun Hlive Hctx. destruct construct as [c|].
    2:{ unfold out, HandleConstructChange, HandleWith, handle_select. rewrite Hrun, Hctx.
        unfold dead in Hlive. by rewrite Hlive. }
    unfold out. rewrite handle_live by done. unfold Aggregate. split_and!.
    + by intros e ->.
    + intros -> Hv. by rewrite decide_True.
    + intros -> Hv [k Hk]. rewrite decide_False, filter_vnet_panics; [done| |done].
      apply list_elem_of_fmap. exists (k, None). split; [done|]. rewrite Hord. by apply elem_of_map_to_list.
    + intros -> Hv Hnil. rewrite decide_False by done.
      destruct (order_cases (he_order env)) as [Hn|[cs Hcs]].
      { exfalso. apply list_elem_of_fmap in Hn as ([k o] & Ho & Hk). cbn in Ho. subst o.
        rewrite Hord in Hk. by apply (Hnil k), elem_of_map_to_list. }
      rewrite (omap_snd_order _ _ Hcs), (filter_vnet_ok _ _ cs Hcs). simpl. split; [by intros e ->|]. intros ->. eexists. split; [done|].
      split; [done|]. split; [|split; [|done]].
      * intros k x Hk Hx. apply handled_caches, list_elem_of_filter. split; [done|].
        apply (order_elem m env cs x Hord Hcs). by exists k.
      * intros fp Hno. by apply handled_keeps.
Qed.

(** Two constructs of a VNET, for the witnesses: one bumped its version. *)
Definition eni (ver : Z) : ConstructState := mkConstruct "eni-1" "vnet-1" "up" ver "t" "ENI" 0 "".

Lemma HandleConstructChange_spec_witness :
  let quote s := "'" +:+ s +:+ "'" in let sha s := "#" +:+ s in
  let m := (Start (NewGoalStateManager (AddConstruct (NewVNETAggregator None) (Some (eni 1))) NewGoalStateCache)).1 in
  let env := mkHEnv None None None false true [("eni-1", Some (eni 1))] in
  ∃ m', HandleConstructChange quote sha m env (Some (eni 1)) = Ret (m', None) ∧
    stats m' = mkMStats 1 1 0 0 0 0 f_zero f_zero 0.
Proof.
  set (quote := λ s, "'" +:+ s +:+ "'"). set (sha := λ s, "#" +:+ s).
  destruct (HandleConstructChange_spec quote sha
    (Start (NewGoalStateManager (AddConstruct (NewVNETAggregator None) (Some (eni 1))) NewGoalStateCache)).1
    (mkHEnv None None None false true [("eni-1", Some (eni 1))]) (Some (eni 1))
    ltac:(unfold iterates; vm_compute; reflexivity)) as (_ & _ & _ & H).
  destruct (H eq_refl eq_refl eq_refl) as (_ & _ & _ & Hok).
  destruct (Hok eq_refl ltac:(discriminate)) as [_ Hret].
  { intros k Hk. cbn in Hk. apply lookup_insert_Some in Hk as [[_ Hk]|[_ Hk]]; [discriminate|].
    rewrite lookup_empty in Hk. discriminate. }
  destruct (Hret eq_refl) as (m' & Hm & _ & _ & _ & Hs).
  exists m'. split; [exact Hm|exact Hs].
Defined.

(** [GetGoalState] finds a goal state of the ENI if and only if one is cached,
    whatever the order of the search, returns a cached one, and counts one hit or
    one miss; the empty ENI ID finds nothing and counts nothing. *)
Theorem GetGoalState_spec (m : GoalStateManager) (order : list (string * option PerENIGoalState))
    (eniID : string) (Hord : iterates order (cache (m_cache m))) :
  let '(m', (found, ok)) := GetGoalState m order eniID in
  m_cache m' = m_cache m ∧ ok = bool_decide (is_Some found) ∧
  if decide (eniID = "") then found = None ∧ m' = m
  else
    (is_Some found ↔ ∃ fp s, cache (m_cache m) !! fp = Some (Some s) ∧ ENI_ID s = eniID) ∧
    (∀ s, found = Some s → ENI_ID s = eniID ∧ ∃ fp, cache (m_cache m) !! fp = Some (Some s)) ∧
    stats m' = add_stats (stats m) 0 0 (if ok then 1 else 0) (if ok then 0 else 1) 0 0.
Proof.
  assert (∀ s, Some s ∈ order.*2 ↔ ∃ fp, cache (m_cache m) !! fp = Some (Some s)) as Hin.
  { intros s. rewrite list_elem_of_fmap. split.
    - intros ([fp o] & Ho & Hx). simpl in Ho. subst o. exists fp.
      rewrite Hord in Hx. by apply elem_of_map_to_list in Hx.
    - intros [fp Hfp]. exists (fp, Some s). split; [done|]. rewrite Hord. by apply elem_of_map_to_list. }
  unfold GetGoalState. destruct (decide (eniID = "")) as [->|Hne]; [done|].
  destruct (find_eni eniID order) as [s|] eqn:Ef.
  - apply find_eni_Some in Ef as [Hs He]. apply Hin in Hs as [fp Hs].
    split; [done|]. split; [done|]. split; [|split; [|done]].
    + split; [intros _; by exists fp, s|by eexists].
    + intros s' [= <-]. split; [done|by exists fp].
  - split; [done|]. split; [done|]. split; [|by split].
    split; [by intros [? ?]|]. intros (fp & s & Hs & He). exfalso.
    apply (find_eni_None eniID order s Ef); [apply Hin; eauto|done].
Qed.

Definition one_goal : PerENIGoalState := mkGoal "eni-1" [] [] [] "f" 3 0.

Lemma GetGoalState_spec_witness :
  let m := mkGM (NewVNETAggregator None) (Set_ NewGoalStateCache "f" (Some one_goal)) true false
             zero_stats in
  let '(m', (found, ok)) := GetGoalState m [("f", Some one_goal)] "eni-1" in
  m_cache m' = m_cache m ∧ ok = bool_decide (is_Some found) ∧
  if decide ("eni-1" = "") then found = None ∧ m' = m
  else
    (is_Some found ↔ ∃ fp s, cache (m_cache m) !! fp = Some (Some s) ∧ ENI_ID s = "eni-1") ∧
    (∀ s, found = Some s → ENI_ID s = "eni-1" ∧ ∃ fp, cache (m_cache m) !! fp = Some (Some s)) ∧
    stats m' = add_stats (stats m) 0 0 (if ok then 1 else 0) (if ok then 0 else 1) 0 0.
Proof.
  exact (GetGoalState_spec (mkGM (NewVNETAggregator None) (Set_ NewGoalStateCache "f" (Some one_goal))
    true false zero_stats) [("f", Some one_goal)] "eni-1"
    ltac:(unfold iterates; vm_compute; reflexivity)).
Defined.

(** Whatever is cached for an ENI, some iteration order returns it. *)
Lemma lookup_any (m : GoalStateManager) fp g :
  ENI_ID g ≠ "" → cache (m_cache m) !! fp = Some (Some g) →
  ∃ order, iterates order (cache (m_cache m)) ∧ (GetGoalState m order (ENI_ID g)).2 = (Some g, true).
Proof.
  intros Hne Hfp. exists ((fp, Some g) :: map_to_list (delete fp (cache (m_cache m)))). split.
  - unfold iterates. by rewrite <- map_to_list_insert, insert_delete_id by (done || apply lookup_delete_eq).
  - unfold GetGoalState. rewrite decide_False by done. cbn [find_eni]. by rewrite decide_True.
Qed.

(** Registering a new version of a construct replaces the old one. *)
Definition register (c : ConstructState) (m : GoalStateManager) : GoalStateManager :=
  mkGM (AddConstruct (aggregator m) (Some c)) (m_cache m) (running m) (cancelled m) (stats m).

(** C40 A lookup may return a version that has been superseded. Take any manager, with
    any constructs and cache, that handled a change of a registered construct (one with an ID), then
    had a new version of it registered, with another fingerprint, and handled that
    change too (constructs of equal fingerprints making equal goal states, that is,
    without a collision of hashes among those involved). Then the goal states of both
    versions are cached, each under its fingerprint, since nothing is ever evicted;
    and the lookup by ENI returns the one or the other depending on the order in
    which the map is iterated over. *)
Theorem stale_goal_state (json_string sha256_hex : string → string) (m m1 m2 : GoalStateManager)
    (env1 env2 : HandleEnv) (c1 c2 : ConstructState) (k : string) :
  let goal := goal_of json_string sha256_hex in
  let handle := HandleConstructChange json_string sha256_hex in
  let involved x := x = c2 ∨ ∃ k, aggregator m !! k = Some (Some x) in
  ∀ (Hk : aggregator m !! k = Some (Some c1)) (Hid : ID c2 = ID c1) (Hne : ID c1 ≠ "")
    (Hfp : Fingerprint (goal c1) ≠ Fingerprint (goal c2))
    (Hcoll : ∀ x y, involved x → involved y → Fingerprint (goal x) = Fingerprint (goal y) → goal x = goal y)
    (Hord1 : iterates (he_order env1) (aggregator m))
    (Hord2 : iterates (he_order env2) (aggregator (register c2 m1)))
    (Hm1 : handle m env1 (Some c1) = Ret (m1, None))
    (Hm2 : handle (register c2 m1) env2 (Some c2) = Ret (m2, None)),
  cache (m_cache m2) !! Fingerprint (goal c1) = Some (Some (goal c1)) ∧
  cache (m_cache m2) !! Fingerprint (goal c2) = Some (Some (goal c2)) ∧
  ∀ c, c = c1 ∨ c = c2 →
    ∃ order, iterates order (cache (m_cache m2)) ∧ (GetGoalState m2 order (ID c1)).2 = (Some (goal c), true).
Proof.
  intros goal handle involved Hk Hid Hne Hfp Hcoll Hord1 Hord2 Hm1 Hm2.
  apply handle_success in Hm1 as (_ & mine1 & -> & Hmine1); [|done].
  apply handle_success in Hm2 as (_ & mine2 & -> & Hmine2); [|done].
  assert (∀ x, x ∈ mine1 → involved x) as Hin1 by (intros x (_ & Hx)%Hmine1; by right).
  assert (∀ x, x ∈ mine2 → involved x) as Hin2.
  { intros x (_ & k' & Hx)%Hmine2. cbn in Hx. rewrite decide_False in Hx by congruence.
    apply lookup_insert_Some in Hx as [[_ [= <-]]|[_ Hx]]; [by left|right; by exists k']. }
  assert (involved c1 ∧ involved c2) as [Hi1 Hi2] by (split; [right; by exists k|by left]).
  assert (c1 ∈ mine1) as Hc1 by (apply Hmine1; split; [done|by exists k]).
  assert (c2 ∈ mine2) as Hc2.
  { apply Hmine2. split; [done|]. exists (ID c2). cbn. rewrite decide_False by congruence. apply lookup_insert_eq. }
  set (m1 := handled json_string sha256_hex m mine1) in *.
  set (m2 := handled json_string sha256_hex (register c2 m1) mine2) in *.
  (* a fingerprint of the last VNET is filed with the goal state of any that has it *)
  assert (∀ x c, x ∈ mine2 → involved c → Fingerprint (goal x) = Fingerprint (goal c) →
            cache (m_cache m2) !! Fingerprint (goal c) = Some (Some (goal c))) as Hfresh.
  { intros x c Hx Hc E. rewrite <- E at 1.
    destruct (handled_caches json_string sha256_hex (register c2 m1) mine2 x Hx) as (y & Hy & Hfy & Hcache).
    etrans; [exact Hcache|]. do 2 f_equal. apply Hcoll; [by apply Hin2|done|]. by etrans; [exact Hfy|]. }
  assert (cache (m_cache m2) !! Fingerprint (goal c2) = Some (Some (goal c2))) as H2 by (by apply (Hfresh c2)).
  assert (cache (m_cache m2) !! Fingerprint (goal c1) = Some (Some (goal c1))) as H1.
  { destruct (decide (Exists (λ x, Fingerprint (goal x) = Fingerprint (goal c1)) mine2)) as [Hex|Hno].
    - apply Exists_exists in Hex as (x & Hx & Hfx). by apply (Hfresh x).
    - etrans; [apply handled_keeps; intros x Hx E; apply Hno, Exists_exists; by exists x|].
      destruct (handled_caches json_string sha256_hex m mine1 c1 Hc1) as (y & Hy & Hfy & Hcache).
      etrans; [exact Hcache|]. do 2 f_equal. by apply Hcoll; [apply Hin1| |]. }
  split; [exact H1|]. split; [exact H2|]. intros c [->| ->].
  - by apply (lookup_any m2 (Fingerprint (goal c1)) (goal c1)).
  - rewrite <- Hid. apply (lookup_any m2 (Fingerprint (goal c2)) (goal c2)); [|done]. cbn. congruence.
Qed.

(** The demonstration: version 1, then version 2 of an ENI, whose VNET has another. *)
Definition other : ConstructState := mkConstruct "eni-2" "vnet-1" "up" 1 "t" "ENI" 0 "".
Definition demo_order (ver : Z) : list (string * option ConstructState) :=
  [("eni-1", Some (eni ver)); ("eni-2", Some other)].
Definition demo_env (ver : Z) : HandleEnv := mkHEnv None None None false true (demo_order ver).
Definition demo_quote (s : string) : string := "'" +:+ s +:+ "'".
Definition demo_sha (s : string) : string := "#" +:+ s.
Definition demo_manager : GoalStateManager :=
  (Start (NewGoalStateManager (AddConstruct (AddConstruct (NewVNETAggregator None) (Some (eni 1))) (Some other))
            NewGoalStateCache)).1.
Definition after (r : outcome (GoalStateManager * option error)) : GoalStateManager :=
  match r with Ret (m, _) => m | Panic _ => demo_manager end.

Lemma stale_goal_state_witness :
  let handle := HandleConstructChange demo_quote demo_sha in
  let m1 := after (handle demo_manager (demo_env 1) (Some (eni 1))) in
  let m2 := after (handle (register (eni 2) m1) (demo_env 2) (Some (eni 2))) in
  (∃ order, iterates order (cache (m_cache m2)) ∧
     (GetGoalState m2 order "eni-1").2 = (Some (goal_of demo_quote demo_sha (eni 1)), true)) ∧
  ∃ order, iterates order (cache (m_cache m2)) ∧
     (GetGoalState m2 order "eni-1").2 = (Some (goal_of demo_quote demo_sha (eni 2)), true).
Proof.
  intros handle m1 m2.
  assert (∀ x, x = eni 2 ∨ (∃ k, aggregator demo_manager !! k = Some (Some x)) → x ∈ [eni 2; eni 1; other]) as Hall.
  { intros x [->|[k Hk]]; [left|]. cbn in Hk.
    apply lookup_insert_Some in Hk as [[_ [= <-]]|[_ Hk]]; [do 2 right; left|].
    apply lookup_insert_Some in Hk as [[_ [= <-]]|[_ Hk]]; [right; left|]. by rewrite lookup_empty in Hk. }
  destruct (stale_goal_state demo_quote demo_sha demo_manager m1 m2 (demo_env 1) (demo_env 2) (eni 1) (eni 2) "eni-1")
    as (_ & _ & H).
  - vm_compute. reflexivity.
  - reflexivity.
  - discriminate.
  - vm_compute. discriminate.
  - intros x y Hx%Hall Hy%Hall. revert x Hx y Hy.
    assert (Forall (λ x, Forall (λ y, Fingerprint (goal_of demo_quote demo_sha x) = Fingerprint (goal_of demo_quote demo_sha y) →
      goal_of demo_quote demo_sha x = goal_of demo_quote demo_sha y) [eni 2; eni 1; other]) [eni 2; eni 1; other]) as Hf.
    { repeat constructor; (vm_compute; discriminate) || (vm_compute; reflexivity). }
    intros x Hx y Hy. rewrite Forall_forall in Hf. specialize (Hf x Hx). rewrite Forall_forall in Hf. by apply Hf.
  - unfold iterates. vm_compute. reflexivity.
  - unfold iterates. vm_compute. reflexivity.
  - vm_compute. reflexivity.
  - vm_compute. reflexivity.
  - split; apply H; [by left|by right].
Defined.
