(* ===== verification/DalDispatch.v ===== *)
(** * DPU abstraction: plugins and their dispatcher

    [src/src/FM/pkg/dal]: the plugin interface and its results ([types.go]), the
    registry of plugins by vendor ([registry.go]), the factory ([factory.go]),
    the Custom plugin ([custom.go]) and the dispatcher, which programs a goal
    state through a plugin under the vendor's circuit breaker and the retry
    policy ([dispatcher.go]). *)

From S2P Require Import Prelude GoFloat Resilience GoalState.

(** ** types.go, errors.go *)

Record ProgramResult : Type := mkResult {
  pr_ENI_ID : string;
  Success : bool;
  pr_Error : string;
  AppliedVersion : Z;
  pr_Duration : Duration
}.

(** The interface [Plugin]: [Program] depends on the state of the context it is
    given (its error once done), on the surroundings of its [n]-th call, and on
    the goal, which may be nil; both its results may be nil. *)
Record Plugin : Type := mkPlugin {
  p_Name : string;
  p_Vendor : string;
  p_Program : option error → nat → option PerENIGoalState →
              option ProgramResult * option error
}.

Definition ErrProgrammingFailed : error := Errorf "device programming failed".
Definition ErrPluginNotFound : error := Errorf "plugin not found".
Definition ErrPluginLoadFailed : error := Errorf "plugin load failed".
Definition ErrDispatchError : error := Errorf "dispatch error".
Definition ErrPoolError : error := Errorf "worker pool error".

(** ** registry.go *)

Definition PluginRegistry : Type := gmap string Plugin.

Definition NewPluginRegistry : PluginRegistry := (∅ : gmap string Plugin).

Definition Register (r : PluginRegistry) (vendor : string) (plugin : option Plugin)
    : PluginRegistry * option error :=
  if decide (vendor = "") then (r, Some (Errorf "vendor name required"))
  else
    match plugin with
    | None => (r, Some (Errorf "plugin required"))
    | Some plugin =>
        match (r : gmap string Plugin) !! vendor with
        | Some _ => (r, Some (Errorf ("plugin already registered for vendor: " +:+ vendor)))
        | None => (<[vendor := plugin]> (r : gmap string Plugin), None)
        end
    end.

Definition Get (r : PluginRegistry) (vendor : string) : result Plugin :=
  if decide (vendor = "") then Err (Errorf "vendor name required")
  else
    match (r : gmap string Plugin) !! vendor with
    | None => Err (Errorf ("plugin not found for vendor: " +:+ vendor))
    | Some plugin => Ok plugin
    end.

(** The names in the order of the iteration over the map. *)
Definition ListVendors (order : list (string * Plugin)) : list string := order.*1.

Definition Registry_Clear (r : PluginRegistry) : PluginRegistry := NewPluginRegistry.

(** ** custom.go *)

Record CustomPlugin : Type := mkCustom { name : string }.
Definition CustomPlugin_Name (p : CustomPlugin) : string := name p.
Definition CustomPlugin_Vendor (p : CustomPlugin) : string := "Custom".

Definition CustomPlugin_Program (ctx_err : option error) (n : nat) (goal : option PerENIGoalState)
    : option ProgramResult * option error :=
  match ctx_err with
  | Some e => (None, Some (Wrapf "programming cancelled: " e ""))
  | None =>
      match goal with
      | None => (None, Some (Errorf "goal state required"))
      | Some goal => (Some (mkResult (ENI_ID goal) true "" (Version goal) 0), None)
      end
  end.

Definition NewCustomPlugin : Plugin :=
  let p := mkCustom "Custom" in mkPlugin (CustomPlugin_Name p) (CustomPlugin_Vendor p) CustomPlugin_Program.

(** ** factory.go *)

Definition PluginFactory : Type := PluginRegistry.

Definition NewPluginFactory : PluginFactory := NewPluginRegistry.

Definition Registry (f : PluginFactory) : PluginRegistry := f.

Definition CreatePlugin (f : PluginFactory) (vendor : string) : PluginFactory * result Plugin :=
  if decide (vendor = "") then (f, Err (Errorf "vendor name required"))
  else if decide (vendor = "Custom") then
    let plugin := NewCustomPlugin in
    match Register f vendor (Some plugin) with
    | (f, Some err) => (f, Err (Wrapf "plugin registration failed: " err ""))
    | (f, None) => (f, Ok plugin)
    end
  else if decide (vendor = "Intel") then (f, Err (Errorf "Intel vendor not yet implemented"))
  else if decide (vendor = "Nvidia") then (f, Err (Errorf "Nvidia vendor not yet implemented"))
  else (f, Err (Errorf ("unknown vendor: " +:+ vendor))).

Definition InitializeDefaultPlugins (f : PluginFactory) : PluginFactory * option error :=
  match CreatePlugin f "Custom" with
  | (f, Err err) => (f, Some (Wrapf "failed to initialize Custom vendor: " err ""))
  | (f, Ok _) => (f, None)
  end.

(** ** dispatcher.go *)

Record DispatcherStats : Type := mkDStats {
  GoalsDispatched : Z;
  SuccessCount : Z;
  FailureCount : Z;
  TimeoutCount : Z;
  RetryCount : Z;
  CircuitOpenCount : Z;
  FallbackActivated : Z
}.

Definition dstats_add (s : DispatcherStats) (goals succ fail retry open fallback : Z)
    : DispatcherStats :=
  mkDStats (GoalsDispatched s +64 goals) (SuccessCount s +64 succ) (FailureCount s +64 fail)
    (TimeoutCount s) (RetryCount s +64 retry) (CircuitOpenCount s +64 open)
    (FallbackActivated s +64 fallback).

(** The breakers are shared objects, but only reached through the map. *)
Record PluginDispatcher : Type := mkDisp {
  registry : PluginRegistry;
  d_stats : DispatcherStats;
  circuitBreakers : gmap string CircuitBreaker;
  retryPolicy : RetryPolicy;
  timeoutManager : TimeoutManager;
  vendorFallbacks : gmap string (list string)
}.

Definition NewPluginDispatcher (registry : PluginRegistry) : PluginDispatcher :=
  mkDisp registry (mkDStats 0 0 0 0 0 0 0) ∅ DefaultRetryPolicy
    (NewTimeoutManager (30 * Second))
    (<["Intel" := ["Custom"]]> (<["Nvidia" := ["Custom"]]> {["Custom" := []]})).

Definition set_dstats (d : PluginDispatcher) (s : DispatcherStats) : PluginDispatcher :=
  mkDisp (registry d) s (circuitBreakers d) (retryPolicy d) (timeoutManager d) (vendorFallbacks d).

Definition set_breaker (d : PluginDispatcher) (vendor : string) (cb : CircuitBreaker) : PluginDispatcher :=
  mkDisp (registry d) (d_stats d) (<[vendor := cb]> (circuitBreakers d)) (retryPolicy d)
    (timeoutManager d) (vendorFallbacks d).

(** The surroundings of one protected dispatch: the readings of the breaker's
    clock; of each attempt the state of the context before it and in the wait
    after it, of the stage context the plugin is given, and the random number. *)
Record DispEnv : Type := mkDEnv {
  de_now : Time;
  de_after : Time;
  de_done : nat → option error;
  de_wait : nat → option error;
  de_stage : nat → option error;
  de_rand : nat → f64
}.

(** What one attempt comes to. *)
Inductive attempt_result : Type :=
| AOk (r : ProgramResult)
| AErr (e : error) (retry : bool)
| APanic.

Definition nil_deref : string := "runtime error: invalid memory address or nil pointer dereference".

(** The innermost closure, on its [n]-th call. *)
Definition program_once (d : PluginDispatcher) (vendor : string) (env : DispEnv)
    (goal : PerENIGoalState) (n : nat) : attempt_result :=
  match Get (registry d) vendor with
  | Err lookupErr => AErr (Wrapf "vendor plugin lookup failed: " lookupErr "") false
  | Ok plugin =>
      match p_Program plugin (de_stage env n) n (Some goal) with
      | (_, Some programErr) => AErr programErr (IsRetryable (Some programErr))
      | (None, None) => APanic
      | (Some result, None) =>
          if Success result then AOk result
          else AErr (Errorf ("programming failed: " +:+ pr_Error result)) false
      end
  end.

(** The error the closure returns to the retry policy. A panic ends the attempts
    too, as it unwinds through them. *)
Definition closure_error (a : attempt_result) : option error :=
  match a with AErr e _ => Some e | AOk _ | APanic => None end.

Definition is_retry (a : attempt_result) : bool := match a with AErr _ b => b | _ => false end.

Section Dispatch.
Context (f2i_undefined : f64 → Z).

(** The retries under the breaker: their trace, and the last attempt made. *)
Definition attempts (d : PluginDispatcher) (vendor : string) (env : DispEnv) (goal : PerENIGoalState)
    : trace :=
  Attempt f2i_undefined (retryPolicy d)
    (mkEnv (λ n, closure_error (program_once d vendor env goal n)) (de_done env) (de_wait env) (de_rand env)).

(** Attempts that counted as retryable. *)
Definition retries (d : PluginDispatcher) (vendor : string) (env : DispEnv) (goal : PerENIGoalState)
    (calls : nat) : Z :=
  Z.of_nat (length (filter (λ n, is_retry (program_once d vendor env goal n) = true) (seq 0 calls))).

Definition dispatchWithResilience (d : PluginDispatcher) (vendor : string) (env : DispEnv)
    (goal : PerENIGoalState) : PluginDispatcher * outcome (result ProgramResult) :=
  let cb := match circuitBreakers d !! vendor with
            | Some cb => cb
            | None => NewCircuitBreaker 5 2 (30 * Second)
            end in
  let d := set_breaker d vendor cb in
  if decide (State cb = StateOpen) then
    (set_dstats d (dstats_add (d_stats d) 0 0 0 0 1 0),
     Ret (Err (Errorf ("circuit breaker open for vendor " +:+ vendor))))
  else
    let t := attempts d vendor env goal in
    let last := program_once d vendor env goal (t_calls t - 1) in
    let panicked := match t_err t, last with None, APanic => true | _, _ => false end in
    let '(cb, r, ran) := Call cb (de_now env) (de_after env)
                           (if panicked then Panic nil_deref else Ret (t_err t)) in
    let d := set_breaker d vendor cb in
    let d := if ran : bool
             then set_dstats d (dstats_add (d_stats d) 0 0 0 (retries d vendor env goal (t_calls t)) 0 0)
             else d in
    match r with
    | Panic s => (d, Panic s)
    | Ret (Some err) => (d, Ret (Err err))
    | Ret None =>
        let d := set_dstats d (dstats_add (d_stats d) 0 1 0 0 0 0) in
        match last with
        | AOk result => (d, Ret (Ok result))
        | _ => (d, Panic nil_deref)
        end
    end.

(** The loop over the fallback vendors; [err] is the last error. *)
Fixpoint try_fallbacks (d : PluginDispatcher) (fallbacks : list string) (envs : nat → DispEnv)
    (i : nat) (goal : PerENIGoalState) (err : error) : PluginDispatcher * outcome (result ProgramResult) :=
  match fallbacks with
  | [] => (set_dstats d (dstats_add (d_stats d) 0 0 1 0 0 0), Ret (Err err))
  | fallback :: fallbacks =>
      let d := set_dstats d (dstats_add (d_stats d) 0 0 0 0 0 1) in
      match dispatchWithResilience d fallback (envs i) goal with
      | (d, Panic s) => (d, Panic s)
      | (d, Ret (Ok result)) => (d, Ret (Ok result))
      | (d, Ret (Err fallbackErr)) => try_fallbacks d fallbacks envs (S i) goal fallbackErr
      end
  end.

(** [envs 0] surrounds the primary vendor, [envs (i + 1)] the i-th fallback. *)
Definition Dispatch (d : PluginDispatcher) (ctx_err : option error) (envs : nat → DispEnv)
    (goal : option PerENIGoalState) : PluginDispatcher * outcome (result ProgramResult) :=
  match ctx_err with
  | Some e => (d, Ret (Err (Wrapf "dispatch cancelled: " e "")))
  | None =>
      match goal with
      | None => (d, Ret (Err (Errorf "goal state required")))
      | Some goal =>
          let d := set_dstats d (dstats_add (d_stats d) 1 0 0 0 0 0) in
          let vendor := "Custom" in
          match dispatchWithResilience d vendor (envs 0%nat) goal with
          | (d, Panic s) => (d, Panic s)
          | (d, Ret (Ok result)) => (d, Ret (Ok result))
          | (d, Ret (Err err)) =>
              try_fallbacks d (default [] (vendorFallbacks d !! vendor)) envs 1 goal err
          end
      end
  end.

Definition Dispatcher_Stats (d : PluginDispatcher) : DispatcherStats := d_stats d.

Definition ResetCircuitBreaker (d : PluginDispatcher) (vendor : string) : PluginDispatcher :=
  match circuitBreakers d !! vendor with
  | Some cb => set_breaker d vendor (Reset cb)
  | None => d
  end.

End Dispatch.

(** ** Theorems *)

Section DispatchProofs.
Context (f2i_undefined : f64 → Z).
Implicit Types (d : PluginDispatcher) (env : DispEnv) (goal : PerENIGoalState).

(** The breaker a vendor's dispatch starts from. *)
Definition breaker d (vendor : string) : CircuitBreaker :=
  default (NewCircuitBreaker 5 2 (30 * Second)) (circuitBreakers d !! vendor).

(** A successful trace's last attempt did not err. *)
Lemma attempts_last d vendor env goal :
  0 ≤ MaxRetries (retryPolicy d) →
  let t := attempts f2i_undefined d vendor env goal in
  t_err t = None →
  ∃ k, t_calls t = S k ∧ closure_error (program_once d vendor env goal k) = None.
Proof.
  intros Hm t Ht. subst t.
  set (e := mkEnv (λ n, closure_error (program_once d vendor env goal n)) (de_done env) (de_wait env) (de_rand env)) in *.
  pose proof (attempt_loop_spec f2i_undefined (retryPolicy d) e (S (Z.to_nat (MaxRetries (retryPolicy d)))) 0 None
    ltac:(lia) ltac:(lia)) as H. cbn zeta in H.
  change (rev (backoffs f2i_undefined (retryPolicy d) e 0 0)) with (@nil Duration) in H.
  unfold attempts, Attempt in *. fold e in Ht |- *.
  replace (Z.to_nat (MaxRetries (retryPolicy d) + 1)) with (S (Z.to_nat (MaxRetries (retryPolicy d)))) in * by lia.
  rewrite Ht in H. destruct H as (_ & k & _ & (_ & Hf & _) & Hc & _). by exists k.
Qed.

Lemma dstats_add_add s a b c g e f a' b' c' g' e' f' :
  dstats_add (dstats_add s a b c g e f) a' b' c' g' e' f' =
  dstats_add s (a + a') (b + b') (c + c') (g + g') (e + e') (f + f').
Proof. unfold dstats_add. simpl. by rewrite !wrap64_add_add. Qed.

(** A protected dispatch keeps the configuration. *)
Lemma dispatch_keeps d vendor env goal :
  vendorFallbacks (dispatchWithResilience f2i_undefined d vendor env goal).1 = vendorFallbacks d.
Proof.
  unfold dispatchWithResilience. destruct (decide _); [done|]. cbv zeta.
  destruct (Call _ _ _ _) as [[cb r] []]; destruct r as [[?|]|?]; try done;
    by destruct (program_once _ _ _ _ _).
Qed.

(** What a protected dispatch does, by the state of the breaker and the outcome
    of the attempts. *)
Lemma dispatch_cases d vendor env goal :
  0 ≤ MaxRetries (retryPolicy d) →
  let '(d', r) := dispatchWithResilience f2i_undefined d vendor env goal in
  let s := d_stats d in
  registry d' = registry d ∧ retryPolicy d' = retryPolicy d ∧ vendorFallbacks d' = vendorFallbacks d ∧
  if decide (state (breaker d vendor) = StateOpen) then
    r = Ret (Err (Errorf ("circuit breaker open for vendor " +:+ vendor))) ∧
    breaker d' vendor = breaker d vendor ∧ d_stats d' = dstats_add s 0 0 0 0 1 0
  else
    ∃ k, d_stats d' = dstats_add s 0 (match r with Ret (Ok _) => 1 | _ => 0 end) 0 k 0 0 ∧
      match r with
      | Ret (Ok x) => ∃ n plugin, Get (registry d) vendor = Ok plugin ∧
          p_Program plugin (de_stage env n) n (Some goal) = (Some x, None) ∧ Success x = true
      | Ret (Err e) => t_err (attempts f2i_undefined d vendor env goal) = Some e
      | Panic s => s = nil_deref ∧ ∃ n plugin, Get (registry d) vendor = Ok plugin ∧
          p_Program plugin (de_stage env n) n (Some goal) = (None, None)
      end.
Proof.
  intros Hm. unfold dispatchWithResilience.
  assert (match circuitBreakers d !! vendor with Some cb => cb | None => NewCircuitBreaker 5 2 (30 * Second) end
          = breaker d vendor) as -> by (unfold breaker; by destruct (circuitBreakers d !! vendor)).
  set (cb := breaker d vendor). unfold State.
  destruct (decide (state cb = StateOpen)) as [Ho|Hc].
  { split_and!; try done. unfold breaker, set_dstats, set_breaker. simpl. by rewrite lookup_insert_eq. }
  cbv zeta. change (attempts f2i_undefined (set_breaker d vendor cb) vendor env goal)
    with (attempts f2i_undefined d vendor env goal).
  pose proof (attempts_last d vendor env goal Hm) as Hlast. cbv zeta in Hlast.
  set (t := attempts f2i_undefined d vendor env goal) in *.
  change (program_once (set_breaker d vendor cb) vendor env goal) with (program_once d vendor env goal).
  unfold Call.
  assert (state (try_half_open (de_now env) cb) ≠ StateOpen) as Hn.
  { unfold try_half_open. rewrite bool_decide_false by done. done. }
  rewrite (bool_decide_false _ Hn). set (cb' := try_half_open (de_now env) cb).
  destruct (t_err t) as [e|] eqn:Et.
  - destruct (program_once d vendor env goal (t_calls t - 1)); simpl;
      (split; [done|]; split; [done|]; split; [done|]; by eexists).
  - destruct (Hlast eq_refl) as (k & Hk & Hce). rewrite Hk. replace (S k - 1)%nat with k by lia.
    destruct (program_once d vendor env goal k) as [x|e b|] eqn:Ep; [|done|]; simpl.
    + split; [done|]. split; [done|]. split; [done|]. eexists. split.
      { by rewrite dstats_add_add. }
      unfold program_once in Ep. destruct (Get (registry d) vendor) as [plugin|]; [|done].
      destruct (p_Program plugin _ k _) as [[x'|] [?|]] eqn:Epp; try done.
      destruct (Success x') eqn:Es; [|done]. simplify_eq. by exists k, plugin.
    + split; [done|]. split; [done|]. split; [done|]. eexists. split; [done|]. split; [done|].
      unfold program_once in Ep. destruct (Get (registry d) vendor) as [plugin|]; [|done].
      destruct (p_Program plugin _ k _) as [[x'|] [?|]] eqn:Epp; try done.
      * by destruct (Success x').
      * by exists k, plugin.
Qed.

(** A dispatch of a goal by a dispatcher whose primary vendor has no fallback. *)
Lemma Dispatch_primary d envs goal :
  vendorFallbacks d !! "Custom" = Some [] →
  Dispatch f2i_undefined d None envs (Some goal) =
  let '(d', r) := dispatchWithResilience f2i_undefined
                    (set_dstats d (dstats_add (d_stats d) 1 0 0 0 0 0)) "Custom" (envs 0%nat) goal in
  match r with
  | Ret (Err e) => (set_dstats d' (dstats_add (d_stats d') 0 0 1 0 0 0), Ret (Err e))
  | _ => (d', r)
  end.
Proof.
  intros Hf. unfold Dispatch.
  pose proof (dispatch_keeps (set_dstats d (dstats_add (d_stats d) 1 0 0 0 0 0)) "Custom" (envs 0%nat) goal) as Hk.
  destruct (dispatchWithResilience _ _ _ _ _) as [d' [[x|e]|s]]; try done.
  simpl in Hk. by rewrite Hk, Hf.
Qed.

End DispatchProofs.

(** C14 Dispatching accounts for its result. A live dispatch of a goal by a
    dispatcher whose vendor has no fallback counts one dispatched goal, and
    exactly one success if it returns a result or one failure if it returns an
    error; a result it returns is one the vendor's registered plugin returned
    for this goal, flagged as a success; it panics only if that plugin returned
    neither a result nor an error. *)
Theorem Dispatch_accounts (f2i_undefined : f64 → Z) (d : PluginDispatcher) (envs : nat → DispEnv)
    (goal : PerENIGoalState)
    (Hf : vendorFallbacks d !! "Custom" = Some []) (Hm : 0 ≤ MaxRetries (retryPolicy d)) :
  let '(d', r) := Dispatch f2i_undefined d None envs (Some goal) in
  let calls o := ∃ n plugin, Get (registry d) "Custom" = Ok plugin ∧
                   p_Program plugin (de_stage (envs 0%nat) n) n (Some goal) = (o, None) in
  (∃ retries opens, d_stats d' =
     dstats_add (d_stats d) 1 (match r with Ret (Ok _) => 1 | _ => 0 end)
       (match r with Ret (Err _) => 1 | _ => 0 end) retries opens 0) ∧
  match r with
  | Ret (Ok x) => calls (Some x) ∧ Success x = true
  | Ret (Err _) => True
  | Panic _ => calls None
  end.
Proof.
  rewrite Dispatch_primary by done.
  set (d1 := set_dstats d (dstats_add (d_stats d) 1 0 0 0 0 0)).
  pose proof (dispatch_cases f2i_undefined d1 "Custom" (envs 0%nat) goal Hm) as Hc.
  destruct (dispatchWithResilience _ _ _ _ _) as [d' r]. destruct Hc as (_ & _ & _ & Hc).
  destruct (decide _) as [Ho|Ho].
  - destruct Hc as (-> & _ & Hs). split; [|done]. exists 0, 1. simpl. rewrite Hs. unfold d1; simpl. by rewrite !dstats_add_add.
  - destruct Hc as (k & Hs & Hr). destruct r as [[x|e]|s].
    + destruct Hr as (n & plugin & Hg & Hp & Hx).
      split; [exists k, 0; rewrite Hs; unfold d1; simpl; by rewrite dstats_add_add|].
      split; [by exists n, plugin|done].
    + split; [|done]. exists (0 + k + 0), 0. simpl. rewrite Hs. unfold d1; simpl. by rewrite !dstats_add_add.
    + destruct Hr as (_ & n & plugin & Hg & Hp).
      split; [exists k, 0; rewrite Hs; unfold d1; simpl; by rewrite dstats_add_add|].
      by exists n, plugin.
Qed.

(** Surroundings in which nothing is cancelled. *)
Definition calm (now : Time) : DispEnv :=
  mkDEnv now now (λ _, None) (λ _, None) (λ _, None) (λ _, f_half).

Definition demo_goal : PerENIGoalState := mkGoal "eni-1" [] [] [] "f" 3 0.

Definition custom_dispatcher : PluginDispatcher :=
  NewPluginDispatcher (InitializeDefaultPlugins NewPluginFactory).1.

Lemma Dispatch_accounts_witness :
  let '(d', r) := Dispatch (λ _, 0) custom_dispatcher None (λ _, calm 7) (Some demo_goal) in
  (∃ retries opens, d_stats d' = dstats_add (mkDStats 0 0 0 0 0 0 0) 1
     (match r with Ret (Ok _) => 1 | _ => 0 end) (match r with Ret (Err _) => 1 | _ => 0 end)
     retries opens 0) ∧
  r = Ret (Ok (mkResult "eni-1" true "" 3 0)).
Proof.
  pose proof (Dispatch_accounts (λ _, 0) custom_dispatcher (λ _, calm 7) demo_goal eq_refl
    ltac:(vm_compute; discriminate)) as Ht.
  assert ((Dispatch (λ _, 0) custom_dispatcher None (λ _, calm 7) (Some demo_goal)).2 =
          Ret (Ok (mkResult "eni-1" true "" 3 0))) as Hr by (vm_compute; reflexivity).
  revert Ht Hr. destruct (Dispatch _ _ _ _ _) as [d' r]. intros [Hs _] Hr. split; [exact Hs|exact Hr].
Defined.

(** A series of dispatches. *)
Fixpoint dispatches (f2i_undefined : f64 → Z) (d : PluginDispatcher)
    (gs : list ((nat → DispEnv) * PerENIGoalState))
    : PluginDispatcher * list (outcome (result ProgramResult)) :=
  match gs with
  | [] => (d, [])
  | (envs, goal) :: gs =>
      let '(d, r) := Dispatch f2i_undefined d None envs (Some goal) in
      let '(d, rs) := dispatches f2i_undefined d gs in (d, r :: rs)
  end.

(** C38 Once open, a vendor's circuit stays open: [Dispatch] looks at the state of
    the breaker before calling it, so the breaker never gets to try again after
    its timeout. Every later goal is refused with the same error, however much
    time has passed, until [ResetCircuitBreaker]. *)
Theorem open_breaker_sticks (f2i_undefined : f64 → Z) (d : PluginDispatcher)
    (gs : list ((nat → DispEnv) * PerENIGoalState))
    (Hf : vendorFallbacks d !! "Custom" = Some []) (Hm : 0 ≤ MaxRetries (retryPolicy d))
    (Ho : state (breaker d "Custom") = StateOpen) :
  let '(d', rs) := dispatches f2i_undefined d gs in
  breaker d' "Custom" = breaker d "Custom" ∧
  (∀ r, r ∈ rs → r = Ret (Err (Errorf "circuit breaker open for vendor Custom"))) ∧
  state (breaker (ResetCircuitBreaker d' "Custom") "Custom") = StateClosed.
Proof.
  revert d Hf Hm Ho. induction gs as [|[envs goal] gs IH]; intros d Hf Hm Ho; cbn [dispatches].
  { split; [done|]. split; [by intros r ?%elem_of_nil|].
    unfold ResetCircuitBreaker. unfold breaker in Ho.
    destruct (circuitBreakers d !! "Custom") as [cb|]; [|done].
    unfold breaker, set_breaker. simpl. by rewrite lookup_insert_eq. }
  rewrite Dispatch_primary by done.
  set (d1 := set_dstats d (dstats_add (d_stats d) 1 0 0 0 0 0)).
  pose proof (dispatch_cases f2i_undefined d1 "Custom" (envs 0%nat) goal Hm) as Hc.
  destruct (dispatchWithResilience _ _ _ _ _) as [d2 r]. destruct Hc as (_ & Hp & Hv & Hc).
  destruct (decide (state (breaker d1 "Custom") = StateOpen)) as [_|Hn]; [|by destruct Hn].
  destruct Hc as (-> & Hb & _).
  set (d3 := set_dstats d2 (dstats_add (d_stats d2) 0 0 1 0 0 0)).
  assert (breaker d3 "Custom" = breaker d "Custom") as Hb3 by exact Hb.
  specialize (IH d3). unfold d3 at 1 2 in IH. simpl in IH. rewrite Hv, Hp in IH.
  specialize (IH Hf Hm ltac:(by rewrite Hb3)).
  destruct (dispatches f2i_undefined d3 gs) as [d' rs]. destruct IH as (H1 & H2 & H3).
  split; [by rewrite H1|]. split; [|done].
  intros r [->|?]%elem_of_cons; [done|by apply H2].
Qed.

(** A plugin that always fails, for the witness: five failed dispatches open its
    circuit. *)
Definition failing_plugin : Plugin :=
  mkPlugin "Custom" "Custom" (λ _ _ _, (None, Some (Errorf "device on fire"))).

Definition failing_dispatcher : PluginDispatcher :=
  (dispatches (λ _, 0) (NewPluginDispatcher (Register NewPluginRegistry "Custom" (Some failing_plugin)).1)
     (replicate 5 (λ _, calm 0, demo_goal))).1.

Lemma open_breaker_sticks_witness :
  let '(d', rs) := dispatches (λ _, 0) failing_dispatcher (replicate 3 (λ _, calm (100 * Minute), demo_goal)) in
  breaker d' "Custom" = breaker failing_dispatcher "Custom" ∧
  (∀ r, r ∈ rs → r = Ret (Err (Errorf "circuit breaker open for vendor Custom"))) ∧
  state (breaker (ResetCircuitBreaker d' "Custom") "Custom") = StateClosed.
Proof.
  exact (open_breaker_sticks (λ _, 0) failing_dispatcher
    (replicate 3 (λ _, calm (100 * Minute), demo_goal))
    ltac:(vm_compute; reflexivity) ltac:(vm_compute; discriminate) ltac:(vm_compute; reflexivity)).
Defined.
