(* ===== verification/DalPool.v ===== *)
(** * DPU abstraction: the worker pool and the manager

    [src/src/FM/pkg/dal/pool.go] and [manager.go], and the factory's
    [CreateDPUManager].  The pool is concurrent: callers submit goals into a
    bounded queue, each with a channel for its result, and worker goroutines
    take them, dispatch and answer.  [pool_exec] is one atomic step: a call that
    holds the mutex, or one channel operation of a submitter or a worker. *)

From S2P Require Import Prelude GoFloat Resilience GoalState DalDispatch.

(** ** pool.go *)

(** A goal with the identity of its result channel. *)
Record goalJob : Type := mkJob { j_chan : nat; j_goal : PerENIGoalState }.

(** Where a worker is: waiting for a job, dispatching one, about to answer, or
    gone. *)
Inductive worker : Type :=
| WIdle
| WBusy (j : goalJob)
| WReply (j : goalJob) (r : option ProgramResult)
| WExited.

(** What became of a result channel: a result was sent, or it was closed. *)
Inductive answer : Type :=
| Answered (r : option ProgramResult)
| ClosedEmpty.

(** [senders] are the calls of [Submit] that passed its checks and have not put
    their job in the queue yet; [answers] the channels of finished jobs;
    [next_chan] names the next channel; [ctx_done] says that [p.ctx] is done.  The
    map of result channels is made and never used. *)
Record PluginPool : Type := mkPool {
  dispatcher : PluginDispatcher;
  workers : Z;
  jobQueue : list goalJob;
  queue_closed : bool;
  running : bool;
  ctx_done : bool;
  pool_workers : list worker;
  senders : list goalJob;
  answers : list (goalJob * answer);
  next_chan : nat
}.

Definition NewPluginPool (d : PluginDispatcher) (workers : Z) : PluginPool :=
  mkPool d (if workers <? 1 then 4 else workers) [] false false false [] [] [] 0.

(** The capacity of the queue. *)
Definition queue_cap (p : PluginPool) : Z := workers p *64 2.

(** [Start]: [parent_done] says that the context passed is done already. *)
Definition Start (p : PluginPool) (parent_done : bool) : PluginPool * option error :=
  if running p then (p, Some (Errorf "plugin pool already running"))
  else
    (mkPool (dispatcher p) (workers p) (jobQueue p) (queue_closed p) true parent_done
       (pool_workers p ++ replicate (Z.to_nat (workers p)) WIdle) (senders p) (answers p)
       (next_chan p), None).

Definition Shutdown (p : PluginPool) : outcome (PluginPool * option error) :=
  if negb (running p) then Ret (p, Some (Errorf "plugin pool not running"))
  else if queue_closed p then Panic "close of closed channel"
  else
    Ret (mkPool (dispatcher p) (workers p) (jobQueue p) true false true (pool_workers p)
           (senders p) (answers p) (next_chan p), None).

(** The checks of [Submit]; [None] is the closed channel of the refusals, [Some c]
    the channel of a job that goes on to be sent. *)
Definition Submit (p : PluginPool) (ctx_err : option error) (goal : option PerENIGoalState)
    : PluginPool * option nat :=
  if negb (running p) then (p, None)
  else
    match goal with
    | None => (p, None)
    | Some goal =>
        if bool_decide (is_Some ctx_err) || ctx_done p then (p, None)
        else
          let job := mkJob (next_chan p) goal in
          (mkPool (dispatcher p) (workers p) (jobQueue p) (queue_closed p) (running p)
             (ctx_done p) (pool_workers p) (senders p ++ [job]) (answers p) (S (next_chan p)),
           Some (j_chan job))
    end.

(** What the worker answers when the dispatch returned an error. *)
Definition error_result (goal : PerENIGoalState) (err : error) : ProgramResult :=
  mkResult (ENI_ID goal) false (Error err) 0 0.

Section Steps.
Context (f2i_undefined : f64 → Z).

Definition set_worker (p : PluginPool) (i : nat) (w : worker) : PluginPool :=
  mkPool (dispatcher p) (workers p) (jobQueue p) (queue_closed p) (running p) (ctx_done p)
    (<[i := w]> (pool_workers p)) (senders p) (answers p) (next_chan p).

(** The worker's call of [Dispatch] under [p.ctx], done with [err] if it is.  A
    dispatch is one step: those of two workers do not interleave in the model, while
    in the code they may, between the locked sections of the dispatcher and of its
    breakers, and a plugin that never returns keeps its worker for ever. *)
Definition worker_dispatch (p : PluginPool) (i : nat) (job : goalJob) (err : error)
    (envs : nat → DispEnv) : outcome PluginPool :=
  let ctx_err := if ctx_done p then Some err else None in
  let '(d, r) := Dispatch f2i_undefined (dispatcher p) ctx_err envs (Some (j_goal job)) in
  r ← r;
  let result := match r with
                | Ok x => Some x
                | Err err => Some (error_result (j_goal job) err)
                end in
  Ret (mkPool d (workers p) (jobQueue p) (queue_closed p) (running p) (ctx_done p)
         (<[i := WReply job result]> (pool_workers p)) (senders p) (answers p) (next_chan p)).

Inductive pool_action : Type :=
| PStart (parent_done : bool)
| PShutdown
| PSubmit (ctx_err : option error) (goal : option PerENIGoalState)
| PSend (i : nat)
| PSendCancelled (i : nat)
| PParentDone
| WTake (i : nat)
| WQueueClosed (i : nat)
| WDispatch (i : nat) (err : error) (envs : nat → DispEnv)
| WAnswer (i : nat)
| WCancelled (i : nat).

Definition pool_exec (p : PluginPool) (a : pool_action) : option (outcome PluginPool) :=
  match a with
  | PStart parent_done => Some (Ret (Start p parent_done).1)
  | PShutdown => Some ('(p, _) ← Shutdown p; Ret p)
  | PSubmit ctx_err goal => Some (Ret (Submit p ctx_err goal).1)
  | PSend i =>
      match senders p !! i with
      | None => None
      | Some job =>
          if queue_closed p then Some (Panic "send on closed channel")
          else if Z.of_nat (length (jobQueue p)) <? queue_cap p then
            Some (Ret (mkPool (dispatcher p) (workers p) (jobQueue p ++ [job]) (queue_closed p)
                         (running p) (ctx_done p) (pool_workers p) (delete i (senders p))
                         (answers p) (next_chan p)))
          else None
      end
  | PSendCancelled i =>
      match senders p !! i with
      | Some job =>
          if ctx_done p then
            Some (Ret (mkPool (dispatcher p) (workers p) (jobQueue p) (queue_closed p) (running p)
                         (ctx_done p) (pool_workers p) (delete i (senders p))
                         ((job, ClosedEmpty) :: answers p) (next_chan p)))
          else None
      | None => None
      end
  | PParentDone =>
      Some (Ret (mkPool (dispatcher p) (workers p) (jobQueue p) (queue_closed p) (running p) true
                   (pool_workers p) (senders p) (answers p) (next_chan p)))
  | WTake i =>
      match pool_workers p !! i, jobQueue p with
      | Some WIdle, job :: jobs =>
          Some (Ret (mkPool (dispatcher p) (workers p) jobs (queue_closed p) (running p)
                       (ctx_done p) (<[i := WBusy job]> (pool_workers p)) (senders p)
                       (answers p) (next_chan p)))
      | _, _ => None
      end
  | WQueueClosed i =>
      match pool_workers p !! i, jobQueue p with
      | Some WIdle, [] => if queue_closed p then Some (Ret (set_worker p i WExited)) else None
      | _, _ => None
      end
  | WDispatch i err envs =>
      match pool_workers p !! i with
      | Some (WBusy job) => Some (worker_dispatch p i job err envs)
      | _ => None
      end
  | WAnswer i =>
      match pool_workers p !! i with
      | Some (WReply job r) =>
          Some (Ret (mkPool (dispatcher p) (workers p) (jobQueue p) (queue_closed p) (running p)
                       (ctx_done p) (<[i := WIdle]> (pool_workers p)) (senders p)
                       ((job, Answered r) :: answers p) (next_chan p)))
      | _ => None
      end
  | WCancelled i =>
      match pool_workers p !! i with
      | Some (WReply job r) =>
          if ctx_done p then
            Some (Ret (mkPool (dispatcher p) (workers p) (jobQueue p) (queue_closed p) (running p)
                         (ctx_done p) (<[i := WExited]> (pool_workers p)) (senders p)
                         ((job, ClosedEmpty) :: answers p) (next_chan p)))
          else None
      | _ => None
      end
  end.

Fixpoint pool_run (p : PluginPool) (acts : list pool_action) : option (outcome PluginPool) :=
  match acts with
  | [] => Some (Ret p)
  | a :: acts =>
      match pool_exec p a with
      | None => None
      | Some (Panic s) => Some (Panic s)
      | Some (Ret p) => pool_run p acts
      end
  end.

End Steps.

(** ** manager.go *)

(** The last three are declared, and never set. *)
Record ManagerStats : Type := mkMgrStats {
  ProgramsSubmitted : Z;
  ProgramsSucceeded : Z;
  ProgramsFailed : Z;
  WorkersPerVendor : gmap string Z;
  QueueDepthPerVendor : gmap string Z;
  dm_Uptime : Duration
}.

(** The statistics with these counters. *)
Definition programs_of (submitted succeeded failed : Z) : ManagerStats :=
  mkMgrStats submitted succeeded failed ∅ ∅ 0.

(** [m_done] says that [m.ctx] is done. *)
Record DPUManager : Type := mkDM {
  pool : PluginPool;
  m_running : bool;
  m_done : bool;
  m_stats : ManagerStats
}.

Definition NewDPUAbstractionManager (registry : PluginRegistry) (poolWorkers : Z) : DPUManager :=
  mkDM (NewPluginPool (NewPluginDispatcher registry) poolWorkers) false false (programs_of 0 0 0).

Definition CreateDPUManager (f : PluginFactory) (poolWorkers : Z) : PluginFactory * result DPUManager :=
  match InitializeDefaultPlugins f with
  | (f, Some err) => (f, Err (Wrapf "plugin initialization failed: " err ""))
  | (f, None) => (f, Ok (NewDPUAbstractionManager f poolWorkers))
  end.

Definition Manager_Start (m : DPUManager) (parent_done : bool) : DPUManager * option error :=
  if m_running m then (m, Some (Errorf "DPU abstraction manager already running"))
  else
    match Start (pool m) parent_done with
    | (p, Some err) =>
        (mkDM p false parent_done (m_stats m), Some (Wrapf "pool startup failed: " err ""))
    | (p, None) => (mkDM p true parent_done (m_stats m), None)
    end.

Definition Manager_Stop (m : DPUManager) : outcome (DPUManager * option error) :=
  if negb (m_running m) then Ret (m, Some (Errorf "DPU abstraction manager not running"))
  else
    '(p, err) ← Shutdown (pool m);
    match err with
    | Some err => Ret (mkDM p (m_running m) (m_done m) (m_stats m),
                       Some (Wrapf "pool shutdown failed: " err ""))
    | None => Ret (mkDM p false true (m_stats m), None)
    end.

(** How the wait for the result ends: with what was received from the channel
    (nil from a closed one), or with one of the two contexts. *)
Inductive wait_end : Type :=
| GotResult (r : option ProgramResult)
| CallerDone (e : error)
| ManagerDone.

Definition stopped_error : error := Errorf "DPU abstraction manager stopped".

(** The select on the two contexts and the test of the goal, which [Program] does
    once it has seen the manager running: [None], or the error it returns.  [pick]
    says which ready case the select takes. *)
Definition program_select (m : DPUManager) (ctx_err : option error) (pick : bool)
    (goal : option PerENIGoalState) : option error :=
  match ctx_err, m_done m with
  | Some e, true => Some (if pick then Wrapf "programming cancelled: " e "" else stopped_error)
  | Some e, false => Some (Wrapf "programming cancelled: " e "")
  | None, true => Some stopped_error
  | None, false =>
      match goal with None => Some (Errorf "goal state required") | Some _ => None end
  end.

Definition not_running_error : error := Errorf "DPU abstraction manager not running".

(** What [Program] does before it submits. *)
Definition program_check (m : DPUManager) (ctx_err : option error) (pick : bool)
    (goal : option PerENIGoalState) : option error :=
  if negb (m_running m) then Some not_running_error else program_select m ctx_err pick goal.

Definition mstats_add (s : ManagerStats) (sub succ fail : Z) : ManagerStats :=
  mkMgrStats (ProgramsSubmitted s +64 sub) (ProgramsSucceeded s +64 succ) (ProgramsFailed s +64 fail)
    (WorkersPerVendor s) (QueueDepthPerVendor s) (dm_Uptime s).

Definition set_mstats (m : DPUManager) (s : ManagerStats) : DPUManager :=
  mkDM (pool m) (m_running m) (m_done m) s.

(** The counters when a call got its result. *)
Definition count_result (r : option ProgramResult) (m : DPUManager) : DPUManager :=
  let ok := match r with Some x => Success x | None => false end in
  set_mstats m (mstats_add (m_stats m) 0 (if ok then 1 else 0) (if ok then 0 else 1)).

(** [Program]: the submission to the pool is [Submit]; [w] is how the wait ends.
    The result is the pair returned, either of which may be nil.  ([DalProgram]
    has the calls interleaved with the pool.) *)
Definition Program (m : DPUManager) (ctx_err : option error) (pick : bool)
    (goal : option PerENIGoalState) (w : wait_end) : DPUManager * (option ProgramResult * option error) :=
  match program_check m ctx_err pick goal with
  | Some err => (m, (None, Some err))
  | None =>
      let m := set_mstats m (mstats_add (m_stats m) 1 0 0) in
      let '(p, ch) := Submit (pool m) ctx_err goal in
      let m := mkDM p (m_running m) (m_done m) (m_stats m) in
      match w with
      | GotResult r =>
          let r := match ch with Some _ => r | None => None end in
          (count_result r m, (r, None))
      | CallerDone e => (m, (None, Some (Wrapf "result wait cancelled: " e "")))
      | ManagerDone => (m, (None, Some stopped_error))
      end
  end.

Definition Manager_Stats (m : DPUManager) : ManagerStats := m_stats m.

(** ** Lemmas *)

Section PoolProofs.
Context (f2i_undefined : f64 → Z).
Implicit Types (p : PluginPool) (j : goalJob).

Definition worker_jobs (w : worker) : list goalJob :=
  match w with WBusy j | WReply j _ => [j] | _ => [] end.

(** Every job the pool holds or has finished. *)
Definition jobs p : list goalJob :=
  senders p ++ jobQueue p ++ concat (map worker_jobs (pool_workers p)) ++ (answers p).*1.

(** What a worker may answer for a job: the vendor's result, or its error. *)
Definition fair_answer (r : PluginRegistry) j (x : ProgramResult) : Prop :=
  (∃ err, x = error_result (j_goal j) err) ∨
  (Success x = true ∧ ∃ plugin ctx n, Get r "Custom" = Ok plugin ∧
     p_Program plugin ctx n (Some (j_goal j)) = (Some x, None)).

Record pool_ok (r : PluginRegistry) p : Prop := {
  po_jobs : j_chan <$> jobs p ≡ₚ seq 0 (next_chan p);
  po_registry : registry (dispatcher p) = r;
  po_fallbacks : vendorFallbacks (dispatcher p) !! "Custom" = Some [];
  po_retries : 0 ≤ MaxRetries (retryPolicy (dispatcher p));
  po_replies i j res : pool_workers p !! i = Some (WReply j res) → ∃ x, res = Some x ∧ fair_answer r j x;
  po_answers j res : (j, Answered res) ∈ answers p → ∃ x, res = Some x ∧ fair_answer r j x
}.

(** Replacing one worker replaces the jobs it holds. *)
Lemma worker_jobs_insert (ws : list worker) i w w' :
  ws !! i = Some w →
  worker_jobs w ++ concat (map worker_jobs (<[i := w']> ws)) ≡ₚ
  worker_jobs w' ++ concat (map worker_jobs ws).
Proof.
  revert i. induction ws as [|x ws IH]; intros [|i] Hi; simplify_eq/=; [solve_Permutation|].
  rewrite Permutation_app_swap_app, (IH i Hi). apply Permutation_app_swap_app.
Qed.

Lemma concat_idle n : concat (map worker_jobs (replicate n WIdle)) = [].
Proof. induction n; done. Qed.

Lemma lookup_insert_worker (ws : list worker) i w i' w' :
  <[i := w]> ws !! i' = Some w' → w' = w ∨ ws !! i' = Some w'.
Proof.
  intros Hi. apply list_lookup_insert_Some in Hi as [(_ & -> & _)|[_ ?]]; auto.
Qed.

(** The dispatcher keeps its configuration, and returns what the plugin did. *)
Lemma Dispatch_fair d ctx_err envs j :
  vendorFallbacks d !! "Custom" = Some [] → 0 ≤ MaxRetries (retryPolicy d) →
  let '(d', r) := Dispatch f2i_undefined d ctx_err envs (Some (j_goal j)) in
  registry d' = registry d ∧ vendorFallbacks d' = vendorFallbacks d ∧ retryPolicy d' = retryPolicy d ∧
  match r with
  | Ret (Ok x) => fair_answer (registry d) j x
  | _ => True
  end.
Proof.
  intros Hf Hm. destruct ctx_err as [e|]; [done|]. rewrite Dispatch_primary by done.
  set (d1 := set_dstats d (dstats_add (d_stats d) 1 0 0 0 0 0)).
  pose proof (dispatch_cases f2i_undefined d1 "Custom" (envs 0%nat) (j_goal j) Hm) as Hc.
  destruct (dispatchWithResilience _ _ _ _ _) as [d' r]. destruct Hc as (Hr & Hp & Hv & Hc).
  destruct (decide _) as [Ho|Ho]; [by destruct Hc as (-> & _ & _)|].
  destruct Hc as (k & _ & Hc). destruct r as [[x|e]|s]; try done.
  split; [done|]. split; [done|]. split; [done|].
  destruct Hc as (n & plugin & Hg & Hx & Hs). right. split; [done|]. by exists plugin, (de_stage (envs 0%nat) n), n.
Qed.

(** Moving jobs around, without adding or removing any. *)
Lemma pool_ok_move r p p' :
  pool_ok r p → jobs p' ≡ₚ jobs p → next_chan p' = next_chan p → dispatcher p' = dispatcher p →
  (∀ i j res, pool_workers p' !! i = Some (WReply j res) →
     pool_workers p !! i = Some (WReply j res) ∨ ∃ x, res = Some x ∧ fair_answer r j x) →
  (∀ j res, (j, Answered res) ∈ answers p' →
     (j, Answered res) ∈ answers p ∨ ∃ x, res = Some x ∧ fair_answer r j x) →
  pool_ok r p'.
Proof.
  intros [Hj Hr Hf Hm Hw Ha] Ej En Ed Hw' Ha'. split; rewrite ?Ed; try done.
  - by rewrite Ej, En.
  - intros i j res [?|?]%Hw'; eauto.
  - intros j res [?|?]%Ha'; eauto.
Qed.

(** The job a step brings in: an accepted submission's. *)
Definition new_jobs p (a : pool_action) : list goalJob :=
  match a with
  | PSubmit ctx_err goal =>
      match Submit p ctx_err goal, goal with
      | (_, Some c), Some g => [mkJob c g]
      | _, _ => []
      end
  | _ => []
  end.

(** No step loses a job, none but a submission adds one. *)
Lemma pool_exec_jobs p a p' :
  pool_exec f2i_undefined p a = Some (Ret p') → jobs p' ≡ₚ new_jobs p a ++ jobs p.
Proof.
  intros Hx. unfold new_jobs. destruct a as [pd| |ce goal|i|i| |i|i|i err envs|i|i]; simpl in Hx;
    try (destruct (senders p !! i) as [job|] eqn:Hi; [|done]);
    try (destruct (pool_workers p !! i) as [[]|] eqn:Hi; try done).
  - unfold Start in Hx. destruct (running p); simplify_eq; [done|].
    unfold jobs. simpl. by rewrite map_app, concat_app, concat_idle, app_nil_r.
  - unfold Shutdown, mbind, outcome_bind in Hx. go_cases.
  - unfold Submit in *. destruct (negb (running p)); simplify_eq; [done|].
    destruct goal as [goal|]; simplify_eq/=; [|done].
    destruct (_ || _); simplify_eq/=; [done|]. unfold jobs. simpl. solve_Permutation.
  - destruct (queue_closed p) eqn:Eq; simplify_eq. destruct (_ <? _); simplify_eq. unfold jobs. simpl.
    pose proof (delete_Permutation _ _ _ Hi) as Hd.
    generalize dependent (delete i (senders p)). intros q Hd. rewrite Hd. solve_Permutation.
  - destruct (ctx_done p); simplify_eq. unfold jobs. simpl.
    pose proof (delete_Permutation _ _ _ Hi) as Hd.
    generalize dependent (delete i (senders p)). intros q Hd. rewrite Hd. solve_Permutation.
  - by simplify_eq.
  - destruct (jobQueue p) as [|job q] eqn:Ej; simplify_eq. unfold jobs. simpl. rewrite Ej.
    pose proof (worker_jobs_insert (pool_workers p) i WIdle (WBusy job) Hi) as Hw. simpl in Hw.
    rewrite Hw. solve_Permutation.
  - destruct (jobQueue p) eqn:Ej; [|done]. destruct (queue_closed p); simplify_eq. unfold jobs. simpl.
    pose proof (worker_jobs_insert (pool_workers p) i WIdle WExited Hi) as Hw. simpl in Hw. by rewrite Hw.
  - unfold worker_dispatch in Hx. destruct (Dispatch _ _ _ _ _) as [d [res|]]; [|done]. cbn in Hx. simplify_eq.
    unfold jobs. simpl. set (w' := WReply j _).
    pose proof (worker_jobs_insert (pool_workers p) i _ w' Hi) as Hperm.
    apply (Permutation_app_inv_l [j]) in Hperm. by rewrite Hperm.
  - simplify_eq. unfold jobs. simpl.
    pose proof (worker_jobs_insert (pool_workers p) i _ WIdle Hi) as Hw. simpl in Hw.
    rewrite <- Hw. solve_Permutation.
  - destruct (ctx_done p); simplify_eq. unfold jobs. simpl.
    pose proof (worker_jobs_insert (pool_workers p) i _ WExited Hi) as Hw. simpl in Hw.
    rewrite <- Hw. solve_Permutation.
Qed.

Lemma dispatch_step_ok r p i job err envs p' :
  pool_ok r p → pool_workers p !! i = Some (WBusy job) →
  worker_dispatch f2i_undefined p i job err envs = Ret p' → jobs p' ≡ₚ jobs p → pool_ok r p'.
Proof.
  intros [Hj Hr Hf Hm Hw Ha] Hi Hx Hjobs. unfold worker_dispatch in Hx.
  pose proof (Dispatch_fair (dispatcher p) (if ctx_done p then Some err else None) envs job Hf Hm) as Hd.
  destruct (Dispatch _ _ _ _ _) as [d res]. destruct Hd as (Er & Ef & Ep & Hres).
  unfold mbind, outcome_bind in Hx. destruct res as [res|]; [|done]. simplify_eq.
  split; simpl; rewrite ?Er, ?Ef, ?Ep; try done.
  - rewrite <- Hj. by apply fmap_Permutation.
  - intros i' j0 res0 [E|?]%lookup_insert_worker; [|eauto]. simplify_eq.
    destruct res as [x|e]; eexists; (split; [done|]); [exact Hres|left; by eexists].
Qed.

Lemma pool_exec_ok r p a p' :
  pool_ok r p → pool_exec f2i_undefined p a = Some (Ret p') → pool_ok r p'.
Proof.
  intros P Hx. pose proof (pool_exec_jobs p a p' Hx) as Hjobs.
  destruct a as [pd| |ce goal|i|i| |i|i|i err envs|i|i]; simpl in Hx, Hjobs;
    try (destruct (senders p !! i) as [job|] eqn:Hi; [|done]);
    try (destruct (pool_workers p !! i) as [[|job|job res|]|] eqn:Hi; try done).
  - unfold Start in Hx. destruct (running p); simplify_eq; [done|].
    apply (pool_ok_move _ _ _ P Hjobs); try done; [|simpl; eauto..].
    intros i j res Hi. simpl in Hi. apply lookup_app_Some in Hi as [?|[_ Hi]]; [by left|].
    apply lookup_replicate in Hi as [? _]. done.
  - unfold Shutdown, mbind, outcome_bind in Hx. go_cases.
    by apply (pool_ok_move _ _ _ P); eauto.
  - clear Hjobs. unfold Submit in Hx. destruct (negb (running p)); simplify_eq; [done|].
    destruct goal as [goal|]; simplify_eq/=; [|done].
    destruct (_ || _); simplify_eq/=; [done|].
    destruct P as [Hj Hr Hf Hm Hw Ha]. split; try done.
    set (job := mkJob (next_chan p) goal). cbn [next_chan].
    transitivity (j_chan <$> job :: jobs p).
    { apply fmap_Permutation. unfold jobs. simpl. solve_Permutation. }
    rewrite fmap_cons, Hj, seq_S. apply Permutation_cons_append.
  - destruct (queue_closed p) eqn:Eq; simplify_eq. destruct (_ <? _); simplify_eq.
    apply (pool_ok_move _ _ _ P Hjobs); simpl; eauto.
  - destruct (ctx_done p); simplify_eq.
    apply (pool_ok_move _ _ _ P Hjobs); simpl; eauto.
    intros j res [?|?]%elem_of_cons; [done|by left].
  - simplify_eq. apply (pool_ok_move _ _ _ P); eauto.
  - destruct (jobQueue p) as [|job jobs'] eqn:Ej; simplify_eq.
    apply (pool_ok_move _ _ _ P Hjobs); simpl; eauto.
    intros i' j res [?|?]%lookup_insert_worker; [done|by left].
  - destruct (jobQueue p) eqn:Ej; [|done]. destruct (queue_closed p); simplify_eq.
    apply (pool_ok_move _ _ _ P Hjobs); simpl; eauto.
    intros i' j res [?|?]%lookup_insert_worker; [done|by left].
  - simplify_eq. by eapply dispatch_step_ok.
  - simplify_eq. apply (pool_ok_move _ _ _ P Hjobs); simpl; eauto.
    + intros i' j res' [?|?]%lookup_insert_worker; [done|by left].
    + intros j res' [?|?]%elem_of_cons; [simplify_eq; right; by eapply (po_replies _ _ P)|by left].
  - destruct (ctx_done p); simplify_eq. apply (pool_ok_move _ _ _ P Hjobs); simpl; eauto.
    + intros i' j res' [?|?]%lookup_insert_worker; [done|by left].
    + intros j res' [?|?]%elem_of_cons; [done|by left].
Qed.

Lemma pool_run_ok r p acts p' :
  pool_ok r p → pool_run f2i_undefined p acts = Some (Ret p') → pool_ok r p'.
Proof.
  revert p. induction acts as [|a acts IH]; intros p P Hx; simpl in Hx; [by simplify_eq|].
  destruct (pool_exec _ p a) as [[p1|]|] eqn:E; [|done|done].
  apply (IH p1); [by eapply pool_exec_ok|done].
Qed.

Lemma pool_ok_new r workers : pool_ok r (NewPluginPool (NewPluginDispatcher r) workers).
Proof. split; try done. by intros j res ?%elem_of_nil. Qed.

(** *** Draining

    The steps that move a job towards its answer, and how many of them the jobs of
    a pool are still to take. *)
Definition job_step (a : pool_action) : bool :=
  match a with PSend _ | WTake _ | WDispatch _ _ _ | WAnswer _ => true | _ => false end.

Definition worker_work (w : worker) : nat :=
  match w with WBusy _ => 2 | WReply _ _ => 1 | _ => 0 end.

Definition work p : nat :=
  4 * length (senders p) + 3 * length (jobQueue p) + sum_list_with worker_work (pool_workers p).

(** A pool that has not been shut down: before [Start] it is empty, afterwards, as
    long as its context lives, its workers are there and no channel was closed. *)
Record open_pool p : Prop := {
  op_workers : 1 ≤ workers p < 2 ^ 62;
  op_new : running p = false → queue_closed p = false →
    senders p = [] ∧ jobQueue p = [] ∧ pool_workers p = [] ∧ answers p = [];
  op_live : running p = true → queue_closed p = false → ctx_done p = false →
    pool_workers p ≠ [] ∧ (WExited ∉ pool_workers p) ∧ Forall (λ x, x.2 ≠ ClosedEmpty) (answers p)
}.

Lemma worker_work_insert (ws : list worker) i w w' :
  ws !! i = Some w →
  (sum_list_with worker_work (<[i := w']> ws) + worker_work w =
   sum_list_with worker_work ws + worker_work w')%nat.
Proof.
  revert i. induction ws as [|x ws IH]; intros [|i] Hi; simplify_eq/=; [lia|]. specialize (IH i Hi). lia.
Qed.

Lemma no_exited_insert (ws : list worker) i w :
  WExited ∉ ws → w ≠ WExited → WExited ∉ <[i := w]> ws.
Proof.
  intros Hn Hw [k Hk]%list_elem_of_lookup.
  destruct (lookup_insert_worker _ _ _ _ _ Hk) as [?|?%list_elem_of_lookup_2]; congruence.
Qed.

Lemma open_pool_new d n : n < 2 ^ 62 → open_pool (NewPluginPool d n).
Proof.
  intros Hn. split; cbn; [|done|done]. destruct (n <? 1) eqn:E; lia.
Qed.

(** A worker's step, from [w0] to [w]. *)
Lemma open_pool_worker p p' i w0 w :
  open_pool p → pool_workers p !! i = Some w0 → pool_workers p' = <[i := w]> (pool_workers p) →
  workers p' = workers p → running p' = running p → queue_closed p' = queue_closed p →
  ctx_done p' = ctx_done p →
  (ctx_done p = false → w ≠ WExited ∧
     (Forall (λ x, x.2 ≠ ClosedEmpty) (answers p) → Forall (λ x, x.2 ≠ ClosedEmpty) (answers p'))) →
  open_pool p'.
Proof.
  intros [Hw Hn Hl] Hi Ew En Er Eq Ec Hx. split; rewrite ?Ew, ?En, ?Er, ?Eq, ?Ec; [done| |].
  - intros Hr Hq. destruct (Hn Hr Hq) as (_ & _ & E & _). by rewrite E in Hi.
  - intros Hr Hq Hc. destruct (Hl Hr Hq Hc) as (H1 & H2 & H3), (Hx Hc) as [H4 H5].
    split_and!; [|by apply no_exited_insert|auto].
    by rewrite <- length_zero_iff_nil, length_insert, length_zero_iff_nil.
Qed.

(** A submitter's step: there is one, so the pool has been started. *)
Lemma open_pool_sender p p' i job :
  open_pool p → senders p !! i = Some job → pool_workers p' = pool_workers p →
  workers p' = workers p → running p' = running p → queue_closed p' = queue_closed p →
  ctx_done p' = ctx_done p → (ctx_done p = false → answers p' = answers p) →
  open_pool p'.
Proof.
  intros [Hw Hn Hl] Hi Ew En Er Eq Ec Ha. split; rewrite ?Ew, ?En, ?Er, ?Eq, ?Ec; [done| |].
  - intros Hr Hq. destruct (Hn Hr Hq) as (E & _). by rewrite E in Hi.
  - intros Hr Hq Hc. rewrite (Ha Hc). auto.
Qed.

Lemma open_pool_exec p a p' : open_pool p → pool_exec f2i_undefined p a = Some (Ret p') → open_pool p'.
Proof.
  intros P Hx. pose proof P as [Hw Hn Hl].
  destruct a as [pd| |ce goal|i|i| |i|i|i err envs|i|i]; simpl in Hx;
    try (destruct (senders p !! i) as [job|] eqn:Hi; [|done]);
    try (destruct (pool_workers p !! i) as [[]|] eqn:Hi; try done).
  - unfold Start in Hx. destruct (running p) eqn:Er; simplify_eq; [done|].
    split; cbn; [done..|]. intros _ Hq Hc. destruct (Hn eq_refl Hq) as (_ & _ & -> & ->).
    split_and!; [|by intros [? _]%elem_of_replicate|constructor].
    destruct (Z.to_nat (workers p)) eqn:E; [lia|done].
  - unfold Shutdown, mbind, outcome_bind in Hx. go_cases.
  - unfold Submit in Hx. destruct (running p) eqn:Er; simplify_eq/=; [|done].
    destruct goal as [goal|]; simplify_eq/=; [|done].
    destruct (_ || _); simplify_eq/=; [done|]. by split.
  - destruct (queue_closed p) eqn:Eq; simplify_eq. destruct (_ <? _); simplify_eq.
    eapply open_pool_sender; eauto; by rewrite Eq.
  - destruct (ctx_done p) eqn:Ec; simplify_eq. eapply open_pool_sender; eauto. congruence.
  - simplify_eq. by split.
  - destruct (jobQueue p); simplify_eq. eapply open_pool_worker; eauto.
  - destruct (jobQueue p); [|done]. destruct (queue_closed p) eqn:Eq; simplify_eq.
    split; cbn; congruence.
  - unfold worker_dispatch in Hx. destruct (Dispatch _ _ _ _ _) as [d [r|]]; [|done].
    cbn in Hx. simplify_eq. eapply open_pool_worker; eauto.
  - simplify_eq. eapply open_pool_worker; eauto. intros _. split; [done|]. by constructor.
  - destruct (ctx_done p) eqn:Ec; simplify_eq. eapply open_pool_worker; eauto. congruence.
Qed.

Lemma open_pool_run p acts p' :
  open_pool p → pool_run f2i_undefined p acts = Some (Ret p') → open_pool p'.
Proof.
  revert p. induction acts as [|a acts IH]; intros p P Hx; simpl in Hx; [by simplify_eq|].
  destruct (pool_exec _ p a) as [[p1|]|] eqn:E; [|done|done].
  apply (IH p1); [by eapply open_pool_exec|done].
Qed.

(** A pool between its [Start] and its [Shutdown], under a context that lives. *)
Definition live p : Prop := running p = true ∧ queue_closed p = false ∧ ctx_done p = false.

Lemma job_step_work p a p' :
  job_step a = true → pool_exec f2i_undefined p a = Some (Ret p') →
  work p = S (work p') ∧ next_chan p' = next_chan p ∧ (live p → live p').
Proof.
  intros Ha Hx. unfold work.
  destruct a as [| | |i| | |i| |i err envs|i|]; try done; simpl in Hx;
    try (destruct (senders p !! i) as [job|] eqn:Hi; [|done]);
    try (destruct (pool_workers p !! i) as [[]|] eqn:Hi; try done).
  - destruct (queue_closed p) eqn:Eq; [done|]. destruct (_ <? _); simplify_eq. cbn.
    pose proof (lookup_lt_Some _ _ _ Hi). rewrite length_delete, length_app by eauto. cbn.
    split_and!; [lia|done|]. unfold live. cbn. by rewrite Eq.
  - destruct (jobQueue p) as [|job q] eqn:Ej; simplify_eq. cbn.
    pose proof (worker_work_insert _ _ _ (WBusy job) Hi) as Hw. cbn in Hw. split_and!; [lia|done..].
  - unfold worker_dispatch in Hx. destruct (Dispatch _ _ _ _ _) as [d [r|]]; [|done]. cbn in Hx.
    simplify_eq. cbn. set (w := WReply _ _).
    pose proof (worker_work_insert _ _ _ w Hi) as Hw. cbn in Hw. split_and!; [lia|done..].
  - simplify_eq. cbn. pose proof (worker_work_insert _ _ _ WIdle Hi) as Hw. cbn in Hw.
    split_and!; [lia|done..].
Qed.

Lemma busy_worker (ws : list worker) :
  sum_list_with worker_work ws ≠ 0%nat → ∃ i w, ws !! i = Some w ∧ worker_work w ≠ 0%nat.
Proof.
  induction ws as [|w ws IH]; cbn; intros Hs; [done|].
  destruct (decide (worker_work w = 0%nat)) as [E|E]; [|by exists 0%nat, w].
  destruct IH as (i & w' & ? & ?); [lia|]. by exists (S i), w'.
Qed.

(** Work never gets stuck, whatever the callers do. *)
Lemma job_step_enabled p : open_pool p → live p → work p ≠ 0%nat →
  ∃ a o, job_step a = true ∧ pool_exec f2i_undefined p a = Some o.
Proof.
  intros [Hw _ Hl] (Hr & Hq & Hc) Hn. destruct (Hl Hr Hq Hc) as (H1 & H2 & _).
  destruct (decide (sum_list_with worker_work (pool_workers p) = 0%nat)) as [E|E].
  - destruct (jobQueue p) as [|job q] eqn:Ej.
    + destruct (senders p) as [|job ss] eqn:Es; [unfold work in Hn; rewrite Es, Ej, E in Hn; done|].
      exists (PSend 0). eexists. split; [done|]. simpl. rewrite Es, Hq, Ej. simpl.
      unfold queue_cap. rewrite wrap64_id by (unfold in_int64, int64_min, int64_max; lia).
      rewrite (proj2 (Z.ltb_lt _ _)) by lia. done.
    + destruct (pool_workers p) as [|w ws] eqn:Ew; [done|].
      destruct w; cbn in E; try lia; [|by destruct H2; constructor].
      exists (WTake 0). eexists. split; [done|]. simpl. by rewrite Ew, Ej.
  - destruct (busy_worker _ E) as (i & [|job|job r|] & Hi & Hne); try done.
    + exists (WDispatch i ctx_Canceled (λ _, calm 0)). eexists. split; [done|]. simpl. by rewrite Hi.
    + exists (WAnswer i). eexists. split; [done|]. simpl. by rewrite Hi.
Qed.

Lemma job_steps_work p acts p' :
  live p → forallb job_step acts = true → pool_run f2i_undefined p acts = Some (Ret p') →
  work p = (length acts + work p')%nat ∧ next_chan p' = next_chan p ∧ live p'.
Proof.
  revert p. induction acts as [|a acts IH]; intros p Hl Ha Hx; simpl in Ha, Hx; [by simplify_eq|].
  apply andb_prop in Ha as [Ha Hacts].
  destruct (pool_exec _ p a) as [[p1|]|] eqn:E; [|done|done].
  destruct (job_step_work _ _ _ Ha E) as (Hw & Hn & Hl').
  destruct (IH p1 (Hl' Hl) Hacts Hx) as (Hw1 & Hn1 & Hl1). cbn [length]. split_and!; [lia|congruence|done].
Qed.

Lemma sum_0_no_jobs (ws : list worker) :
  sum_list_with worker_work ws = 0%nat → concat (map worker_jobs ws) = [].
Proof. induction ws as [|[] ws IH]; cbn; intros; [done|auto|lia|lia|auto]. Qed.

(** No work left: every accepted job has its answer. *)
Lemma no_work_answered r p : pool_ok r p → open_pool p → live p → work p = 0%nat →
  ∀ c, (c < next_chan p)%nat → ∃ j x, j_chan j = c ∧ (j, Answered (Some x)) ∈ answers p.
Proof.
  intros [Hj _ _ _ _ Ha] [_ _ Hl] (Hr & Hq & Hc) Hn c Hlt. destruct (Hl Hr Hq Hc) as (_ & _ & Hf).
  unfold work in Hn. unfold jobs in Hj.
  assert (senders p = []) as E1 by (apply length_zero_iff_nil; lia).
  assert (jobQueue p = []) as E2 by (apply length_zero_iff_nil; lia).
  rewrite E1, E2, (sum_0_no_jobs (pool_workers p)) in Hj by lia. simpl in Hj.
  assert (c ∈ j_chan <$> (answers p).*1) as Hin by (rewrite Hj; apply elem_of_seq; lia).
  apply list_elem_of_fmap in Hin as (j & -> & ([j' a] & -> & Hin)%list_elem_of_fmap). cbn.
  rewrite Forall_forall in Hf. destruct a as [res|]; [|by destruct (Hf _ Hin)].
  destruct (Ha _ _ Hin) as (x & -> & _). by exists j', x.
Qed.

End PoolProofs.

(** ** Theorems *)

(** C5 The pool neither loses nor invents jobs. Along any interleaving of callers
    and workers, every job whose submission was accepted is in exactly one place:
    with its submitter, in the queue, with a worker, or answered; so no channel
    is answered twice. Every answer sent is a result for that job's goal: what
    the vendor's registered plugin returned for it, or a failure with its ENI
    and the dispatch error. *)
Theorem pool_conserves (f2i_undefined : f64 → Z) (r : PluginRegistry) (workers : Z)
    (acts : list pool_action) (p : PluginPool)
    (Hx : pool_run f2i_undefined (NewPluginPool (NewPluginDispatcher r) workers) acts = Some (Ret p)) :
  j_chan <$> (senders p ++ jobQueue p ++ concat (map worker_jobs (pool_workers p)) ++ (answers p).*1)
    ≡ₚ seq 0 (next_chan p) ∧
  NoDup (j_chan <$> (answers p).*1) ∧
  ∀ j res, (j, Answered res) ∈ answers p → ∃ x, res = Some x ∧ fair_answer r j x.
Proof.
  pose proof (pool_run_ok f2i_undefined r _ acts p (pool_ok_new r workers) Hx) as P.
  split; [apply P|]. split; [|apply P].
  pose proof (po_jobs _ _ P) as Hj. unfold jobs in Hj.
  rewrite !fmap_app in Hj. pose proof (NoDup_seq 0 (next_chan p)) as Hnd. rewrite <- Hj in Hnd.
  by do 3 apply NoDup_app in Hnd as (_ & _ & Hnd).
Qed.

Definition demo_pool_acts : list pool_action :=
  [PStart false; PSubmit None (Some demo_goal); PSend 0; PSubmit None (Some demo_goal); WTake 0;
   PSend 0; WDispatch 0 ctx_Canceled (λ _, calm 0); PShutdown; WAnswer 0; WTake 1;
   WDispatch 1 ctx_Canceled (λ _, calm 0); WCancelled 1; WQueueClosed 0].

Lemma pool_conserves_witness :
  let r := (InitializeDefaultPlugins NewPluginFactory).1 in
  ∃ p, pool_run (λ _, 0) (NewPluginPool (NewPluginDispatcher r) 2) demo_pool_acts = Some (Ret p) ∧
    (answers p).*2 = [ClosedEmpty; Answered (Some (mkResult "eni-1" true "" 3 0))] ∧
    NoDup (j_chan <$> (answers p).*1).
Proof.
  set (r := (InitializeDefaultPlugins NewPluginFactory).1).
  destruct (pool_run (λ _, 0) (NewPluginPool (NewPluginDispatcher r) 2) demo_pool_acts)
    as [[p|]|] eqn:E; [|exfalso; vm_compute in E; discriminate..].
  exists p. destruct (pool_conserves (λ _, 0) r 2 demo_pool_acts p E) as (_ & Hnd & _).
  split; [exact E|]. split; [|exact Hnd].
  clear Hnd. vm_compute in E. injection E as <-. reflexivity.
Defined.

(** C7 A running pool drains. Whatever callers and workers have done so far, in a
    pool that was started, not shut down and whose context lives, every further
    step of a send, a take, a dispatch or an answer uses up one unit of the
    pool's work, which is finite; as long as work is left one of these steps can
    be taken, so no interleaving blocks the pool, even when its queue is full and
    submitters wait; and when none is left, every job it ever accepted has been
    answered with a result, and no channel was closed empty. *)
Theorem pool_drains (f2i_undefined : f64 → Z) (r : PluginRegistry) (workers : Z)
    (acts acts' : list pool_action) (p p' : PluginPool)
    (Hn : workers < 2 ^ 62)
    (Hx : pool_run f2i_undefined (NewPluginPool (NewPluginDispatcher r) workers) acts = Some (Ret p))
    (Hl : running p = true ∧ queue_closed p = false ∧ ctx_done p = false)
    (Hs : forallb job_step acts' = true)
    (Hx' : pool_run f2i_undefined p acts' = Some (Ret p')) :
  work p = (length acts' + work p')%nat ∧
  (work p' ≠ 0%nat → ∃ a o, job_step a = true ∧ pool_exec f2i_undefined p' a = Some o) ∧
  (work p' = 0%nat → ∀ c, (c < next_chan p)%nat →
     ∃ j x, j_chan j = c ∧ (j, Answered (Some x)) ∈ answers p').
Proof.
  destruct (job_steps_work f2i_undefined p acts' p' Hl Hs Hx') as (Hw & Hc & Hl').
  pose proof (open_pool_run f2i_undefined _ _ _ (open_pool_new _ workers Hn) Hx) as P.
  pose proof (open_pool_run f2i_undefined _ _ _ P Hx') as P'.
  split; [done|]. split; [by apply job_step_enabled|].
  intros Hz. rewrite <- Hc. apply (no_work_answered r p'); try done.
  eapply pool_run_ok; [|exact Hx']. eapply pool_run_ok; [apply pool_ok_new|exact Hx].
Qed.

(** Four jobs for one worker: the last submitter waits for room in the queue. *)
Definition demo_fill_acts : list pool_action :=
  [PStart false; PSubmit None (Some demo_goal); PSubmit None (Some demo_goal);
   PSubmit None (Some demo_goal); PSubmit None (Some demo_goal); PSend 0; PSend 0].
Definition demo_serve : list pool_action :=
  [WTake 0; WDispatch 0 ctx_Canceled (λ _, calm 0); WAnswer 0].
Definition demo_drain_acts : list pool_action :=
  demo_serve ++ [PSend 0] ++ demo_serve ++ [PSend 0] ++ demo_serve ++ demo_serve.

Lemma pool_drains_witness :
  let r := (InitializeDefaultPlugins NewPluginFactory).1 in
  ∃ p p', pool_run (λ _, 0) (NewPluginPool (NewPluginDispatcher r) 1) demo_fill_acts = Some (Ret p) ∧
    pool_exec (λ _, 0) p (PSend 0) = None ∧ work p = 14%nat ∧
    pool_run (λ _, 0) p demo_drain_acts = Some (Ret p') ∧
    ∃ j x, j_chan j = 3%nat ∧ (j, Answered (Some x)) ∈ answers p'.
Proof.
  set (r := (InitializeDefaultPlugins NewPluginFactory).1).
  destruct (pool_run (λ _, 0) (NewPluginPool (NewPluginDispatcher r) 1) demo_fill_acts)
    as [[p|]|] eqn:E; [|exfalso; vm_compute in E; discriminate..].
  assert (running p = true ∧ queue_closed p = false ∧ ctx_done p = false ∧
          pool_exec (λ _, 0) p (PSend 0) = None ∧ work p = 14%nat ∧ next_chan p = 4%nat)
    as (H1 & H2 & H3 & H4 & H5 & H6) by (vm_compute in E; injection E as <-; by vm_compute).
  destruct (pool_run (λ _, 0) p demo_drain_acts) as [[p'|]|] eqn:E';
    [|exfalso; vm_compute in E; injection E as <-; vm_compute in E'; discriminate..].
  exists p, p'. split; [exact E|]. split; [exact H4|]. split; [exact H5|]. split; [exact E'|].
  destruct (pool_drains (λ _, 0) r 1 demo_fill_acts demo_drain_acts p p' eq_refl E
              (conj H1 (conj H2 H3)) eq_refl E') as (Hw & _ & Hd).
  apply Hd; [|rewrite H6; lia]. rewrite H5 in Hw. cbn [length demo_drain_acts demo_serve app] in Hw. lia.
Defined.

(** Shutting down is final, and races with submissions. After [Shutdown] of a
    running pool, a submission that had passed its checks panics when its select
    picks the send; and although the pool can be started again, it then panics on
    the next job it accepts and on the next [Shutdown]: the queue that was closed
    is never replaced. *)
Theorem pool_shutdown_final (f2i_undefined : f64 → Z) (p : PluginPool) (goal : PerENIGoalState)
    (Hr : running p = true) (Hq : queue_closed p = false) :
  ∃ p1, Shutdown p = Ret (p1, None) ∧
    (∀ i, (i < length (senders p))%nat →
       pool_exec f2i_undefined p1 (PSend i) = Some (Panic "send on closed channel")) ∧
    ∃ p2 p3 c, Start p1 false = (p2, None) ∧ Submit p2 None (Some goal) = (p3, Some c) ∧
      pool_exec f2i_undefined p3 (PSend (length (senders p))) = Some (Panic "send on closed channel") ∧
      Shutdown p2 = Panic "close of closed channel".
Proof.
  unfold Shutdown. rewrite Hr, Hq. simpl. eexists. split; [done|]. split.
  - intros i Hi. simpl. apply lookup_lt_is_Some in Hi as [job ->]. done.
  - eexists _, _, _. split; [done|]. split; [done|]. split; [|done].
    simpl. by rewrite lookup_app_r, Nat.sub_diag by lia.
Qed.

Lemma pool_shutdown_final_witness :
  let p := (Start (NewPluginPool custom_dispatcher 1) false).1 in
  ∃ p1, Shutdown p = Ret (p1, None) ∧
    (∀ i, (i < length (senders p))%nat →
       pool_exec (λ _, 0) p1 (PSend i) = Some (Panic "send on closed channel")) ∧
    ∃ p2 p3 c, Start p1 false = (p2, None) ∧ Submit p2 None (Some demo_goal) = (p3, Some c) ∧
      pool_exec (λ _, 0) p3 (PSend (length (senders p))) = Some (Panic "send on closed channel") ∧
      Shutdown p2 = Panic "close of closed channel".
Proof.
  exact (pool_shutdown_final (λ _, 0) (Start (NewPluginPool custom_dispatcher 1) false).1 demo_goal
           eq_refl eq_refl).
Defined.

(** A series of calls of [Program]: whether the context was done, the case the
    select picked, the goal, and how the wait ended. *)
Fixpoint programs (m : DPUManager) (cs : list (option error * bool * option PerENIGoalState * wait_end))
    : DPUManager * list (option ProgramResult * option error) :=
  match cs with
  | [] => (m, [])
  | (ce, pick, goal, w) :: cs =>
      let '(m, r) := Program m ce pick goal w in
      let '(m, rs) := programs m cs in (m, r :: rs)
  end.

(** What the manager's counters must show of the calls' results: a call that
    returns no error is a success if it returns a successful result, else a
    failure (also when it returns no result at all). *)
Definition counts_success (r : option ProgramResult * option error) : bool :=
  match r with (Some x, None) => Success x | _ => false end.
Definition counts_failure (r : option ProgramResult * option error) : bool :=
  match r with (Some x, None) => negb (Success x) | (None, None) => true | (_, Some _) => false end.

Lemma Program_stats m ce pick goal w :
  let '(m', r) := Program m ce pick goal w in
  m_stats m' = mstats_add (m_stats m) 1
    (if counts_success r then 1 else 0) (if counts_failure r then 1 else 0) ∨
  m_stats m' = m_stats m ∧ counts_success r = false ∧ counts_failure r = false.
Proof.
  unfold Program. destruct (program_check m ce pick goal) as [err|] eqn:E.
  { right. by split_and!. }
  destruct (Submit _ ce goal) as [p ch]. destruct w as [x|e|]; simpl; left.
  - unfold mstats_add. simpl. rewrite !wrap64_add_add. simpl.
    destruct ch as [c|]; [destruct x as [x|]; simpl; [destruct (Success x)|]|]; done.
  - done.
  - done.
Qed.

(** Occurrences in a list. *)
Definition count {A} (f : A → bool) (l : list A) : Z := Z.of_nat (length (filter (λ x, f x = true) l)).

Lemma count_cons {A} (f : A → bool) x l : count f (x :: l) = (if f x then 1 else 0) + count f l.
Proof.
  unfold count. destruct (f x) eqn:E.
  - rewrite filter_cons_True by done. simpl. lia.
  - rewrite filter_cons_False by congruence. lia.
Qed.

Lemma count_nonneg {A} (f : A → bool) l : 0 ≤ count f l.
Proof. unfold count. lia. Qed.

(** The manager's counters follow what its callers saw. After any series of
    calls of [Program] on a new manager, successes and failures are exactly the
    calls that returned a successful result, respectively no error but an
    unsuccessful result or none at all; and no more calls succeeded or failed
    than were submitted. *)
Theorem manager_accounts (m0 : DPUManager)
    (cs : list (option error * bool * option PerENIGoalState * wait_end))
    (Hz : m_stats m0 = programs_of 0 0 0) (Hn : Z.of_nat (length cs) ≤ int64_max) :
  let '(m, rs) := programs m0 cs in
  let s := m_stats m in
  length rs = length cs ∧
  ProgramsSucceeded s = count counts_success rs ∧
  ProgramsFailed s = count counts_failure rs ∧
  ProgramsSucceeded s + ProgramsFailed s ≤ ProgramsSubmitted s ≤ Z.of_nat (length cs).
Proof.
  assert (∀ m, 0 ≤ ProgramsSubmitted (m_stats m) ∧ 0 ≤ ProgramsSucceeded (m_stats m) ∧
            0 ≤ ProgramsFailed (m_stats m) ∧
            ProgramsSucceeded (m_stats m) + ProgramsFailed (m_stats m) ≤ ProgramsSubmitted (m_stats m) →
            ProgramsSubmitted (m_stats m) + Z.of_nat (length cs) ≤ int64_max →
            let '(m', rs) := programs m cs in
            let s := m_stats m in let s' := m_stats m' in
            length rs = length cs ∧
            ProgramsSucceeded s' = ProgramsSucceeded s + count counts_success rs ∧
            ProgramsFailed s' = ProgramsFailed s + count counts_failure rs ∧
            ProgramsSucceeded s' + ProgramsFailed s' ≤ ProgramsSubmitted s' ≤
              ProgramsSubmitted s + Z.of_nat (length cs)) as Hgen.
  { clear. induction cs as [|[[[ce pick] goal] w] cs IH]; intros m Hm Hn; cbn [programs length] in *.
    { unfold count. simpl. split_and!; try done; lia. }
    pose proof (Program_stats m ce pick goal w) as Hp.
    destruct (Program m ce pick goal w) as [m1 r]. specialize (IH m1).
    assert (ProgramsSucceeded (m_stats m1) = ProgramsSucceeded (m_stats m) + (if counts_success r then 1 else 0) ∧
            ProgramsFailed (m_stats m1) = ProgramsFailed (m_stats m) + (if counts_failure r then 1 else 0) ∧
            ProgramsSucceeded (m_stats m1) + ProgramsFailed (m_stats m1) ≤ ProgramsSubmitted (m_stats m1) ≤
              ProgramsSubmitted (m_stats m) + 1) as (H1 & H2 & H3).
    { destruct Hp as [Hp|(Hp & Hs & Hf)]; [|rewrite Hp, Hs, Hf; lia].
      assert (counts_success r = true → counts_failure r = true → False) as Hx.
      { destruct r as [[x|] [?|]]; simpl; try done. by destruct (Success x). }
      rewrite Hp. unfold mstats_add. simpl.
      destruct (counts_success r), (counts_failure r);
        [naive_solver|rewrite !wrap64_id by (unfold in_int64, int64_min, int64_max in *; lia); lia..]. }
    destruct (programs m1 cs) as [m2 rs].
    destruct IH as (Hl & Hs & Hf & Hb); [split_and!; try lia; destruct (counts_success r), (counts_failure r); lia|lia|].
    rewrite !count_cons. simpl. split_and!; [by rewrite Hl|lia..]. }
  pose proof (Hgen m0) as Hg. rewrite Hz in Hg. simpl in Hg.
  destruct (programs m0 cs) as [m rs]. destruct Hg as (Hl & Hs & Hf & Hb); [lia|lia|].
  split_and!; [done|lia..].
Qed.

Lemma manager_accounts_witness :
  let m0 := (Manager_Start (NewDPUAbstractionManager (InitializeDefaultPlugins NewPluginFactory).1 2) false).1 in
  let cs := [(None, true, Some demo_goal, GotResult (Some (mkResult "eni-1" true "" 3 0)));
             (None, true, None, ManagerDone);
             (None, true, Some demo_goal, GotResult None);
             (None, true, Some demo_goal, CallerDone ctx_Canceled)] in
  let '(m, rs) := programs m0 cs in
  let s := m_stats m in
  length rs = length cs ∧
  ProgramsSucceeded s = count counts_success rs ∧
  ProgramsFailed s = count counts_failure rs ∧
  ProgramsSucceeded s + ProgramsFailed s ≤ ProgramsSubmitted s ≤ Z.of_nat (length cs).
Proof.
  exact (manager_accounts
    (Manager_Start (NewDPUAbstractionManager (InitializeDefaultPlugins NewPluginFactory).1 2) false).1
    [(None, true, Some demo_goal, GotResult (Some (mkResult "eni-1" true "" 3 0)));
     (None, true, None, ManagerDone);
     (None, true, Some demo_goal, GotResult None);
     (None, true, Some demo_goal, CallerDone ctx_Canceled)] eq_refl
    ltac:(vm_compute; discriminate)).
Defined.

(** A closed result channel reads as nil: the caller gets neither a result nor
    an error. *)
Example program_nil_nil :
  let m0 := (Manager_Start (NewDPUAbstractionManager (InitializeDefaultPlugins NewPluginFactory).1 2) false).1 in
  (Program m0 None true (Some demo_goal) (GotResult None)).2 = (None, None).
Proof. reflexivity. Qed.

(** The factory registers its default plugin each time it makes a manager, so it
    makes only one. *)
Example second_manager_refused (w1 w2 : Z) :
  let f := (CreateDPUManager NewPluginFactory w1).1 in
  ∃ err, (CreateDPUManager f w2).2 = Err err.
Proof. eexists. reflexivity. Qed.
