(* ===== verification/DalProgram.v ===== *)
(** * DPU abstraction: calls of the manager over its pool

    [src/src/FM/pkg/dal/manager.go] again, with [Program] taken apart where the
    code releases its lock or waits: a call looks whether the manager runs, selects
    on the contexts, counts itself, submits to the pool ([DalPool]), and waits for
    its channel.  Any number of calls interleave with the steps of the pool and
    with [Start] and [Stop]. *)

From S2P Require Import Prelude GoFloat Resilience GoalState DalDispatch DalPool.

(** Where a call is; its channel is [None] when [Submit] returned a closed one. *)
Inductive call_at : Type :=
| CCalled
| CChecked
| CCounted
| CSubmitted (ch : option nat)
| CReturned (r : option ProgramResult * option error).

Record call : Type := mkCall { c_goal : option PerENIGoalState; c_at : call_at }.

Record system : Type := mkSys { mgr : DPUManager; calls : list call }.

(** The pool's context derives from the manager's: it is done when that is. *)
Inductive action : Type :=
| SStart (parent_done : bool)
| SStop
| SParentDone
| SPool (a : pool_action)
| SCall (goal : option PerENIGoalState)
| SCheck (k : nat)
| SSelect (k : nat) (ctx_err : option error) (pick : bool)
| SSubmit (k : nat) (ctx_err : option error)
| SGot (k : nat)
| SCallerDone (k : nat) (e : error)
| SManagerDone (k : nat).

Definition set_pool (p : PluginPool) (m : DPUManager) : DPUManager :=
  mkDM p (m_running m) (m_done m) (m_stats m).

Definition set_call (k : nat) (c : call) (a : call_at) (s : system) : system :=
  mkSys (mgr s) (<[k := mkCall (c_goal c) a]> (calls s)).

(** The steps of the pool's goroutines and of the submitters in it. *)
Definition pool_internal (a : pool_action) : bool :=
  match a with PStart _ | PShutdown | PSubmit _ _ | PParentDone => false | _ => true end.

(** The call has left [Submit]: its job is in the queue, or beyond. *)
Definition submitted (p : PluginPool) (ch : option nat) : bool :=
  match ch with None => true | Some c => bool_decide (c ∉ j_chan <$> senders p) end.

(** A receive from the channel of a call: what the pool sent, nil once it is
    closed, [None] if neither has happened. *)
Definition receive (p : PluginPool) (ch : option nat) : option (option ProgramResult) :=
  match ch with
  | None => Some None
  | Some c =>
      '(_, a) ← list_find (λ x : goalJob * answer, j_chan x.1 = c) (answers p);
      Some (match a.2 with Answered r => r | ClosedEmpty => None end)
  end.

Section Steps.
Context (f2i_undefined : f64 → Z).

Definition exec (s : system) (a : action) : option (outcome system) :=
  match a with
  | SStart parent_done => Some (Ret (mkSys (Manager_Start (mgr s) parent_done).1 (calls s)))
  | SStop => Some ('(m, _) ← Manager_Stop (mgr s); Ret (mkSys m (calls s)))
  | SParentDone =>
      match pool_exec f2i_undefined (pool (mgr s)) PParentDone with
      | Some (Ret p) =>
          Some (Ret (mkSys (mkDM p (m_running (mgr s)) true (m_stats (mgr s))) (calls s)))
      | _ => None
      end
  | SPool a =>
      if pool_internal a
      then r ← pool_exec f2i_undefined (pool (mgr s)) a;
           Some (p ← r; Ret (mkSys (set_pool p (mgr s)) (calls s)))
      else None
  | SCall goal => Some (Ret (mkSys (mgr s) (calls s ++ [mkCall goal CCalled])))
  | SCheck k =>
      c ← calls s !! k;
      match c_at c with
      | CCalled =>
          Some (Ret (set_call k c (if m_running (mgr s) then CChecked
                                   else CReturned (None, Some not_running_error)) s))
      | _ => None
      end
  | SSelect k ctx_err pick =>
      c ← calls s !! k;
      match c_at c with
      | CChecked =>
          match program_select (mgr s) ctx_err pick (c_goal c) with
          | Some err => Some (Ret (set_call k c (CReturned (None, Some err)) s))
          | None =>
              let m := set_mstats (mgr s) (mstats_add (m_stats (mgr s)) 1 0 0) in
              Some (Ret (set_call k c CCounted (mkSys m (calls s))))
          end
      | _ => None
      end
  | SSubmit k ctx_err =>
      c ← calls s !! k;
      match c_at c with
      | CCounted =>
          let '(p, ch) := Submit (pool (mgr s)) ctx_err (c_goal c) in
          Some (Ret (set_call k c (CSubmitted ch) (mkSys (set_pool p (mgr s)) (calls s))))
      | _ => None
      end
  | SGot k =>
      c ← calls s !! k;
      match c_at c with
      | CSubmitted ch =>
          if submitted (pool (mgr s)) ch
          then r ← receive (pool (mgr s)) ch;
               Some (Ret (set_call k c (CReturned (r, None)) (mkSys (count_result r (mgr s)) (calls s))))
          else None
      | _ => None
      end
  | SCallerDone k e =>
      c ← calls s !! k;
      match c_at c with
      | CSubmitted ch =>
          if submitted (pool (mgr s)) ch
          then Some (Ret (set_call k c (CReturned (None, Some (Wrapf "result wait cancelled: " e ""))) s))
          else None
      | _ => None
      end
  | SManagerDone k =>
      c ← calls s !! k;
      match c_at c with
      | CSubmitted ch =>
          if submitted (pool (mgr s)) ch && m_done (mgr s)
          then Some (Ret (set_call k c (CReturned (None, Some stopped_error)) s))
          else None
      | _ => None
      end
  end.

Fixpoint run (s : system) (acts : list action) : option (outcome system) :=
  match acts with
  | [] => Some (Ret s)
  | a :: acts =>
      match exec s a with
      | Some (Ret s) => run s acts
      | Some (Panic x) => Some (Panic x)
      | None => None
      end
  end.

End Steps.

Definition new_system (registry : PluginRegistry) (workers : Z) : system :=
  mkSys (NewDPUAbstractionManager registry workers) [].

(** ** Lemmas *)

Lemma count_insert {A} (f : A → bool) (l : list A) k x y :
  l !! k = Some x →
  count f (<[k := y]> l) = count f l - (if f x then 1 else 0) + (if f y then 1 else 0).
Proof.
  revert k. induction l as [|z l IH]; intros [|k] Hk; simplify_eq/=; rewrite !count_cons; [lia|].
  rewrite (IH k Hk). lia.
Qed.

Lemma count_app {A} (f : A → bool) (l l' : list A) : count f (l ++ l') = count f l + count f l'.
Proof. unfold count. rewrite filter_app, length_app. lia. Qed.

Lemma count_single {A} (f : A → bool) x : count f [x] = if f x then 1 else 0.
Proof. rewrite count_cons. change (count f []) with 0. lia. Qed.

Lemma count_le {A} (f : A → bool) (l : list A) : count f l ≤ Z.of_nat (length l).
Proof. unfold count. apply Nat2Z.inj_le, length_filter. Qed.

(** What the counters are to show of a call. *)
Definition call_succeeded (c : call) : bool :=
  match c_at c with CReturned r => counts_success r | _ => false end.
Definition call_failed (c : call) : bool :=
  match c_at c with CReturned r => counts_failure r | _ => false end.
Definition call_pending (c : call) : bool :=
  match c_at c with CCounted | CSubmitted _ => true | _ => false end.
Definition call_selected (c : call) : bool :=
  match c_at c with CCalled | CChecked => false | _ => true end.

Definition counters_ok (s : system) : Prop :=
  let st := m_stats (mgr s) in
  ProgramsSucceeded st = count call_succeeded (calls s) ∧
  ProgramsFailed st = count call_failed (calls s) ∧
  count call_pending (calls s) + ProgramsSucceeded st + ProgramsFailed st
    ≤ ProgramsSubmitted st ≤ count call_selected (calls s).

(** Counters that moved, or were left alone. *)
Definition moved (st st' : ManagerStats) (sub succ fail : Z) : Prop :=
  st' = mstats_add st sub succ fail ∨ st' = st ∧ sub = 0 ∧ succ = 0 ∧ fail = 0.

(** A call moves on, and the counters with it. *)
Lemma counters_step s k c a m sub succ fail :
  calls s !! k = Some c → Z.of_nat (length (calls s)) ≤ int64_max →
  moved (m_stats (mgr s)) (m_stats m) sub succ fail →
  let c' := mkCall (c_goal c) a in
  let d (f : call → bool) := (if f c' then 1 else 0) - (if f c then 1 else 0) in
  0 ≤ sub ∧ succ = d call_succeeded ∧ fail = d call_failed ∧
  d call_pending + succ + fail ≤ sub ≤ d call_selected →
  counters_ok s → counters_ok (mkSys m (<[k := c']> (calls s))).
Proof.
  intros Hk Hl Em c' d (Hs0 & Hs & Hf & Hp) (H1 & H2 & H3). unfold counters_ok. cbn [mgr calls].
  rewrite !(count_insert _ _ _ _ c' Hk). subst d. cbn beta in *.
  pose proof (count_nonneg call_pending (calls s)). pose proof (count_nonneg call_succeeded (calls s)).
  pose proof (count_nonneg call_failed (calls s)).
  pose proof (count_insert call_succeeded _ _ _ c' Hk) as C1. pose proof (count_insert call_failed _ _ _ c' Hk) as C2.
  pose proof (count_insert call_selected _ _ _ c' Hk) as C3.
  pose proof (count_le call_succeeded (<[k := c']> (calls s))). pose proof (count_nonneg call_succeeded (<[k := c']> (calls s))).
  pose proof (count_le call_failed (<[k := c']> (calls s))). pose proof (count_nonneg call_failed (<[k := c']> (calls s))).
  pose proof (count_le call_selected (<[k := c']> (calls s))).
  rewrite length_insert in *. destruct Em as [-> |(-> & -> & -> & ->)]; [|lia].
  unfold mstats_add. cbn [ProgramsSucceeded ProgramsFailed ProgramsSubmitted].
  rewrite !wrap64_id by (unfold in_int64, int64_min, int64_max in *; lia).
  lia.
Qed.

Section Proofs.
Context (f2i_undefined : f64 → Z) (r : PluginRegistry).

(** The channel of a call is that of a job of the pool for the call's goal, and
    what a call returned is an answer for its goal. *)
Record sys_ok (s : system) : Prop := {
  sy_pool : pool_ok r (pool (mgr s));
  sy_open : open_pool (pool (mgr s));
  sy_chan k c ch : calls s !! k = Some c → c_at c = CSubmitted (Some ch) →
    ∃ g, c_goal c = Some g ∧ mkJob ch g ∈ jobs (pool (mgr s));
  sy_goal k c : calls s !! k = Some c → c_at c = CCounted → c_goal c ≠ None;
  sy_result k c x err : calls s !! k = Some c → c_at c = CReturned (Some x, err) →
    err = None ∧ ∃ g, c_goal c = Some g ∧ fair_answer r (mkJob 0 g) x;
  sy_count : Z.of_nat (length (calls s)) ≤ int64_max → counters_ok s
}.

(** Two jobs of a pool with the same channel are the same. *)
Lemma jobs_chan_inj p j j' : pool_ok r p → j ∈ jobs p → j' ∈ jobs p → j_chan j = j_chan j' → j = j'.
Proof.
  intros P Hj Hj' E. pose proof (po_jobs _ _ P) as Hp.
  assert (Hnd : NoDup (j_chan <$> jobs p)) by (rewrite Hp; apply NoDup_seq).
  apply list_elem_of_lookup in Hj as [i Hi]. apply list_elem_of_lookup in Hj' as [i' Hi'].
  assert (i = i') as ->; [|congruence].
  eapply NoDup_lookup; [exact Hnd|rewrite list_lookup_fmap, Hi; done|rewrite list_lookup_fmap, Hi'; simpl; congruence].
Qed.

Lemma answers_jobs p x : x ∈ answers p → x.1 ∈ jobs p.
Proof.
  intros Hx. unfold jobs. rewrite !elem_of_app. do 3 right. apply list_elem_of_fmap. by exists x.
Qed.

(** A step of the pool alone, its jobs kept. *)
Lemma sys_ok_pool s m :
  sys_ok s → pool_ok r (pool m) → open_pool (pool m) → m_stats m = m_stats (mgr s) →
  (∀ j, j ∈ jobs (pool (mgr s)) → j ∈ jobs (pool m)) → sys_ok (mkSys m (calls s)).
Proof.
  intros [P O Hc Hg Hr Hn] P' O' Es Hj. split; cbn [mgr calls]; try done.
  - intros k c ch Hk Ha. destruct (Hc k c ch Hk Ha) as (g & ? & ?). eauto.
  - unfold counters_ok in *. cbn [mgr calls]. by rewrite Es.
Qed.

(** A call moves on, the pool being the same. *)
Lemma sys_ok_call s k c a m sub succ fail :
  sys_ok s → calls s !! k = Some c → pool m = pool (mgr s) →
  (∀ ch, a = CSubmitted (Some ch) → False) → (a = CCounted → c_goal c ≠ None) →
  (∀ x err, a = CReturned (Some x, err) → err = None ∧ ∃ g, c_goal c = Some g ∧ fair_answer r (mkJob 0 g) x) →
  moved (m_stats (mgr s)) (m_stats m) sub succ fail →
  (let c' := mkCall (c_goal c) a in
   let d (f : call → bool) := (if f c' then 1 else 0) - (if f c then 1 else 0) in
   0 ≤ sub ∧ succ = d call_succeeded ∧ fail = d call_failed ∧
   d call_pending + succ + fail ≤ sub ≤ d call_selected) →
  sys_ok (mkSys m (<[k := mkCall (c_goal c) a]> (calls s))).
Proof.
  intros [P O Hc Hg Hr Hn] Hk Ep Ha1 Ha2 Ha3 Es Hd. split; cbn [mgr calls]; rewrite ?Ep; try done.
  - intros k' c' ch Hk' Ha. apply list_lookup_insert_Some in Hk' as [(-> & <- & _)|[_ Hk']]; [|eauto].
    cbn in Ha. by apply Ha1 in Ha.
  - intros k' c' Hk' Ha. apply list_lookup_insert_Some in Hk' as [(-> & <- & _)|[_ Hk']]; [|eauto]. auto.
  - intros k' c' x err Hk' Ha. apply list_lookup_insert_Some in Hk' as [(-> & <- & _)|[_ Hk']]; [|eauto]. auto.
  - rewrite length_insert. intros Hl. by eapply counters_step; eauto.
Qed.

(** A call sends its job. *)
Lemma sys_ok_submit s k c g p ctx_err ch :
  sys_ok s → calls s !! k = Some c → c_at c = CCounted → c_goal c = Some g →
  Submit (pool (mgr s)) ctx_err (Some g) = (p, ch) →
  sys_ok (set_call k c (CSubmitted ch) (mkSys (set_pool p (mgr s)) (calls s))).
Proof.
  intros S Hk Hat Hgoal Hsub. pose proof S as [P O Hc Hg Hr Hn].
  assert (Hx : pool_exec f2i_undefined (pool (mgr s)) (PSubmit ctx_err (Some g)) = Some (Ret p)) by (cbn; by rewrite Hsub).
  pose proof (pool_exec_jobs _ _ _ _ Hx) as Hjobs. cbn [new_jobs] in Hjobs. rewrite Hsub in Hjobs.
  unfold set_call. cbn [calls mgr]. split; cbn [calls mgr set_pool pool].
  - by eapply pool_exec_ok.
  - by eapply open_pool_exec.
  - intros k' c' ch' Hk' Ha. apply list_lookup_insert_Some in Hk' as [(-> & <- & _)|[_ Hk']].
    + cbn in Ha. simplify_eq. exists g. split; [done|]. rewrite Hjobs. by left.
    + destruct (Hc k' c' ch' Hk' Ha) as (g' & ? & ?). exists g'. split; [done|]. rewrite Hjobs. apply elem_of_app. by right.
  - intros k' c' Hk' Ha. apply list_lookup_insert_Some in Hk' as [(-> & <- & _)|[_ Hk']]; [done|eauto].
  - intros k' c' x err Hk' Ha. apply list_lookup_insert_Some in Hk' as [(-> & <- & _)|[_ Hk']]; [done|eauto].
  - rewrite length_insert. intros Hl. eapply (counters_step s k c _ _ 0 0 0); eauto; [by right|].
    unfold call_succeeded, call_failed, call_pending, call_selected. cbn. rewrite Hat. cbn. lia.
Qed.

(** What a call receives is an answer for its goal. *)
Lemma receive_fair s k c ch x :
  sys_ok s → calls s !! k = Some c → c_at c = CSubmitted ch →
  receive (pool (mgr s)) ch = Some (Some x) →
  ∃ g, c_goal c = Some g ∧ fair_answer r (mkJob 0 g) x.
Proof.
  intros [P O Hc Hg Hr Hn] Hk Hat Hx. destruct ch as [ch|]; [|done].
  destruct (Hc k c ch Hk Hat) as (g & Eg & Hj). exists g. split; [done|].
  cbn in Hx. destruct (list_find _ _) as [[i [j a]]|] eqn:E; [|done]. cbn in Hx.
  apply list_find_Some in E as (Hi & Hch & _). cbn in Hch. apply list_elem_of_lookup_2 in Hi.
  destruct a as [res|]; [|done]. simplify_eq. destruct (po_answers _ _ P _ _ Hi) as (x' & Ex & Hfair).
  simplify_eq. pose proof (answers_jobs _ _ Hi) as Hj'. cbn in Hj'.
  by rewrite (jobs_chan_inj _ _ _ P Hj' Hj eq_refl) in Hfair.
Qed.

(** A step of the pool that submits nothing. *)
Lemma sys_ok_exec s pa p m :
  sys_ok s → pool_exec f2i_undefined (pool (mgr s)) pa = Some (Ret p) → new_jobs (pool (mgr s)) pa = [] →
  pool m = p → m_stats m = m_stats (mgr s) → sys_ok (mkSys m (calls s)).
Proof.
  intros S Hx Hnew <- Es. pose proof (pool_exec_jobs _ _ _ _ Hx) as Hjobs. rewrite Hnew in Hjobs.
  apply sys_ok_pool; [done| | |done|].
  - eapply pool_exec_ok; [apply S|exact Hx].
  - eapply open_pool_exec; [apply S|exact Hx].
  - intros j Hj. by rewrite Hjobs.
Qed.

Lemma internal_new_jobs p a : pool_internal a = true → new_jobs p a = [].
Proof. by destruct a. Qed.

Lemma exec_ok s a s' : sys_ok s → exec f2i_undefined s a = Some (Ret s') → sys_ok s'.
Proof.
  intros S Hx. pose proof S as [P O Hc Hg Hr Hn].
  destruct a as [pd| | |a|goal|k|k ce pick|k ce|k|k e|k]; cbn [exec] in Hx;
    try (destruct (calls s !! k) as [c|] eqn:Hk; [|done]; cbn in Hx;
         destruct (c_at c) as [| | |ch|] eqn:Hat; try done);
    try (destruct (submitted _ _); [|done]).
  - simplify_eq. unfold Manager_Start. destruct (m_running (mgr s)); [by destruct s|].
    destruct (Start (pool (mgr s)) pd) as [p err] eqn:Es.
    assert (Hp : pool_exec f2i_undefined (pool (mgr s)) (PStart pd) = Some (Ret p)) by (cbn; by rewrite Es).
    destruct err; cbn [fst]; by eapply sys_ok_exec.
  - unfold Manager_Stop in Hx. destruct (m_running (mgr s)); cbn in Hx; [|simplify_eq; by destruct s].
    destruct (Shutdown (pool (mgr s))) as [[p err]|] eqn:Es; [|done]. cbn in Hx.
    assert (Hp : pool_exec f2i_undefined (pool (mgr s)) PShutdown = Some (Ret p)) by (cbn; by rewrite Es).
    destruct err; cbn in Hx; simplify_eq; by eapply sys_ok_exec.
  - cbn in Hx. simplify_eq. by eapply (sys_ok_exec s PParentDone).
  - destruct (pool_internal a) eqn:Ei; [|done].
    destruct (pool_exec _ _ a) as [[p|]|] eqn:Ep; [|done..]. cbn in Hx. simplify_eq.
    eapply sys_ok_exec; [done|exact Ep|by apply internal_new_jobs|done|done].
  - simplify_eq. split; cbn [mgr calls]; try done.
    + intros k c ch Hk Ha. apply lookup_app_Some in Hk as [Hk|[_ Hk]]; [eauto|].
      apply list_lookup_singleton_Some in Hk as [_ <-]. done.
    + intros k c Hk Ha. apply lookup_app_Some in Hk as [Hk|[_ Hk]]; [eauto|].
      apply list_lookup_singleton_Some in Hk as [_ <-]. done.
    + intros k c x err Hk Ha. apply lookup_app_Some in Hk as [Hk|[_ Hk]]; [eauto|].
      apply list_lookup_singleton_Some in Hk as [_ <-]. done.
    + rewrite length_app. intros Hl. destruct (Hn ltac:(lia)) as (H1 & H2 & H3).
      unfold counters_ok. cbn [mgr calls]. rewrite !count_app, !count_single. cbn. lia.
  - simplify_eq. destruct (m_running (mgr s)); (eapply (sys_ok_call s k c _ _ 0 0 0); eauto; try done; [by right|]);
      unfold call_succeeded, call_failed, call_pending, call_selected; cbn; rewrite Hat; cbn; lia.
  - unfold program_select in Hx.
    assert (Hsel : ∀ err, sys_ok (set_call k c (CReturned (None, Some err)) s)).
    { intros err. eapply (sys_ok_call s k c _ _ 0 0 0); eauto; try done; [by right|].
      unfold call_succeeded, call_failed, call_pending, call_selected; cbn; rewrite Hat; cbn; lia. }
    destruct ce as [e|], (m_done (mgr s)); cbn in Hx; simplify_eq; try apply Hsel.
    destruct (c_goal c) as [g|] eqn:Eg; cbn in Hx; simplify_eq; [|apply Hsel].
    eapply (sys_ok_call s k c _ (set_mstats (mgr s) _) 1 0 0); eauto; try done; [by rewrite Eg|by left|].
    unfold call_succeeded, call_failed, call_pending, call_selected; cbn; rewrite Hat; cbn; lia.
  - pose proof (Hg k c Hk Hat) as Hgoal. destruct (c_goal c) as [g|] eqn:Eg; [|done].
    destruct (Submit _ _ _) as [p ch] eqn:Es. simplify_eq. by eapply sys_ok_submit.
  - destruct (receive _ _) as [res|] eqn:Er; [|done]. cbn in Hx. simplify_eq.
    eapply (sys_ok_call s k c _ (count_result res (mgr s)) 0); eauto; try done.
    + intros x err [= -> <-]. split; [done|]. by eapply receive_fair.
    + by left.
    + unfold call_succeeded, call_failed, call_pending, call_selected; cbn; rewrite Hat; cbn.
      destruct res as [x|]; cbn; [destruct (Success x)|]; cbn; lia.
  - simplify_eq. eapply (sys_ok_call s k c _ _ 0 0 0); eauto; try done; [by right|].
    unfold call_succeeded, call_failed, call_pending, call_selected; cbn; rewrite Hat; cbn; lia.
  - cbn in Hx. destruct (m_done (mgr s)); simplify_eq. eapply (sys_ok_call s k c _ _ 0 0 0); eauto; try done; [by right|].
    unfold call_succeeded, call_failed, call_pending, call_selected; cbn; rewrite Hat; cbn; lia.
Qed.

Lemma run_ok s acts s' : sys_ok s → run f2i_undefined s acts = Some (Ret s') → sys_ok s'.
Proof.
  revert s. induction acts as [|a acts IH]; intros s S Hx; cbn [run] in Hx; [by simplify_eq|].
  destruct (exec _ s a) as [[s1|]|] eqn:E; [|done|done]. apply (IH s1); [by eapply exec_ok|done].
Qed.

Lemma sys_ok_new workers : workers < 2 ^ 62 → sys_ok (new_system r workers).
Proof.
  intros Hw. split; try done; [apply pool_ok_new|by apply open_pool_new].
Qed.
(** Once the pool has drained, a waiting call can take its result. *)
Lemma drained_got s k c ch :
  sys_ok s → live (pool (mgr s)) → work (pool (mgr s)) = 0%nat →
  calls s !! k = Some c → c_at c = CSubmitted ch → ∃ s', exec f2i_undefined s (SGot k) = Some (Ret s').
Proof.
  intros [P O Hc _ _ _] Hl Hw Hk Hat. cbn [exec]. rewrite Hk. cbn. rewrite Hat.
  destruct ch as [ch|]; [|by eexists].
  destruct (Hc k c ch Hk Hat) as (g & _ & Hj).
  assert (Hlt : (ch < next_chan (pool (mgr s)))%nat).
  { pose proof (po_jobs _ _ P) as Hp. assert (ch ∈ j_chan <$> jobs (pool (mgr s))) as Hin
      by (apply list_elem_of_fmap; by exists (mkJob ch g)).
    rewrite Hp in Hin. apply elem_of_seq in Hin. lia. }
  assert (Hs : senders (pool (mgr s)) = []) by (unfold work in Hw; apply length_zero_iff_nil; lia).
  cbn [submitted]. rewrite Hs, bool_decide_eq_true_2 by (by intros ?%elem_of_nil).
  destruct (no_work_answered r _ P O Hl Hw ch Hlt) as (j & x & Ej & Hin).
  destruct (list_find_elem_of (λ x : goalJob * answer, j_chan x.1 = ch) _ _ Hin Ej) as [[i a] Hf].
  cbn [receive]. rewrite Hf. by eexists.
Qed.

End Proofs.

(** ** Theorems *)

(** C6 A manager gives every caller its own result. In any interleaving of calls of
    [Program] with the pool's goroutines, starts and stops: a result that a call
    returns is one for the goal of that call - what the vendor's plugin returned for
    it, or a failure with its ENI - and comes without an error; the counters follow
    what the callers saw (a nil result counts as a failure, calls under way are
    submitted); and in a running pool whose work is done, no call has to wait: each
    that has submitted can take its result. *)
Theorem manager_delivers (f2i_undefined : f64 → Z) (r : PluginRegistry) (workers : Z)
    (acts : list action) (s : system)
    (Hw : workers < 2 ^ 62)
    (Hx : run f2i_undefined (new_system r workers) acts = Some (Ret s)) :
  (∀ k c x err, calls s !! k = Some c → c_at c = CReturned (Some x, err) →
     err = None ∧ ∃ g, c_goal c = Some g ∧ fair_answer r (mkJob 0 g) x) ∧
  (Z.of_nat (length (calls s)) ≤ int64_max →
     let st := m_stats (mgr s) in
     ProgramsSucceeded st = count call_succeeded (calls s) ∧
     ProgramsFailed st = count call_failed (calls s) ∧
     count call_pending (calls s) + ProgramsSucceeded st + ProgramsFailed st
       ≤ ProgramsSubmitted st ≤ count call_selected (calls s)) ∧
  (live (pool (mgr s)) → work (pool (mgr s)) = 0%nat →
     ∀ k c ch, calls s !! k = Some c → c_at c = CSubmitted ch →
     ∃ s', exec f2i_undefined s (SGot k) = Some (Ret s')).
Proof.
  pose proof (run_ok f2i_undefined r _ _ _ (sys_ok_new r workers Hw) Hx) as S.
  split; [|split].
  - intros k c x err Hk Hat. by eapply (sy_result _ _ S).
  - apply (sy_count _ _ S).
  - intros Hl Hz k c ch Hk Hat. by eapply drained_got.
Qed.

(** Three calls and one worker: one is for no goal, one caller gives up, one waits
    for its result, which is there. *)
Definition demo_goal2 : PerENIGoalState := mkGoal "eni-2" [] [] [] "g" 1 0.
Definition demo_serve2 : list action :=
  [SPool (WTake 0); SPool (WDispatch 0 ctx_Canceled (λ _, calm 0)); SPool (WAnswer 0)].
Definition demo_acts : list action :=
  [SStart false; SCall (Some demo_goal2); SCall None; SCall (Some demo_goal); SCheck 0; SCheck 1; SCheck 2;
   SSelect 0 None false; SSelect 1 None false; SSelect 2 None false; SSubmit 2 None; SSubmit 0 None;
   SPool (PSend 1); SPool (PSend 0)] ++ demo_serve2 ++ [SCallerDone 0 ctx_Canceled] ++ demo_serve2 ++ [SGot 2].

Lemma manager_delivers_witness :
  let r := (InitializeDefaultPlugins NewPluginFactory).1 in
  ∃ s x, run (λ _, 0) (new_system r 1) demo_acts = Some (Ret s) ∧
    (c_at <$> calls s !! 2%nat) = Some (CReturned (Some x, None)) ∧ pr_ENI_ID x = "eni-1" ∧
    fair_answer r (mkJob 0 demo_goal) x ∧
    m_stats (mgr s) = programs_of 2 1 0.
Proof.
  set (r := (InitializeDefaultPlugins NewPluginFactory).1).
  destruct (run (λ _, 0) (new_system r 1) demo_acts) as [[s|]|] eqn:E;
    [|exfalso; vm_compute in E; discriminate..].
  pose proof (manager_delivers (λ _, 0) r 1 demo_acts s eq_refl E) as (Hd & _ & _).
  set (x := mkResult "eni-1" true "" 3 0).
  assert (Hs : calls s !! 2%nat = Some (mkCall (Some demo_goal) (CReturned (Some x, None))) ∧
               m_stats (mgr s) = programs_of 2 1 0)
    by (clear Hd; vm_compute in E; injection E as <-; split; reflexivity).
  destruct Hs as [Hk Hm]. exists s, x. split; [exact E|]. rewrite Hk. split; [reflexivity|].
  split; [reflexivity|]. split; [|exact Hm].
  destruct (Hd 2%nat _ x None Hk eq_refl) as (_ & g & Eg & Hf). injection Eg as <-. exact Hf.
Defined.
