(* ===== verification/GoContext.v ===== *)
(** * Contexts, durations and identifiers as text

    What the repository's loggers and tracers use of Go's standard library: the
    values a [context.Context] carries, [Duration.String], [%016x], and
    [string(rune(x))].  Both observability packages (the Fabric Manager's
    [FmObservability], Weaver's [WvObservability]) put a trace id in a context
    under the same key. *)

From S2P Require Import Prelude.

(** ** context.Context, as far as its values go *)

(** The dynamic values the code stores: a string, or a pointer it knows the type
    of ([None] is the nil pointer). *)
Inductive ctx_value : Type :=
| CvString (s : string)
| CvTraceContext (p : option nat).

Inductive context : Type :=
| Background
| WithValue (parent : context) (key : string) (val : ctx_value).

(** [ctx.Value(key)]: the innermost value of the key. *)
Fixpoint Value (ctx : context) (key : string) : option ctx_value :=
  match ctx with
  | Background => None
  | WithValue parent key' val => if decide (key' = key) then Some val else Value parent key
  end.

(** [ctx.Value(key).(string)], when it is a string and not empty. *)
Definition string_value (ctx : context) (key : string) : option string :=
  match Value ctx key with
  | Some (CvString s) => if bool_decide (s = "") then None else Some s
  | _ => None
  end.

(** ** time *)

(** [time.Unix(0, 0)], in nanoseconds since the zero time, and [t.UnixNano()]. *)
Definition unix_epoch : Time := 62135596800 * Second.
Definition UnixNano (t : Time) : Z := wrap64 (t - unix_epoch).

(** [fmtFrac]: the [prec] low digits of [v] as a fraction without its trailing
    zeros, in front of [buf], and the rest of [v]. *)
Fixpoint fmtFrac (prec : nat) (v : Z) (print : bool) (buf : string) : string * Z :=
  match prec with
  | O => (if print then "." +:+ buf else buf, v)
  | S prec =>
      let digit := v mod 10 in
      let print := print || negb (digit =? 0) in
      fmtFrac prec (v / 10) print (if print then Itoa digit +:+ buf else buf)
  end.

(** [Duration.String] *)
Definition Duration_String (d : Duration) : string :=
  let u := Z.abs d in
  let s :=
    if u =? 0 then "0s"
    else if u <? Second then
      let '(prec, unit) :=
        if u <? Microsecond then (0%nat, "ns")
        else if u <? Millisecond then (3%nat, "µs")
        else (6%nat, "ms") in
      let '(buf, u) := fmtFrac prec u false unit in Itoa u +:+ buf
    else
      let '(buf, u) := fmtFrac 9 u false "s" in
      let buf := Itoa (u mod 60) +:+ buf in
      let u := u / 60 in
      if 0 <? u then
        let buf := Itoa (u mod 60) +:+ "m" +:+ buf in
        let u := u / 60 in
        if 0 <? u then Itoa u +:+ "h" +:+ buf else buf
      else buf in
  if d <? 0 then "-" +:+ s else s.

Example duration_text :
  map Duration_String [0; 17; 1500; 100 * Millisecond; 1500 * Millisecond; 60 * Minute; - 90 * Second;
    int64_min] =
  ["0s"; "17ns"; "1.5µs"; "100ms"; "1.5s"; "1h0m0s"; "-1m30s"; "-2562047h47m16.854775808s"].
Proof. vm_compute. reflexivity. Qed.

(** ** Hexadecimal *)

Definition hex_digit (d : Z) : Ascii.ascii :=
  Ascii.ascii_of_nat (Z.to_nat (if d <? 10 then 48 + d else 87 + d)).

(** The [n] low hexadecimal digits of [v], in front of [buf].  [%016x] is
    [hex_pad 16] on a number that is not negative and below 2^64. *)
Fixpoint hex_pad (n : nat) (v : Z) (buf : string) : string :=
  match n with
  | O => buf
  | S n => hex_pad n (v / 16) (String (hex_digit (v mod 16)) buf)
  end.

Definition fmt_016x (v : Z) : string := hex_pad 16 v "".

Definition hex_value (c : Ascii.ascii) : Z :=
  let b := Z.of_nat (Ascii.nat_of_ascii c) in if b <? 58 then b - 48 else b - 87.

(** The number a string of hexadecimal digits denotes. *)
Fixpoint hex_parse (acc : Z) (s : string) : Z :=
  match s with
  | EmptyString => acc
  | String c s => hex_parse (16 * acc + hex_value c) s
  end.

Lemma hex_value_digit d : 0 ≤ d < 16 → hex_value (hex_digit d) = d.
Proof.
  intros H. assert (d ∈ [0;1;2;3;4;5;6;7;8;9;10;11;12;13;14;15]) as Hin
    by (rewrite !elem_of_cons; lia).
  revert d H Hin. assert (Forall (λ d, hex_value (hex_digit d) = d) [0;1;2;3;4;5;6;7;8;9;10;11;12;13;14;15]) as Hf
    by (repeat constructor).
  intros d _ Hin. by apply (proj1 (Forall_forall _ _) Hf).
Qed.

Lemma hex_parse_pad n acc v buf :
  0 ≤ v < 16 ^ Z.of_nat n → hex_parse acc (hex_pad n v buf) = hex_parse (16 ^ Z.of_nat n * acc + v) buf.
Proof.
  revert acc v buf. induction n as [|n IH]; intros acc v buf Hv.
  - cbn -[Z.mul]. f_equal. cbn in Hv. lia.
  - rewrite Nat2Z.inj_succ, Z.pow_succ_r in * by lia. cbn [hex_pad]. rewrite IH.
    + cbn [hex_parse]. rewrite hex_value_digit by (apply Z.mod_pos_bound; lia). f_equal.
      pose proof (Z.div_mod v 16). lia.
    + split; [apply Z.div_pos; lia|]. apply Z.div_lt_upper_bound; lia.
Qed.

Lemma hex_pad_length n v buf : String.length (hex_pad n v buf) = (n + String.length buf)%nat.
Proof. revert v buf. induction n as [|n IH]; intros v buf; [done|]. cbn. rewrite IH. cbn. lia. Qed.

Lemma fmt_016x_parse v : 0 ≤ v < 2 ^ 64 → hex_parse 0 (fmt_016x v) = v.
Proof. intros Hv. unfold fmt_016x. rewrite hex_parse_pad; cbn -[Z.mul]; lia. Qed.

Lemma fmt_016x_length v : String.length (fmt_016x v) = 16%nat.
Proof. apply hex_pad_length. Qed.

(** ** string(rune(x)) *)

(** The UTF-8 of a rune; of U+FFFD when it is not a valid code point. *)
Definition string_of_rune (r : Z) : string :=
  let r := if ((0 <=? r) && (r <? 55296)) || ((57343 <? r) && (r <=? 1114111)) then r else 65533 in
  of_bytes
    (if r <? 128 then [r]
     else if r <? 2048 then [192 + r / 64; 128 + r mod 64]
     else if r <? 65536 then [224 + r / 4096; 128 + (r / 64) mod 64; 128 + r mod 64]
     else [240 + r / 262144; 128 + (r / 4096) mod 64; 128 + (r / 64) mod 64; 128 + r mod 64]).

Example rune_text : map string_of_rune [48; 57; 58; 233; 8594; -1] = ["0"; "9"; ":"; "é"; "→"; "�"].
Proof. reflexivity. Qed.

(** ** time.RFC3339, in UTC *)

Definition days_in (leap : bool) : list Z := [31; if leap then 29 else 28; 31; 30; 31; 30; 31; 31; 30; 31; 30; 31].

(** Year, leap year and day of the year of a number of days since January 1, year 1. *)
Definition civil_year (days : Z) : Z * bool * Z :=
  let n400 := days / 146097 in let d := days mod 146097 in
  let n100 := Z.min 3 (d / 36524) in let d := d - n100 * 36524 in
  let n4 := d / 1461 in let d := d mod 1461 in
  let n1 := Z.min 3 (d / 365) in let d := d - n1 * 365 in
  (400 * n400 + 100 * n100 + 4 * n4 + n1 + 1,
   (n1 =? 3) && (negb (n4 =? 24) || (n100 =? 3)), d).

(** Month and day of the month of a day of the year. *)
Fixpoint civil_month (lengths : list Z) (m yday : Z) : Z * Z :=
  match lengths with
  | [] => (m, yday + 1)
  | l :: lengths => if yday <? l then (m, yday + 1) else civil_month lengths (m + 1) (yday - l)
  end.

(** At least [n] digits. *)
Definition pad (n : nat) (z : Z) : string :=
  let s := Itoa z in String.concat "" (replicate (n - String.length s) "0") +:+ s.

(** [t.UTC().Format(time.RFC3339)], for a time that is not before year 1. *)
Definition RFC3339 (t : Time) : string :=
  let secs := t / Second in
  let days := secs / 86400 in let s := secs mod 86400 in
  let '(year, leap, yday) := civil_year days in
  let '(month, day) := civil_month (days_in leap) 1 yday in
  pad 4 year +:+ "-" +:+ pad 2 month +:+ "-" +:+ pad 2 day +:+ "T" +:+
  pad 2 (s / 3600) +:+ ":" +:+ pad 2 (s / 60 mod 60) +:+ ":" +:+ pad 2 (s mod 60) +:+ "Z".

Example rfc_text :
  map (λ s, RFC3339 (unix_epoch + s * Second)) [0; 951782400; 1709210096; 1735689599; 4107542400] =
  ["1970-01-01T00:00:00Z"; "2000-02-29T00:00:00Z"; "2024-02-29T12:34:56Z"; "2024-12-31T23:59:59Z";
   "2100-03-01T00:00:00Z"] ∧
  RFC3339 zero_time = "0001-01-01T00:00:00Z".
Proof. vm_compute. done. Qed.
