(* ===== verification/FmObservability.v ===== *)
(** * Observability of the Fabric Manager

    [src/src/FM/pkg/observability]: trace identifiers ([context.go]), the health
    checker with its probes ([health.go]), the structured logger ([logging.go]),
    the metrics registry ([metrics.go]), and what the packages cm, gm and dal keep
    of them ([logging.go], [metrics.go] and [tracing.go] of each).  Building a zap
    logger or an OpenTelemetry exporter is not under src/: whether it fails is an
    argument, what is written is the list of records given to it. *)

From S2P Require Import Prelude GoFloat GoContext.

(** ** context.go *)

Definition traceIDKey : string := "trace_id".

Definition WithTraceID (ctx : context) (traceID : string) : context :=
  WithValue ctx traceIDKey (CvString traceID).

(** [rand] is the number [rand.Int63] draws. *)
Definition generateTraceID (rand : Z) : string := fmt_016x rand.

Definition TraceIDFromContext (rand : Z) (ctx : context) : string :=
  match string_value ctx traceIDKey with
  | Some traceID => traceID
  | None => generateTraceID rand
  end.

(** ** health.go *)

Module Health.

Record HealthStatus : Type := mkStatus {
  Status : string;
  Timestamp : string;
  Uptime : string;
  Services : gmap string string
}.

Record HealthChecker : Type := mkHC { startTime : Time; services : gmap string bool }.

Definition NewHealthChecker (now : Time) : HealthChecker :=
  mkHC now (<["cm" := false]> (<["dm" := false]> (<["gm" := false]> {["dal" := false]}))).

Definition SetServiceStatus (service : string) (ready : bool) (hc : HealthChecker) : HealthChecker :=
  mkHC (startTime hc) (<[service := ready]> (services hc)).

(** The range over the map stops at the first that is not ready. *)
Definition IsReady (hc : HealthChecker) : bool :=
  forallb (λ kv : string * bool, kv.2) (map_to_list (services hc)).

Definition StatusOK : Z := 200.
Definition StatusServiceUnavailable : Z := 503.

(** What a probe answers: the code, the content type and the value encoded as the
    body. *)
Record response : Type := mkResponse { code : Z; content_type : string; body : HealthStatus }.

(** The clock is read for the timestamp and for the uptime. *)
Definition HealthzHandler (t0 t1 : Time) (hc : HealthChecker) : response :=
  mkResponse StatusOK "application/json"
    (mkStatus "ok" (RFC3339 t0) (Duration_String (time_Since t1 (startTime hc))) ∅).

Definition ReadyzHandler (t0 t1 : Time) (hc : HealthChecker) : response :=
  let services' := (λ ready : bool, if ready then "ready" else "not_ready") <$> services hc in
  let allReady := forallb (λ kv : string * bool, kv.2) (map_to_list (services hc)) in
  mkResponse (if allReady then StatusOK else StatusServiceUnavailable) "application/json"
    (mkStatus "ok" (RFC3339 t0) (Duration_String (time_Since t1 (startTime hc))) services').

Lemma IsReady_spec hc : IsReady hc = true ↔ map_Forall (λ _ ready, ready = true) (services hc).
Proof.
  unfold IsReady. rewrite forallb_forall. split.
  - intros H k b Hk. apply (H (k, b)). by apply list_elem_of_In, elem_of_map_to_list.
  - intros H [k b] Hin. apply (H k b). by apply elem_of_map_to_list, list_elem_of_In.
Qed.

(** The status the checker was last given for a service, under those it lists
    from the start. *)
Definition last_status (sets : list (string * bool)) (service : string) : option bool :=
  match last (filter (λ kv : string * bool, kv.1 = service) sets) with
  | Some kv => Some kv.2
  | None => if bool_decide (service ∈ ["cm"; "dm"; "gm"; "dal"]) then Some false else None
  end.

Definition set_all (sets : list (string * bool)) (hc : HealthChecker) : HealthChecker :=
  fold_left (λ hc kv, SetServiceStatus kv.1 kv.2 hc) sets hc.

Lemma set_all_lookup now sets service :
  services (set_all sets (NewHealthChecker now)) !! service = last_status sets service.
Proof.
  unfold set_all, last_status. induction sets as [|[k b] sets IH] using rev_ind.
  - change (last (filter _ [])) with (@None (string * bool)). cbv iota. case_bool_decide as Hin.
    + rewrite !elem_of_cons, elem_of_nil in Hin. destruct Hin as [->|[->|[->|[->|[]]]]]; reflexivity.
    + rewrite !elem_of_cons in Hin. cbn [services NewHealthChecker fold_left].
      rewrite !lookup_insert_ne, lookup_singleton_ne by naive_solver. done.
  - rewrite fold_left_app, filter_app. cbn. rewrite lookup_insert. destruct (decide (k = service)).
    + rewrite last_app. done.
    + by rewrite app_nil_r.
Qed.

End Health.

(** ** logging.go *)

Module Logging.

Inductive level : Type := DebugLevel | InfoLevel | WarnLevel | ErrorLevel.

#[export] Instance level_eq_dec : EqDecision level.
Proof. solve_decision. Defined.

Section Logger.
(** Keys and values are any Go values; [fmt_v] is [fmt.Sprintf] of one by the verb
    for any value. *)
Context {V : Type} (fmt_v : V → string) (of_string : string → V).

(** A record given to zap: the level, the message and the fields. *)
Record entry : Type := mkEntry { e_level : level; e_msg : string; e_fields : list (string * V) }.

Record StructuredLogger : Type := mkLogger { min_level : level; traceID : string }.

Definition level_of (lvl : string) : level :=
  if bool_decide (lvl = "debug") then DebugLevel
  else if bool_decide (lvl = "info") then InfoLevel
  else if bool_decide (lvl = "warn") then WarnLevel
  else if bool_decide (lvl = "error") then ErrorLevel
  else InfoLevel.

(** [build] is the error of [config.Build], if any. *)
Definition NewStructuredLogger (build : option error) (lvl : string) : result StructuredLogger :=
  match build with
  | Some err => Err (Wrapf "failed to build zap logger: " err "")
  | None => Ok (mkLogger (level_of lvl) "")
  end.

(** [for i := 0; i < len(keyvals)-1; i += 2] *)
Fixpoint pairs (keyvals : list V) : list (string * V) :=
  match keyvals with
  | key :: val :: keyvals => (fmt_v key, val) :: pairs keyvals
  | _ => []
  end.

Definition toFields (sl : StructuredLogger) (keyvals : list V) : list (string * V) :=
  (if bool_decide (traceID sl = "") then [] else [("trace_id", of_string (traceID sl))]) ++ pairs keyvals.

Definition Info (sl : StructuredLogger) (msg : string) (keyvals : list V) : entry :=
  mkEntry InfoLevel msg (toFields sl keyvals).
Definition Error (sl : StructuredLogger) (msg : string) (keyvals : list V) : entry :=
  mkEntry ErrorLevel msg (toFields sl keyvals).
Definition Debug (sl : StructuredLogger) (msg : string) (keyvals : list V) : entry :=
  mkEntry DebugLevel msg (toFields sl keyvals).

Definition WithContext (rand : Z) (sl : StructuredLogger) (ctx : context) : StructuredLogger :=
  mkLogger (min_level sl) (TraceIDFromContext rand ctx).

(** [flush] is what zap's [Sync] answers. *)
Definition Sync (flush : StructuredLogger → option error) (sl : StructuredLogger) : option error := flush sl.

(** A key without a value is dropped. *)
Lemma pairs_length keyvals : length (pairs keyvals) = Nat.div2 (length keyvals).
Proof.
  revert keyvals. fix IH 1. intros [|key [|val keyvals]]; [done..|]. cbn. by rewrite IH.
Qed.

End Logger.

(** The interface [Logger], over the loggers [L] and the logged values [V]: what
    a call hands to zap, and the logger of a context. *)
Class Logger (V L : Type) : Type := {
  log_Info : L → string → list V → list (entry (V := V));
  log_Error : L → string → list V → list (entry (V := V));
  log_Debug : L → string → list V → list (entry (V := V));
  log_WithContext : Z → context → L → L
}.

Definition structured_Logger {V} (fmt_v : V → string) (of_string : string → V) : Logger V StructuredLogger := {|
  log_Info l msg kv := [Info fmt_v of_string l msg kv];
  log_Error l msg kv := [Error fmt_v of_string l msg kv];
  log_Debug l msg kv := [Debug fmt_v of_string l msg kv];
  log_WithContext rand ctx l := WithContext rand l ctx
|}.

(** The fallback of cm, gm and dal. *)
Inductive noOpLogger : Type := noOp.

#[export] Instance noOp_Logger {V} : Logger V noOpLogger := {
  log_Info _ _ _ := [];
  log_Error _ _ _ := [];
  log_Debug _ _ _ := [];
  log_WithContext _ _ l := l
}.
End Logging.

(** ** tracing.go

    The exporter, the resource, the provider, the tracers and the spans are
    OpenTelemetry's. *)

Module Tracing.
Section Otel.
Context {Exporter Resource Provider Tracer Span : Type}.
Context (otlp_New : string → result Exporter) (resource_New : string → string → result Resource)
  (NewTracerProvider : Exporter → Resource → Provider) (provider_Tracer : Provider → string → Tracer)
  (tracer_Start : Tracer → context → string → context * Span)
  (provider_Shutdown : Provider → context → option error).

Record TracingContext : Type := mkTC { TracerProvider : Provider; tc_Tracer : Tracer }.

(** [global] is the provider of [otel], replaced on success only. *)
Definition NewTracingContext (global : Provider) (jaegerEndpoint serviceName : string)
    : Provider * result TracingContext :=
  match otlp_New jaegerEndpoint with
  | Err err => (global, Err (Wrapf "failed to create OTLP exporter: " err ""))
  | Ok exporter =>
      match resource_New serviceName "1.0.0" with
      | Err err => (global, Err (Wrapf "failed to create resource: " err ""))
      | Ok res =>
          let tp := NewTracerProvider exporter res in
          (tp, Ok (mkTC tp (provider_Tracer tp "github.com/dashfabric/fm")))
      end
  end.

Definition StartSpan (tc : TracingContext) (ctx : context) (name : string) : context * Span :=
  tracer_Start (tc_Tracer tc) ctx name.

Definition Shutdown (tc : TracingContext) (ctx : context) : option error :=
  provider_Shutdown (TracerProvider tc) ctx.

(** The global provider is the one of the tracing context, or as it was. *)
Theorem NewTracingContext_global global endpoint name :
  let '(g, r) := NewTracingContext global endpoint name in
  match r with Ok tc => g = TracerProvider tc | Err _ => g = global end.
Proof. unfold NewTracingContext. destruct (otlp_New _); [|done]. by destruct (resource_New _ _). Qed.

End Otel.
End Tracing.

(** ** metrics.go *)

Module Metrics.

Inductive counter : Type :=
| CMEventsReceived | CMEventsDuplicated | CMEventsForwarded | CMValidationErrors
| DMEventsProcessed | DMConsistencyChecks | DMConsistencyViolations | DMConstructsStored
| GMGoalStatesGenerated | GMCacheHits | GMCacheMisses
| DALProgramAttempts | DALProgramSuccesses | DALProgramFailures.

Inductive histogram : Type :=
| CMPipelineLatency | DMProcessLatency | GMCompositeLatency | DALProgramLatency.

(** What the registry asks Prometheus to create. *)
Record desc : Type := mkDesc { Name : string; Help : string; Buckets : option (list f64) }.

Record MetricsRegistry : Type := mkMR {
  counters : list (counter * desc);
  histograms : list (histogram * desc)
}.

Definition latency_buckets : list f64 := map (λ n, f_lit n 1000) [1; 5; 10; 50; 100; 500; 1000; 5000].

Definition NewMetricsRegistry : MetricsRegistry :=
  mkMR
    [(CMEventsReceived, mkDesc "fm_cm_events_received_total" "Total events received by Config Management" None);
     (CMEventsDuplicated, mkDesc "fm_cm_events_duplicated_total"
        "Total duplicate events filtered by Config Management" None);
     (CMEventsForwarded, mkDesc "fm_cm_events_forwarded_total" "Total events forwarded by Config Management" None);
     (CMValidationErrors, mkDesc "fm_cm_validation_errors_total" "Total validation errors in Config Management" None);
     (DMEventsProcessed, mkDesc "fm_dm_events_processed_total" "Total events processed by Data Management" None);
     (DMConsistencyChecks, mkDesc "fm_dm_consistency_checks_total" "Total consistency checks performed" None);
     (DMConsistencyViolations, mkDesc "fm_dm_consistency_violations_total"
        "Total consistency violations detected" None);
     (DMConstructsStored, mkDesc "fm_dm_constructs_stored_total" "Total constructs stored in registry" None);
     (GMGoalStatesGenerated, mkDesc "fm_gm_goal_states_generated_total"
        "Total goal states generated by Goal State Management" None);
     (GMCacheHits, mkDesc "fm_gm_cache_hits_total" "Total goal state cache hits" None);
     (GMCacheMisses, mkDesc "fm_gm_cache_misses_total" "Total goal state cache misses" None);
     (DALProgramAttempts, mkDesc "fm_dal_program_attempts_total" "Total device programming attempts" None);
     (DALProgramSuccesses, mkDesc "fm_dal_program_successes_total"
        "Total successful device programming operations" None);
     (DALProgramFailures, mkDesc "fm_dal_program_failures_total"
        "Total failed device programming operations" None)]
    [(CMPipelineLatency, mkDesc "fm_cm_pipeline_latency_seconds" "Event pipeline processing latency in seconds"
        (Some latency_buckets));
     (DMProcessLatency, mkDesc "fm_dm_process_latency_seconds"
        "Data management event processing latency in seconds" (Some latency_buckets));
     (GMCompositeLatency, mkDesc "fm_gm_composite_latency_seconds" "Goal state composition latency in seconds"
        (Some latency_buckets));
     (DALProgramLatency, mkDesc "fm_dal_program_latency_seconds" "Device programming latency in seconds"
        (Some latency_buckets))].

(** The calls made of Prometheus. *)
Inductive call : Type :=
| Inc (c : counter)
| Add (c : counter) (v : f64)
| Observe (h : histogram) (v : f64).

(** A nil counter or histogram is left alone. *)
Definition IncrementCounter (c : option counter) : list call :=
  match c with Some c => [Inc c] | None => [] end.
Definition IncrementCounterBy (c : option counter) (value : f64) : list call :=
  match c with Some c => [Add c value] | None => [] end.
Definition RecordLatency (h : option histogram) (seconds : f64) : list call :=
  match h with Some h => [Observe h seconds] | None => [] end.
Definition GetCounterValue (c : option counter) : f64 := f_zero.

(** Prometheus panics when a name is registered twice; within a registry none is. *)
Lemma names_distinct :
  NoDup (Name <$> ((counters NewMetricsRegistry).*2 ++ (histograms NewMetricsRegistry).*2)).
Proof. apply (bool_decide_unpack _). vm_compute. exact I. Qed.

End Metrics.

(** ** What cm, gm and dal keep

    The package-level variables are the same in the three packages, each with its
    own copy; a nil argument of a setter leaves them as they are.  [L] is the
    loggers there are, [T] the tracing contexts. *)

Module Telemetry.
Section Vars.
Context {L T : Type}.

(** [None] is the logger that does nothing, respectively nil. *)
Record vars : Type := mkVars {
  defaultLogger : option L;
  metricsRegistry : option Metrics.MetricsRegistry;
  tracingContext : option T
}.

Definition initial : vars := mkVars None None None.

Definition SetLogger (logger : option L) (v : vars) : vars :=
  match logger with Some l => mkVars (Some l) (metricsRegistry v) (tracingContext v) | None => v end.

Definition SetMetricsRegistry (registry : option Metrics.MetricsRegistry) (v : vars) : vars :=
  match registry with Some r => mkVars (defaultLogger v) (Some r) (tracingContext v) | None => v end.

Definition SetTracingContext (ctx : option T) (v : vars) : vars :=
  match ctx with Some t => mkVars (defaultLogger v) (metricsRegistry v) (Some t) | None => v end.

(** [incrementEventsReceived] and the others, each on its counter. *)
Definition increment (c : Metrics.counter) (v : vars) : list Metrics.call :=
  match metricsRegistry v with Some _ => Metrics.IncrementCounter (Some c) | None => [] end.

Definition incrementEventsReceived := increment Metrics.CMEventsReceived.
Definition incrementEventsDuplicated := increment Metrics.CMEventsDuplicated.
Definition incrementEventsForwarded := increment Metrics.CMEventsForwarded.
Definition incrementValidationErrors := increment Metrics.CMValidationErrors.
Definition incrementGoalStatesGenerated := increment Metrics.GMGoalStatesGenerated.
Definition incrementCacheHits := increment Metrics.GMCacheHits.
Definition incrementCacheMisses := increment Metrics.GMCacheMisses.
Definition incrementProgramAttempts := increment Metrics.DALProgramAttempts.
Definition incrementProgramSuccesses := increment Metrics.DALProgramSuccesses.
Definition incrementProgramFailures := increment Metrics.DALProgramFailures.

(** [startSpan]: a span of the tracer if there is one ([tracer_Start] of it),
    else the no-op span of the context ([span_of]). *)
Definition startSpan {Span} (tracer_Start : T → context → string → context * Span)
    (span_of : context → Span) (v : vars) (ctx : context) (name : string) : context * Span :=
  match tracingContext v with
  | Some t => tracer_Start t ctx name
  | None => (ctx, span_of ctx)
  end.

End Vars.

(** gm and dal declare the same again, each over its own variables. *)
Module Gm.
Definition SetLogger {L T} := @SetLogger L T.
Definition SetMetricsRegistry {L T} := @SetMetricsRegistry L T.
Definition SetTracingContext {L T} := @SetTracingContext L T.
Definition startSpan {L T Span} := @startSpan L T Span.
Definition noOp_Logger {V} : Logging.Logger V Logging.noOpLogger := Logging.noOp_Logger.
End Gm.

Module Dal.
Definition SetLogger {L T} := @SetLogger L T.
Definition SetMetricsRegistry {L T} := @SetMetricsRegistry L T.
Definition SetTracingContext {L T} := @SetTracingContext L T.
Definition startSpan {L T Span} := @startSpan L T Span.
Definition noOp_Logger {V} : Logging.Logger V Logging.noOpLogger := Logging.noOp_Logger.
End Dal.
End Telemetry.

(** ** Claims *)

(** A trace id survives the context it is put in, and comes back from under
    any other value put over it; and the generated id of a context without one is
    16 hexadecimal digits that determine the number drawn, so that distinct draws
    never give the same id. *)
Theorem trace_id_roundtrip (ctx : context) (id : string) (r1 r2 : Z)
    (Hid : id ≠ "") (H1 : 0 ≤ r1 < 2 ^ 63) (H2 : 0 ≤ r2 < 2 ^ 63) :
  TraceIDFromContext r1 (WithTraceID ctx id) = id ∧
  (∀ key v, key ≠ traceIDKey → TraceIDFromContext r1 (WithValue (WithTraceID ctx id) key v) = id) ∧
  String.length (generateTraceID r1) = 16%nat ∧ hex_parse 0 (generateTraceID r1) = r1 ∧
  (generateTraceID r1 = generateTraceID r2 → r1 = r2).
Proof.
  assert (TraceIDFromContext r1 (WithTraceID ctx id) = id) as Hw by (by destruct id).
  split_and!.
  - done.
  - intros key v Hk. rewrite <- Hw at 2. unfold TraceIDFromContext, string_value. cbn [Value].
    by rewrite decide_False.
  - apply fmt_016x_length.
  - apply fmt_016x_parse. lia.
  - intros H. rewrite <- (fmt_016x_parse r1), <- (fmt_016x_parse r2) by lia.
    unfold generateTraceID in H. by rewrite H.
Qed.

Lemma trace_id_roundtrip_witness :
  TraceIDFromContext 7 (WithTraceID Background "abc") = "abc" ∧ hex_parse 0 (generateTraceID 255) = 255.
Proof.
  split.
  - exact (proj1 (trace_id_roundtrip Background "abc" 7 8 ltac:(discriminate) ltac:(lia) ltac:(lia))).
  - exact (proj1 (proj2 (proj2 (proj2 (trace_id_roundtrip Background "abc" 255 8 ltac:(discriminate) ltac:(lia) ltac:(lia)))))).
Defined.

(** The readiness probe answers 200 exactly when every service it lists was
    last reported ready: the four it starts with and any other it was told of; it
    is the same answer as [IsReady], and names each of them with its state. *)
Theorem readyz_spec (now t0 t1 : Time) (sets : list (string * bool)) :
  let hc := Health.set_all sets (Health.NewHealthChecker now) in
  let r := Health.ReadyzHandler t0 t1 hc in
  (Health.code r = 200 ↔
     ∀ service ready, Health.last_status sets service = Some ready → ready = true) ∧
  (Health.code r = 200 ↔ Health.IsReady hc = true) ∧ (Health.code r ≠ 200 → Health.code r = 503) ∧
  ∀ service, Health.Services (Health.body r) !! service =
    (λ ready : bool, if ready then "ready" else "not_ready") <$> Health.last_status sets service.
Proof.
  cbn zeta. unfold Health.ReadyzHandler. cbn [Health.code Health.body Health.Services].
  set (hc := Health.set_all sets _).
  change (forallb _ (map_to_list (Health.services hc))) with (Health.IsReady hc).
  assert ((if Health.IsReady hc then Health.StatusOK else Health.StatusServiceUnavailable) = 200 ↔
          Health.IsReady hc = true) as Hr by (destruct (Health.IsReady hc); by split).
  split_and!.
  - rewrite Hr, Health.IsReady_spec. split.
    + intros H s b Hs. rewrite <- (Health.set_all_lookup now) in Hs. by apply (H s b).
    + intros H s b Hs. apply (H s). by rewrite <- (Health.set_all_lookup now).
  - done.
  - destruct (Health.IsReady hc); done.
  - intros s. rewrite lookup_fmap. f_equal. apply Health.set_all_lookup.
Qed.
