(* ===== verification/FmTelemetry.v ===== *)
(** * What the Fabric Manager logs, counts and traces

    The calls of [defaultLogger], of the [increment] functions and of [startSpan]
    inside the components, which their models leave out since no state depends on
    them: those of the pipeline's loop ([cm/pipeline.go]) and of the Custom plugin
    ([dal/custom.go]).  A run of the pipeline of [CmPipeline] is instrumented with
    what it emits, and the counters are tied to the statistics. *)

From S2P Require Import Prelude GoContext FmObservability CmCache CmPipeline GoalState DalDispatch.

#[export] Instance counter_eq_dec : EqDecision Metrics.counter.
Proof. solve_decision. Defined.

(** ** Emissions *)

(** The values logged are strings here; a number is logged as its text.  [i] is
    the loop a span belongs to. *)
Inductive emission : Type :=
| EMetric (c : Metrics.call)
| ELog (e : Logging.entry (V := string))
| ESpanStart (i : nat) (name : string)
| ESpanEnd (i : nat).

Section Emit.
(** The package's variables, which do not change while it runs.  A tracing context
    starts a span of its own; without one the span is the no-op span. *)
Context {T : Type} (v : Telemetry.vars (L := Logging.StructuredLogger) (T := T)).

Definition log_Error (msg : string) (keyvals : list string) : list emission :=
  match Telemetry.defaultLogger v with
  | Some l => [ELog (Logging.Error id id l msg keyvals)]
  | None => []
  end.

Definition log_Info (msg : string) (keyvals : list string) : list emission :=
  match Telemetry.defaultLogger v with
  | Some l => [ELog (Logging.Info id id l msg keyvals)]
  | None => []
  end.

Definition log_Debug (msg : string) (keyvals : list string) : list emission :=
  match Telemetry.defaultLogger v with
  | Some l => [ELog (Logging.Debug id id l msg keyvals)]
  | None => []
  end.

Definition metric (calls : Telemetry.vars (L := Logging.StructuredLogger) (T := T) → list Metrics.call)
    : list emission := EMetric <$> calls v.

(** A span of the tracing context; the no-op span records nothing. *)
Definition span (es : list emission) : list emission :=
  match Telemetry.tracingContext v with Some _ => es | None => [] end.

(** ** dal/custom.go *)

(** What [CustomPlugin.Program] logs when the context is live and the goal is not
    nil; otherwise it returns before it logs. *)
Definition CustomPlugin_logs (ctx_err : option error) (goal : option PerENIGoalState) : list emission :=
  match ctx_err, goal with
  | None, Some goal =>
      log_Info "programming DPU device"
        ["eni_id"; ENI_ID goal; "version"; Itoa (Version goal); "fingerprint"; Fingerprint goal] ++
      log_Debug "goal state configuration"
        ["eni_id"; ENI_ID goal; "routes"; Itoa (Z.of_nat (length (Routes goal)));
         "acls"; Itoa (Z.of_nat (length (ACLs goal))); "vips"; Itoa (Z.of_nat (length (VIPMappings goal)))] ++
      log_Info "DPU device programmed successfully"
        ["eni_id"; ENI_ID goal; "version"; Itoa (Version goal)]
  | _, _ => []
  end.

(** ** cm/pipeline.go *)

Section Loop.
Context {C : Type} `{DedupCache C} (Validate : Event → option error * Event).

(** An iteration of loop [i] that received [event]: its span, the counter of
    received events, and that of duplicates or of validation errors, with the
    record of the validation error. *)
Definition process_emits (p : EventPipeline (C := C)) (i : nat) (now : Time) (event : Event) : list emission :=
  span [ESpanStart i "CM.ProcessEvent"] ++ metric Telemetry.incrementEventsReceived ++
  if (dc_CheckAndStore now (CmPipeline.cache p) (CmCache.Fingerprint event)).2
  then metric Telemetry.incrementEventsDuplicated
  else
    match Validate event with
    | (Some err, event) =>
        metric Telemetry.incrementValidationErrors ++
        log_Error "event validation failed" ["event_id"; CmCache.ID event; "error"; Error err]
    | (None, _) => []
    end.

(** The pipeline, the deferred [span.End] calls of each loop, and the emissions so
    far, oldest first. *)
Record traced : Type := mkTraced {
  pipe : EventPipeline (C := C);
  defers : gmap nat nat;
  emitted : list emission
}.

Definition deferred (t : traced) (i : nat) : nat := default O (defers t !! i).

(** What a step that succeeds emits.  A loop that returns runs its deferred calls. *)
Definition emits (t : traced) (a : action) : list emission :=
  match a with
  | LoopRecv i now event => process_emits (pipe t) i now event
  | LoopSend _ => metric Telemetry.incrementEventsForwarded
  | LoopSourceClosed i | LoopDone i | LoopCtxDone i => span (repeat (ESpanEnd i) (deferred t i))
  | _ => []
  end.

Definition next_defers (t : traced) (a : action) : gmap nat nat :=
  match a with
  | LoopRecv i _ _ => <[i := S (deferred t i)]> (defers t)
  | LoopSourceClosed i | LoopDone i | LoopCtxDone i => <[i := O]> (defers t)
  | _ => defers t
  end.

Definition trace_exec (t : traced) (a : action) : option (outcome traced) :=
  match exec Validate (pipe t) a with
  | Some (Ret p) => Some (Ret (mkTraced p (next_defers t a) (emitted t ++ emits t a)))
  | Some (Panic msg) => Some (Panic msg)
  | None => None
  end.

Fixpoint trace_all (t : traced) (acts : list action) : option (outcome traced) :=
  match acts with
  | [] => Some (Ret t)
  | a :: acts =>
      match trace_exec t a with
      | Some (Ret t) => trace_all t acts
      | Some (Panic msg) => Some (Panic msg)
      | None => None
      end
  end.

End Loop.
End Emit.
Arguments traced C : clear implicits.

(** ** Counting *)

Definition is_inc (c : Metrics.counter) (e : emission) : bool :=
  match e with EMetric (Metrics.Inc c') => bool_decide (c' = c) | _ => false end.

(** The value Prometheus shows for a counter: its increments. *)
Definition count_inc (c : Metrics.counter) (es : list emission) : Z :=
  Z.of_nat (length (List.filter (is_inc c) es)).

(** The spans of loop [i] that are started and not ended. *)
Definition starts_span (i : nat) (e : emission) : bool :=
  match e with ESpanStart j _ => bool_decide (j = i) | _ => false end.
Definition ends_span (i : nat) (e : emission) : bool :=
  match e with ESpanEnd j => bool_decide (j = i) | _ => false end.
Definition open_spans (i : nat) (es : list emission) : Z :=
  Z.of_nat (length (List.filter (starts_span i) es)) - Z.of_nat (length (List.filter (ends_span i) es)).

(** The events loop [i] received. *)
Definition receives (i : nat) (acts : list action) : Z :=
  Z.of_nat (length (List.filter (λ a, match a with LoopRecv j _ _ => bool_decide (j = i) | _ => false end) acts)).

Lemma filter_length_app {A} (f : A → bool) l1 l2 :
  Z.of_nat (length (List.filter f (l1 ++ l2))) =
  Z.of_nat (length (List.filter f l1)) + Z.of_nat (length (List.filter f l2)).
Proof. rewrite List.filter_app, length_app. lia. Qed.

Lemma filter_none {A} (f : A → bool) l : Forall (λ x, f x = false) l → List.filter f l = [].
Proof. induction 1 as [|x l Hx _ IH]; [done|]. simpl. by rewrite Hx. Qed.

Lemma filter_all {A} (f : A → bool) l : Forall (λ x, f x = true) l → List.filter f l = l.
Proof. induction 1 as [|x l Hx _ IH]; [done|]. simpl. by rewrite Hx, IH. Qed.

Lemma count_inc_app c es1 es2 : count_inc c (es1 ++ es2) = count_inc c es1 + count_inc c es2.
Proof. apply filter_length_app. Qed.

Lemma open_app i es1 es2 : open_spans i (es1 ++ es2) = open_spans i es1 + open_spans i es2.
Proof. unfold open_spans. rewrite !filter_length_app. lia. Qed.

Lemma receives_app i acts1 acts2 : receives i (acts1 ++ acts2) = receives i acts1 + receives i acts2.
Proof. apply filter_length_app. Qed.

(** An emission that is neither an increment nor a span counts nowhere. *)
Lemma count_none c es : Forall (λ e, is_inc c e = false) es → count_inc c es = 0.
Proof. unfold count_inc. intros H. by rewrite filter_none. Qed.

Lemma open_none i es :
  Forall (λ e, starts_span i e = false ∧ ends_span i e = false) es → open_spans i es = 0.
Proof.
  unfold open_spans. intros [H1 H2]%Forall_and. by rewrite !filter_none.
Qed.

Section EmitLemmas.
Context {T : Type} (v : Telemetry.vars (L := Logging.StructuredLogger) (T := T)).

Lemma count_span c es : Forall (λ e, is_inc c e = false) es → count_inc c (span v es) = 0.
Proof. intros H. unfold span. destruct (Telemetry.tracingContext v); [by apply count_none|done]. Qed.

Lemma count_span_start c i name : count_inc c (span v [ESpanStart i name]) = 0.
Proof. apply count_span. by repeat constructor. Qed.

Lemma count_span_ends c i n : count_inc c (span v (repeat (ESpanEnd i) n)) = 0.
Proof. apply count_span. by apply Forall_forall; intros e ->%list_elem_of_In%repeat_spec. Qed.

Lemma count_log c msg kv : count_inc c (log_Error v msg kv) = 0.
Proof. unfold log_Error. by destruct (Telemetry.defaultLogger v). Qed.

Lemma count_metric c c' : is_Some (Telemetry.metricsRegistry v) →
  count_inc c (metric v (Telemetry.increment c')) = if bool_decide (c' = c) then 1 else 0.
Proof.
  intros [r Hr]. unfold metric, Telemetry.increment. rewrite Hr. unfold count_inc. simpl.
  by case_bool_decide.
Qed.

Lemma open_metric i c : open_spans i (metric v (Telemetry.increment c)) = 0.
Proof. unfold metric, Telemetry.increment. by destruct (Telemetry.metricsRegistry v). Qed.

Lemma open_log i msg kv : open_spans i (log_Error v msg kv) = 0.
Proof. unfold log_Error. by destruct (Telemetry.defaultLogger v). Qed.

Lemma open_start i j name : is_Some (Telemetry.tracingContext v) →
  open_spans i (span v [ESpanStart j name]) = if bool_decide (j = i) then 1 else 0.
Proof. intros [x Hx]. unfold span. rewrite Hx. unfold open_spans. simpl. by case_bool_decide. Qed.

Lemma open_ends i j n : is_Some (Telemetry.tracingContext v) →
  open_spans i (span v (repeat (ESpanEnd j) n)) = if bool_decide (j = i) then - Z.of_nat n else 0.
Proof.
  intros [x Hx]. unfold span. rewrite Hx. unfold open_spans.
  rewrite (filter_none (starts_span i)); [|by apply Forall_forall; intros e ->%list_elem_of_In%repeat_spec].
  case_bool_decide as E.
  - rewrite filter_all, repeat_length; [simpl; lia|].
    apply Forall_forall; intros e ->%list_elem_of_In%repeat_spec. by apply bool_decide_eq_true.
  - rewrite filter_none; [done|].
    apply Forall_forall; intros e ->%list_elem_of_In%repeat_spec. by apply bool_decide_eq_false.
Qed.

End EmitLemmas.

(** ** The instrumented pipeline *)

(** The statistics and the counters of cm they are to agree with. *)
Definition cm_counters : list ((PipelineStats → Z) * Metrics.counter) :=
  [(EventsReceived, Metrics.CMEventsReceived); (EventsDuplicated, Metrics.CMEventsDuplicated);
   (EventsForwarded, Metrics.CMEventsForwarded); (ValidationErrors, Metrics.CMValidationErrors)].

Section Trace.
Context {T : Type} (v : Telemetry.vars (L := Logging.StructuredLogger) (T := T)).
Context {C : Type} `{DedupCache C} (Validate : Event → option error * Event).
Implicit Types (p : EventPipeline (C := C)) (t : traced C).

(** Whether loop [i] runs. *)
Definition live p (i : nat) : bool :=
  match loops p !! i with Some AtRecv | Some (AtSend _ _) => true | _ => false end.

(** The loop whose return a step is. *)
Definition returns (a : action) : option nat :=
  match a with LoopSourceClosed i | LoopDone i | LoopCtxDone i => Some i | _ => None end.

Definition is_start (a : action) : bool := match a with DoStart _ _ _ => true | _ => false end.

Lemma live_set p i l s c j :
  live p i = true →
  live (set_loop p i l s c) j =
  if bool_decide (i = j) then match l with Exited => false | _ => true end else live p j.
Proof.
  unfold live, set_loop. simpl. intros Hi. case_bool_decide as E.
  - subst j. destruct (loops p !! i) as [l0|] eqn:Hl; [|done].
    rewrite list_lookup_insert_eq; [by destruct l|]. by eapply lookup_lt_Some.
  - by rewrite list_lookup_insert_ne.
Qed.

(** A loop runs until it returns, and receives while it runs. *)
Lemma exec_live p a p' :
  exec Validate p a = Some (Ret p') → is_start a = false →
  (∀ i, live p' i = live p i && negb (bool_decide (returns a = Some i))) ∧
  (∀ i, returns a = Some i → live p i = true) ∧
  (∀ i now e, a = LoopRecv i now e → live p i = true).
Proof.
  intros Hx Hs.
  assert (∀ i l s c, live p i = true → p' = set_loop p i l s c →
    ∀ j, live p' j = live p j &&
      negb (bool_decide (match l with Exited => Some i | _ => None end = Some j))) as Hset.
  { intros i l s c Hi -> j. rewrite live_set by done.
    destruct (decide (i = j)) as [<-|Hne]; [rewrite Hi, (bool_decide_true (i = i)) by done|
      rewrite (bool_decide_false (i = j)) by done];
      destruct l; case_bool_decide; simpl; rewrite ?andb_true_r; congruence. }
  assert (loops p' = loops p → ∀ j, live p' j = live p j && negb (bool_decide (None = Some j))) as Hsame.
  { unfold live. intros -> j. rewrite bool_decide_false by done. by rewrite andb_true_r. }
  destruct a as [| cl | i now e | i | i | i | i | c |]; cbn [exec returns is_start] in *; try done.
  - unfold CmPipeline.Stop, mbind, outcome_bind in Hx. go_cases; (split; [by apply Hsame|done]).
  - destruct (loops p !! i) as [[]|] eqn:Hi; simplify_eq.
    assert (live p i = true) as Hl by (unfold live; by rewrite Hi).
    split; [|split; [done|by intros ??? [= <-]]].
    unfold process in *. destruct (dc_CheckAndStore _ _ _) as [c []]; [by eapply (Hset i AtRecv)|].
    destruct (Validate e) as [[] ?]; [by eapply (Hset i AtRecv)|by eapply (Hset i (AtSend _ _))].
  - destruct (loops p !! i) as [[]|] eqn:Hi; simplify_eq.
    assert (live p i = true) as Hl by (unfold live; by rewrite Hi).
    split; [by eapply (Hset i Exited)|split; [by intros ? [= <-]|done]].
  - destruct (loops p !! i) as [[]|] eqn:Hi; simplify_eq;
      (assert (live p i = true) as Hl by (unfold live; by rewrite Hi));
      go_cases; (split; [by eapply (Hset i Exited)|split; [by intros ? [= <-]|done]]).
  - destruct (loops p !! i) as [[]|] eqn:Hi; simplify_eq;
      (assert (live p i = true) as Hl by (unfold live; by rewrite Hi));
      go_cases; (split; [by eapply (Hset i Exited)|split; [by intros ? [= <-]|done]]).
  - destruct (loops p !! i) as [[]|] eqn:Hi; simplify_eq. unfold forward in Hx. go_cases.
    split; [|done]. intros j. unfold live. simpl. rewrite andb_true_r.
    destruct (decide (i = j)) as [->|Hne]; [|by rewrite list_lookup_insert_ne].
    rewrite list_lookup_insert_eq by (by eapply lookup_lt_Some). by rewrite Hi.
  - simplify_eq. split; [by apply Hsame|done].
  - go_cases. split; [by apply Hsame|done].
Qed.

(** A statistic that agreed with its counter agrees after a step. *)
Lemma exec_counts t a p' f c k :
  is_Some (Telemetry.metricsRegistry v) → exec Validate (pipe t) a = Some (Ret p') →
  is_start a = false → (f, c) ∈ cm_counters →
  f (CmPipeline.stats (pipe t)) = wrap64 k →
  f (CmPipeline.stats p') = wrap64 (k + count_inc c (emits v Validate t a)).
Proof.
  intros Hr Hx Hs Hf Hk. unfold emits, process_emits.
  assert (∀ p1, CmPipeline.stats p1 = CmPipeline.stats (pipe t) → f (CmPipeline.stats p1) = wrap64 (k + 0)) as Hsame
    by (intros p1 ->; by rewrite Z.add_0_r).
  destruct a as [| cl | i now e | i | i | i | i | ctx |]; cbn [exec is_start] in *; try done;
    rewrite ?count_span_ends.
  - unfold CmPipeline.Stop, mbind, outcome_bind in Hx. apply Hsame. go_cases.
  - destruct (loops (pipe t) !! i) as [[]|]; simplify_eq. unfold process.
    rewrite !count_inc_app, count_span_start. unfold Telemetry.incrementEventsReceived.
    rewrite count_metric by done. destruct (dc_CheckAndStore _ _ _) as [c1 dup]. cbn [snd].
    destruct dup; [|destruct (Validate e) as [[err|] e1]];
      rewrite ?count_inc_app, ?count_log, ?(count_none c []) by constructor;
      unfold Telemetry.incrementEventsDuplicated, Telemetry.incrementValidationErrors;
      rewrite ?count_metric by done;
      repeat (apply elem_of_cons in Hf as [[= -> ->]|Hf]); try (by apply elem_of_nil in Hf);
      cbn in *; rewrite ?Hk, ?wrap64_add_l; repeat case_bool_decide; try congruence; f_equal; lia.
  - apply Hsame. go_cases.
  - apply Hsame. go_cases.
  - apply Hsame. go_cases.
  - destruct (loops (pipe t) !! i) as [[]|]; simplify_eq. unfold forward in Hx. go_cases.
    unfold Telemetry.incrementEventsForwarded. rewrite count_metric by done.
    repeat (apply elem_of_cons in Hf as [[= -> ->]|Hf]); try (by apply elem_of_nil in Hf);
      cbn in *; rewrite ?Hk, ?wrap64_add_l; repeat case_bool_decide; try congruence; f_equal; lia.
  - apply Hsame. by simplify_eq.
  - apply Hsame. go_cases.
Qed.

(** No other counter is incremented. *)
Lemma emits_only t a c : c ∉ cm_counters.*2 → is_Some (Telemetry.metricsRegistry v) →
  count_inc c (emits v Validate t a) = 0.
Proof.
  intros Hc Hr. cbn in Hc. repeat (apply not_elem_of_cons in Hc as [? Hc]). clear Hc.
  unfold emits, process_emits, Telemetry.incrementEventsReceived, Telemetry.incrementEventsDuplicated,
    Telemetry.incrementValidationErrors, Telemetry.incrementEventsForwarded.
  destruct a; rewrite ?count_span_ends, ?count_inc_app, ?count_span_start, ?count_metric by done; try done;
    rewrite ?bool_decide_false by done; try done.
  destruct (dc_CheckAndStore _ _ _).2; [|destruct (Validate e) as [[] ?]];
    rewrite ?count_inc_app, ?count_log, ?count_metric by done; by rewrite ?bool_decide_false by done.
Qed.

(** The spans a step starts and ends. *)
Lemma emits_spans t a i : is_Some (Telemetry.tracingContext v) →
  open_spans i (emits v Validate t a) =
  match a with
  | LoopRecv j _ _ => if bool_decide (j = i) then 1 else 0
  | LoopSourceClosed j | LoopDone j | LoopCtxDone j => if bool_decide (j = i) then - Z.of_nat (deferred t j) else 0
  | _ => 0
  end.
Proof.
  intros Ht. unfold emits, process_emits, Telemetry.incrementEventsReceived, Telemetry.incrementEventsDuplicated,
    Telemetry.incrementValidationErrors, Telemetry.incrementEventsForwarded.
  destruct a; rewrite ?open_app, ?open_start, ?open_ends, ?open_metric by done; try done.
  destruct (dc_CheckAndStore _ _ _).2; [|destruct (Validate e) as [[] ?]];
    rewrite ?open_app, ?open_log, ?open_metric; [lia..|]. unfold open_spans. simpl. lia.
Qed.

(** *** The invariant of an instrumented run *)

Record tele_ok (acts : list action) t : Prop := {
  ok_counts : ∀ f c, (f, c) ∈ cm_counters → f (CmPipeline.stats (pipe t)) = wrap64 (count_inc c (emitted t));
  ok_only : ∀ c, c ∉ cm_counters.*2 → count_inc c (emitted t) = 0;
  ok_open : ∀ i, open_spans i (emitted t) = Z.of_nat (deferred t i);
  ok_deferred : ∀ i, Z.of_nat (deferred t i) = if live (pipe t) i then receives i acts else 0;
  ok_none : ∀ i, loops (pipe t) !! i = None → receives i acts = 0;
  ok_new : starts acts = 0%nat → loops (pipe t) = [] ∧ emitted t = []
}.

Lemma tele_ok_new c0 : tele_ok [] (mkTraced (NewEventPipeline c0) ∅ []).
Proof.
  split; simpl; try done. intros f c Hf.
  repeat (apply elem_of_cons in Hf as [[= -> ->]|Hf]); try (by apply elem_of_nil in Hf); done.
Qed.

Lemma starts_snoc acts a : starts (acts ++ [a]) = (starts acts + if is_start a then 1 else 0)%nat.
Proof. unfold starts. rewrite omap_app, length_app. by destruct a. Qed.

Lemma deferred_insert t i n p es j :
  deferred (mkTraced p (<[i := n]> (defers t)) es) j = if bool_decide (i = j) then n else deferred t j.
Proof.
  unfold deferred. simpl. case_bool_decide as E; [subst j; by rewrite lookup_insert_eq|].
  by rewrite lookup_insert_ne.
Qed.

(** The spans deferred after a step. *)
Lemma next_deferred t a p es i :
  deferred (mkTraced p (next_defers t a) es) i =
  match a with
  | LoopRecv j _ _ => if bool_decide (j = i) then S (deferred t i) else deferred t i
  | _ => if bool_decide (returns a = Some i) then O else deferred t i
  end.
Proof.
  destruct a; cbn [next_defers returns]; rewrite ?deferred_insert;
    repeat case_bool_decide; simplify_eq; done.
Qed.

Lemma tele_ok_start acts t now c sub t' :
  tele_ok acts t → starts acts = 0%nat →
  trace_exec v Validate t (DoStart now c sub) = Some (Ret t') → tele_ok (acts ++ [DoStart now c sub]) t'.
Proof.
  intros I H0 Hx. destruct (ok_new _ _ I H0) as [Hl He].
  assert (∀ i, receives i (acts ++ [DoStart now c sub]) = 0) as Hrec.
  { intros i. rewrite receives_app, (ok_none _ _ I) by (by rewrite Hl). done. }
  assert (∀ i, deferred t i = 0%nat) as Hdef.
  { intros i. pose proof (ok_deferred _ _ I i) as Hd. unfold live in Hd. rewrite Hl in Hd. simpl in Hd. lia. }
  unfold trace_exec in Hx. cbn [exec emits next_defers] in Hx. rewrite app_nil_r, He in Hx. simplify_eq.
  split; cbn [pipe emitted]; try done.
  - pose proof (ok_counts _ _ I) as Hc. rewrite He in Hc. unfold CmPipeline.Start.
    destruct (CmPipeline.running (pipe t)); [done|].
    intros f c' Hf. specialize (Hc _ _ Hf).
    destruct sub; repeat (apply elem_of_cons in Hf as [[= -> ->]|Hf]); try (by apply elem_of_nil in Hf); done.
  - intros i. unfold deferred in *. simpl in *. by rewrite Hdef.
  - intros i. rewrite Hrec. unfold deferred in *. simpl in *. rewrite Hdef. by destruct (live _ i).
  - rewrite starts_snoc. simpl. lia.
Qed.

Lemma tele_ok_step acts t a t' :
  is_Some (Telemetry.metricsRegistry v) → is_Some (Telemetry.tracingContext v) →
  tele_ok acts t → is_start a = false →
  trace_exec v Validate t a = Some (Ret t') → tele_ok (acts ++ [a]) t'.
Proof.
  intros Hr Ht I Hs Hx. unfold trace_exec in Hx.
  destruct (exec Validate (pipe t) a) as [[p|]|] eqn:E; simplify_eq.
  destruct (exec_live _ _ _ E Hs) as (Hlive & Hret & Hrecv).
  assert (∀ i, receives i [a] = match a with LoopRecv j _ _ => if bool_decide (j = i) then 1 else 0 | _ => 0 end) as Ha.
  { intros i. unfold receives. destruct a; simpl; try done. by case_bool_decide. }
  assert (length (loops p) = length (loops (pipe t))) as Hlen
    by (apply (exec_loops Validate _ a); [done|by destruct a]).
  split; cbn [pipe emitted].
  - intros f c Hf. rewrite count_inc_app. by apply (exec_counts t a); [..|apply I].
  - intros c Hc. rewrite count_inc_app, (ok_only _ _ I), emits_only; done.
  - intros i. rewrite open_app, (ok_open _ _ I), emits_spans, next_deferred by done.
    destruct a; cbn [returns]; repeat case_bool_decide; simplify_eq; lia.
  - intros i. rewrite next_deferred, receives_app, Ha, Hlive. pose proof (ok_deferred _ _ I i) as Hd.
    destruct a; cbn [returns]; repeat case_bool_decide; simplify_eq; rewrite ?andb_true_r, ?andb_false_r;
      cbn [negb andb] in *; try (destruct (live (pipe t) i); simpl; lia).
    rewrite (Hrecv _ _ _ eq_refl) in *. simpl. lia.
  - intros i Hi. rewrite receives_app, Ha, (ok_none _ _ I).
    + destruct a; try done. case_bool_decide; [subst|done].
      specialize (Hrecv _ _ _ eq_refl). unfold live in Hrecv.
      apply lookup_ge_None in Hi. rewrite (proj2 (lookup_ge_None _ _)) in Hrecv; [done|lia].
    + apply lookup_ge_None in Hi. apply lookup_ge_None. lia.
  - rewrite starts_snoc, Hs, Nat.add_0_r. intros H0. destruct (ok_new _ _ I H0) as [Hl He].
    rewrite Hl in Hlen. split; [by apply length_zero_iff_nil|]. rewrite He.
    destruct a; try done; cbn in E; rewrite Hl in E; done.
Qed.

Lemma tele_ok_all acts0 t acts t' :
  is_Some (Telemetry.metricsRegistry v) → is_Some (Telemetry.tracingContext v) →
  tele_ok acts0 t → (starts (acts0 ++ acts) ≤ 1)%nat →
  trace_all v Validate t acts = Some (Ret t') → tele_ok (acts0 ++ acts) t'.
Proof.
  intros Hr Ht. revert acts0 t. induction acts as [|a acts IH]; intros acts0 t I Hst Hx; simpl in Hx.
  - simplify_eq. by rewrite app_nil_r.
  - destruct (trace_exec v Validate t a) as [[t1|]|] eqn:E; simplify_eq.
    assert (acts0 ++ a :: acts = (acts0 ++ [a]) ++ acts) as Ea by (by rewrite <- app_assoc).
    rewrite Ea in *. apply (IH (acts0 ++ [a]) t1); [|done..].
    destruct (is_start a) eqn:Hs; [|by eapply tele_ok_step].
    destruct a; try done. eapply tele_ok_start; [done| |done].
    unfold starts in *. rewrite !omap_app, !length_app in Hst. simpl in Hst. unfold starts. lia.
Qed.

(** The instrumentation changes nothing. *)
Lemma trace_all_exec t acts t' :
  trace_all v Validate t acts = Some (Ret t') → exec_all Validate (pipe t) acts = Some (Ret (pipe t')).
Proof.
  revert t. induction acts as [|a acts IH]; intros t Hx; simpl in *; [by simplify_eq|].
  unfold trace_exec in Hx. destruct (exec Validate (pipe t) a) as [[p|]|]; simplify_eq.
  by apply IH in Hx.
Qed.
End Trace.

(** ** Theorems *)

(** C18 The counters of configuration management agree with its statistics, and its
    spans pile up. Along any schedule of a new pipeline started at most once, with
    a metrics registry and a tracing context set, the increments of the counters
    of received, duplicated and forwarded events and of validation errors are the
    statistics of the same name (modulo 2^64), and no other counter is ever
    incremented; a loop that has not returned has as many open spans as it has
    received events, for their ends are deferred to its return, after which none
    is open. *)
Theorem telemetry_tracks {T C : Type} `{DedupCache C}
    (v : Telemetry.vars (L := Logging.StructuredLogger) (T := T)) (Validate : Event → option error * Event)
    (c0 : C) (acts : list action) (t : traced C)
    (Hr : is_Some (Telemetry.metricsRegistry v)) (Ht : is_Some (Telemetry.tracingContext v))
    (Hst : (starts acts ≤ 1)%nat)
    (Hx : trace_all v Validate (mkTraced (NewEventPipeline c0) ∅ []) acts = Some (Ret t)) :
  exec_all Validate (NewEventPipeline c0) acts = Some (Ret (pipe t)) ∧
  (∀ f c, (f, c) ∈ cm_counters → f (CmPipeline.stats (pipe t)) = wrap64 (count_inc c (emitted t))) ∧
  (∀ c, c ∉ cm_counters.*2 → count_inc c (emitted t) = 0) ∧
  (∀ i, open_spans i (emitted t) = if live (pipe t) i then receives i acts else 0).
Proof.
  split; [by apply trace_all_exec in Hx|].
  pose proof (tele_ok_all v Validate [] _ acts t Hr Ht (tele_ok_new c0) Hst Hx) as I.
  split; [apply I|]. split; [apply I|]. intros i. rewrite (ok_open _ _ I). apply I.
Qed.

Definition demo_vars : Telemetry.vars (L := Logging.StructuredLogger) (T := unit) :=
  Telemetry.mkVars (Some (Logging.mkLogger Logging.InfoLevel "")) (Some Metrics.NewMetricsRegistry) (Some tt).

(** The run of [CmPipeline.demo_acts] before the loop returns: three spans open. *)
Definition demo_trace : option (outcome (traced LRUCache)) :=
  trace_all demo_vars NullValidator_Validate (mkTraced (NewEventPipeline (NewLRUCache 10)) ∅ [])
    (take 7 demo_acts).

Lemma telemetry_tracks_witness : ∃ t, demo_trace = Some (Ret t) ∧
  open_spans 0 (emitted t) = 3 ∧ count_inc Metrics.CMEventsDuplicated (emitted t) = 1 ∧
  EventsDuplicated (CmPipeline.stats (pipe t)) = wrap64 (count_inc Metrics.CMEventsDuplicated (emitted t)).
Proof.
  destruct demo_trace as [[t|]|] eqn:E; [|exfalso; vm_compute in E; discriminate..].
  pose proof (telemetry_tracks demo_vars NullValidator_Validate (NewLRUCache 10) (take 7 demo_acts) t
    (ex_intro _ _ eq_refl) (ex_intro _ _ eq_refl) ltac:(vm_compute; lia) E) as (_ & Hc & _ & Hs).
  exists t. split; [reflexivity|]. split; [|split].
  - rewrite (Hs 0%nat). vm_compute in E. injection E as <-. reflexivity.
  - vm_compute in E. injection E as <-. reflexivity.
  - apply Hc. right. left.
Defined.

(** The first event of the demonstration runs through the loop and is forwarded;
    the loop's return ends the spans of all three at once. *)
Example demo_emissions :
  (λ r, match r with Some (Ret t) => emitted t | _ => [] end)
    (trace_all demo_vars NullValidator_Validate (mkTraced (NewEventPipeline (NewLRUCache 10)) ∅ []) demo_acts) =
  [ESpanStart 0 "CM.ProcessEvent"; EMetric (Metrics.Inc Metrics.CMEventsReceived);
   EMetric (Metrics.Inc Metrics.CMEventsForwarded);
   ESpanStart 0 "CM.ProcessEvent"; EMetric (Metrics.Inc Metrics.CMEventsReceived);
   EMetric (Metrics.Inc Metrics.CMEventsDuplicated);
   ESpanStart 0 "CM.ProcessEvent"; EMetric (Metrics.Inc Metrics.CMEventsReceived);
   ESpanEnd 0; ESpanEnd 0; ESpanEnd 0].
Proof. vm_compute. reflexivity. Qed.
