(* ===== verification/FmApi.v ===== *)
(** * The HTTP API of the Fabric Manager

    [src/src/FM/pkg/api]: the messages ([types.go]) and the handlers
    ([handler.go]).  Decoding a request body is [encoding/json]'s: its result is
    an argument; the value given to the encoder is the body of a response.  Spans
    and log lines have no effect on the answer. *)

From S2P Require Import Prelude GoContext.

(** ** types.go *)

Record ListVNETsRequest : Type := mkListReq { Filter : gmap string string; Limit : Z; Offset : Z }.

Record VNET : Type := mkVNET {
  vn_ID : string;
  vn_Name : string;
  vn_Status : string;
  ENICount : Z;
  CreatedAt : Time;
  LastModified : Time
}.

Record ListVNETsResponse : Type := mkListResp {
  VNETs : list VNET;
  Total : Z;
  Returned : Z;
  lr_Timestamp : string;
  lr_TraceID : string
}.

Record GetGoalStateRequest : Type := mkGoalReq { gr_ENIID : string }.

Record Route : Type := mkRoute { Destination : string; NextHop : string; Metric : Z }.

Record ACL : Type := mkACL {
  Direction : string;
  Protocol : string;
  Port : Z;
  CIDR : string;
  Action : string
}.

Record VIPMapping : Type := mkVIP { VIP : string; DIP : string; vip_Status : string }.

Record GoalState : Type := mkGoalState {
  ENIID : string;
  VnetID : string;
  Routes : list Route;
  ACLs : list ACL;
  VIPMappings : list VIPMapping;
  Fingerprint : string;
  Version : Z;
  gs_Timestamp : string;
  gs_TraceID : string
}.

Record GetGoalStateResponse : Type := mkGoalResp {
  gp_GoalState : GoalState;
  Cached : bool;
  gp_Timestamp : string;
  gp_TraceID : string
}.

Record ProgramDeviceRequest : Type := mkProgReq {
  pq_ENIID : string;
  pq_VnetID : string;
  pq_Version : Z;
  Timeout : Z
}.

Record ProgramDeviceResult : Type := mkProgRes {
  pd_ENIID : string;
  Status : string;
  AppliedVersion : Z;
  pd_Error : string;
  pd_Duration : string;
  pd_Timestamp : string;
  pd_TraceID : string
}.

Record ErrorResponse : Type := mkErrResp {
  Code : string;
  Message : string;
  Details : string;
  er_Timestamp : string;
  er_TraceID : string
}.

(** What is encoded as the body of a response. *)
Inductive data : Type :=
| DList (r : ListVNETsResponse)
| DGoal (r : GetGoalStateResponse)
| DProgram (r : ProgramDeviceResult)
| DError (r : ErrorResponse)
| DMap (m : gmap string string).

Record response : Type := mkResponse { code : Z; content_type : string; body : data }.

Definition StatusOK : Z := 200.
Definition StatusBadRequest : Z := 400.

Definition WriteJSON (statusCode : Z) (d : data) : response := mkResponse statusCode "application/json" d.

Definition WriteError (now : Time) (statusCode : Z) (code message traceID : string) : response :=
  WriteJSON statusCode (DError (mkErrResp code message "" (RFC3339 now) traceID)).

(** [len] counts bytes. *)
Definition ValidateENIID (eniID : string) : option error :=
  if bool_decide (eniID = "") then Some (Errorf "ENI ID cannot be empty")
  else if 50 <? str_len eniID then Some (Errorf "ENI ID too long (max 50 characters)")
  else None.

Definition ValidateVnetID (vnetID : string) : option error :=
  if bool_decide (vnetID = "") then Some (Errorf "VNET ID cannot be empty")
  else if 50 <? str_len vnetID then Some (Errorf "VNET ID too long (max 50 characters)")
  else None.

(** ** handler.go *)

(** The placeholder: no VNETs. *)
Definition ListVNETs (now : Time) : response :=
  WriteJSON StatusOK (DList (mkListResp [] 0 0 (RFC3339 now) "")).

(** Clock readings are taken for the goal state and for the response (the first
    one for an error); [decoded] is the decoded body. *)
Definition GetGoalState (t0 t1 : Time) (decoded : result GetGoalStateRequest) : response :=
  match decoded with
  | Err _ => WriteError t0 StatusBadRequest "INVALID_REQUEST" "Failed to parse request" ""
  | Ok req =>
      match ValidateENIID (gr_ENIID req) with
      | Some err => WriteError t0 StatusBadRequest "INVALID_ENI_ID" (Error err) ""
      | None =>
          let goalState := mkGoalState (gr_ENIID req) "vnet-placeholder" [] [] []
                             ("fp-" +:+ gr_ENIID req +:+ "-1") 1 (RFC3339 t0) "" in
          WriteJSON StatusOK (DGoal (mkGoalResp goalState false (RFC3339 t1) ""))
      end
  end.

(** Clock readings: the start, the end of the simulated programming, the response. *)
Definition ProgramDevice (t0 t1 t2 : Time) (decoded : result ProgramDeviceRequest) : response :=
  match decoded with
  | Err _ => WriteError t0 StatusBadRequest "INVALID_REQUEST" "Failed to parse request" ""
  | Ok req =>
      match ValidateENIID (pq_ENIID req) with
      | Some err => WriteError t0 StatusBadRequest "INVALID_ENI_ID" (Error err) ""
      | None =>
          match ValidateVnetID (pq_VnetID req) with
          | Some err => WriteError t0 StatusBadRequest "INVALID_VNET_ID" (Error err) ""
          | None =>
              WriteJSON StatusOK
                (DProgram (mkProgRes (pq_ENIID req) "success" (pq_Version req) ""
                             (Duration_String (time_Since t1 t0)) (RFC3339 t2) ""))
          end
      end
  end.

Definition HealthHandler (now : Time) : response :=
  WriteJSON StatusOK (DMap (<["status" := "ok"]> {["timestamp" := RFC3339 now]})).

(** The handler is made of the services, the logger and the tracer it is given
    ([None] for a nil one). *)
Record APIHandler {P G L T : Type} : Type := mkHandler {
  cmPipeline : P;
  gmService : G;
  logger : L;
  tracer : option T
}.
Arguments APIHandler P G L T : clear implicits.
Arguments mkHandler {P G L T} _ _ _ _.

Definition NewAPIHandler {P G L T} (cmPipeline : P) (gmService : G) (logger : L) (tracer : option T)
    : APIHandler P G L T := mkHandler cmPipeline gmService logger tracer.

(** The span of a request: the deferred call ends it if its type has a method
    [End] without parameters ([has_End]); that of OpenTelemetry takes options. *)
Inductive span_event : Type :=
| SpanStart (name : string)
| SpanEnd.

Definition request_spans {P G L T} (has_End : bool) (h : APIHandler P G L T) (name : string) : list span_event :=
  match tracer h with
  | Some _ => SpanStart name :: (if has_End then [SpanEnd] else [])
  | None => []
  end.

(** ** Theorems *)

(** What an id must be. *)
Definition valid_id (id : string) : Prop := id ≠ "" ∧ str_len id ≤ 50.

Lemma ValidateENIID_None id : ValidateENIID id = None ↔ valid_id id.
Proof.
  unfold ValidateENIID, valid_id. case_bool_decide; [naive_solver|].
  destruct (Z.ltb_spec 50 (str_len id)); naive_solver lia.
Qed.

Lemma ValidateVnetID_None id : ValidateVnetID id = None ↔ valid_id id.
Proof.
  unfold ValidateVnetID, valid_id. case_bool_decide; [naive_solver|].
  destruct (Z.ltb_spec 50 (str_len id)); naive_solver lia.
Qed.

(** What an error response says. *)
Definition error_code (r : response) : option string :=
  match body r with DError e => Some (Code e) | _ => None end.

(** The programming endpoint answers 200 exactly when the body decodes and both
    ids are between 1 and 50 bytes long, and then reports success at the requested
    version for the requested ENI; every other answer is 400 with one error code:
    a body that does not decode, else a bad ENI id, else a bad VNET id. *)
Theorem ProgramDevice_spec (t0 t1 t2 : Time) (decoded : result ProgramDeviceRequest) :
  let r := ProgramDevice t0 t1 t2 decoded in
  match decoded with
  | Err _ => code r = 400 ∧ error_code r = Some "INVALID_REQUEST"
  | Ok req =>
      (valid_id (pq_ENIID req) ∧ valid_id (pq_VnetID req) →
         code r = 200 ∧ ∃ p, body r = DProgram p ∧ Status p = "success" ∧
           AppliedVersion p = pq_Version req ∧ pd_ENIID p = pq_ENIID req) ∧
      (¬ valid_id (pq_ENIID req) → code r = 400 ∧ error_code r = Some "INVALID_ENI_ID") ∧
      (valid_id (pq_ENIID req) ∧ ¬ valid_id (pq_VnetID req) →
         code r = 400 ∧ error_code r = Some "INVALID_VNET_ID")
  end.
Proof.
  destruct decoded as [req|err]; [|by split]. cbn zeta. unfold ProgramDevice.
  rewrite <- ValidateENIID_None, <- ValidateVnetID_None.
  destruct (ValidateENIID (pq_ENIID req)), (ValidateVnetID (pq_VnetID req));
    (split_and!; [intros [? ?]; try done|intros ?; try done|intros [? ?]; try done]);
    split; try done. eexists. done.
Qed.
