(* ===== verification/FmService.v ===== *)
(** * The Fabric Manager as a service

    [src/src/FM/pkg/config]: the configurations with their defaults ([config.go])
    and the factory of the services ([factory.go]); [src/src/FM/cmd/fm/main.go]:
    the service built of the pipeline ([CmPipeline]), the goal state manager
    ([GoalState]) and the DPU manager ([DalPool]), its start, its HTTP routes, its
    shutdown and the process around it.  Flags, signals and the HTTP server are
    I/O: what they deliver is an argument. *)

From S2P Require Import Prelude GoFloat GoContext FmObservability FmApi CmCache CmPipeline.
From S2P Require Import GoalState DalDispatch DalPool.

(** ** config.go *)

Module Config.

Record CMConfig : Type := mkCM {
  CacheSize : Z;
  CacheTTL : Duration;
  ControlBrokerURL : string;
  Topics : list string;
  MaxRetries : Z;
  RetryBackoff : Duration
}.

Definition DefaultCMConfig : CMConfig :=
  mkCM 10000 (5 * Minute) "localhost:2379" ["config"] 3 (100 * Millisecond).

Record DMConfig : Type := mkDM { RegistrySize : Z; StrictMode : bool; EnforceRules : bool }.

Definition DefaultDMConfig : DMConfig := mkDM 100000 true true.

Record GMConfig : Type := mkGM {
  gm_CacheSize : Z;
  ParallelFetch : bool;
  AggregationTimeout : Duration;
  GenerationTimeout : Duration
}.

Definition DefaultGMConfig : GMConfig := mkGM 50000 true (30 * Second) (30 * Second).

(** The vendors' settings are values of any type [V]. *)
Record DALConfig {V : Type} : Type := mkDAL {
  PoolWorkers : Z;
  Vendors : gmap string (gmap string V);
  ProgrammingTimeout : Duration
}.
Arguments DALConfig V : clear implicits.

Definition DefaultDALConfig {V} : DALConfig V := mkDAL V 4 ∅ (60 * Second).

Record AppConfig {V : Type} : Type := mkApp {
  CM : CMConfig;
  DM : DMConfig;
  GM : GMConfig;
  DAL : DALConfig V
}.
Arguments AppConfig V : clear implicits.

Definition DefaultAppConfig {V} : AppConfig V :=
  mkApp V DefaultCMConfig DefaultDMConfig DefaultGMConfig DefaultDALConfig.

End Config.

(** ** factory.go *)

Module Factory.

(** The logger used when none is given: the line the standard logger prints, and
    the code [Fatalf] exits with. *)
Definition SimpleLogger_Printf {V} (Sprintf : string → list V → string) (format : string) (v : list V)
    : string * option Z := (Sprintf format v, None).
Definition SimpleLogger_Fatalf {V} (Sprintf : string → list V → string) (format : string) (v : list V)
    : string * option Z := (Sprintf format v, Some 1).

Section Factory.
Context {V : Type}.

Record ServiceFactory : Type := mkSF {
  config : Config.DALConfig V;
  gm : option GoalStateManager;
  dal : option DPUManager
}.

Definition NewServiceFactory (cfg : Config.AppConfig V) : ServiceFactory := mkSF (Config.DAL cfg) None None.

(** The aggregator of the manager made here: no constructs and no replicas,
    whatever the VNET and the context.  ([GoalState.aggregator], the constructs in
    memory, is not used with it.) *)
Definition stub_Aggregate (ctx_err : option error) (vnetID : string) : outcome (result AggregatedState) :=
  Ret (Ok (mkAggregated vnetID [] [])).

Definition CreateGMService (sf : ServiceFactory) : ServiceFactory * result GoalStateManager :=
  match gm sf with
  | Some m => (sf, Ok m)
  | None =>
      let manager := NewGoalStateManager (NewVNETAggregator None) NewGoalStateCache in
      (mkSF (config sf) (Some manager) (dal sf), Ok manager)
  end.

Definition CreateDALService (sf : ServiceFactory) : ServiceFactory * result DPUManager :=
  match dal sf with
  | Some m => (sf, Ok m)
  | None =>
      match CreateDPUManager NewPluginFactory (Config.PoolWorkers (config sf)) with
      | (_, Err err) => (sf, Err (Wrapf "failed to create DPU manager: " err ""))
      | (_, Ok manager) => (mkSF (config sf) (gm sf) (Some manager), Ok manager)
      end
  end.

Definition CreateAllServices (sf : ServiceFactory) : ServiceFactory * option error :=
  match CreateGMService sf with
  | (sf, Err err) => (sf, Some (Wrapf "failed to create GM: " err ""))
  | (sf, Ok _) =>
      match CreateDALService sf with
      | (sf, Err err) => (sf, Some (Wrapf "failed to create DAL: " err ""))
      | (sf, Ok _) => (sf, None)
      end
  end.

Definition GetServices (sf : ServiceFactory) : option GoalStateManager * option DPUManager := (gm sf, dal sf).

End Factory.
Arguments ServiceFactory V : clear implicits.
End Factory.

(** ** main.go *)

Module Main.

(** The flags, with their defaults. *)
Record flags : Type := mkFlags { configPath : string; logLevel : string; port : Z; restPort : Z }.
Definition default_flags : flags := mkFlags "config.yaml" "info" 5051 8080.

(** The loggers there are behind the interface, and the logger of the process,
    which passes on to one. *)
Inductive obs_Logger : Type :=
| Structured (sl : Logging.StructuredLogger)
| NoOp.

Record SimpleLogger : Type := mkSL { logger : obs_Logger }.

Section Logger.
Context {V : Type} (fmt_v : V → string) (of_string : string → V).

Definition Info (l : SimpleLogger) (msg : string) (keyvals : list V) : list (Logging.entry (V := V)) :=
  match logger l with Structured sl => [Logging.Info fmt_v of_string sl msg keyvals] | NoOp => [] end.
Definition Error (l : SimpleLogger) (msg : string) (keyvals : list V) : list (Logging.entry (V := V)) :=
  match logger l with Structured sl => [Logging.Error fmt_v of_string sl msg keyvals] | NoOp => [] end.
Definition Debug (l : SimpleLogger) (msg : string) (keyvals : list V) : list (Logging.entry (V := V)) :=
  match logger l with Structured sl => [Logging.Debug fmt_v of_string sl msg keyvals] | NoOp => [] end.

(** [configLogger], around the same logger; [Sprintf] is [fmt.Sprintf].  Its
    [Fatalf] only logs: the process goes on. *)
Definition configLogger_Printf (Sprintf : string → list V → string) (l : SimpleLogger) (format : string) (v : list V)
    : list (Logging.entry (V := V)) := Info l (Sprintf format v) [].
Definition configLogger_Fatalf (Sprintf : string → list V → string) (l : SimpleLogger) (format : string) (v : list V)
    : list (Logging.entry (V := V)) := Error l (Sprintf format v) [].
End Logger.

(** Only a structured logger has something to flush. *)
Definition Sync (flush : Logging.StructuredLogger → option error) (l : SimpleLogger) : option error :=
  match logger l with Structured sl => Logging.Sync flush sl | NoOp => None end.

Definition NewLogger (build : option error) (level : string) : result SimpleLogger :=
  match Logging.NewStructuredLogger build level with
  | Err err => Err err
  | Ok l => Ok (mkSL (Structured l))
  end.

Record Config : Type := mkConfig {
  Address : string;
  Topics : list string;
  CacheSize : Z;
  TTL : Z;
  EtcdEndpoints : list string;
  RocksDBPath : string;
  MetricsPort : Z;
  JaegerURL : string
}.

(** The file is not read. *)
Definition LoadConfig (path : string) : result Config :=
  Ok (mkConfig "localhost:2379" ["/fm/events"] 10000 300 ["localhost:2379"] "/var/lib/fm/db" 8081
        "http://localhost:14268/api/traces").

Record Services : Type := mkServices {
  metricsRegistry : option Metrics.MetricsRegistry;
  healthChecker : Health.HealthChecker;
  cmPipeline : EventPipeline (C := LRUCache);
  gmService : option GoalStateManager;
  dalService : option DPUManager
}.

(** [now]: the clock of the health checker. *)
Definition InitializeServices {V} (now : Time) (config : Config) (mr : option Metrics.MetricsRegistry)
    : result Services :=
  let appConfig := Config.mkApp V Config.DefaultCMConfig Config.DefaultDMConfig Config.DefaultGMConfig
                     (Config.mkDAL V 4 ∅ (60 * Second)) in
  let pipeline := NewEventPipeline (NewLRUCache 10000) in
  let factory := Factory.NewServiceFactory appConfig in
  match Factory.CreateAllServices factory with
  | (_, Some err) => Err (Wrapf "failed to create services: " err "")
  | (factory, None) =>
      let '(gmSvc, dalSvc) := Factory.GetServices factory in
      Ok (mkServices mr (Health.NewHealthChecker now) pipeline gmSvc dalSvc)
  end.

Definition set_health (hc : Health.HealthChecker) (s : Services) : Services :=
  mkServices (metricsRegistry s) hc (cmPipeline s) (gmService s) (dalService s).
Definition set_cm (p : EventPipeline) (s : Services) : Services :=
  mkServices (metricsRegistry s) (healthChecker s) p (gmService s) (dalService s).
Definition set_gm (m : GoalStateManager) (s : Services) : Services :=
  mkServices (metricsRegistry s) (healthChecker s) (cmPipeline s) (Some m) (dalService s).
Definition set_dal (m : DPUManager) (s : Services) : Services :=
  mkServices (metricsRegistry s) (healthChecker s) (cmPipeline s) (gmService s) (Some m).

Definition mark (ready : bool) (hc : Health.HealthChecker) : Health.HealthChecker :=
  Health.SetServiceStatus "dal" ready (Health.SetServiceStatus "gm" ready (Health.SetServiceStatus "cm" ready hc)).

(** [ctx] names the context, [done] says that it is done already.  What was
    started before a failure stays started. *)
Definition Start (now : Time) (ctx : nat) (done : bool) (s : Services) : Services * option error :=
  let '(p, err) := CmPipeline.Start (cmPipeline s) now ctx NullSubscriber_Subscribe in
  let s := set_cm p s in
  match err with
  | Some err => (s, Some (Wrapf "failed to start CM: " err ""))
  | None =>
      let '(s, err) := match gmService s with
                       | Some m => let '(m, err) := GoalState.Start m in (set_gm m s, err)
                       | None => (s, None)
                       end in
      match err with
      | Some err => (s, Some (Wrapf "failed to start GM: " err ""))
      | None =>
          let '(s, err) := match dalService s with
                           | Some m => let '(m, err) := Manager_Start m done in (set_dal m s, err)
                           | None => (s, None)
                           end in
          match err with
          | Some err => (s, Some (Wrapf "failed to start DAL: " err ""))
          | None => (set_health (mark true (healthChecker s)) s, None)
          end
      end
  end.

(** The services stop in the reverse order; their errors are only logged. *)
Definition Shutdown (s : Services) : outcome (Services * option error) :=
  let s := set_health (mark false (healthChecker s)) s in
  s ← match dalService s with
      | Some m => '(m, _) ← Manager_Stop m; Ret (set_dal m s)
      | None => Ret s
      end;
  let s := match gmService s with
           | Some m => set_gm (GoalState.Stop m).1 s
           | None => s
           end in
  '(p, _) ← CmPipeline.Stop (cmPipeline s) NullSubscriber_Close;
  Ret (set_cm p s, None).

Definition StartGRPCServer (port : Z) : option error := None.

(** The routes of the REST server: the health checker and the handler of the API
    are never nil. *)
Inductive handler : Type :=
| HHealthz | HReadyz | HMetrics | HListVNETs | HGetGoalState | HProgramDevice.

Definition StartRESTServer (s : Services) : list (string * handler) :=
  [("/healthz", HHealthz); ("/readyz", HReadyz)] ++
  match metricsRegistry s with Some _ => [("/metrics", HMetrics)] | None => [] end ++
  [("/api/vnets", HListVNETs); ("/api/goal-state", HGetGoalState); ("/api/program", HProgramDevice)].

(** What the process hands to the packages cm, gm and dal before it starts: the
    logger, the metrics registry, and the tracing context when it could be made. *)
Definition wire {L T} (logger : L) (tracing : result T) : list (Telemetry.vars (L := L) (T := T)) :=
  let v := Telemetry.SetLogger (Some logger) Telemetry.initial in
  let v := Telemetry.SetMetricsRegistry (Some Metrics.NewMetricsRegistry) v in
  let v := Telemetry.SetTracingContext (match tracing with Ok t => Some t | Err _ => None end) v in
  [v; v; v].

(** *** The service while it runs

    Between start and shutdown: the steps of the pipeline's loop (the null
    subscriber's channel is closed, so no event arrives), of the pool's workers
    and submitters, calls of the two managers.  Nobody else starts or stops them. *)

Section Run.
Context (f2i_undefined : f64 → Z) (json_string sha256_hex : string → string).

Inductive sys_action : Type :=
| CmStep (a : CmPipeline.action)
| GmHandle (env : HandleEnv) (construct : option ConstructState)
| GmGet (order : list (string * option PerENIGoalState)) (eniID : string)
| PoolStep (a : pool_action)
| DalProgram (ctx_err : option error) (pick : bool) (goal : option PerENIGoalState) (w : wait_end).

Definition cm_internal (a : CmPipeline.action) : bool :=
  match a with DoStart _ _ _ | DoStop _ | LoopRecv _ _ _ => false | _ => true end.

Definition pool_internal (a : pool_action) : bool :=
  match a with PStart _ | PShutdown => false | _ => true end.

Definition sys_exec (s : Services) (a : sys_action) : option (outcome Services) :=
  match a with
  | CmStep a =>
      if cm_internal a
      then r ← CmPipeline.exec NullValidator_Validate (cmPipeline s) a; Some (p ← r; Ret (set_cm p s))
      else None
  | GmHandle env construct =>
      m ← gmService s;
      Some ('(m, _) ← HandleWith json_string sha256_hex Factory.stub_Aggregate m env construct; Ret (set_gm m s))
  | GmGet order eniID =>
      m ← gmService s;
      Some (Ret (set_gm (GoalState.GetGoalState m order eniID).1 s))
  | PoolStep a =>
      d ← dalService s;
      if pool_internal a
      then r ← pool_exec f2i_undefined (pool d) a;
           let done := match a with PParentDone => true | _ => m_done d end in
           Some (p ← r; Ret (set_dal (DalPool.mkDM p (m_running d) done (m_stats d)) s))
      else None
  | DalProgram ctx_err pick goal w =>
      d ← dalService s;
      Some (Ret (set_dal (Program d ctx_err pick goal w).1 s))
  end.

Fixpoint sys_run (s : Services) (acts : list sys_action) : option (outcome Services) :=
  match acts with
  | [] => Some (Ret s)
  | a :: acts =>
      match sys_exec s a with
      | Some (Ret s) => sys_run s acts
      | Some (Panic x) => Some (Panic x)
      | None => None
      end
  end.

(** How the process ends: [os.Exit], or the return of [main]. *)
Inductive exit : Type :=
| Exit (code : Z)
| Returned.

(** [build] is the error of the logger's construction; a tracing context that
    cannot be made is only logged.  [acts] is what happens until the signal. *)
Definition main (build : option error) (logLevel configPath : string) (t0 t1 : Time)
    (acts : list sys_action) : option (outcome exit) :=
  match Logging.NewStructuredLogger build logLevel with
  | Err _ => Some (Ret (Exit 1))
  | Ok structuredLogger =>
      match LoadConfig configPath with
      | Err _ => Some (Ret (Exit 1))
      | Ok config =>
          match InitializeServices (V := unit) t0 config (Some Metrics.NewMetricsRegistry) with
          | Err _ => Some (Ret (Exit 1))
          | Ok services =>
              match Start t1 0 false services with
              | (_, Some _) => Some (Ret (Exit 1))
              | (services, None) =>
                  match sys_run services acts with
                  | Some (Ret services) =>
                      Some ('(_, err) ← Shutdown services;
                            Ret (match err with Some _ => Exit 1 | None => Returned end))
                  | Some (Panic x) => Some (Panic x)
                  | None => None
                  end
              end
          end
      end
  end.

(** *** The invariant of the running service *)

Record cm_up (p : EventPipeline (C := LRUCache)) : Prop := {
  cu_running : CmPipeline.running p = true;
  cu_out : out_closed p = false;
  cu_done : done_closed p = false
}.

Record gm_up (m : GoalStateManager) : Prop := {
  gu_running : GoalState.running m = true;
  gu_empty : GoalState.cache (m_cache m) = ∅
}.

Record dal_up (d : DPUManager) : Prop := {
  du_running : m_running d = true;
  du_pool : DalPool.running (pool d) = true;
  du_queue : queue_closed (pool d) = false
}.

Record up (hc : Health.HealthChecker) (s : Services) : Prop := {
  up_health : healthChecker s = hc;
  up_cm : cm_up (cmPipeline s);
  up_gm : ∃ m, gmService s = Some m ∧ gm_up m;
  up_dal : ∃ d, dalService s = Some d ∧ dal_up d
}.

Lemma cm_up_exec p a p' :
  cm_up p → cm_internal a = true → CmPipeline.exec NullValidator_Validate p a = Some (Ret p') → cm_up p'.
Proof.
  intros [Hr Ho Hd] Ha Hx.
  destruct a; try discriminate Ha; cbn in Hx; unfold set_loop, forward in Hx;
    repeat (case_match; try discriminate Hx); injection Hx as <-; done.
Qed.

Lemma gm_up_handle m env construct m' e :
  gm_up m → HandleWith json_string sha256_hex Factory.stub_Aggregate m env construct = Ret (m', e) → gm_up m'.
Proof.
  intros [Hr Hc] Hx. unfold HandleWith, Factory.stub_Aggregate, Generate in Hx. cbn in Hx.
  repeat (case_match; simplify_eq/=; try discriminate Hx); by split.
Qed.

Lemma gm_up_get m order eniID : gm_up m → gm_up (GoalState.GetGoalState m order eniID).1.
Proof.
  intros [Hr Hc]. unfold GoalState.GetGoalState. destruct (decide _); [done|].
  by destruct (find_eni eniID order).
Qed.

Lemma pool_exec_keeps p a p' :
  pool_internal a = true → pool_exec f2i_undefined p a = Some (Ret p') →
  DalPool.running p' = DalPool.running p ∧ queue_closed p' = queue_closed p.
Proof.
  intros Ha Hx. destruct a; try discriminate Ha; cbn [pool_exec] in Hx.
  - injection Hx as <-. unfold Submit. by repeat case_match.
  - repeat (case_match; try discriminate Hx); by injection Hx as <-.
  - repeat (case_match; try discriminate Hx); by injection Hx as <-.
  - by injection Hx as <-.
  - repeat (case_match; try discriminate Hx); by injection Hx as <-.
  - repeat (case_match; try discriminate Hx); by injection Hx as <-.
  - destruct (pool_workers p !! i) as [[]|]; try discriminate Hx. unfold worker_dispatch in Hx.
    destruct (Dispatch _ _ _ _ _) as [d [r|x]]; [|discriminate Hx]. by injection Hx as <-.
  - repeat (case_match; try discriminate Hx); by injection Hx as <-.
  - repeat (case_match; try discriminate Hx); by injection Hx as <-.
Qed.

Lemma dal_up_program d ctx_err pick goal w : dal_up d → dal_up (Program d ctx_err pick goal w).1.
Proof.
  intros [Hr Hp Hq]. unfold Program. destruct (program_check d ctx_err pick goal); [done|].
  cbn [pool set_mstats]. unfold Submit. rewrite Hp. cbn [negb].
  destruct goal; [destruct (_ || _)|]; destruct w; done.
Qed.

Lemma up_exec hc s a s' : up hc s → sys_exec s a = Some (Ret s') → up hc s'.
Proof.
  intros [Hh Hcm (m & Em & Hm) (d & Ed & Hd)] Hx.
  destruct a as [a|env c|order eni|a|ce pick goal w]; cbn [sys_exec] in Hx;
    rewrite ?Em, ?Ed in Hx; unfold mbind in Hx; cbn -[HandleWith CmPipeline.exec pool_exec Program GoalState.GetGoalState] in Hx.
  - destruct (cm_internal a) eqn:Ei; [|discriminate Hx].
    destruct (CmPipeline.exec _ _ a) as [[p|x]|] eqn:E; try discriminate Hx. injection Hx as <-.
    split; cbn; eauto using cm_up_exec.
  - destruct (HandleWith _ _ _ m env c) as [[m' e]|x] eqn:E; try discriminate Hx. injection Hx as <-.
    split; cbn; eauto using gm_up_handle.
  - injection Hx as <-. split; cbn; eauto using gm_up_get.
  - destruct (pool_internal a) eqn:Ei; [|discriminate Hx].
    destruct (pool_exec _ _ a) as [[p|x]|] eqn:E; try discriminate Hx. injection Hx as <-.
    destruct (pool_exec_keeps _ _ _ Ei E) as [H1 H2]. destruct Hd as [Hd1 Hd2 Hd3].
    split; cbn; eauto. eexists. split; [done|]. split; cbn; congruence.
  - injection Hx as <-. split; cbn; eauto using dal_up_program.
Qed.

Lemma up_run hc s acts s' : up hc s → sys_run s acts = Some (Ret s') → up hc s'.
Proof.
  revert s. induction acts as [|a acts IH]; intros s Hs Hr; cbn in Hr; [by simplify_eq|].
  destruct (sys_exec s a) as [[s1|x]|] eqn:E; try discriminate. eauto using up_exec.
Qed.

(** The health checker of a started service: every service but dm is ready. *)
Definition started_health (t0 : Time) : Health.HealthChecker :=
  Health.set_all [("cm", true); ("gm", true); ("dal", true)] (Health.NewHealthChecker t0).

Lemma start_up {V} t0 config mr t1 ctx done :
  ∃ s0 s1, InitializeServices (V := V) t0 config mr = Ok s0 ∧ Start t1 ctx done s0 = (s1, None) ∧
           up (started_health t0) s1.
Proof.
  eexists _, _. split; [reflexivity|]. split; [reflexivity|].
  split; cbn; eauto; [done|..]; eexists; by split.
Qed.

Lemma shutdown_up hc s :
  up hc s → ∃ s', Shutdown s = Ret (s', None) ∧ healthChecker s' = mark false hc ∧
    CmPipeline.running (cmPipeline s') = false ∧ out_closed (cmPipeline s') = true ∧
    (∃ m, gmService s' = Some m ∧ GoalState.running m = false) ∧
    (∃ d, dalService s' = Some d ∧ m_running d = false ∧ queue_closed (pool d) = true).
Proof.
  intros [Hh [Hr Ho Hd] (m & Em & [Hm _]) (d & Ed & [H1 H2 H3])].
  destruct s as [mr h p gm dal]; cbn in *; subst.
  unfold Shutdown, Manager_Stop, DalPool.Shutdown, CmPipeline.Stop, GoalState.Stop, mbind.
  cbn. rewrite H1; cbn. rewrite H2, H3; cbn. rewrite Hm; cbn. rewrite Hr, Hd, Ho; cbn.
  eexists. split; [reflexivity|]. cbn. split_and!; eauto.
Qed.

Lemma not_ready t0 t1 t2 sets :
  Health.last_status sets "dm" = Some false →
  Health.code (Health.ReadyzHandler t1 t2 (Health.set_all sets (Health.NewHealthChecker t0))) = 503.
Proof.
  intros H. unfold Health.ReadyzHandler. cbn [Health.code].
  destruct (forallb _ _) eqn:E; [|done]. exfalso.
  assert (Health.IsReady (Health.set_all sets (Health.NewHealthChecker t0)) = true) as Hr by exact E.
  rewrite Health.IsReady_spec in Hr. rewrite <- (Health.set_all_lookup t0) in H.
  by apply Hr in H.
Qed.

(** ** Claims *)

(** C9 The life of the service.  Initialisation and start succeed.  Whatever then
    happens until the shutdown - steps of the loop and the workers, calls of the
    managers, any context ending - the readiness probe answers 503 (dm is listed
    and never marked ready) and no goal state is found under any ENI (the factory
    gives the manager an aggregator without constructs).  The shutdown returns
    without error or panic, all three services are stopped, the pipeline's output
    and the pool's queue are closed, and a second shutdown is harmless. *)
Theorem service_lifecycle {V} (t0 t1 : Time) (config : Config) (mr : option Metrics.MetricsRegistry)
    (ctx : nat) (done : bool) :
  ∃ s0 s1, InitializeServices (V := V) t0 config mr = Ok s0 ∧ Start t1 ctx done s0 = (s1, None) ∧
  ∀ acts s2, sys_run s1 acts = Some (Ret s2) →
    (∀ t t', Health.code (Health.ReadyzHandler t t' (healthChecker s2)) = 503) ∧
    (∃ m, gmService s2 = Some m ∧ ∀ order eniID, order ≡ₚ map_to_list (GoalState.cache (m_cache m)) →
       (GoalState.GetGoalState m order eniID).2 = (None, false)) ∧
    ∃ s3, Shutdown s2 = Ret (s3, None) ∧
      CmPipeline.running (cmPipeline s3) = false ∧ out_closed (cmPipeline s3) = true ∧
      (∃ m, gmService s3 = Some m ∧ GoalState.running m = false) ∧
      (∃ d, dalService s3 = Some d ∧ m_running d = false ∧ queue_closed (pool d) = true) ∧
      (∀ t t', Health.code (Health.ReadyzHandler t t' (healthChecker s3)) = 503) ∧
      ∃ s4, Shutdown s3 = Ret (s4, None).
Proof.
  destruct (start_up (V := V) t0 config mr t1 ctx done) as (s0 & s1 & Hi & Hs & Hup).
  exists s0, s1. split_and!; [done..|]. intros acts s2 Hr.
  assert (Hu : up (started_health t0) s2) by eauto using up_run.
  split_and!.
  - intros t t'. rewrite (up_health _ _ Hu). by apply not_ready.
  - destruct (up_gm _ _ Hu) as (m & Em & [_ Hm]). exists m. split; [done|].
    intros order eni Ho. rewrite Hm, map_to_list_empty in Ho. apply Permutation_nil_r in Ho as ->.
    unfold GoalState.GetGoalState. by destruct (decide _).
  - destruct (shutdown_up _ _ Hu) as (s3 & H3 & Hh & Hr3 & Ho & Hm & Hd).
    exists s3. split_and!; try done.
    + intros t t'. rewrite Hh.
      apply (not_ready _ _ _ [("cm", true); ("gm", true); ("dal", true);
                              ("cm", false); ("gm", false); ("dal", false)]). done.
    + destruct Hm as (m & Em & Hm), Hd as (d & Ed & Hd & _).
      unfold Shutdown, mbind. cbn. rewrite Ed. cbn. unfold Manager_Stop. rewrite Hd. cbn. rewrite Em. cbn.
      unfold GoalState.Stop. rewrite Hm. cbn. unfold CmPipeline.Stop. rewrite Hr3. cbn. by eexists.
Qed.

(** The process: [main] exits with code 1 exactly when its logger cannot be
    built; otherwise, after any run of the service that a signal ends, it returns
    from its shutdown normally - neither the configuration path nor the log level
    matters to that. *)
Theorem main_exits (build : option error) (logLevel configPath : string) (t0 t1 : Time)
    (acts : list sys_action) :
  match build with
  | Some _ => main build logLevel configPath t0 t1 acts = Some (Ret (Exit 1))
  | None =>
      main build logLevel configPath t0 t1 acts = Some (Ret Returned) ∨
      ∃ s0 s1, InitializeServices (V := unit) t0 (mkConfig "localhost:2379" ["/fm/events"] 10000 300
                 ["localhost:2379"] "/var/lib/fm/db" 8081 "http://localhost:14268/api/traces")
                 (Some Metrics.NewMetricsRegistry) = Ok s0 ∧
        Start t1 0 false s0 = (s1, None) ∧
        (sys_run s1 acts = None ∨ ∃ x, sys_run s1 acts = Some (Panic x))
  end.
Proof.
  destruct build as [e|]; [done|]. unfold main, Logging.NewStructuredLogger, LoadConfig.
  match goal with |- context [InitializeServices t0 ?c ?r] =>
    destruct (start_up (V := unit) t0 c r t1 0 false) as (s0 & s1 & Hi & Hs & Hup) end.
  rewrite Hi, Hs. destruct (sys_run s1 acts) as [[s2|x]|] eqn:E.
  - left. destruct (shutdown_up _ _ (up_run _ _ _ _ Hup E)) as (s3 & -> & _). done.
  - right. exists s0, s1. eauto.
  - right. exists s0, s1. eauto.
Qed.

End Run.

(** A run in which a change is handled, a goal is programmed and the loop ends. *)
Definition demo_change : ConstructState := mkConstruct "eni-1" "vnet-1" "active" 1 "t" "ENI" 0 "".
Definition demo_run : list sys_action :=
  [GmHandle (mkHEnv None None None false false []) (Some demo_change);
   CmStep (LoopSourceClosed 0);
   PoolStep (PSubmit None (Some (mkGoal "eni-1" [] [] [] "fp" 1 0)));
   PoolStep (PSend 0); PoolStep (WTake 2);
   GmGet [] "eni-1"].

Example demo_main :
  main (λ _, 0) (λ s, s) (λ s, s) None "info" "config.yaml" 0 1 demo_run = Some (Ret Returned).
Proof. vm_compute. reflexivity. Qed.

End Main.
