(* ===== verification/FmLint.v ===== *)
(** * The lint tool of the Fabric Manager

    [src/src/FM/tools/fm-lint]: the rule NO_REGISTRY_BYPASS over Go's syntax trees
    ([noregistrybypass/check.go]; [Module Rule]) and the tool that finds the
    packages, parses them and applies it ([main.go]; [Module Tool]).  A syntax tree
    keeps the nodes the rule looks at and the children of all others; the file
    system and the parser are arguments. *)

From S2P Require Import Prelude.

Definition dquote : Ascii.ascii := Ascii.Ascii false true false false false true false false.
Definition backquote : Ascii.ascii := Ascii.Ascii false false false false false true true false.
Definition slash : Ascii.ascii := Ascii.Ascii true true true true false true false false.

Definition enclose (q : Ascii.ascii) (s : string) : string := String q (s +:+ String q "").

(** ** check.go *)

Module Rule.

Definition registryPkgPath : string := "github.com/dashfabric/fm/pkg/registry".
Definition registryPkgPrefix : string := "github.com/dashfabric/fm/pkg/registry/".

(** A call carries its position. *)
Inductive node : Type :=
| Ident (name : string)
| SelectorExpr (X : node) (Sel : string)
| IndexExpr (X Index : node)
| IndexListExpr (X : node) (Indices : list node)
| ParenExpr (X : node)
| CallExpr (pos : Z) (Fun : node) (Args : list node)
| OtherNode (children : list node).

(** [Path] is the literal as written, with its quotes. *)
Record ImportSpec : Type := mkImport { Path : string; Name : option string }.

Record File : Type := mkFile { Imports : list ImportSpec; Decls : list node }.

Record Violation : Type := mkViolation { Pos : Z; Message : string }.

Definition bypass_message : string :=
  "registry.New called directly outside pkg/registry/...; " +:+
  "use the typed constructor (e.g. vnet.New(), nic.New()) — NO_REGISTRY_BYPASS".

(** A node and those below it, in the order of [ast.Inspect]. *)
Fixpoint nodes (n : node) : list node :=
  n :: match n with
       | Ident _ => []
       | SelectorExpr X _ => nodes X
       | IndexExpr X Index => nodes X ++ nodes Index
       | IndexListExpr X Indices => nodes X ++ concat (map nodes Indices)
       | ParenExpr X => nodes X
       | CallExpr _ Fun Args => nodes Fun ++ concat (map nodes Args)
       | OtherNode children => concat (map nodes children)
       end.

(** [ast.Inspect] with a function that always goes on; [visit] is what it appends. *)
Definition Inspect {A} (visit : node → list A) (n : node) : list A := flat_map visit (nodes n).

Definition localAlias_of (imp : ImportSpec) : string :=
  match Name imp with
  | Some name => if bool_decide (name = "_" ∨ name = ".") then "" else name
  | None => "registry"
  end.

Fixpoint localAlias_in (imports : list ImportSpec) : string :=
  match imports with
  | [] => ""
  | imp :: imports =>
      if decide (Path imp = enclose dquote registryPkgPath) then localAlias_of imp
      else localAlias_in imports
  end.

Definition localAlias (f : File) : string := localAlias_in (Imports f).

Definition selectorMatches (X : node) (Sel pkgAlias funcName : string) : bool :=
  match X with
  | Ident name => bool_decide (name = pkgAlias) && bool_decide (Sel = funcName)
  | _ => false
  end.

Fixpoint isRegistryNewCall (expr : node) (alias : string) : bool :=
  match expr with
  | SelectorExpr X Sel => selectorMatches X Sel alias "New"
  | IndexExpr X _ => isRegistryNewCall X alias
  | IndexListExpr X _ => isRegistryNewCall X alias
  | _ => false
  end.

(** Inside the registry's packages. *)
Definition allowed (pkgPath : string) : bool :=
  bool_decide (pkgPath = registryPkgPath) ||
  ((str_len registryPkgPrefix <? str_len pkgPath) && HasPrefix pkgPath registryPkgPrefix).

Definition visit (alias : string) (n : node) : list Violation :=
  match n with
  | CallExpr pos Fun _ => if isRegistryNewCall Fun alias then [mkViolation pos bypass_message] else []
  | _ => []
  end.

Definition Check (f : File) (pkgPath : string) : list Violation :=
  if allowed pkgPath then []
  else
    let alias := localAlias f in
    if bool_decide (alias = "") then []
    else Inspect (visit alias) (OtherNode (Decls f)).

(** *** The rule, as its comment states it *)

(** [m] is [n] or below it. *)
Inductive subterm (m : node) : node → Prop :=
| st_refl : subterm m m
| st_sel X Sel : subterm m X → subterm m (SelectorExpr X Sel)
| st_index X Index : subterm m X → subterm m (IndexExpr X Index)
| st_index_arg X Index : subterm m Index → subterm m (IndexExpr X Index)
| st_list X Indices : subterm m X → subterm m (IndexListExpr X Indices)
| st_list_arg X Indices n : n ∈ Indices → subterm m n → subterm m (IndexListExpr X Indices)
| st_paren X : subterm m X → subterm m (ParenExpr X)
| st_fun pos Fun Args : subterm m Fun → subterm m (CallExpr pos Fun Args)
| st_arg pos Fun Args n : n ∈ Args → subterm m n → subterm m (CallExpr pos Fun Args)
| st_other children n : n ∈ children → subterm m n → subterm m (OtherNode children).

(** [alias.New], perhaps with type arguments. *)
Inductive new_ref (alias : string) : node → Prop :=
| nr_sel : new_ref alias (SelectorExpr (Ident alias) "New")
| nr_index X Index : new_ref alias X → new_ref alias (IndexExpr X Index)
| nr_list X Indices : new_ref alias X → new_ref alias (IndexListExpr X Indices).

(** The first import of the registry names it [alias]. *)
Definition imported_as (f : File) (alias : string) : Prop :=
  ∃ pre imp post, Imports f = pre ++ imp :: post ∧
    Forall (λ i, Path i ≠ enclose dquote registryPkgPath) pre ∧
    Path imp = enclose dquote registryPkgPath ∧
    alias = default "registry" (Name imp) ∧ alias ≠ "_" ∧ alias ≠ "." ∧ alias ≠ "".

Definition inside (pkgPath : string) : Prop :=
  pkgPath = registryPkgPath ∨ ∃ sub, sub ≠ "" ∧ pkgPath = registryPkgPrefix +:+ sub.

(** Induction that reaches the nodes in lists. *)
Section NodeInd.
Context (P : node → Prop).
Context (HI : ∀ name, P (Ident name))
        (HS : ∀ X Sel, P X → P (SelectorExpr X Sel))
        (HX : ∀ X Index, P X → P Index → P (IndexExpr X Index))
        (HL : ∀ X Indices, P X → Forall P Indices → P (IndexListExpr X Indices))
        (HP : ∀ X, P X → P (ParenExpr X))
        (HC : ∀ pos Fun Args, P Fun → Forall P Args → P (CallExpr pos Fun Args))
        (HO : ∀ children, Forall P children → P (OtherNode children)).

Fixpoint node_ind' (n : node) : P n :=
  let all := fix all (l : list node) : Forall P l :=
    match l with
    | [] => Forall_nil_2 P
    | n :: l => Forall_cons_2 P n l (node_ind' n) (all l)
    end in
  match n with
  | Ident name => HI name
  | SelectorExpr X Sel => HS X Sel (node_ind' X)
  | IndexExpr X Index => HX X Index (node_ind' X) (node_ind' Index)
  | IndexListExpr X Indices => HL X Indices (node_ind' X) (all Indices)
  | ParenExpr X => HP X (node_ind' X)
  | CallExpr pos Fun Args => HC pos Fun Args (node_ind' Fun) (all Args)
  | OtherNode children => HO children (all children)
  end.
End NodeInd.

Lemma elem_concat_map {A B} (f : A → list B) (l : list A) y : y ∈ concat (map f l) ↔ ∃ x, x ∈ l ∧ y ∈ f x.
Proof.
  induction l as [|x l IH]; cbn; [set_solver|]. rewrite elem_of_app, IH. set_solver.
Qed.

Lemma nodes_subterm m n : m ∈ nodes n ↔ subterm m n.
Proof.
  split.
  - assert (Hl : ∀ l, Forall (λ n, m ∈ nodes n → subterm m n) l → m ∈ concat (map nodes l) →
              ∃ n, n ∈ l ∧ subterm m n).
    { intros l Hl [x [Hx Hm]]%elem_concat_map. exists x. split; [done|].
      by apply (proj1 (Forall_forall _ _) Hl x Hx). }
    induction n as [name|X Sel IH|X Index IH1 IH2|X Is IH IHs|X IH|pos Fun Args IH IHs|cs IHs]
      using node_ind'; cbn; intros [->|H]%elem_of_cons; try apply st_refl.
    + by apply elem_of_nil in H.
    + apply st_sel; eauto.
    + apply elem_of_app in H as [H|H]; [apply st_index|apply st_index_arg]; eauto.
    + apply elem_of_app in H as [H|H]; [apply st_list; eauto|].
      destruct (Hl _ IHs H) as (x & ? & ?). by eapply st_list_arg.
    + apply st_paren; eauto.
    + apply elem_of_app in H as [H|H]; [apply st_fun; eauto|].
      destruct (Hl _ IHs H) as (x & ? & ?). by eapply st_arg.
    + destruct (Hl _ IHs H) as (x & ? & ?). by eapply st_other.
  - induction 1; cbn; rewrite ?elem_of_cons, ?elem_of_app, ?elem_concat_map; eauto.
    destruct m; cbn; by rewrite elem_of_cons; left.
Qed.

Lemma isRegistryNewCall_spec expr alias : isRegistryNewCall expr alias = true ↔ new_ref alias expr.
Proof.
  split.
  - induction expr as [| X _ Sel |X IH1 Index IH2|X IH Is| | |]; cbn; try done.
    + destruct X; cbn; try done. intros [H1 H2]%andb_true_iff.
      apply bool_decide_eq_true in H1, H2. subst. constructor.
    + intros H. constructor. eauto.
    + intros H. constructor. eauto.
  - induction 1; cbn; [|done..]. by rewrite !bool_decide_eq_true_2.
Qed.

Lemma localAlias_spec f alias : localAlias f = alias ∧ alias ≠ "" ↔ imported_as f alias.
Proof.
  unfold localAlias, imported_as. destruct f as [imports decls]. cbn. induction imports as [|imp imports IH]; cbn.
  - split; [by intros [<- ?]|]. by intros ([] & ? & ? & ? & _).
  - destruct (decide (Path imp = enclose dquote registryPkgPath)) as [E|E].
    + unfold localAlias_of. split.
      * intros [Ha Hne]. exists [], imp, imports. split; [done|]. split; [constructor|]. split; [done|].
        destruct (Name imp) as [n|]; cbn in *; [|by subst].
        case_bool_decide as Hn; [by subst alias|]. subst alias. split_and!; [done|naive_solver..].
      * intros (pre & imp' & post & Hi & Hpre & Hp & Ha & H1 & H2 & H3).
        destruct pre as [|i pre]; [|simplify_eq/=; apply Forall_cons in Hpre as [? _]; done].
        injection Hi as <- <-. split; [|done]. destruct (Name imp); cbn in *; [|done].
        subst. rewrite bool_decide_eq_false_2; naive_solver.
    + rewrite IH. split; intros (pre & imp' & post & Hi & Hpre & Hrest).
      * exists (imp :: pre), imp', post. rewrite Hi. split; [done|]. split; [by constructor|done].
      * destruct pre as [|i pre]; simplify_eq/=; [by destruct Hrest as [? _]|].
        apply Forall_cons in Hpre as [_ Hpre]. eauto 10.
Qed.

Lemma str_len_app s t : str_len (s +:+ t) = str_len s + str_len t.
Proof.
  unfold str_len. induction s as [|c s IH]; [done|].
  change (String c s +:+ t) with (String c (s +:+ t)). cbn [String.length]. lia.
Qed.

Lemma allowed_spec pkgPath : allowed pkgPath = true ↔ inside pkgPath.
Proof.
  unfold allowed, inside. rewrite orb_true_iff, andb_true_iff, bool_decide_eq_true, HasPrefix_iff, Z.ltb_lt.
  split; (intros [H|H]; [by left|right]).
  - destruct H as [Hl [t ->]]. exists t. split; [|done]. rewrite str_len_app in Hl.
    intros ->. unfold str_len in Hl at 3. cbn in Hl. lia.
  - destruct H as (t & Ht & ->). rewrite str_len_app. split; [|by exists t].
    destruct t; [done|]. unfold str_len at 3. cbn [String.length]. lia.
Qed.

(** What is reported. *)
Lemma Check_mem (f : File) (pkgPath : string) (p : Z) :
  p ∈ Pos <$> Check f pkgPath ↔
    ¬ inside pkgPath ∧ ∃ alias Fun Args d, imported_as f alias ∧ new_ref alias Fun ∧
      d ∈ Decls f ∧ subterm (CallExpr p Fun Args) d.
Proof.
  unfold Check. destruct (allowed pkgPath) eqn:Ea.
  { apply allowed_spec in Ea. cbn. split; [by intros []%elem_of_nil|by intros [? _]]. }
  assert (Hi : ¬ inside pkgPath) by (rewrite <- allowed_spec; congruence).
  cbn zeta. case_bool_decide as Hal.
  { split; [by intros []%elem_of_nil|]. intros (_ & alias & _ & _ & _ & Him & _).
    apply localAlias_spec in Him as [? ?]. congruence. }
  rewrite list_elem_of_fmap. unfold Inspect. split.
  + intros (v & -> & Hv). apply list_elem_of_In, in_flat_map in Hv as (n & Hn & Hv).
    apply list_elem_of_In in Hn, Hv. split; [done|].
    destruct n as [| | | | |pos Fun Args|]; cbn in Hv; try by apply elem_of_nil in Hv.
    destruct (isRegistryNewCall Fun (localAlias f)) eqn:E; [|by apply elem_of_nil in Hv].
    apply list_elem_of_singleton in Hv as ->. apply isRegistryNewCall_spec in E.
    cbn in Hn. apply elem_of_cons in Hn as [?|Hn]; [done|].
    apply elem_concat_map in Hn as (d & Hd & Hn%nodes_subterm).
    exists (localAlias f), Fun, Args, d. split_and!; try done. by apply localAlias_spec.
  + intros (_ & alias & Fun & Args & d & Him & Hr & Hd & Hs).
    apply localAlias_spec in Him as [<- _]. exists (mkViolation p bypass_message). split; [done|].
    apply list_elem_of_In, in_flat_map. exists (CallExpr p Fun Args). split.
    * apply list_elem_of_In. cbn. apply elem_of_cons. right. apply elem_concat_map.
      exists d. by rewrite nodes_subterm.
    * apply isRegistryNewCall_spec in Hr. cbn. rewrite Hr. by left.
Qed.

(** C19 The rule against its statement: outside the registry's packages exactly the
    calls of [alias.New] are reported, with or without type arguments, wherever
    they stand in the file, each once and in the order of the source, where the
    alias is the name of the file's first import of the registry; a file inside
    the registry's packages, or whose first import of it is blank or dotted, is
    clean. *)
Theorem Check_equiv (f : File) (pkgPath : string) (p : Z) :
  (p ∈ Pos <$> Check f pkgPath ↔
     ¬ inside pkgPath ∧ ∃ alias Fun Args d, imported_as f alias ∧ new_ref alias Fun ∧
       d ∈ Decls f ∧ subterm (CallExpr p Fun Args) d) ∧
  ∀ alias, ¬ inside pkgPath → imported_as f alias →
    Pos <$> Check f pkgPath =
    omap (λ n, match n with
               | CallExpr pos Fun _ => if isRegistryNewCall Fun alias then Some pos else None
               | _ => None
               end) (concat (map nodes (Decls f))).
Proof.
  split.
  - apply Check_mem.
  - intros alias Hi Him. unfold Check.
    destruct (allowed pkgPath) eqn:Ea; [by apply allowed_spec in Ea|].
    apply localAlias_spec in Him as [-> Hne]. cbn zeta. rewrite bool_decide_eq_false_2 by done.
    unfold Inspect. cbn [nodes flat_map visit app].
    induction (concat (map nodes (Decls f))) as [|n ns IH]; [done|].
    cbn [flat_map omap list_omap]. rewrite fmap_app, IH.
    destruct n; cbn; try done. by destruct (isRegistryNewCall _ _).
Qed.

(** *** What the rule does not see

    What Go makes a reference to the registry's [New], given the imports: a
    qualified name under any import of the package, the bare name under a dot
    import, possibly instantiated and in parentheses; the path of an import may
    also be a raw string. *)
Definition imports_registry (imp : ImportSpec) : Prop :=
  Path imp = enclose dquote registryPkgPath ∨ Path imp = enclose backquote registryPkgPath.

Inductive go_new (f : File) : node → Prop :=
| gn_sel imp alias : imp ∈ Imports f → imports_registry imp → alias = default "registry" (Name imp) →
    alias ≠ "_" → alias ≠ "." → go_new f (SelectorExpr (Ident alias) "New")
| gn_dot imp : imp ∈ Imports f → imports_registry imp → Name imp = Some "." → go_new f (Ident "New")
| gn_index X Index : go_new f X → go_new f (IndexExpr X Index)
| gn_list X Indices : go_new f X → go_new f (IndexListExpr X Indices)
| gn_paren X : go_new f X → go_new f (ParenExpr X).

Lemma new_ref_go f alias e : imported_as f alias → new_ref alias e → go_new f e.
Proof.
  intros (pre & imp & post & Hi & _ & Hp & Ha & H1 & H2 & _).
  induction 1; [|by constructor..].
  apply (gn_sel f imp alias); [|by left|done..]. rewrite Hi. set_solver.
Qed.

Definition actor : string := "github.com/dashfabric/fm/pkg/actor".
Definition plain_import : ImportSpec := mkImport (enclose dquote registryPkgPath) None.
Definition new_call (pos : Z) (Fun : node) : node := CallExpr pos Fun [OtherNode []].
Definition qualified : node := SelectorExpr (Ident "registry") "New".
Definition instance (X : node) : node := IndexListExpr X [Ident "string"; Ident "int"].

(** The plain call is reported; in parentheses, under a dot import, under an
    import written as a raw string, or under a second import after a blank one,
    the same call is not. *)
Definition reported : File := mkFile [plain_import] [new_call 40 (instance qualified)].
Definition parenthesised : File := mkFile [plain_import] [new_call 40 (ParenExpr (instance qualified))].
Definition dotted : File :=
  mkFile [mkImport (enclose dquote registryPkgPath) (Some ".")] [new_call 40 (instance (Ident "New"))].
Definition raw_import : File :=
  mkFile [mkImport (enclose backquote registryPkgPath) None] [new_call 40 (instance qualified)].
Definition blank_first : File :=
  mkFile [mkImport (enclose dquote registryPkgPath) (Some "_"); plain_import] [new_call 40 (instance qualified)].

(** The rule is sound but not complete.  Whatever it reports calls the
    registry's [New] as Go resolves names by imports; but four files that call it
    outside the registry's packages pass: with the function in parentheses, under
    a dot import, with the import path as a raw string, and with a blank import of
    the package before the one used. *)
Theorem Check_bypassed :
  (∀ f pkgPath p, p ∈ Pos <$> Check f pkgPath →
     ¬ inside pkgPath ∧ ∃ Fun Args d, go_new f Fun ∧ d ∈ Decls f ∧ subterm (CallExpr p Fun Args) d) ∧
  ∀ f, f ∈ [parenthesised; dotted; raw_import; blank_first] →
    ¬ inside actor ∧ (∃ Fun Args, go_new f Fun ∧ Decls f = [CallExpr 40 Fun Args]) ∧ Check f actor = [].
Proof.
  split.
  - intros f pkgPath p (Hi & alias & Fun & Args & d & Him & Hr & Hd & Hs)%Check_mem.
    split; [done|]. exists Fun, Args, d. eauto using new_ref_go.
  - intros f Hf.
    assert (Hout : ¬ inside actor) by (rewrite <- allowed_spec; by vm_compute). split; [done|].
    rewrite !elem_of_cons, elem_of_nil in Hf.
    destruct Hf as [->|[->|[->|[->|[]]]]]; (split; [do 2 eexists; split; [|reflexivity]|reflexivity]).
    + apply gn_paren, gn_list. by eapply (gn_sel _ plain_import); [left|left|done..].
    + apply gn_list. by eapply gn_dot; [left|left|].
    + apply gn_list. by eapply gn_sel; [left|right|done..].
    + apply gn_list. by eapply (gn_sel _ plain_import); [right; left|left|done..].
Qed.

Example reported_once : Pos <$> Check reported actor = [40]. Proof. reflexivity. Qed.
Example reported_inside :
  Check reported "github.com/dashfabric/fm/pkg/registry/vnet" = [] ∧ Check reported registryPkgPath = [] ∧
  length (Check reported "github.com/dashfabric/fm/pkg/registry/") = 1%nat.
Proof. done. Qed.

End Rule.

(** ** main.go *)

Module Tool.

(** *** Paths, as on Unix *)

Fixpoint join_with (sep : string) (parts : list string) : string :=
  match parts with
  | [] => ""
  | [p] => p
  | p :: parts => p +:+ sep +:+ join_with sep parts
  end.

(** The stack of [filepath.Clean], top first. *)
Definition clean_step (rooted : bool) (stack : list string) (part : string) : list string :=
  if bool_decide (part = "" ∨ part = ".") then stack
  else if bool_decide (part = "..") then
    match stack with
    | top :: rest => if bool_decide (top = "..") then part :: stack else rest
    | [] => if rooted then [] else [part]
    end
  else part :: stack.

Definition Clean (path : string) : string :=
  let rooted := HasPrefix path "/" in
  let out := join_with "/" (rev (fold_left (clean_step rooted) (Split path slash) [])) in
  if rooted then "/" +:+ out else if bool_decide (out = "") then "." else out.

(** [filepath.Join(dir, name)] of a clean directory and one component. *)
Definition Join (dir name : string) : string :=
  if bool_decide (dir = ".") then name
  else if bool_decide (dir = "/") then "/" +:+ name
  else dir +:+ "/" +:+ name.

(** The name an [Lstat] gives: the last component. *)
Definition base_name (path : string) : string :=
  match rev (List.filter (λ p, negb (bool_decide (p = ""))) (Split path slash)) with
  | p :: _ => p
  | [] => if bool_decide (path = "") then "" else "/"
  end.

Example clean_text :
  map Clean ["a/./b//c/"; "./x"; "../y/.."; "/.."; ""; "/a/b/../c"] = ["a/b/c"; "x"; ".."; "/"; "."; "/a/c"].
Proof. vm_compute. done. Qed.

(** *** The file system

    A directory may not be readable; its entries come in lexical order. *)
Inductive entry : Type :=
| EFile (name : string)
| EDir (name : string) (content : result (list entry)).

Definition goFileFilter (name : string) : bool := negb (HasSuffix name "_test.go").

(** [ParseDir dir filter]: the packages of a directory, each with its files, of
    the files whose name passes the filter. *)
Record env : Type := mkEnv {
  Getwd : result string;
  Lstat : string → result entry;
  ReadFile : string → result string;
  ParseDir : string → (string → bool) → result (list (list Rule.File))
}.

Definition skipped (name : string) : bool := bool_decide (name = "vendor") || HasPrefix name ".".

Definition go_source (name : string) : bool := HasSuffix name ".go" && negb (HasSuffix name "_test.go").

(** The walk below [path], whose own name is [name]; [dir] is the directory it is
    in, [seen] the keys of the map, each once. *)
Fixpoint walk (dir path : string) (e : entry) (seen : list string) : list string * option error :=
  match e with
  | EFile name =>
      (if go_source name && negb (bool_decide (dir ∈ seen)) then seen ++ [dir] else seen, None)
  | EDir name content =>
      if skipped name then (seen, None)
      else
        match content with
        | Err err => (seen, Some err)
        | Ok entries =>
            (fix entries_ (l : list entry) (seen : list string) : list string * option error :=
               match l with
               | [] => (seen, None)
               | e :: l =>
                   let name := match e with EFile n | EDir n _ => n end in
                   match walk path (Join path name) e seen with
                   | (seen, Some err) => (seen, Some err)
                   | (seen, None) => entries_ l seen
                   end
               end) entries seen
        end
  end.

(** The directory part of a path, clean. *)
Definition Dir (path : string) : string :=
  Clean (join_with "/" (rev (tail (rev (Split path slash)))) +:+
         (if (1 <? length (Split path slash))%nat then "/" else "")).

Section Tool.
(** The order of the iteration over the map of directories. *)
Context (iter : list string → list string) (E : env).

Definition walkGoPackageDirs (root : string) : list string * option error :=
  match Lstat E root with
  | Err err => ([], Some err)
  | Ok e => let '(seen, err) := walk (Dir root) (Clean root) e [] in (iter seen, err)
  end.

Fixpoint expandArgs (args : list string) : result (list string) :=
  match args with
  | [] => Ok []
  | arg :: args =>
      dirs ← (if bool_decide (arg = "./...") || HasSuffix arg "/..." then
                let root := TrimPrefix (TrimSuffix arg "/...") "./" in
                root ← (if bool_decide (root = "" ∨ root = ".") then Getwd E else Ok root);
                match walkGoPackageDirs root with
                | (_, Some err) => Err err
                | (walked, None) => Ok walked
                end
              else Ok [arg]);
      rest ← expandArgs args;
      Ok (dirs ++ rest)
  end.

(** The module path of a go.mod, if a line declares it. *)
Fixpoint module_line (lines : list string) : option string :=
  match lines with
  | [] => None
  | line :: lines =>
      let line := TrimSpace line in
      if HasPrefix line "module " then Some (TrimSpace (TrimPrefix line "module ")) else module_line lines
  end.

Definition newline : Ascii.ascii := Ascii.Ascii false true false true false false false false.

(** An absolute clean path is the list of its components; here in reverse. *)
Definition abs_path (rcomps : list string) : string := "/" +:+ join_with "/" (rev rcomps).

Definition module_of (rcomps : list string) : option string :=
  match ReadFile E (Join (abs_path rcomps) "go.mod") with
  | Ok data => module_line (Split data newline)
  | Err _ => None
  end.

(** Up to the root of the file system, which is its own parent. *)
Fixpoint findModuleRoot (rcomps : list string) : option (list string * string) :=
  match module_of rcomps with
  | Some modPath => Some (rcomps, modPath)
  | None =>
      match rcomps with
      | [] => None
      | _ :: parent => findModuleRoot parent
      end
  end.

(** [filepath.Abs]: the components, in reverse. *)
Definition Abs (dir : string) : result (list string) :=
  if HasPrefix dir "/" then Ok (fold_left (clean_step true) (Split dir slash) [])
  else wd ← Getwd E; Ok (fold_left (clean_step true) (Split wd slash ++ Split dir slash) []).

(** [abs] is under the root of its module, so the relative path is the rest of
    its components. *)
Definition dirToImportPath (dir : string) : string :=
  match Abs dir with
  | Err _ => dir
  | Ok abs =>
      match findModuleRoot abs with
      | None => dir
      | Some (modRoot, modPath) =>
          let rel := rev (take (length abs - length modRoot) abs) in
          match rel with
          | [] => modPath
          | _ => modPath +:+ "/" +:+ join_with "/" rel
          end
      end
  end.

(** What the tool prints for a directory, and whether it could be parsed. *)
Definition lint_dir (dir : string) : result (list Rule.Violation) :=
  pkgs ← ParseDir E dir goFileFilter;
  Ok (concat (map (λ f, Rule.Check f (dirToImportPath dir)) (concat pkgs))).

Fixpoint lint_dirs (dirs : list string) : list Rule.Violation * option error :=
  match dirs with
  | [] => ([], None)
  | dir :: dirs =>
      match lint_dir dir with
      | Err err => ([], Some err)
      | Ok vs => let '(rest, err) := lint_dirs dirs in (vs ++ rest, err)
      end
  end.

(** What is printed, and the exit code. *)
Definition main (args : list string) : list Rule.Violation * Z :=
  let args := match args with [] => ["."] | _ => args end in
  match expandArgs args with
  | Err _ => ([], 2)
  | Ok dirs =>
      match lint_dirs dirs with
      | (vs, Some _) => (vs, 2)
      | (vs, None) => (vs, match vs with [] => 0 | _ => 1 end)
      end
  end.

(** *** Lemmas *)

Lemma lint_dirs_spec dirs :
  match lint_dirs dirs with
  | (vs, None) => ∃ vss, Forall2 (λ d v, lint_dir d = Ok v) dirs vss ∧ vs = concat vss
  | (_, Some err) => ∃ dir, dir ∈ dirs ∧ lint_dir dir = Err err
  end.
Proof.
  induction dirs as [|dir dirs IH]; cbn; [by exists []; split; [constructor|]|].
  destruct (lint_dir dir) as [vs|err] eqn:Ed; [|by exists dir; split; [left|]].
  destruct (lint_dirs dirs) as [rest [err|]].
  - destruct IH as (d & Hd & He). exists d. split; [by right|done].
  - destruct IH as (vss & Hf & ->). exists (vs :: vss). split; [by constructor|done].
Qed.

(** The nearest directory at or above whose go.mod declares a module. *)
Lemma findModuleRoot_spec rcomps :
  match findModuleRoot rcomps with
  | Some (root, modPath) =>
      ∃ below, rcomps = below ++ root ∧ module_of root = Some modPath ∧
        ∀ i, (i < length below)%nat → module_of (drop i rcomps) = None
  | None => ∀ i, module_of (drop i rcomps) = None
  end.
Proof.
  induction rcomps as [|c rcomps IH].
  - cbn. destruct (module_of []) as [m|] eqn:Em; [by exists []; split_and!; [..|cbn; lia]|]. by intros [|i].
  - change (findModuleRoot (c :: rcomps)) with
      (match module_of (c :: rcomps) with Some m => Some (c :: rcomps, m) | None => findModuleRoot rcomps end).
    destruct (module_of (c :: rcomps)) as [m|] eqn:Em; [by exists []; split_and!; [..|cbn; lia]|].
    destruct (findModuleRoot rcomps) as [[root m]|]; [|by intros [|i]; [|apply IH]].
    destruct IH as (below & -> & Hm & Hn). exists (c :: below). split_and!; [done..|].
    intros [|i] Hi; [done|]. apply Hn. cbn in Hi. lia.
Qed.

(** C37 The exit codes.  The tool exits with 2 exactly when the arguments cannot be
    expanded or some directory does not parse; otherwise with 0 when every file of
    every directory is clean under the rule, and with 1 - having printed exactly
    the violations, in order - when some file is not. *)
Theorem main_exit_codes (args : list string) :
  let '(printed, code) := main args in
  let args' := match args with [] => ["."] | _ => args end in
  match expandArgs args' with
  | Err _ => code = 2
  | Ok dirs =>
      (code = 2 ↔ ∃ dir err, dir ∈ dirs ∧ ParseDir E dir goFileFilter = Err err) ∧
      (code ≠ 2 → ∃ pkgs, Forall2 (λ dir ps, ParseDir E dir goFileFilter = Ok ps) dirs pkgs ∧
         printed = concat (zip_with (λ dir ps,
                     concat (map (λ f, Rule.Check f (dirToImportPath dir)) (concat ps))) dirs pkgs) ∧
         code = (if bool_decide (printed = []) then 0 else 1))
  end.
Proof.
  unfold main. set (args' := match args with [] => ["."] | _ => args end). cbv zeta.
  destruct (expandArgs args') as [dirs|err]; [|done].
  pose proof (lint_dirs_spec dirs) as H. destruct (lint_dirs dirs) as [vs [err|]].
  - destruct H as (dir & Hd & He). split; [|done]. split; [intros _|done].
    unfold lint_dir in He. destruct (ParseDir E dir goFileFilter) as [ps|err'] eqn:Ep; [done|]. by exists dir, err'.
  - destruct H as (vss & Hf & ->). assert (Hlint : ∃ pkgs, Forall2 (λ dir ps, ParseDir E dir goFileFilter = Ok ps) dirs pkgs ∧
      vss = zip_with (λ dir ps, concat (map (λ f, Rule.Check f (dirToImportPath dir)) (concat ps))) dirs pkgs).
    { induction Hf as [|dir v dirs vss Hv _ (pkgs & Hp & ->)]; [by exists []; split; [constructor|]|].
      unfold lint_dir in Hv. destruct (ParseDir E dir goFileFilter) as [ps|] eqn:Ep; [|done]. injection Hv as <-.
      exists (ps :: pkgs). split; [by constructor|done]. }
    destruct Hlint as (pkgs & Hp & ->). set (printed := concat _).
    assert (Hcode : (match printed with [] => 0 | _ => 1 end) = (if bool_decide (printed = []) then 0 else 1))
      by (destruct printed; done).
    split; [|eauto]. split.
    + rewrite Hcode. by case_bool_decide.
    + intros (dir & err & Hd & He). apply list_elem_of_lookup in Hd as [i Hi].
      eapply Forall2_lookup_l in Hp as (ps & _ & Hps); [|done]. congruence.
Qed.

End Tool.

(** A module at /m with a package that bypasses the registry, one inside it, and a
    hidden directory. *)
Definition demo_tree : entry :=
  EDir "m" (Ok [EFile "go.mod"; EDir ".git" (Ok [EFile "x.go"]); EDir "a" (Ok [EFile "a.go"; EFile "b.go"]);
                EDir "pkg" (Ok [EDir "registry" (Ok [EDir "vnet" (Ok [EFile "v.go"; EFile "v_test.go"])])]);
                EDir "t" (Ok [EFile "t_test.go"])]).
Definition demo_env : env :=
  mkEnv (Ok "/m") (λ p, if bool_decide (p = "/m") then Ok demo_tree
                        else if bool_decide (p = "..") then Ok (EDir ".." (Ok [EFile "bad.go"]))
                        else Err (Errorf "no such file"))
    (λ p, if bool_decide (p = "/m/go.mod") then Ok ("module github.com/dashfabric/fm" +:+ String newline "go 1.22")
          else Err (Errorf "no such file"))
    (λ _ _, Ok [[Rule.reported]]).

(** The walk finds the packages, not the hidden or test-only directories; the
    package outside the registry is reported; an argument whose last component
    starts with a dot is skipped altogether, and the tool exits with 0. *)
Example demo_tool :
  walkGoPackageDirs id demo_env "/m" = (["/m/a"; "/m/pkg/registry/vnet"], None) ∧
  dirToImportPath demo_env "./pkg/registry/vnet" = "github.com/dashfabric/fm/pkg/registry/vnet" ∧
  main id demo_env ["./..."] = ([Rule.mkViolation 40 Rule.bypass_message], 1) ∧
  main id demo_env ["../..."] = ([], 0) ∧ main id demo_env ["nowhere/..."] = ([], 2).
Proof. vm_compute. done. Qed.

End Tool.
