(* ===== verification/FmTestutil.v ===== *)
(** * The Fabric Manager's test support

    [src/src/FM/pkg/testutil]: replicas and a discovery to test against
    ([mocks.go], [errors.go]).  A replica is an object tests share, so the
    discovery holds pointers to it, locations of a store.  The random source and
    the clock are arguments; a sleep changes nothing. *)

From S2P Require Import Prelude GoFloat.

(** ** errors.go *)

Definition ErrReplicaCrashed : error := Errorf "replica crashed".
Definition ErrReplicaFailed : error := Errorf "replica failed".
Definition ErrTimeout : error := Errorf "timeout".
Definition ErrNotFound : error := Errorf "not found".

(** ** MockReplica *)

(** The payload's values are of any type. *)
Record MockEvent {V : Type} : Type := mkMockEvent {
  me_ID : string;
  me_VnetID : string;
  me_Type : string;
  me_Timestamp : Time;
  me_Payload : gmap string V
}.

Record MockReplicaConfig : Type := mkMockConfig {
  FailureRate : f64;
  LatencyMs : Z;
  LatencyJitter : Z;
  Crash : bool;
  CrashAfterN : Z
}.

Record MockReplica : Type := mkMockReplica {
  ID : string;
  Config : MockReplicaConfig;
  Healthy : bool;
  requests : Z;
  errors : Z
}.

Definition NewMockReplica (id : string) (config : MockReplicaConfig) : MockReplica :=
  mkMockReplica id config true 0 0.

(** [rnd] is what [rand.Float64] returns. *)
Definition Program (rnd : f64) (m : MockReplica) : MockReplica * option error :=
  let requests := requests m +64 1 in
  if Crash (Config m) && (CrashAfterN (Config m) <? requests)
  then (mkMockReplica (ID m) (Config m) false requests (errors m +64 1), Some ErrReplicaCrashed)
  else if f_lt rnd (FailureRate (Config m))
  then (mkMockReplica (ID m) (Config m) (Healthy m) requests (errors m +64 1), Some ErrReplicaFailed)
  else (mkMockReplica (ID m) (Config m) (Healthy m) requests (errors m), None).

Record ReplicaHealth : Type := mkHealth {
  rh_Healthy : bool;
  Requests : Z;
  Errors : Z;
  LastUpdate : Time;
  ErrorRate : f64
}.

Definition Health (now : Time) (m : MockReplica) : ReplicaHealth :=
  mkHealth (Healthy m) (requests m) (errors m) now (f_div (f_of_Z (errors m)) (f_of_Z (requests m))).

Definition Reset (m : MockReplica) : MockReplica := mkMockReplica (ID m) (Config m) true 0 0.

(** ** MockDiscovery *)

Definition store : Type := gmap nat MockReplica.

Record MockDiscovery : Type := mkDiscovery { Replicas : gmap string nat }.

Definition NewMockDiscovery : MockDiscovery := mkDiscovery ∅.

Definition deref (s : store) (p : nat) : outcome MockReplica :=
  match (s : gmap nat MockReplica) !! p with
  | Some m => Ret m
  | None => Panic "invalid memory address or nil pointer dereference"
  end.

Definition AddReplica (s : store) (replica : nat) (m : MockDiscovery) : outcome MockDiscovery :=
  r ← deref s replica; Ret (mkDiscovery (<[ID r := replica]> (Replicas m))).

Definition RemoveReplica (id : string) (m : MockDiscovery) : MockDiscovery :=
  mkDiscovery (delete id (Replicas m)).

(** The loop, over the entries of the map in the order of its iteration. *)
Fixpoint healthy_of (s : store) (entries : list (string * nat)) : outcome (list nat) :=
  match entries with
  | [] => Ret []
  | (_, p) :: entries =>
      r ← deref s p; l ← healthy_of s entries; Ret (if Healthy r then p :: l else l)
  end.

Definition GetReplicas (s : store) (order : list (string * nat)) (m : MockDiscovery)
    : outcome (result (list nat)) :=
  l ← healthy_of s order; Ret (Ok l).

(** ** Assertions

    [t.Errorf] is called with the message they return, if any.  Values are of any
    type, nil or not; [neq] is Go's [!=] of two interfaces, which panics on types
    that cannot be compared; [fmt_v] formats one. *)

Section Assert.
Context {V : Type} (neq : option V → option V → outcome bool) (fmt_v : option V → string).

Definition AssertEqual (expected actual : option V) (msg : string) : outcome (option string) :=
  b ← neq expected actual;
  Ret (if b : bool
       then Some (msg +:+ ": expected " +:+ fmt_v expected +:+ ", got " +:+ fmt_v actual) else None).

Definition AssertTrue (condition : bool) (msg : string) : option string :=
  if negb condition then Some (msg +:+ ": expected true, got false") else None.

Definition AssertNil (value : option V) (msg : string) : option string :=
  match value with Some _ => Some (msg +:+ ": expected nil, got " +:+ fmt_v value) | None => None end.

Definition AssertNotNil (value : option V) (msg : string) : option string :=
  match value with None => Some (msg +:+ ": expected not nil, got nil") | Some _ => None end.

End Assert.

(** ** What the mock replica does *)

Fixpoint programs (rnds : list f64) (m : MockReplica) : MockReplica * list (option error) :=
  match rnds with
  | [] => (m, [])
  | rnd :: rnds =>
      let '(m, e) := Program rnd m in let '(m, es) := programs rnds m in (m, e :: es)
  end.

Lemma programs_config rnds m : Config (programs rnds m).1 = Config m ∧ ID (programs rnds m).1 = ID m.
Proof.
  revert m. induction rnds as [|rnd rnds IH]; intros m; [done|]. cbn [programs].
  assert (Config (Program rnd m).1 = Config m ∧ ID (Program rnd m).1 = ID m) as [H1 H2]
    by (unfold Program; by destruct (_ && _); [|destruct (f_lt _ _)]).
  destruct (Program rnd m) as [m1 e]. cbn [fst] in *. destruct (IH m1) as [H3 H4].
  destruct (programs rnds m1) as [m2 es]. cbn [fst] in *. by rewrite H3, H4.
Qed.

(** One request: the counters, and when it crashes. *)
Lemma Program_spec rnd m :
  let '(m', e) := Program rnd m in
  requests m' = requests m +64 1 ∧
  errors m' = match e with Some _ => errors m +64 1 | None => errors m end ∧
  (e = Some ErrReplicaCrashed ↔ Crash (Config m) = true ∧ CrashAfterN (Config m) < requests m +64 1) ∧
  Healthy m' = Healthy m && negb (Crash (Config m) && (CrashAfterN (Config m) <? requests m +64 1)).
Proof.
  unfold Program. destruct (Crash (Config m)); cbn [andb negb].
  - destruct (Z.ltb_spec (CrashAfterN (Config m)) (requests m +64 1)); cbn [requests errors Healthy].
    + by rewrite andb_false_r.
    + rewrite andb_true_r. destruct (f_lt _ _); split_and!; try done; split; [done|lia|done|lia].
  - rewrite andb_true_r. destruct (f_lt _ _); split_and!; try done; split; (done || by intros []).
Qed.

(** A replica that is to crash after [n] requests serves exactly [n], failing at
    its rate, and from then on every request crashes and its health is bad. *)
Lemma mock_crashes rnds (id : string) (config : MockReplicaConfig) i :
  Crash config = true → Z.of_nat (length rnds) ≤ int64_max → (i < length rnds)%nat →
  ((programs rnds (NewMockReplica id config)).2 !! i = Some (Some ErrReplicaCrashed) ↔
   CrashAfterN config ≤ Z.of_nat i).
Proof.
  intros Hc. assert (Hgen : ∀ m, Config m = config → 0 ≤ requests m →
    requests m + Z.of_nat (length rnds) ≤ int64_max → (i < length rnds)%nat →
    ((programs rnds m).2 !! i = Some (Some ErrReplicaCrashed) ↔ CrashAfterN config ≤ requests m + Z.of_nat i)).
  { revert i. induction rnds as [|rnd rnds IH]; intros i m Hm H0 Hl Hi; cbn [length] in *; [lia|].
    cbn [programs]. pose proof (Program_spec rnd m) as Hs. pose proof (programs_config [rnd] m) as [Hcfg _].
    cbn [programs] in Hcfg. destruct (Program rnd m) as [m1 e]. cbn [fst] in Hcfg.
    destruct Hs as (Hr & _ & He & _). rewrite Hm in He.
    rewrite wrap64_id in Hr, He by (unfold in_int64, int64_min, int64_max in *; lia).
    destruct (programs rnds m1) as [m2 es] eqn:E. destruct i as [|i]; cbn [snd lookup list_lookup].
    - split; [intros [= ->]; destruct (proj1 He eq_refl); lia|intros K; f_equal; apply He; split; [done|lia]].
    - specialize (IH i m1). rewrite E in IH. cbn [snd] in IH. rewrite IH, Hr; [lia|congruence|lia..]. }
  intros Hl Hi. rewrite (Hgen (NewMockReplica id config)); [done|done|done|cbn; lia|done].
Qed.

(** Before the first request the error rate is no number. *)
Example health_of_new id config now : ErrorRate (Health now (NewMockReplica id config)) = SpecFloat.S754_nan.
Proof. reflexivity. Qed.
