(* ===== verification/WvTypes.v ===== *)
(** * Weaver: replicas and requests

    [src/src/Weaver/pkg/gateway/types.go].  Replicas are shared objects: the
    gateway, the health monitor, the load balancer and discovery hold pointers to
    them.  They live in a store, and a pointer is a location of it; a pointer to
    nothing is nil, and dereferencing it panics. *)

From S2P Require Import Prelude GoFloat.

Record ReplicaMetrics : Type := mkMetrics {
  RequestCount : Z;
  ErrorCount : Z;
  TotalLatency : Z;
  LastCheckTime : Time;
  LastErrorTime : Time;
  AvgLatencyMs : Z;
  ConsecutiveErrors : Z
}.

Record Replica : Type := mkReplica {
  Name : string;
  Address : string;
  Healthy : bool;
  Metrics : ReplicaMetrics;
  ActiveConnections : Z
}.

Definition zero_metrics : ReplicaMetrics := mkMetrics 0 0 0 zero_time zero_time 0 0.

Inductive GatewayState : Type :=
| GatewayStateReady
| GatewayStateDegraded
| GatewayStatePanic.

#[export] Instance GatewayState_eq_dec : EqDecision GatewayState.
Proof. solve_decision. Defined.

Inductive HealthStatus : Type :=
| HealthStatusHealthy
| HealthStatusUnhealthy
| HealthStatusUnknown.

Inductive CircuitBreakerState : Type :=
| CircuitBreakerClosed
| CircuitBreakerOpen
| CircuitBreakerHalfOpen.

Record HealthCheckConfig : Type := mkHCConfig {
  hc_Type : string;
  Interval : Duration;
  Timeout : Duration;
  Path : string;
  Port : Z;
  hc_Method : string
}.

Record Request : Type := mkRequest {
  Method : string;
  Payload : string;
  Headers : gmap string string;
  TimeoutMs : Z;
  RequestID : string;
  ClientIP : string
}.

Record Response : Type := mkResponse {
  StatusCode : Z;
  r_Payload : string;
  r_Headers : gmap string string;
  LatencyMs : Z
}.

Record HealthCheckResult : Type := mkHCResult {
  hr_Healthy : bool;
  ResponseTimeMs : Z;
  hr_Error : string;
  CheckedAt : Time
}.

Record RequestContext : Type := mkReqCtx {
  rc_RequestID : string;
  rc_ClientIP : string;
  rc_ClientPort : string;
  rc_Method : string;
  rc_Deadline : Time;
  rc_Replica : option nat;
  StartTime : Time;
  rc_Attempt : Z;
  MaxAttempts : Z;
  TraceID : string;
  SpanID : string
}.

(** ** The store of replicas *)

Definition store : Type := gmap nat Replica.

Definition nil_deref : string := "runtime error: invalid memory address or nil pointer dereference".

Definition load (s : store) (l : nat) : outcome Replica :=
  match (s : gmap nat Replica) !! l with Some r => Ret r | None => Panic nil_deref end.

Definition set_metrics (r : Replica) (m : ReplicaMetrics) : Replica :=
  mkReplica (Name r) (Address r) (Healthy r) m (ActiveConnections r).

Definition set_active (r : Replica) (n : Z) : Replica :=
  mkReplica (Name r) (Address r) (Healthy r) (Metrics r) n.

Definition set_healthy (r : Replica) (b : bool) : Replica :=
  mkReplica (Name r) (Address r) b (Metrics r) (ActiveConnections r).

(** ** Methods of Replica *)

Definition RecordSuccess (now : Time) (latency : Duration) (r : Replica) : Replica :=
  let m := Metrics r in
  set_metrics r (mkMetrics (RequestCount m +64 1) (ErrorCount m) (TotalLatency m +64 latency)
    now (LastErrorTime m) (AvgLatencyMs m) 0).

Definition RecordError (now : Time) (r : Replica) : Replica :=
  let m := Metrics r in
  set_metrics r (mkMetrics (RequestCount m) (ErrorCount m +64 1) (TotalLatency m)
    (LastCheckTime m) now (AvgLatencyMs m) (wrap32 (ConsecutiveErrors m + 1))).

(** Go's [/] truncates towards zero. *)
Definition GetAverageLatency (r : Replica) : Duration :=
  if RequestCount (Metrics r) =? 0 then 0
  else wrap64 (Z.quot (TotalLatency (Metrics r)) (RequestCount (Metrics r))).

Definition GetErrorRate (r : Replica) : f64 :=
  if RequestCount (Metrics r) =? 0 then f_zero
  else f_mul (f_div (f_of_Z (ErrorCount (Metrics r))) (f_of_Z (RequestCount (Metrics r)))) (f_of_Z 100).

Definition ResetMetrics (r : Replica) : Replica :=
  let m := Metrics r in
  set_metrics r (mkMetrics 0 0 0 zero_time zero_time (AvgLatencyMs m) 0).

(** ** Theorems *)

(** A history of requests: [Some latency] a success, [None] an error. *)
Definition record (r : Replica) (e : Time * option Duration) : Replica :=
  match e.2 with
  | Some latency => RecordSuccess e.1 latency r
  | None => RecordError e.1 r
  end.

Definition history_count (f : option Duration → bool) (es : list (Time * option Duration)) : Z :=
  Z.of_nat (length (filter (λ e, f e.2 = true) es)).

Definition succeeded (o : option Duration) : bool := match o with Some _ => true | None => false end.

Lemma history_count_snoc f es e :
  history_count f (es ++ [e]) = history_count f es + (if f e.2 then 1 else 0).
Proof.
  unfold history_count. rewrite filter_app. destruct (f e.2) eqn:E.
  - rewrite filter_cons_True by done. rewrite length_app. simpl. lia.
  - rewrite filter_cons_False by congruence. rewrite filter_nil, app_nil_r. lia.
Qed.

(** The metrics of a replica count what happened since they were reset:
    requests are the successes and errors the errors (the total is not counted
    anywhere), the latency is the sum over the successes, and the average is
    that sum over the number of successes. *)
Theorem metrics_count (r : Replica) (es : list (Time * option Duration))
    (Hn : Z.of_nat (length es) ≤ int64_max) :
  let r' := fold_left record es (ResetMetrics r) in
  let sum := foldr Z.add 0 (omap snd es) in
  RequestCount (Metrics r') = history_count succeeded es ∧
  ErrorCount (Metrics r') = history_count (negb ∘ succeeded) es ∧
  TotalLatency (Metrics r') = wrap64 sum ∧
  (in_int64 sum → 0 < history_count succeeded es →
   GetAverageLatency r' = Z.quot sum (history_count succeeded es)).
Proof.
  assert (RequestCount (Metrics (fold_left record es (ResetMetrics r))) = history_count succeeded es ∧
          ErrorCount (Metrics (fold_left record es (ResetMetrics r))) = history_count (negb ∘ succeeded) es ∧
          TotalLatency (Metrics (fold_left record es (ResetMetrics r))) =
            wrap64 (foldr Z.add 0 (omap snd es))) as (H1 & H2 & H3).
  { induction es as [|[t o] es IH] using rev_ind; [done|].
    rewrite length_app in Hn. simpl in Hn. destruct IH as (H1 & H2 & H3); [lia|].
    rewrite fold_left_app, !history_count_snoc, omap_app, foldr_app. simpl.
    assert (∀ f, 0 ≤ history_count f es ≤ Z.of_nat (length es)) as Hb.
    { intros f. unfold history_count.
      pose proof (length_filter (λ e : Time * option Duration, f e.2 = true) es). lia. }
    pose proof (Hb succeeded). pose proof (Hb (negb ∘ succeeded)).
    assert (∀ a b, foldr Z.add a (omap snd es) + b = foldr Z.add (a + b) (omap snd es)) as Hfold.
    { clear. intros a b. induction (omap snd es) as [|x l IH]; simpl; lia. }
    destruct o as [d|]; simpl; rewrite ?H1, ?H2, ?H3.
    - rewrite wrap64_id by (unfold in_int64, int64_min; lia). split; [lia|]. split; [lia|].
      rewrite wrap64_add_l, Hfold. f_equal. f_equal. lia.
    - rewrite wrap64_id by (unfold in_int64, int64_min; lia). split; [lia|]. split; [lia|done]. }
  cbv zeta. split; [done|]. split; [done|]. split; [done|]. intros Hs Hc.
  unfold GetAverageLatency. rewrite H1, H3, (wrap64_id _ Hs).
  destruct (_ =? 0) eqn:E; go_bool; [lia|].
  apply wrap64_id. unfold in_int64 in *.
  pose proof (Z.quot_abs (foldr Z.add 0 (omap snd es)) (history_count succeeded es) ltac:(lia)) as Hq.
  set (s := foldr Z.add 0 (omap snd es)) in *. set (c := history_count succeeded es) in *.
  destruct (Z.le_gt_cases 0 s).
  - pose proof (Z.quot_pos s c ltac:(lia) ltac:(lia)). pose proof (Z.quot_le_upper_bound s c s ltac:(lia) ltac:(nia)). unfold int64_min in *. lia.
  - replace s with (- (- s)) by lia. rewrite Z.quot_opp_l by lia.
    pose proof (Z.quot_pos (- s) c ltac:(lia) ltac:(lia)).
    pose proof (Z.quot_le_upper_bound (- s) c (- s) ltac:(lia) ltac:(nia)). unfold int64_max in *. lia.
Qed.

(** The error rate compares errors with successes, so it is no percentage. *)
Example error_rate_300 :
  let r := mkReplica "r" "a" true (mkMetrics 0 0 0 0 0 0 0) 0 in
  let r := fold_left record [(1, Some 10); (2, None); (3, None); (4, None)] r in
  GetErrorRate r = f_of_Z 300.
Proof. vm_compute. reflexivity. Qed.

Lemma metrics_count_witness :
  let r := mkReplica "r" "a" true zero_metrics 0 in
  let es := [(1, Some 10); (2, None); (3, Some 20)] in
  let r' := fold_left record es (ResetMetrics r) in
  RequestCount (Metrics r') = 2 ∧ ErrorCount (Metrics r') = 1 ∧ GetAverageLatency r' = 15.
Proof.
  destruct (metrics_count (mkReplica "r" "a" true zero_metrics 0)
    [(1, Some 10); (2, None); (3, Some 20)] ltac:(vm_compute; discriminate)) as (H1 & H2 & _ & H4).
  split; [exact H1|]. split; [exact H2|]. apply H4; [vm_compute; split; discriminate|vm_compute; reflexivity].
Defined.
