(* ===== verification/WvLoadBalancer.v ===== *)
(** * Weaver: load-balancing strategies

    [src/src/Weaver/pkg/loadbalancer/strategies.go].  A strategy selects one of
    the replicas it is given (pointers into the store); [LoadBalancer] is the
    interface the gateway uses, with what it promises. *)

From S2P Require Import Prelude GoFloat WvTypes.

(** What a strategy sees of the context: the client id, if it has one. *)
Abbreviation client := (option string) (only parsing).

(** A selection: the new state of the strategy, and the replica or the error; it
    may panic. *)
Definition selection (L : Type) : Type := (L * outcome (result nat))%type.

Class LoadBalancer (L : Type) : Type := {
  lb_Select : L → store → client → list nat → selection L;
  lb_UpdateLoad : L → store → nat → Z → store;
  lb_Rebalance : L → list nat → L
}.

(** The promise: no replicas is an error; a selected replica is one of them. *)
Class LoadBalancerLaws (L : Type) `{LoadBalancer L} : Prop := {
  lb_none l s c : (lb_Select l s c []).2 = Ret (Err (Errorf "no replicas available"));
  lb_member l s c rs l' r : lb_Select l s c rs = (l', Ret (Ok r)) → r ∈ rs
}.

Definition no_replicas : outcome (result nat) := Ret (Err (Errorf "no replicas available")).

(** [UpdateLoad] is the same in every built-in strategy; an atomic add. *)
Definition UpdateLoad (s : store) (replica : nat) (delta : Z) : store :=
  match (s : gmap nat Replica) !! replica with
  | Some r => <[replica := set_active r (ActiveConnections r +64 delta)]> (s : gmap nat Replica)
  | None => s
  end.

(** Index with the result as a selected replica. *)
Definition pick (rs : list nat) (i : Z) : outcome (result nat) := r ← go_index rs i; Ret (Ok r).

(** ** RoundRobin *)

Record RoundRobin : Type := mkRR { rr_counter : Z }.

Definition NewRoundRobin : RoundRobin := mkRR 0.

Definition RoundRobin_Select (rr : RoundRobin) (rs : list nat) : selection RoundRobin :=
  match rs with
  | [] => (rr, no_replicas)
  | _ =>
      let idx := Z.rem (rr_counter rr) (Z.of_nat (length rs)) in
      (mkRR (rr_counter rr +64 1), pick rs idx)
  end.

(** ** LeastConnections, ResourceAware *)

(** The scan both make: keep the first replica with the fewest connections. *)
Fixpoint scan_min (s : store) (rs : list nat) (selected : nat) (minLoad : Z) : outcome nat :=
  match rs with
  | [] => Ret selected
  | r :: rs =>
      x ← load s r;
      if ActiveConnections x <? minLoad then scan_min s rs r (ActiveConnections x)
      else scan_min s rs selected minLoad
  end.

Record LeastConnections : Type := mkLC {}.

Definition NewLeastConnections : LeastConnections := mkLC.

Definition LeastConnections_Select (lc : LeastConnections) (s : store) (rs : list nat)
    : selection LeastConnections :=
  match rs with
  | [] => (lc, no_replicas)
  | r0 :: rest => (lc, x ← load s r0; r ← scan_min s rest r0 (ActiveConnections x); Ret (Ok r))
  end.

Record ResourceAware : Type := mkRA {}.

Definition NewResourceAware : ResourceAware := mkRA.

Definition ResourceAware_Select (ra : ResourceAware) (s : store) (rs : list nat)
    : selection ResourceAware :=
  match rs with
  | [] => (ra, no_replicas)
  | r0 :: rest => (ra, x ← load s r0; r ← scan_min s rest r0 (ActiveConnections x); Ret (Ok r))
  end.

(** ** Weighted *)

Record Weighted : Type := mkW { weights : gmap string Z; w_counter : Z }.

Definition NewWeighted (weights : gmap string Z) : Weighted := mkW weights 0.

(** A missing or zero weight counts as one. *)
Definition weight_of (w : Weighted) (r : Replica) : Z :=
  let weight := default 0 (weights w !! Name r) in
  if weight =? 0 then 1 else weight.

Fixpoint total_weight (w : Weighted) (s : store) (rs : list nat) (total : Z) : outcome Z :=
  match rs with
  | [] => Ret total
  | r :: rs => x ← load s r; total_weight w s rs (total +64 weight_of w x)
  end.

(** The second loop; [None] if it runs to the end. *)
Fixpoint find_weighted (w : Weighted) (s : store) (rs : list nat) (target current : Z)
    : outcome (option nat) :=
  match rs with
  | [] => Ret None
  | r :: rs =>
      x ← load s r;
      let weight := weight_of w x in
      if target <? current +64 weight then Ret (Some r)
      else find_weighted w s rs target (current +64 weight)
  end.

(** The counter is incremented under the read lock, so that selections at the same
    time race for it; here they come one after the other. *)
Definition Weighted_Select (w : Weighted) (s : store) (rs : list nat) : selection Weighted :=
  match rs with
  | [] => (w, no_replicas)
  | r0 :: _ =>
      match total_weight w s rs 0 with
      | Panic e => (w, Panic e)
      | Ret totalWeight =>
          if totalWeight =? 0 then (w, Ret (Ok r0))
          else
            let w := mkW (weights w) (w_counter w +64 1) in
            let target := Z.rem (w_counter w) totalWeight in
            (w, found ← find_weighted w s rs target 0;
                match found with
                | Some r => Ret (Ok r)
                | None => pick rs (Z.of_nat (length rs) - 1)
                end)
      end
  end.

(** ** Random *)

Record Random : Type := mkRandom {}.

Definition NewRandom : Random := mkRandom.

(** The index is the value of a fresh, zero counter. *)
Definition Random_Select (r : Random) (rs : list nat) : selection Random :=
  match rs with
  | [] => (r, no_replicas)
  | _ =>
      let idx := Z.rem 0 (Z.of_nat (length rs)) in
      let idx := if idx <? 0 then - idx else idx in
      (r, pick rs idx)
  end.

(** ** Sticky *)

Record Sticky : Type := mkSticky { affinity : gmap string Z }.

Definition NewSticky : Sticky := mkSticky ∅.

Definition extractClientID (c : client) : string :=
  match c with Some id => id | None => "unknown" end.

(** djb2 over the runes, in a [uint64]; a rune converts to its code point. *)
Definition hash_step (hash ch : Z) : Z :=
  uwrap64 (uwrap64 (uwrap64 (Z.shiftl hash 5) + hash) + ch).

Definition hashClient (clientID : string) : Z := fold_left hash_step (runes clientID) 5381.

(** [int(hash)]: the same 64 bits, signed. *)
Definition int_of_uint64 (h : Z) : Z := wrap64 h.

Definition Sticky_Select (st : Sticky) (c : client) (rs : list nat) : selection Sticky :=
  match rs with
  | [] => (st, no_replicas)
  | _ =>
      let clientID := extractClientID c in
      let fresh :=
        let replicaIdx := Z.rem (int_of_uint64 (hashClient clientID)) (Z.of_nat (length rs)) in
        (mkSticky (<[clientID := replicaIdx]> (affinity st)), pick rs replicaIdx) in
      match affinity st !! clientID with
      | Some replicaIdx =>
          if replicaIdx <? Z.of_nat (length rs) then (st, pick rs replicaIdx) else fresh
      | None => fresh
      end
  end.

Definition Sticky_Rebalance (st : Sticky) (rs : list nat) : Sticky := mkSticky ∅.

(** ** CustomStrategy *)

(** The user's functions are arguments; either may be nil. *)
Record CustomStrategy : Type := mkCustom {
  selectFn : option (store → client → list nat → outcome (result nat));
  updateFn : option (store → nat → Z → store)
}.

Definition CustomStrategy_Select (cs : CustomStrategy) (s : store) (c : client) (rs : list nat)
    : selection CustomStrategy :=
  match selectFn cs with
  | None => (cs, Ret (Err (Errorf "custom select function not defined")))
  | Some f => (cs, f s c rs)
  end.

Definition CustomStrategy_UpdateLoad (cs : CustomStrategy) (s : store) (replica : nat) (delta : Z) : store :=
  match updateFn cs with Some f => f s replica delta | None => s end.

(** [NewCustomStrategy]; its [Rebalance] does nothing. *)
Definition NewCustomStrategy (selectFn : option (store → client → list nat → outcome (result nat)))
    (updateFn : option (store → nat → Z → store)) : CustomStrategy :=
  mkCustom selectFn updateFn.
Definition CustomStrategy_Rebalance (cs : CustomStrategy) (rs : list nat) : CustomStrategy := cs.

(** ** The loads and the rebalancing of the built-in strategies

    Each writes them out; only [Sticky] has something to rebalance. *)

Definition RoundRobin_UpdateLoad (l : RoundRobin) (s : store) (replica : nat) (delta : Z) : store := UpdateLoad s replica delta.
Definition RoundRobin_Rebalance (l : RoundRobin) (rs : list nat) : RoundRobin := l.
Definition LeastConnections_UpdateLoad (l : LeastConnections) (s : store) (replica : nat) (delta : Z) : store := UpdateLoad s replica delta.
Definition LeastConnections_Rebalance (l : LeastConnections) (rs : list nat) : LeastConnections := l.
Definition ResourceAware_UpdateLoad (l : ResourceAware) (s : store) (replica : nat) (delta : Z) : store := UpdateLoad s replica delta.
Definition ResourceAware_Rebalance (l : ResourceAware) (rs : list nat) : ResourceAware := l.
Definition Weighted_UpdateLoad (l : Weighted) (s : store) (replica : nat) (delta : Z) : store := UpdateLoad s replica delta.
Definition Weighted_Rebalance (l : Weighted) (rs : list nat) : Weighted := l.
Definition Random_UpdateLoad (l : Random) (s : store) (replica : nat) (delta : Z) : store := UpdateLoad s replica delta.
Definition Random_Rebalance (l : Random) (rs : list nat) : Random := l.
Definition Sticky_UpdateLoad (l : Sticky) (s : store) (replica : nat) (delta : Z) : store := UpdateLoad s replica delta.

(** ** The interface's instances *)

#[export] Instance RoundRobin_lb : LoadBalancer RoundRobin :=
  {| lb_Select l _ _ := RoundRobin_Select l; lb_UpdateLoad := RoundRobin_UpdateLoad; lb_Rebalance := RoundRobin_Rebalance |}.
#[export] Instance LeastConnections_lb : LoadBalancer LeastConnections :=
  {| lb_Select l s _ := LeastConnections_Select l s; lb_UpdateLoad := LeastConnections_UpdateLoad; lb_Rebalance := LeastConnections_Rebalance |}.
#[export] Instance ResourceAware_lb : LoadBalancer ResourceAware :=
  {| lb_Select l s _ := ResourceAware_Select l s; lb_UpdateLoad := ResourceAware_UpdateLoad; lb_Rebalance := ResourceAware_Rebalance |}.
#[export] Instance Weighted_lb : LoadBalancer Weighted :=
  {| lb_Select l s _ := Weighted_Select l s; lb_UpdateLoad := Weighted_UpdateLoad; lb_Rebalance := Weighted_Rebalance |}.
#[export] Instance Random_lb : LoadBalancer Random :=
  {| lb_Select l _ _ := Random_Select l; lb_UpdateLoad := Random_UpdateLoad; lb_Rebalance := Random_Rebalance |}.
#[export] Instance Sticky_lb : LoadBalancer Sticky :=
  {| lb_Select l _ := Sticky_Select l; lb_UpdateLoad := Sticky_UpdateLoad; lb_Rebalance := Sticky_Rebalance |}.
#[export] Instance CustomStrategy_lb : LoadBalancer CustomStrategy :=
  {| lb_Select := CustomStrategy_Select; lb_UpdateLoad := CustomStrategy_UpdateLoad;
     lb_Rebalance := CustomStrategy_Rebalance |}.

(** ** Lemmas *)

Lemma go_index_Ret {A} (l : list A) (i : Z) (x : A) : go_index l i = Ret x → x ∈ l.
Proof.
  unfold go_index. destruct (i <? 0); [done|].
  destruct (l !! Z.to_nat i) eqn:E; [|done]. intros [= <-]. by eapply list_elem_of_lookup_2.
Qed.

Lemma go_index_in {A} (l : list A) (i : Z) :
  0 ≤ i < Z.of_nat (length l) → ∃ x, l !! Z.to_nat i = Some x ∧ go_index l i = Ret x.
Proof.
  intros Hi. destruct (lookup_lt_is_Some_2 l (Z.to_nat i)) as [x Hx]; [lia|].
  exists x. split; [done|]. unfold go_index. by rewrite (proj2 (Z.ltb_ge _ _)), Hx by lia.
Qed.

Lemma pick_member rs i r : pick rs i = Ret (Ok r) → r ∈ rs.
Proof.
  unfold pick, mbind, outcome_bind. destruct (go_index rs i) eqn:E; [|done].
  intros [= <-]. by eapply go_index_Ret.
Qed.

Lemma scan_min_member s rs sel m r : scan_min s rs sel m = Ret r → r = sel ∨ r ∈ rs.
Proof.
  revert sel m. induction rs as [|r0 rs IH]; intros sel m; simpl; [intros [= ->]; auto|].
  unfold mbind, outcome_bind. destruct (load s r0); [|done].
  case_match; intros [?|?]%IH; set_solver.
Qed.

Lemma find_weighted_member w s rs t c r : find_weighted w s rs t c = Ret (Some r) → r ∈ rs.
Proof.
  revert c. induction rs as [|r0 rs IH]; intros c; simpl; [done|].
  unfold mbind, outcome_bind. destruct (load s r0); [|done].
  case_match; [intros [= <-]; set_solver|intros ?%IH; set_solver].
Qed.

Ltac lb_member :=
  repeat match goal with
  | H : pick _ _ = Ret (Ok _) |- _ => apply pick_member in H
  | H : scan_min _ _ _ _ = Ret _ |- _ => apply scan_min_member in H
  | H : find_weighted _ _ _ _ _ = Ret (Some _) |- _ => apply find_weighted_member in H
  end; set_solver.

#[export] Instance RoundRobin_laws : LoadBalancerLaws RoundRobin.
Proof. split; [done|]. intros l s c [|r0 rs] l' r; simpl; [done|]. intros [= _ Hp]. lb_member. Qed.
#[export] Instance LeastConnections_laws : LoadBalancerLaws LeastConnections.
Proof.
  split; [done|]. intros l s c [|r0 rs] l' r; simpl; [done|]. unfold mbind, outcome_bind.
  intros Hp. go_cases; lb_member.
Qed.
#[export] Instance ResourceAware_laws : LoadBalancerLaws ResourceAware.
Proof.
  split; [done|]. intros l s c [|r0 rs] l' r; simpl; [done|]. unfold mbind, outcome_bind.
  intros Hp. go_cases; lb_member.
Qed.
#[export] Instance Weighted_laws : LoadBalancerLaws Weighted.
Proof.
  split; [done|]. intros l s c [|r0 rs] l' r; [done|]. unfold lb_Select, Weighted_lb, Weighted_Select.
  unfold mbind, outcome_bind. intros Hp. destruct (total_weight l s (r0 :: rs) 0) as [t|]; [|done].
  destruct (t =? 0); [simplify_eq; set_solver|]. apply (f_equal snd) in Hp. cbn [snd] in Hp.
  destruct (find_weighted _ s (r0 :: rs) _ 0) as [[r'|]|] eqn:E; [|by apply pick_member in Hp|done].
  apply find_weighted_member in E. by simplify_eq.
Qed.
#[export] Instance Random_laws : LoadBalancerLaws Random.
Proof. split; [done|]. intros l s c [|r0 rs] l' r; [done|]. intros [= Hp]. lb_member. Qed.
#[export] Instance Sticky_laws : LoadBalancerLaws Sticky.
Proof.
  split; [done|]. intros l s c [|r0 rs] l' r; [done|]. simpl. intros Hp.
  go_cases; lb_member.
Qed.

(** ** Theorems *)

(** Successive selections from the same replicas. *)
Fixpoint selects {L} `{LoadBalancer L} (l : L) (s : store) (cs : list (option string)) (rs : list nat)
    : L * list (outcome (result nat)) :=
  match cs with
  | [] => (l, [])
  | c :: cs =>
      let '(l, r) := lb_Select l s c rs in
      let '(l, out) := selects l s cs rs in (l, r :: out)
  end.

Definition is_pick (r : nat) (o : outcome (result nat)) : bool :=
  match o with Ret (Ok r') => bool_decide (r' = r) | _ => false end.

(** How often [r] was picked. *)
Definition picks (r : nat) (out : list (outcome (result nat))) : Z :=
  Z.of_nat (length (filter (λ o, is_pick r o = true) out)).

Lemma picks_cons r o out : picks r (o :: out) = (if is_pick r o then 1 else 0) + picks r out.
Proof.
  unfold picks. destruct (is_pick r o) eqn:E.
  - rewrite filter_cons_True by done. simpl. lia.
  - rewrite filter_cons_False by congruence. lia.
Qed.

Lemma picks_app r o1 o2 : picks r (o1 ++ o2) = picks r o1 + picks r o2.
Proof. unfold picks. rewrite filter_app, length_app. lia. Qed.

Lemma picks_perm r o1 o2 : o1 ≡ₚ o2 → picks r o1 = picks r o2.
Proof. intros Hp. unfold picks. by rewrite Hp. Qed.

Lemma selects_app {L} `{LoadBalancer L} (l : L) s cs cs' rs :
  selects l s (cs ++ cs') rs =
  let '(l1, o1) := selects l s cs rs in let '(l2, o2) := selects l1 s cs' rs in (l2, o1 ++ o2).
Proof.
  revert l. induction cs as [|c cs IH]; intros l; simpl; [by destruct (selects l s cs' rs)|].
  destruct (lb_Select l s c rs) as [l1 o]. rewrite IH.
  destruct (selects l1 s cs rs) as [l2 o1]. by destruct (selects l2 s cs' rs).
Qed.

(** [n] consecutive numbers take every residue modulo [n] once. *)
Lemma residues_perm (k : Z) (n : nat) :
  0 ≤ k → map (λ i, Z.to_nat ((k + Z.of_nat i) mod Z.of_nat n)) (seq 0 n) ≡ₚ seq 0 n.
Proof.
  intros Hk. apply NoDup_Permutation_bis.
  - apply NoDup_ListNoDup, NoDup_fmap_2_strong; [|apply NoDup_seq].
    intros i j Hi%elem_of_seq Hj%elem_of_seq Heq.
    apply Z2Nat.inj in Heq; [|apply Z.mod_pos_bound; lia..].
    assert ((Z.of_nat i - Z.of_nat j) mod Z.of_nat n = 0) as H0.
    { replace (Z.of_nat i - Z.of_nat j) with ((k + Z.of_nat i) - (k + Z.of_nat j)) by lia.
      rewrite Zminus_mod, Heq, Z.sub_diag. apply Zmod_0_l. }
    apply Z.mod_divide in H0 as [q Hq]; [|lia]. assert (q = 0) by nia. lia.
  - by rewrite length_map, !length_seq.
  - intros x (i & <- & Hi)%in_map_iff. apply in_seq in Hi. apply in_seq.
    pose proof (Z.mod_pos_bound (k + Z.of_nat i) (Z.of_nat n) ltac:(lia)). lia.
Qed.

(** A strategy whose successive selections are a function of a counter modulo
    [n] treats any [n] of them as it treats the [n] residues. *)
Lemma picks_window (f : nat → outcome (result nat)) (k : Z) (n : nat) r :
  0 ≤ k →
  picks r (map (λ i, f (Z.to_nat ((k + Z.of_nat i) mod Z.of_nat n))) (seq 0 n)) =
  picks r (map f (seq 0 n)).
Proof.
  intros Hk. rewrite <- (map_map _ f). apply picks_perm. by rewrite (residues_perm k n Hk).
Qed.

(** [RoundRobin] picks the replica of the counter modulo the number of replicas. *)
Lemma RoundRobin_Select_spec k rs :
  rs ≠ [] → 0 ≤ k →
  RoundRobin_Select (mkRR k) rs =
  (mkRR (k +64 1), pick rs (k mod Z.of_nat (length rs))).
Proof.
  intros Hne Hk. destruct rs as [|r rs]; [done|]. unfold RoundRobin_Select. cbn [rr_counter].
  by rewrite Z.rem_mod_nonneg by (cbn [length]; lia).
Qed.

Lemma RoundRobin_selects k rs s cs :
  rs ≠ [] → 0 ≤ k → k + Z.of_nat (length cs) ≤ int64_max →
  selects (mkRR k) s cs rs =
  (mkRR (k + Z.of_nat (length cs)),
   map (λ i, pick rs ((k + Z.of_nat i) mod Z.of_nat (length rs))) (seq 0 (length cs))).
Proof.
  intros Hne. revert k. induction cs as [|c cs IH]; intros k H0 Hk; cbn [selects length].
  { simpl. by rewrite Z.add_0_r. }
  cbn [length] in Hk. change (lb_Select (mkRR k) s c rs) with (RoundRobin_Select (mkRR k) rs).
  rewrite RoundRobin_Select_spec, wrap64_id by (done || unfold in_int64, int64_min in *; lia).
  rewrite (IH (k + 1)) by lia. cbn [seq map]. f_equal; [f_equal; lia|].
  rewrite Z.add_0_r. f_equal. rewrite <- seq_shift, map_map. apply map_ext. intros i.
  by replace (k + 1 + Z.of_nat i) with (k + Z.of_nat (S i)) by lia.
Qed.

(** Over the list itself, every replica comes once. *)
Lemma picks_each rs r :
  NoDup rs → r ∈ rs → picks r (map (λ i, pick rs (Z.of_nat i)) (seq 0 (length rs))) = 1.
Proof.
  intros Hnd Hr.
  assert (map (λ i, pick rs (Z.of_nat i)) (seq 0 (length rs)) = map (λ x, Ret (Ok x)) rs) as ->.
  { apply list_eq. intros i. rewrite !list_lookup_fmap.
    destruct (rs !! i) as [x|] eqn:Hi.
    - pose proof (lookup_lt_Some _ _ _ Hi). rewrite lookup_seq_lt by done. simpl. f_equal.
      unfold pick. destruct (go_index_in rs (Z.of_nat i)) as (y & Hy & ->); [lia|].
      rewrite Nat2Z.id in Hy. simpl. congruence.
    - apply lookup_ge_None in Hi. by rewrite lookup_seq_ge. }
  induction rs as [|x rs IH]; [by apply elem_of_nil in Hr|].
  apply NoDup_cons in Hnd as [Hx Hnd]. simpl. rewrite picks_cons. simpl.
  assert (∀ y l, y ∉ l → picks y (map (λ x, Ret (Ok x)) l) = 0) as Hnone.
  { clear. intros y l. induction l as [|x l IH]; [done|]. intros [? ?]%not_elem_of_cons.
    simpl. rewrite picks_cons, IH by done. simpl. by rewrite bool_decide_false. }
  apply elem_of_cons in Hr as [->|Hr].
  - rewrite bool_decide_true by done. by rewrite Hnone.
  - rewrite bool_decide_false by (intros ->; done). rewrite IH by done. done.
Qed.

(** C29 Round robin is fair: over any [q * n] consecutive selections from the same
    [n] distinct replicas, wherever the counter stands, every replica is picked
    exactly [q] times (as long as the counter has not wrapped around). *)
Theorem round_robin_fair (k : Z) (rs : list nat) (s : store) (cs : list (option string)) (q : nat)
    (r : nat) (Hnd : NoDup rs) (Hr : r ∈ rs) (Hk : 0 ≤ k)
    (Hlen : length cs = (q * length rs)%nat) (Hmax : k + Z.of_nat (length cs) ≤ int64_max) :
  picks r (selects (mkRR k) s cs rs).2 = Z.of_nat q.
Proof.
  assert (rs ≠ []) as Hne by (intros ->; by apply elem_of_nil in Hr).
  revert k cs Hk Hlen Hmax. induction q as [|q IH]; intros k cs Hk Hlen Hmax.
  { by destruct cs. }
  rewrite <- (take_drop (length rs) cs), selects_app.
  assert (length (take (length rs) cs) = length rs) as Ht by (rewrite length_take; lia).
  rewrite RoundRobin_selects by (done || rewrite ?Ht; lia). rewrite Ht.
  specialize (IH (k + Z.of_nat (length rs)) (drop (length rs) cs)).
  destruct (selects (mkRR (k + Z.of_nat (length rs))) s (drop (length rs) cs) rs) as [l2 o2].
  cbn [snd] in *. rewrite picks_app, IH by (rewrite ?length_drop; lia).
  assert (map (λ i, pick rs ((k + Z.of_nat i) mod Z.of_nat (length rs))) (seq 0 (length rs)) =
          map (λ i, pick rs (Z.of_nat (Z.to_nat ((k + Z.of_nat i) mod Z.of_nat (length rs)))))
              (seq 0 (length rs))) as ->.
  { apply map_ext_in. intros i Hi%in_seq. rewrite Z2Nat.id; [done|]. apply Z.mod_pos_bound. lia. }
  rewrite (picks_window (λ i, pick rs (Z.of_nat i)) k (length rs) r Hk), picks_each by done. lia.
Qed.

Lemma round_robin_fair_witness :
  picks 8 (selects (mkRR 5) ∅ (replicate 6 None) [7%nat; 8%nat; 9%nat]).2 = 2.
Proof.
  apply (round_robin_fair 5 [7%nat; 8%nat; 9%nat] ∅ (replicate 6 None) 2 8);
    [apply (bool_decide_unpack _); vm_compute; exact I
    |apply (bool_decide_unpack _); vm_compute; exact I|lia|reflexivity|vm_compute; discriminate].
Defined.

(** *** Weighted *)

(** The weights of the replicas, which are all live. *)
Definition live_weights (w : Weighted) (s : store) (rs : list nat) (ws : list Z) : Prop :=
  Forall2 (λ r n, ∃ x, (s : gmap nat Replica) !! r = Some x ∧ weight_of w x = n) rs ws.

Definition sum (ws : list Z) : Z := foldr Z.add 0 ws.

Lemma sum_nonneg ws : Forall (λ n, 0 < n) ws → 0 ≤ sum ws.
Proof. induction 1; simpl; lia. Qed.

Lemma total_weight_spec w s rs ws t :
  live_weights w s rs ws → Forall (λ n, 0 < n) ws → 0 ≤ t → t + sum ws ≤ int64_max →
  total_weight w s rs t = Ret (t + sum ws).
Proof.
  intros Hl. revert t. induction Hl as [|r n rs ws (x & Hx & Hn) Hl IH]; intros t Hp Ht Hs; simpl in *.
  { by rewrite Z.add_0_r. }
  inversion Hp; subst. unfold load. rewrite Hx. unfold mbind. simpl.
  pose proof (sum_nonneg ws ltac:(done)).
  rewrite wrap64_id by (unfold in_int64, int64_min in *; lia).
  rewrite IH by (done || lia). f_equal. lia.
Qed.

(** The replica whose share of [0, total) contains [t]. *)
Fixpoint share (rs : list nat) (ws : list Z) (t : Z) : option nat :=
  match rs, ws with
  | r :: rs, n :: ws => if t <? n then Some r else share rs ws (t - n)
  | _, _ => None
  end.

Lemma find_weighted_spec w s rs ws t c :
  live_weights w s rs ws → Forall (λ n, 0 < n) ws → 0 ≤ c → c + sum ws ≤ int64_max →
  find_weighted w s rs t c = Ret (share rs ws (t - c)).
Proof.
  intros Hl. revert c. induction Hl as [|r n rs ws (x & Hx & Hn) Hl IH]; intros c Hp Hc Hs; [done|].
  simpl in *. inversion Hp; subst. unfold load. rewrite Hx. unfold mbind. simpl.
  pose proof (sum_nonneg ws ltac:(done)).
  rewrite wrap64_id by (unfold in_int64, int64_min in *; lia).
  destruct (t <? c + weight_of w x) eqn:E; go_bool.
  - by rewrite (proj2 (Z.ltb_lt _ _)) by lia.
  - rewrite (proj2 (Z.ltb_ge _ _)) by lia. rewrite IH by (done || lia). do 2 f_equal. lia.
Qed.

Definition pick_share (rs : list nat) (ws : list Z) (t : Z) : outcome (result nat) :=
  match share rs ws t with Some r => Ret (Ok r) | None => pick rs (Z.of_nat (length rs) - 1) end.

Lemma Weighted_selects w s rs ws cs k :
  live_weights (mkW w 0) s rs ws → rs ≠ [] → Forall (λ n, 0 < n) ws → sum ws ≤ int64_max →
  0 ≤ k → k + Z.of_nat (length cs) ≤ int64_max →
  selects (mkW w k) s cs rs =
  (mkW w (k + Z.of_nat (length cs)),
   map (λ i, pick_share rs ws ((k + 1 + Z.of_nat i) mod sum ws)) (seq 0 (length cs))).
Proof.
  intros Hl Hne Hp Hs. revert k. induction cs as [|c cs IH]; intros k H0 Hk; cbn [selects length].
  { by rewrite Z.add_0_r. }
  cbn [length] in Hk. change (lb_Select (mkW w k) s c rs) with (Weighted_Select (mkW w k) s rs).
  assert (0 < sum ws) as Hpos.
  { destruct Hl; [done|]. inversion Hp; subst. simpl. pose proof (sum_nonneg l' ltac:(done)). lia. }
  unfold Weighted_Select. destruct rs as [|r0 rs']; [done|].
  assert (live_weights (mkW w k) s (r0 :: rs') ws) as Hl1 by exact Hl.
  rewrite (total_weight_spec _ _ _ _ 0 Hl1 Hp) by lia. cbn [weights w_counter].
  rewrite Z.add_0_l, (proj2 (Z.eqb_neq _ _)) by lia.
  rewrite wrap64_id by (unfold in_int64, int64_min in *; lia).
  assert (live_weights (mkW w (k + 1)) s (r0 :: rs') ws) as Hl2 by exact Hl.
  rewrite (find_weighted_spec _ _ _ _ _ 0 Hl2 Hp) by lia.
  rewrite (IH (k + 1)) by lia. cbn [seq map]. f_equal; [f_equal; lia|].
  f_equal.
  - rewrite Z.add_0_r, Z.sub_0_r, Z.rem_mod_nonneg by lia. unfold pick_share, mbind, outcome_bind.
    by destruct (share (r0 :: rs') ws ((k + 1) mod sum ws)).
  - rewrite <- seq_shift, map_map. apply map_ext. intros i.
    by replace (k + 1 + 1 + Z.of_nat i) with (k + 1 + Z.of_nat (S i)) by lia.
Qed.

(** Over the residues of the total, a replica has its weight in picks. *)
Lemma picks_shares rs ws r :
  NoDup rs → length rs = length ws → Forall (λ n, 0 < n) ws →
  ∀ i n, rs !! i = Some r → ws !! i = Some n →
  picks r (map (λ t, match share rs ws (Z.of_nat t) with Some x => Ret (Ok x) | None => Panic "" end)
             (seq 0 (Z.to_nat (sum ws)))) = n.
Proof.
  assert (∀ rs ws t, r ∉ rs → share rs ws t ≠ Some r) as Hout.
  { clear. intros rs. induction rs as [|x rs IH]; intros [|m ws] t Hr; simpl; try done.
    apply not_elem_of_cons in Hr as [? ?]. case_match; [congruence|by apply IH]. }
  assert (∀ (f : nat → outcome (result nat)) l, (∀ t, t ∈ l → is_pick r (f t) = false) →
            picks r (map f l) = 0) as Hzero.
  { clear. intros f l. induction l as [|x l IH]; intros Hf; [done|]. simpl.
    rewrite picks_cons, Hf, IH by set_solver. done. }
  assert (∀ (f : nat → outcome (result nat)) l, (∀ t, t ∈ l → is_pick r (f t) = true) →
            picks r (map f l) = Z.of_nat (length l)) as Hall.
  { clear. intros f l. induction l as [|x l IH]; intros Hf; [done|]. cbn [map length].
    rewrite picks_cons, Hf, IH by set_solver. lia. }
  revert ws. induction rs as [|x rs IH]; intros [|m ws] Hnd Hlen Hp i n Hi Hn; try done.
  inversion Hp; subst. apply NoDup_cons in Hnd as [Hx Hnd].
  pose proof (sum_nonneg ws ltac:(done)) as Hs.
  replace (Z.to_nat (sum (m :: ws))) with (Z.to_nat m + Z.to_nat (sum ws))%nat by (simpl; lia).
  rewrite seq_app, map_app, picks_app.
  assert (map (λ t, match share (x :: rs) (m :: ws) (Z.of_nat t) with Some x => Ret (Ok x) | None => Panic "" end)
            (seq (0 + Z.to_nat m) (Z.to_nat (sum ws))) =
          map (λ t, match share rs ws (Z.of_nat t) with Some x => Ret (Ok x) | None => Panic "" end)
            (seq 0 (Z.to_nat (sum ws)))) as ->.
  { rewrite Nat.add_0_l. rewrite <- (Nat.add_0_r (Z.to_nat m)) at 1. rewrite <- fmap_add_seq.
    unfold fmap. rewrite map_map. apply map_ext. intros t. cbn [share].
    destruct (Z.of_nat (Z.to_nat m + t) <? m) eqn:E; go_bool; [lia|].
    by replace (Z.of_nat (Z.to_nat m + t) - m) with (Z.of_nat t) by lia. }
  destruct i as [|i]; simplify_eq/=.
  - rewrite (Hzero _ (seq 0 (Z.to_nat (sum ws)))).
    + rewrite Hall; [rewrite length_seq; lia|]. intros t Ht%elem_of_seq. cbn [share].
      rewrite (proj2 (Z.ltb_lt _ _)) by lia. cbn [is_pick]. by apply bool_decide_eq_true.
    + intros t _. destruct (share rs ws (Z.of_nat t)) as [y|] eqn:E; [|done]. simpl.
      apply bool_decide_eq_false. intros ->. by eapply Hout.
  - rewrite Hzero; [by rewrite (IH ws Hnd ltac:(simpl in Hlen; lia) ltac:(done) i n Hi Hn)|].
    intros t Ht%elem_of_seq. cbn [share]. rewrite (proj2 (Z.ltb_lt _ _)) by lia. cbn [is_pick].
    apply bool_decide_eq_false. intros ->. apply Hx. by eapply list_elem_of_lookup_2.
Qed.

(** C28 Weighted selection honours the weights: over any window of as many
    consecutive selections as the total weight of the (distinct) replicas, each
    is picked exactly as often as its weight, a missing or zero weight counting
    as one. (No weight is negative, and the counter does not overflow in the window.) *)
Theorem weighted_fair (w : gmap string Z) (k : Z) (rs : list nat) (s : store)
    (cs : list (option string)) (ws : list Z) (i : nat) (r : nat) (n : Z)
    (Hl : live_weights (mkW w 0) s rs ws) (Hnd : NoDup rs) (Hp : Forall (λ n, 0 < n) ws)
    (Hi : rs !! i = Some r) (Hn : ws !! i = Some n)
    (Hk : 0 ≤ k) (Hlen : Z.of_nat (length cs) = sum ws) (Hmax : k + sum ws ≤ int64_max) :
  picks r (selects (mkW w k) s cs rs).2 = n.
Proof.
  assert (rs ≠ []) as Hne by (by intros ->).
  rewrite (Weighted_selects w s rs ws cs k) by (done || lia). cbn [snd].
  assert (length cs = Z.to_nat (sum ws)) as Hc by lia. rewrite Hc.
  assert (0 ≤ sum ws) as Hs by (by apply sum_nonneg).
  set (g := λ t : nat, match share rs ws (Z.of_nat t) with Some x => Ret (Ok x) | None => Panic "" end).
  rewrite <- (picks_shares rs ws r Hnd (Forall2_length _ _ _ Hl) Hp i n Hi Hn). fold g.
  rewrite <- (picks_window g (k + 1) (Z.to_nat (sum ws)) r) by lia.
  f_equal. apply map_ext_in. intros j Hj%in_seq. unfold pick_share, g.
  assert (0 < sum ws) as Hpos by lia.
  rewrite (Z2Nat.id (sum ws)), Z2Nat.id by (lia || apply Z.mod_pos_bound; lia).
  destruct (share rs ws ((k + 1 + Z.of_nat j) mod sum ws)) eqn:E; [done|]. exfalso.
  assert (∀ rs ws t, length rs = length ws → 0 ≤ t < sum ws → is_Some (share rs ws t)) as Hin.
  { clear. intros rs. induction rs as [|x rs IH]; intros [|m ws] t Hl Ht; simpl in *; try lia.
    case_match; [by eexists|]. go_bool. apply IH; lia. }
  destruct (Hin rs ws ((k + 1 + Z.of_nat j) mod sum ws)) as [? ?];
    [by eapply Forall2_length|apply Z.mod_pos_bound; lia|congruence].
Qed.

Definition demo_replica (n : string) : Replica := mkReplica n "" true zero_metrics 0.

(** Replica [a] has weight 3, [b] none, so one: of four selections [a] gets three. *)
Lemma weighted_fair_witness :
  picks 1 (selects (mkW {[ "a" := 3 ]} 6)
             {[ 1%nat := demo_replica "a"; 2%nat := demo_replica "b" ]}
             (replicate 4 None) [1%nat; 2%nat]).2 = 3.
Proof.
  apply (weighted_fair {[ "a" := 3 ]} 6 [1%nat; 2%nat]
           {[ 1%nat := demo_replica "a"; 2%nat := demo_replica "b" ]} (replicate 4 None) [3; 1] 0 1 3).
  - constructor; [exists (demo_replica "a"); split; vm_compute; reflexivity|].
    constructor; [exists (demo_replica "b"); split; vm_compute; reflexivity|constructor].
  - apply (bool_decide_unpack _). vm_compute. exact I.
  - repeat constructor.
  - reflexivity.
  - reflexivity.
  - lia.
  - reflexivity.
  - vm_compute. discriminate.
Defined.

(** *** LeastConnections *)

(** The replicas with their connections. *)
Definition live_loads (s : store) (rs : list nat) (ls : list Z) : Prop :=
  Forall2 (λ r n, ∃ x, (s : gmap nat Replica) !! r = Some x ∧ ActiveConnections x = n) rs ls.

Lemma scan_min_spec s rs ls sel m :
  live_loads s rs ls →
  ∃ r n, scan_min s rs sel m = Ret r ∧ n ≤ m ∧ Forall (λ k, n ≤ k) ls ∧
    ((r = sel ∧ n = m) ∨
     ∃ i, rs !! i = Some r ∧ ls !! i = Some n ∧ n < m ∧ ∀ j k, (j < i)%nat → ls !! j = Some k → n < k).
Proof.
  intros Hl. revert sel m.
  induction Hl as [|r k rs ls (x & Hx & Hk) Hl IH]; intros sel m.
  { exists sel, m. split_and!; [done|lia|done|by left]. }
  cbn [scan_min]. unfold load. rewrite Hx. unfold mbind, outcome_bind. rewrite Hk.
  destruct (k <? m) eqn:E; go_bool.
  - destruct (IH r k) as (r' & n & -> & Hn & Hall & Hor). exists r', n.
    split_and!; [done|lia|by constructor|]. right. destruct Hor as [[-> ->]|(i & Hi & Hi' & Hlt & Hj)].
    + exists 0%nat. split_and!; [done..|lia|lia].
    + exists (S i). split_and!; [done..|lia|]. intros [|j] k'; simpl; [intros; simplify_eq; lia|].
      intros ? ?. eapply Hj; [|done]. lia.
  - destruct (IH sel m) as (r' & n & -> & Hn & Hall & Hor). exists r', n.
    split_and!; [done|lia|constructor; [lia|done]|].
    destruct Hor as [[-> ->]|(i & Hi & Hi' & Hlt & Hj)]; [by left|right].
    exists (S i). split_and!; [done..|]. intros [|j] k'; simpl; [intros; simplify_eq; lia|].
    intros ? ?. eapply Hj; [|done]. lia.
Qed.

(** [LeastConnections] and [ResourceAware], which selects the same way, pick
    the first replica of the list among those with the fewest active
    connections: no replica has fewer, and every earlier one has more. *)
Theorem least_connections_first_min (s : store) (rs : list nat) (ls : list Z)
    (Hl : live_loads s rs ls) (Hne : rs ≠ []) :
  ∃ i r n, rs !! i = Some r ∧ ls !! i = Some n ∧
    LeastConnections_Select NewLeastConnections s rs = (NewLeastConnections, Ret (Ok r)) ∧
    ResourceAware_Select NewResourceAware s rs = (NewResourceAware, Ret (Ok r)) ∧
    Forall (λ k, n ≤ k) ls ∧ ∀ j k, (j < i)%nat → ls !! j = Some k → n < k.
Proof.
  destruct Hl as [|r0 k0 rs ls (x & Hx & Hk) Hl]; [done|].
  destruct (scan_min_spec s rs ls r0 k0 Hl) as (r & n & Hs & Hn & Hall & Hor).
  assert (∃ i, (r0 :: rs) !! i = Some r ∧ (k0 :: ls) !! i = Some n ∧
            ∀ j k, (j < i)%nat → (k0 :: ls) !! j = Some k → n < k) as (i & Hi & Hi' & Hj).
  { destruct Hor as [[-> ->]|(i & Hi & Hi' & Hlt & Hj)].
    - exists 0%nat. split_and!; [done..|lia].
    - exists (S i). split_and!; [done..|]. intros [|j] k; simpl; [intros; simplify_eq; lia|].
      intros ? ?. eapply Hj; [|done]. lia. }
  exists i, r, n. unfold LeastConnections_Select, ResourceAware_Select, load. rewrite Hx.
  unfold mbind, outcome_bind. rewrite Hk, Hs. split_and!; try done. by constructor.
Qed.

Definition with_load (n : Z) : Replica := mkReplica "r" "" true zero_metrics n.

Lemma least_connections_first_min_witness :
  ∃ i r n, [1%nat; 2%nat; 3%nat] !! i = Some r ∧ [4; 2; 2] !! i = Some n ∧
    LeastConnections_Select NewLeastConnections
      {[ 1%nat := with_load 4; 2%nat := with_load 2; 3%nat := with_load 2 ]} [1%nat; 2%nat; 3%nat] =
      (NewLeastConnections, Ret (Ok r)) ∧
    ResourceAware_Select NewResourceAware
      {[ 1%nat := with_load 4; 2%nat := with_load 2; 3%nat := with_load 2 ]} [1%nat; 2%nat; 3%nat] =
      (NewResourceAware, Ret (Ok r)) ∧
    Forall (λ k, n ≤ k) [4; 2; 2] ∧ ∀ j k, (j < i)%nat → [4; 2; 2] !! j = Some k → n < k.
Proof.
  apply (least_connections_first_min
           {[ 1%nat := with_load 4; 2%nat := with_load 2; 3%nat := with_load 2 ]}
           [1%nat; 2%nat; 3%nat] [4; 2; 2]); [|discriminate].
  constructor; [exists (with_load 4); split; vm_compute; reflexivity|].
  constructor; [exists (with_load 2); split; vm_compute; reflexivity|].
  constructor; [exists (with_load 2); split; vm_compute; reflexivity|constructor].
Defined.

(** *** Sticky *)

(** The index the hash of a client id gives among [n] replicas. *)
Definition home (id : string) (n : Z) : Z := Z.rem (int_of_uint64 (hashClient id)) n.

(** With the same replicas throughout, every affinity kept is a home for their number. *)
Definition sticky_at (n : Z) (st : Sticky) : Prop :=
  map_Forall (λ id i, i = home id n) (affinity st).

Lemma home_lt id n : 0 < n → home id n < n.
Proof.
  intros Hn. unfold home. destruct (Z_le_gt_dec 0 (int_of_uint64 (hashClient id))) as [H|H].
  - rewrite Z.rem_mod_nonneg by lia. apply Z.mod_pos_bound. lia.
  - pose proof (Z.rem_nonpos (int_of_uint64 (hashClient id)) n ltac:(lia) ltac:(lia)). lia.
Qed.

Lemma Sticky_Select_home st c rs :
  rs ≠ [] → sticky_at (Z.of_nat (length rs)) st →
  sticky_at (Z.of_nat (length rs)) (Sticky_Select st c rs).1 ∧
  (Sticky_Select st c rs).2 = pick rs (home (extractClientID c) (Z.of_nat (length rs))).
Proof.
  intros Hne Hwf. destruct rs as [|r rs]; [done|]. unfold Sticky_Select.
  destruct (affinity st !! extractClientID c) as [i|] eqn:E.
  - rewrite (Hwf _ _ E), (proj2 (Z.ltb_lt _ _)) by (apply home_lt; cbn [length]; lia). done.
  - split; [|done]. by apply map_Forall_insert_2.
Qed.

Lemma hashClient_range id : 0 ≤ hashClient id < 2 ^ 64.
Proof.
  unfold hashClient. assert (∀ l h, 0 ≤ h < 2 ^ 64 → 0 ≤ fold_left hash_step l h < 2 ^ 64) as H.
  { intros l. induction l as [|x l IH]; intros h Hh; [done|]. apply IH. unfold hash_step, uwrap64.
    apply Z.mod_pos_bound. lia. }
  apply H. lia.
Qed.

(** C30 Sticky selection routes by client: over any sequence of selections from
    the same replicas, with any interleaving of clients, every selection for a
    client gives the same answer, the replica at the client's hash modulo the
    number of replicas.  Whether there is one depends on the client alone: a hash
    below 2^63 gives a replica; one above is negative as an [int], and unless it
    is a multiple of the number of replicas each selection for the client panics
    with an index out of range. *)
Theorem sticky_routes (s : store) (cs : list (option string)) (rs : list nat) (Hne : rs ≠ []) :
  (selects NewSticky s cs rs).2 =
    map (λ c, pick rs (home (extractClientID c) (Z.of_nat (length rs)))) cs ∧
  ∀ id, let i := home id (Z.of_nat (length rs)) in
    if (hashClient id <? 2 ^ 63) || (i =? 0) then ∃ r, pick rs i = Ret (Ok r) ∧ r ∈ rs
    else i < 0 ∧ ∃ e, pick rs i = Panic e.
Proof.
  assert (0 < Z.of_nat (length rs)) as Hn by (destruct rs; cbn [length]; [done|lia]).
  split.
  - assert (sticky_at (Z.of_nat (length rs)) NewSticky) as Hwf by apply map_Forall_empty.
    revert Hwf. generalize NewSticky. induction cs as [|c cs IH]; intros st Hwf; [done|].
    destruct (Sticky_Select_home st c rs Hne Hwf) as [Hwf' Hout].
    cbn [selects map]. change (lb_Select st s c rs) with (Sticky_Select st c rs).
    destruct (Sticky_Select st c rs) as [st' o]. cbn [fst snd] in *. subst o.
    specialize (IH st' Hwf'). destruct (selects st' s cs rs) as [l out]. cbn [snd] in *. by f_equal.
  - intros id i. pose proof (home_lt id _ Hn) as Hlt. fold i in Hlt.
    assert (0 ≤ i → ∃ r, pick rs i = Ret (Ok r) ∧ r ∈ rs) as Hok.
    { intros H0. destruct (go_index_in rs i) as (x & Hx & Hg); [lia|]. exists x. unfold pick.
      rewrite Hg. split; [done|]. by eapply list_elem_of_lookup_2. }
    pose proof (hashClient_range id) as Hr.
    destruct (hashClient id <? 2 ^ 63) eqn:Eh; go_bool.
    { apply Hok. unfold i, home, int_of_uint64. rewrite wrap64_id by (unfold in_int64, int64_min, int64_max; lia).
      rewrite Z.rem_mod_nonneg by lia. apply Z.mod_pos_bound. lia. }
    destruct (i =? 0) eqn:E0; go_bool; simpl; [apply Hok; lia|].
    assert (i ≤ 0) as Hneg.
    { unfold i, home, int_of_uint64. apply Z.rem_nonpos; [lia|]. unfold wrap64.
      pose proof (Z.mod_small (hashClient id - 2 ^ 63) (2 ^ 64)).
      replace (hashClient id + 2 ^ 63) with (hashClient id - 2 ^ 63 + 1 * 2 ^ 64) by lia.
      rewrite Z.mod_add by lia. lia. }
    split; [lia|]. unfold pick, go_index. rewrite (proj2 (Z.ltb_lt _ _)) by lia. by eexists.
Qed.

Lemma sticky_routes_witness :
  (selects NewSticky ∅ [Some "user-12345"; Some "alice@example.com"; Some "user-12345"]
     [7%nat; 8%nat; 9%nat]).2 =
    map (λ c, pick [7%nat; 8%nat; 9%nat] (home (extractClientID c) 3))
      [Some "user-12345"; Some "alice@example.com"; Some "user-12345"] ∧
  ∀ id, let i := home id 3 in
    if (hashClient id <? 2 ^ 63) || (i =? 0)
    then ∃ r, pick [7%nat; 8%nat; 9%nat] i = Ret (Ok r) ∧ r ∈ [7%nat; 8%nat; 9%nat]
    else i < 0 ∧ ∃ e, pick [7%nat; 8%nat; 9%nat] i = Panic e.
Proof.
  exact (sticky_routes ∅ [Some "user-12345"; Some "alice@example.com"; Some "user-12345"]
           [7%nat; 8%nat; 9%nat] ltac:(discriminate)).
Defined.

(** The first client is routed; the second panics, each time. *)
Example sticky_panics :
  (selects NewSticky ∅ [Some "user-12345"; Some "alice@example.com"; Some "alice@example.com"]
     [7%nat; 8%nat; 9%nat]).2 =
  [Ret (Ok 9%nat); Panic "runtime error: index out of range"; Panic "runtime error: index out of range"].
Proof. vm_compute. reflexivity. Qed.

(** [Random] is not random: it selects the first replica. *)
Lemma random_first r rs : Random_Select NewRandom (r :: rs) = (NewRandom, Ret (Ok r)).
Proof. unfold Random_Select. cbn [length]. rewrite Z.rem_0_l by lia. done. Qed.
