(* ===== verification/WvReliability.v ===== *)
(** * Weaver: reliability

    [src/src/Weaver/pkg/reliability/]: the circuit breaker ([Module Breaker]), the
    retries ([Module Retry]) and the deadlines ([Module Timeouts]) of a request.
    Clock readings, the random source, the function retried and the select
    between the wait and the context are arguments. *)

From S2P Require Import Prelude GoFloat Resilience.

(** ** circuit_breaker.go *)

Module Breaker.

Inductive CircuitBreakerState : Type :=
| StateClosed
| StateOpen
| StateHalfOpen.

#[export] Instance CircuitBreakerState_eq_dec : EqDecision CircuitBreakerState.
Proof. solve_decision. Defined.

Definition String (s : CircuitBreakerState) : string :=
  match s with
  | StateClosed => "CLOSED"
  | StateOpen => "OPEN"
  | StateHalfOpen => "HALF_OPEN"
  end.

Record CircuitBreaker : Type := mkCB {
  failureThreshold : Z;
  successThreshold : Z;
  timeout : Duration;
  state : CircuitBreakerState;
  lastFailureTime : Time;
  consecutiveFailures : Z;
  consecutiveSuccesses : Z;
  totalFailures : Z;
  totalSuccesses : Z;
  stateChanges : Z
}.

Definition NewCircuitBreaker (now : Time) (failureThreshold successThreshold : Z) (timeout : Duration)
    : CircuitBreaker :=
  mkCB (if failureThreshold =? 0 then 5 else failureThreshold)
    (if successThreshold =? 0 then 2 else successThreshold)
    (if timeout =? 0 then 30 * Second else timeout)
    StateClosed now 0 0 0 0 0.

Definition Allow (now : Time) (cb : CircuitBreaker) : CircuitBreaker * bool :=
  match state cb with
  | StateClosed => (cb, true)
  | StateOpen =>
      if timeout cb <=? time_Since now (lastFailureTime cb) then
        (mkCB (failureThreshold cb) (successThreshold cb) (timeout cb) StateHalfOpen
           (lastFailureTime cb) 0 0 (totalFailures cb) (totalSuccesses cb) (stateChanges cb +64 1), true)
      else (cb, false)
  | StateHalfOpen => (cb, true)
  end.

Definition RecordSuccess (cb : CircuitBreaker) : CircuitBreaker :=
  let cb := mkCB (failureThreshold cb) (successThreshold cb) (timeout cb) (state cb)
    (lastFailureTime cb) 0 (consecutiveSuccesses cb) (totalFailures cb)
    (totalSuccesses cb +64 1) (stateChanges cb) in
  match state cb with
  | StateHalfOpen =>
      let successes := consecutiveSuccesses cb +64 1 in
      if successThreshold cb <=? successes then
        mkCB (failureThreshold cb) (successThreshold cb) (timeout cb) StateClosed (lastFailureTime cb)
          (consecutiveFailures cb) 0 (totalFailures cb) (totalSuccesses cb) (stateChanges cb +64 1)
      else
        mkCB (failureThreshold cb) (successThreshold cb) (timeout cb) (state cb) (lastFailureTime cb)
          (consecutiveFailures cb) successes (totalFailures cb) (totalSuccesses cb) (stateChanges cb)
  | StateClosed | StateOpen => cb
  end.

Definition RecordFailure (now : Time) (cb : CircuitBreaker) : CircuitBreaker :=
  let cb := mkCB (failureThreshold cb) (successThreshold cb) (timeout cb) (state cb) now
    (consecutiveFailures cb) 0 (totalFailures cb +64 1) (totalSuccesses cb) (stateChanges cb) in
  let opened := mkCB (failureThreshold cb) (successThreshold cb) (timeout cb) StateOpen
    (lastFailureTime cb) 0 (consecutiveSuccesses cb) (totalFailures cb) (totalSuccesses cb)
    (stateChanges cb +64 1) in
  match state cb with
  | StateClosed =>
      let failures := consecutiveFailures cb +64 1 in
      if failureThreshold cb <=? failures then opened
      else
        mkCB (failureThreshold cb) (successThreshold cb) (timeout cb) (state cb) (lastFailureTime cb)
          failures (consecutiveSuccesses cb) (totalFailures cb) (totalSuccesses cb) (stateChanges cb)
  | StateHalfOpen => opened
  | StateOpen => cb
  end.

Definition GetState (cb : CircuitBreaker) : CircuitBreakerState := state cb.

(** The values of the map, in the order of the literal. *)
Definition GetMetrics (cb : CircuitBreaker) : string * Z * Z * Z :=
  (String (state cb), totalFailures cb, totalSuccesses cb, stateChanges cb).

Definition Reset (now : Time) (cb : CircuitBreaker) : CircuitBreaker :=
  mkCB (failureThreshold cb) (successThreshold cb) (timeout cb) StateClosed now 0 0 0 0 0.

(** *** The contract: a machine with the data each state needs, and no counter
    that can overflow *)

Inductive phase : Type :=
| Closed (failures : nat)
| Open
| HalfOpen (successes : nat).

Record spec : Type := mkSpec {
  sp_phase : phase;
  sp_last : Time;
  sp_failures : nat;
  sp_successes : nat;
  sp_changes : nat
}.

Inductive op : Type :=
| OpAllow (now : Time)
| OpSuccess
| OpFailure (now : Time)
| OpReset (now : Time).

(** What a configured count means: zero is the default, and below one is one. *)
Definition threshold (default configured : Z) : Z :=
  if decide (configured = 0) then default else Z.max 1 configured.

Section Contract.
(** The number of failures in a row that open it, of successes that close it, and
    the time it stays open. *)
Context (ft st : Z) (tmo : Duration).

Definition spec_new (now : Time) : spec := mkSpec (Closed 0) now 0 0 0.

Definition spec_step (o : op) (s : spec) : spec * option bool :=
  let '(mkSpec ph last f u ch) := s in
  match o, ph with
  | OpAllow now, Open =>
      if tmo <=? time_Since now last then (mkSpec (HalfOpen 0) last f u (S ch), Some true) else (s, Some false)
  | OpAllow _, _ => (s, Some true)
  | OpSuccess, Closed _ => (mkSpec (Closed 0) last f (S u) ch, None)
  | OpSuccess, Open => (mkSpec Open last f (S u) ch, None)
  | OpSuccess, HalfOpen n =>
      (if st <=? Z.of_nat (S n) then mkSpec (Closed 0) last f (S u) (S ch)
       else mkSpec (HalfOpen (S n)) last f (S u) ch, None)
  | OpFailure now, Closed n =>
      (if ft <=? Z.of_nat (S n) then mkSpec Open now (S f) u (S ch)
       else mkSpec (Closed (S n)) now (S f) u ch, None)
  | OpFailure now, HalfOpen _ => (mkSpec Open now (S f) u (S ch), None)
  | OpFailure now, Open => (mkSpec Open now (S f) u ch, None)
  | OpReset now, _ => (mkSpec (Closed 0) now 0 0 0, None)
  end.

Fixpoint spec_run (os : list op) (s : spec) : spec * list (option bool) :=
  match os with
  | [] => (s, [])
  | o :: os => let '(s, a) := spec_step o s in let '(s, out) := spec_run os s in (s, a :: out)
  end.
End Contract.

Definition step (o : op) (cb : CircuitBreaker) : CircuitBreaker * option bool :=
  match o with
  | OpAllow now => let '(cb, b) := Allow now cb in (cb, Some b)
  | OpSuccess => (RecordSuccess cb, None)
  | OpFailure now => (RecordFailure now cb, None)
  | OpReset now => (Reset now cb, None)
  end.

Fixpoint run (os : list op) (cb : CircuitBreaker) : CircuitBreaker * list (option bool) :=
  match os with
  | [] => (cb, [])
  | o :: os => let '(cb, a) := step o cb in let '(cb, out) := run os cb in (cb, a :: out)
  end.

(** What a reader of the breaker is to see of the contract's state. *)
Definition phase_name (p : phase) : string :=
  match p with Closed _ => "CLOSED" | Open => "OPEN" | HalfOpen _ => "HALF_OPEN" end.

Definition readings (s : spec) : string * Z * Z * Z :=
  (phase_name (sp_phase s), wrap64 (Z.of_nat (sp_failures s)), wrap64 (Z.of_nat (sp_successes s)),
   wrap64 (Z.of_nat (sp_changes s))).

(** The relation between the struct and the contract's state. *)
Definition implements (ft st : Z) (tmo : Duration) (cb : CircuitBreaker) (s : spec) : Prop :=
  Z.max 1 (failureThreshold cb) = ft ∧ Z.max 1 (successThreshold cb) = st ∧ timeout cb = tmo ∧
  lastFailureTime cb = sp_last s ∧ GetMetrics cb = readings s ∧
  match sp_phase s with
  | Closed n => state cb = StateClosed ∧ consecutiveFailures cb = Z.of_nat n ∧
                consecutiveSuccesses cb = 0 ∧ Z.of_nat n < int64_max
  | Open => state cb = StateOpen
  | HalfOpen n => state cb = StateHalfOpen ∧ consecutiveSuccesses cb = Z.of_nat n ∧
                  Z.of_nat n < int64_max
  end.

Lemma wrap64_S n : wrap64 (Z.of_nat n) +64 1 = wrap64 (Z.of_nat (S n)).
Proof. rewrite Nat2Z.inj_succ. unfold Z.succ. apply wrap64_add_l. Qed.

(** A count is compared with a positive number: below one is as good as one. *)
Lemma leb_max z n : (z <=? Z.of_nat (S n)) = (Z.max 1 z <=? Z.of_nat (S n)).
Proof. destruct (Z.leb_spec z (Z.of_nat (S n))), (Z.leb_spec (Z.max 1 z) (Z.of_nat (S n))); lia. Qed.

Lemma int64_S n : Z.of_nat n < int64_max → Z.of_nat n +64 1 = Z.of_nat (S n).
Proof. intros Hn. rewrite wrap64_id by (unfold in_int64, int64_min, int64_max in *; lia). lia. Qed.

Lemma step_implements ft st tmo o cb s :
  ft ≤ int64_max → st ≤ int64_max → implements ft st tmo cb s →
  implements ft st tmo (step o cb).1 (spec_step ft st tmo o s).1 ∧
  (step o cb).2 = (spec_step ft st tmo o s).2.
Proof.
  intros Hft Hst. destruct cb as [ft' st' tmo' stt last cf cs tf ts sc], s as [p l f u ch].
  unfold implements, GetMetrics, readings. cbn.
  intros (Hf & Hs & -> & -> & [= Hn -> -> ->] & Hp). subst ft st.
  destruct p as [n| |n].
  - destruct Hp as (-> & -> & -> & Hlt). destruct o; cbn.
    + done.
    + by split_and!; rewrite ?wrap64_S.
    + unfold RecordFailure; cbn. rewrite int64_S, leb_max by done.
      destruct (Z.leb_spec (Z.max 1 ft') (Z.of_nat (S n))); cbn; rewrite !wrap64_S; split_and!; done || lia.
    + done.
  - subst stt. destruct o; cbn; [|by rewrite ?wrap64_S..|done].
    unfold Allow; cbn. destruct (tmo <=? time_Since now l); cbn; by rewrite ?wrap64_S.
  - destruct Hp as (-> & -> & Hlt). destruct o; cbn.
    + done.
    + unfold RecordSuccess; cbn. rewrite int64_S, leb_max by done.
      destruct (Z.leb_spec (Z.max 1 st') (Z.of_nat (S n))); cbn; rewrite !wrap64_S; split_and!; done || lia.
    + by rewrite !wrap64_S.
    + done.
Qed.

(** C12 The breaker implements its contract, for every configuration: a threshold of
    zero means 5 failures respectively 2 successes, a timeout of zero 30 seconds,
    and a negative threshold counts as one. Over any history of [Allow],
    [RecordSuccess], [RecordFailure] and [Reset] at any clock readings, it gives the
    answers of a machine that opens at the threshold-th failure in a row, refuses
    until the timeout has passed since the last failure recorded (late failures
    while open included), then half-opens, closes after the threshold of successes
    without a failure and reopens at the first failure; its metrics are the state's
    name and the failures, successes and state changes since the start or the last
    reset (modulo 2^64). *)
Theorem breaker_implements (now : Time) (ft st : Z) (tmo : Duration) (os : list op)
    (Hf : in_int64 ft) (Hs : in_int64 st) :
  let ft' := threshold 5 ft in
  let st' := threshold 2 st in
  let tmo' := if decide (tmo = 0) then 30 * Second else tmo in
  let '(cb, out) := run os (NewCircuitBreaker now ft st tmo) in
  let '(s, out') := spec_run ft' st' tmo' os (spec_new now) in
  out = out' ∧ GetMetrics cb = readings s ∧ implements ft' st' tmo' cb s.
Proof.
  intros ft' st' tmo'.
  assert (ft' ≤ int64_max ∧ st' ≤ int64_max) as [Hf' Hs'].
  { unfold ft', st', threshold, in_int64, int64_min, int64_max in *. repeat case_decide; lia. }
  assert (implements ft' st' tmo' (NewCircuitBreaker now ft st tmo) (spec_new now)) as Hi.
  { unfold NewCircuitBreaker, implements, ft', st', tmo', threshold; cbn.
    split_and!; try done;
      (case_decide as E; [rewrite (proj2 (Z.eqb_eq _ _)) by done|rewrite (proj2 (Z.eqb_neq _ _)) by done]); done || lia. }
  revert Hi. generalize (NewCircuitBreaker now ft st tmo), (spec_new now).
  induction os as [|o os IH]; intros cb s Hi; cbn [run spec_run]; [split_and!; [done|apply Hi|done]|].
  destruct (step_implements ft' st' tmo' o cb s) as [Hi' Ho]; [done..|].
  destruct (step o cb) as [cb' a], (spec_step ft' st' tmo' o s) as [s' a']. cbn in Hi', Ho.
  specialize (IH cb' s' Hi'). destruct (run os cb'), (spec_run ft' st' tmo' os s').
  destruct IH as (-> & ? & ?). by subst.
Qed.

Definition demo_history : list op :=
  [OpFailure 5; OpFailure 6; OpAllow 7; OpFailure 10; OpAllow 19; OpAllow 20; OpSuccess; OpFailure 21;
   OpAllow 31; OpSuccess; OpSuccess; OpAllow 32].

(** With the defaults for the successes and the timeout, and with a negative
    threshold of failures, which counts as one. *)
Lemma breaker_implements_witness :
  let '(cb, out) := run demo_history (NewCircuitBreaker 0 (-3) 0 0) in
  let '(s, out') := spec_run 1 2 (30 * Second) demo_history (spec_new 0) in
  out = out' ∧ GetMetrics cb = readings s ∧ implements 1 2 (30 * Second) cb s.
Proof.
  exact (breaker_implements 0 (-3) 0 0 demo_history ltac:(split; vm_compute; discriminate)
           ltac:(split; vm_compute; discriminate)).
Defined.

Example demo_answers :
  omap id (run demo_history (NewCircuitBreaker 0 2 2 10)).2 = [false; false; true; true; true].
Proof. reflexivity. Qed.

End Breaker.

(** ** retry.go *)

Module Retry.

(** [strings.ToLower]: an ASCII string byte by byte; another rune by rune, an
    invalid byte becoming U+FFFD.  The lower case of a rune outside ASCII is a
    table of the Unicode standard. *)
Section ToLower.
Context (lower_rune : Z → Z).

Definition lower_ascii (b : Z) : Z := if (65 <=? b) && (b <=? 90) then b + 32 else b.

Definition byte (b : Z) : Ascii.ascii := Ascii.ascii_of_nat (Z.to_nat b).

Definition encode_rune (r : Z) : list Z :=
  if r <? 128 then [r]
  else if r <? 2048 then [192 + r / 64; 128 + r mod 64]
  else if r <? 65536 then [224 + r / 4096; 128 + r / 64 mod 64; 128 + r mod 64]
  else [240 + r / 262144; 128 + r / 4096 mod 64; 128 + r / 64 mod 64; 128 + r mod 64].

Definition ToLower (s : string) : string :=
  let lower r := if r <? 128 then lower_ascii r else lower_rune r in
  String.string_of_list_ascii (map byte (r ← runes s; encode_rune (lower r))).
End ToLower.

Record RetryConfig : Type := mkConfig {
  MaxAttempts : Z;
  InitialBackoff : Duration;
  MaxBackoff : Duration;
  Multiplier : f64;
  JitterFraction : f64
}.

Record Retry : Type := mkRetry { config : RetryConfig }.

Definition NewRetry (c : RetryConfig) : Retry :=
  mkRetry (mkConfig
    (if MaxAttempts c =? 0 then 3 else MaxAttempts c)
    (if InitialBackoff c =? 0 then 100 * Millisecond else InitialBackoff c)
    (if MaxBackoff c =? 0 then 30 * Second else MaxBackoff c)
    (if f_eq (Multiplier c) f_zero then f_two else Multiplier c)
    (if f_eq (JitterFraction c) f_zero then f_lit 1 10 else JitterFraction c)).

Definition retryablePatterns : list string :=
  ["connection refused"; "timeout"; "temporarily unavailable"; "reset by peer"; "broken pipe";
   "unavailable"].

Section Execute.
Context (lower_rune : Z → Z) (f2i_undefined : f64 → Z).

Definition isRetryable (err : option error) : bool :=
  match err with
  | None => false
  | Some err =>
      errors_Is err ctx_DeadlineExceeded || errors_Is err net_ErrClosed ||
      existsb (λ pattern, Contains (ToLower lower_rune (Error err)) pattern) retryablePatterns
  end.

Definition calculateBackoff (r : Retry) (attempt : Z) : Duration :=
  let multiplied := f_mul (f_of_Z (InitialBackoff (config r))) (pow_nat (Multiplier (config r)) attempt) in
  let backoff := i64_of_f f2i_undefined multiplied in
  if MaxBackoff (config r) <? backoff then MaxBackoff (config r) else backoff.

(** [rand] is the reading of [rand.Float64]. *)
Definition calculateJitter (r : Retry) (backoff : Duration) (rand : f64) : Duration :=
  let jitterAmount := f_mul (f_of_Z backoff) (JitterFraction (config r)) in
  let randomJitter := f_mul (f_mul (f_sub rand f_half) f_two) jitterAmount in
  i64_of_f f2i_undefined randomJitter.

(** The environment by the attempt: the function's answer, whether the context
    ends the wait after it (and with what error), and the random reading. *)
Record Env : Type := mkEnv {
  env_fn : nat → option error;
  env_cancel : nat → option error;
  env_rand : nat → f64
}.

(** The error returned, the calls of the function, and the waits entered. *)
Record trace : Type := mkTrace {
  t_err : option error;
  t_calls : nat;
  t_waits : list Duration
}.

(** The wait after a failed attempt. *)
Definition totalWait (r : Retry) (env : Env) (attempt : nat) : Duration :=
  let backoff := calculateBackoff r (Z.of_nat attempt) in
  backoff +64 calculateJitter r backoff (env_rand env attempt).

(** The loop from [attempt] on, [n] attempts being left. *)
Fixpoint execute_loop (r : Retry) (env : Env) (n attempt : nat) (lastErr : option error)
    (waits : list Duration) : trace :=
  match n with
  | O => mkTrace lastErr attempt waits
  | S n =>
      match env_fn env attempt with
      | None => mkTrace None (S attempt) waits
      | Some err =>
          if negb (isRetryable (Some err)) then mkTrace (Some err) (S attempt) waits
          else if Z.of_nat attempt =? MaxAttempts (config r) -64 1 then mkTrace (Some err) (S attempt) waits
          else
            let waits := waits ++ [totalWait r env attempt] in
            match env_cancel env attempt with
            | Some e => mkTrace (Some e) (S attempt) waits
            | None => execute_loop r env n (S attempt) (Some err) waits
            end
      end
  end.

(** [for attempt := 0; attempt < MaxAttempts; attempt++] *)
Definition Execute (r : Retry) (env : Env) : trace :=
  execute_loop r env (Z.to_nat (MaxAttempts (config r))) 0 None [].

(** Attempt [k] is reached: every earlier one failed with a retryable error, and
    the wait after it was not cancelled. *)
Definition reached (env : Env) (k : nat) : Prop :=
  ∀ j, (j < k)%nat →
    (∃ e, env_fn env j = Some e ∧ isRetryable (Some e) = true) ∧ env_cancel env j = None.

(** What ends the loop at attempt [k] of [m], and with what error. *)
Inductive ends (env : Env) (m k : nat) : option error → Prop :=
| ends_success : env_fn env k = None → ends env m k None
| ends_permanent e : env_fn env k = Some e → isRetryable (Some e) = false → ends env m k (Some e)
| ends_last e : env_fn env k = Some e → isRetryable (Some e) = true → S k = m → ends env m k (Some e)
| ends_cancelled e c :
    env_fn env k = Some e → isRetryable (Some e) = true → (S k < m)%nat → env_cancel env k = Some c →
    ends env m k (Some c).

Definition waits_upto (r : Retry) (env : Env) (k : nat) : list Duration :=
  map (totalWait r env) (seq 0 k).

Lemma waits_upto_S r env k : waits_upto r env (S k) = waits_upto r env k ++ [totalWait r env k].
Proof. unfold waits_upto. by rewrite seq_S, map_app. Qed.

Lemma execute_loop_spec r env n attempt last :
  MaxAttempts (config r) ≤ int64_max →
  Z.of_nat (attempt + S n) = MaxAttempts (config r) → reached env attempt →
  ∃ k, (k < attempt + S n)%nat ∧ reached env k ∧
    ends env (attempt + S n) k (t_err (execute_loop r env (S n) attempt last (waits_upto r env attempt))) ∧
    t_calls (execute_loop r env (S n) attempt last (waits_upto r env attempt)) = S k ∧
    (t_waits (execute_loop r env (S n) attempt last (waits_upto r env attempt)) = waits_upto r env k ∨
     t_waits (execute_loop r env (S n) attempt last (waits_upto r env attempt)) = waits_upto r env (S k) ∧
     is_Some (env_cancel env k)).
Proof.
  intros Hmax. revert attempt last. induction n as [|n IH]; intros i last Hn Hr.
  all: remember (waits_upto r env i) as ws eqn:Hws; cbn [execute_loop].
  all: assert (MaxAttempts (config r) -64 1 = Z.of_nat (i + _) - 1) as Hm
    by (rewrite wrap64_id by (unfold in_int64, int64_min, int64_max in *; lia); rewrite <- Hn; reflexivity).
  all: destruct (env_fn env i) as [e|] eqn:Hf; [|exists i; split_and!; [lia|done|by constructor|done|by left]].
  all: destruct (isRetryable (Some e)) eqn:He; cbn [negb];
    [|exists i; split_and!; [lia|done|by econstructor|done|by left]].
  all: destruct (Z.of_nat i =? MaxAttempts (config r) -64 1) eqn:El; go_bool; rewrite Hm in El;
    try (exfalso; lia).
  - (* the last attempt *)
    exists i. split_and!; [lia|done|apply ends_last; done || lia|done|by left].
  - destruct (env_cancel env i) as [c|] eqn:Hc.
    + exists i. split_and!; [lia|done|eapply ends_cancelled; done || lia|done|].
      right. rewrite waits_upto_S, Hws. by eauto.
    + assert (reached env (S i)) as Hr'.
      { intros j Hj. destruct (decide (j = i)) as [->|]; [eauto|apply Hr; lia]. }
      specialize (IH (S i) (Some e)). rewrite waits_upto_S, <- Hws in IH.
      destruct IH as (k & Hk & IH); [lia|done|]. exists k.
      replace (i + S (S n))%nat with (S i + S n)%nat by lia. split; [lia|exact IH].
Qed.

(** C26 [Execute] terminates and calls the function at most [MaxAttempts] times.
    With a positive [MaxAttempts] it stops at the first attempt that succeeds
    (returning nil), fails with an error that is not retryable (returning that
    error), is the last one (returning its error) or whose wait is cancelled
    (returning the context's error), every earlier attempt having failed with a
    retryable error and been waited for; the waits are the backoff with jitter of
    each of them.  With a negative [MaxAttempts] it returns nil without calling
    the function at all. *)
Theorem Execute_spec (r : Retry) (env : Env) (Hmax : MaxAttempts (config r) ≤ int64_max) :
  if 0 <? MaxAttempts (config r) then
    ∃ k, Z.of_nat k < MaxAttempts (config r) ∧ reached env k ∧
      ends env (Z.to_nat (MaxAttempts (config r))) k (t_err (Execute r env)) ∧
      t_calls (Execute r env) = S k ∧
      (t_waits (Execute r env) = waits_upto r env k ∨
       t_waits (Execute r env) = waits_upto r env (S k) ∧ is_Some (env_cancel env k))
  else Execute r env = mkTrace None 0 [].
Proof.
  destruct (0 <? MaxAttempts (config r)) eqn:E; go_bool.
  - destruct (execute_loop_spec r env (Z.to_nat (MaxAttempts (config r)) - 1) 0 None) as (k & Hk & H);
      [done|lia|intros j Hj; lia|]. unfold Execute. exists k.
    replace (0 + S (Z.to_nat (MaxAttempts (config r)) - 1))%nat
      with (Z.to_nat (MaxAttempts (config r))) in * by lia.
    replace (S (Z.to_nat (MaxAttempts (config r)) - 1))
      with (Z.to_nat (MaxAttempts (config r))) in H by lia.
    split; [lia|exact H].
  - unfold Execute. by replace (Z.to_nat (MaxAttempts (config r))) with 0%nat by lia.
Qed.

End Execute.

(** Refused twice, then a timeout, on the default configuration. *)
Definition demo_env : Env :=
  mkEnv (λ k, if (k <? 2)%nat then Some (Errorf "dial tcp: Connection Refused") else None)
    (λ _, None) (λ _, f_half).

Definition demo_retry : Retry := NewRetry (mkConfig 0 0 0 f_zero f_zero).

Lemma Execute_spec_witness :
  if 0 <? MaxAttempts (config demo_retry) then
    ∃ k, Z.of_nat k < MaxAttempts (config demo_retry) ∧ reached id demo_env k ∧
      ends id demo_env (Z.to_nat (MaxAttempts (config demo_retry))) k
        (t_err (Execute id (λ _, 0) demo_retry demo_env)) ∧
      t_calls (Execute id (λ _, 0) demo_retry demo_env) = S k ∧
      (t_waits (Execute id (λ _, 0) demo_retry demo_env) = waits_upto (λ _, 0) demo_retry demo_env k ∨
       t_waits (Execute id (λ _, 0) demo_retry demo_env) =
         waits_upto (λ _, 0) demo_retry demo_env (S k) ∧ is_Some (env_cancel demo_env k))
  else Execute id (λ _, 0) demo_retry demo_env = mkTrace None 0 [].
Proof. exact (Execute_spec id (λ _, 0) demo_retry demo_env ltac:(vm_compute; discriminate)). Defined.

Example demo_run :
  Execute id (λ _, 0) demo_retry demo_env = mkTrace None 3 [100 * Millisecond; 200 * Millisecond].
Proof. vm_compute. reflexivity. Qed.

Example negative_attempts :
  Execute id (λ _, 0) (NewRetry (mkConfig (-1) 0 0 f_zero f_zero))
    (mkEnv (λ _, Some (Errorf "always")) (λ _, None) (λ _, f_half)) = mkTrace None 0 [].
Proof. vm_compute. reflexivity. Qed.

End Retry.

(** ** timeout.go *)

Module Timeouts.

Record TimeoutConfig : Type := mkConfig {
  GlobalTimeout : Duration;
  ReplicaTimeout : Duration;
  ConnectTimeout : Duration;
  ReadTimeout : Duration
}.

Record TimeoutManager : Type := mkTM { config : TimeoutConfig }.

Definition NewTimeoutManager (c : TimeoutConfig) : TimeoutManager :=
  mkTM (mkConfig
    (if GlobalTimeout c =? 0 then 15 * Second else GlobalTimeout c)
    (if ReplicaTimeout c =? 0 then 5 * Second else ReplicaTimeout c)
    (if ConnectTimeout c =? 0 then 1 * Second else ConnectTimeout c)
    (if ReadTimeout c =? 0 then 4 * Second else ReadTimeout c)).

Definition overhead : Duration := 50 * Millisecond.

(** A division by zero panics; the quotient of the least int64 by -1 wraps. *)
Definition go_div (a b : Z) : outcome Z :=
  if b =? 0 then Panic "runtime error: integer divide by zero" else Ret (wrap64 (Z.quot a b)).

Definition CalculateAttemptTimeout (tm : TimeoutManager) (now globalDeadline : Time)
    (maxAttempts currentAttempt : Z) : outcome Duration :=
  let timeRemaining := time_Until now globalDeadline in
  if timeRemaining <=? 0 then Ret 0
  else
    let attemptsLeft := maxAttempts -64 currentAttempt +64 1 in
    share ← go_div timeRemaining attemptsLeft;
    let perAttempt := share -64 overhead in
    let perAttempt := if ReplicaTimeout (config tm) <? perAttempt then ReplicaTimeout (config tm)
                      else perAttempt in
    Ret (if perAttempt <? 0 then 0 else perAttempt).

Definition CreateRequestContext (tm : TimeoutManager) (now : Time) (parent : Context)
    (clientTimeoutMs : Z) : Context :=
  let timeout := if 0 <? clientTimeoutMs then clientTimeoutMs *64 Millisecond
                 else GlobalTimeout (config tm) in
  context_WithTimeout now parent timeout.

(** The successive readings of the clock: of [Now] without a deadline, of
    [Until], of [Now] for the attempt, and in [WithDeadline]. *)
Definition CreateAttemptContext (tm : TimeoutManager) (now0 now1 now2 now3 : Time)
    (requestCtx : Context) (maxAttempts currentAttempt : Z) : outcome Context :=
  let deadline := match Deadline requestCtx with
                  | Some d => d
                  | None => now0 + GlobalTimeout (config tm)
                  end in
  attemptTimeout ← CalculateAttemptTimeout tm now1 deadline maxAttempts currentAttempt;
  let attemptDeadline := now2 + attemptTimeout in
  let attemptDeadline := if deadline <? attemptDeadline then deadline else attemptDeadline in
  Ret (WithDeadline now3 requestCtx attemptDeadline).

Definition GetGlobalTimeout (tm : TimeoutManager) : Duration := GlobalTimeout (config tm).
Definition GetReplicaTimeout (tm : TimeoutManager) : Duration := ReplicaTimeout (config tm).

(** The attempts from [cur] to [max], each starting when the one before has used
    up its timeout and the overhead; the time when the last is over. *)
Fixpoint schedule (tm : TimeoutManager) (deadline : Time) (max : Z) (n : nat) (cur : Z) (now : Time)
    : outcome Time :=
  match n with
  | O => Ret now
  | S n =>
      t ← CalculateAttemptTimeout tm now deadline max cur;
      schedule tm deadline max n (cur + 1) (if t =? 0 then now else now + t + overhead)
  end.

Definition in_bounds (a b : Z) : Prop := in_int64 (a - b) ∧ in_int64 (a - b + 1).

Lemma attempt_timeout_eq tm now d max cur :
  in_bounds max cur → cur ≤ max →
  ∃ t, CalculateAttemptTimeout tm now d max cur = Ret t ∧ 0 ≤ t ≤ Z.max 0 (ReplicaTimeout (config tm)) ∧
    (0 < t → (max - cur + 1) * (t + overhead) ≤ d - now).
Proof.
  intros [H1 H2] Hle. unfold CalculateAttemptTimeout, time_Until, time_Sub.
  set (rem := Z.max int64_min (Z.min int64_max (d - now))).
  destruct (rem <=? 0) eqn:Er; go_bool; [exists 0; split_and!; [done|lia|lia|lia]|].
  rewrite !wrap64_id by (try rewrite wrap64_id; done). unfold go_div.
  rewrite (proj2 (Z.eqb_neq _ _)) by lia. unfold mbind, outcome_bind.
  set (n := max - cur + 1) in *. assert (0 < n) as Hn by lia.
  pose proof (Z.quot_pos rem n ltac:(lia) ltac:(lia)) as Hq0.
  pose proof (Z.quot_le_upper_bound rem n rem) as Hq1.
  assert (n * (rem ÷ n) ≤ rem) as Hmul by (apply Z.mul_quot_le; lia).
  assert (rem ≤ int64_max) as Hr by (unfold rem, int64_min, int64_max; lia).
  assert (rem ÷ n ≤ rem) as Hq by (apply Hq1; [lia|nia]).
  rewrite !wrap64_id by (rewrite ?wrap64_id; unfold in_int64, int64_min, int64_max, overhead, Millisecond, Microsecond in *; lia).
  eexists. split; [done|].
  assert (0 ≤ overhead) as Ho by (unfold overhead, Millisecond, Microsecond; lia).
  assert (rem ≤ d - now) as Hd by (unfold rem, int64_min, int64_max in *; lia).
  set (p := if ReplicaTimeout (config tm) <? rem ÷ n - overhead then ReplicaTimeout (config tm)
            else rem ÷ n - overhead).
  assert (p ≤ ReplicaTimeout (config tm) ∧ p ≤ rem ÷ n - overhead) as [Hp1 Hp2].
  { unfold p. destruct (_ <? _) eqn:E1; go_bool; lia. }
  destruct (p <? 0) eqn:E2; go_bool; [lia|]. split; [lia|]. intros _. nia.
Qed.

(** C27 The attempt timeouts fit: a timeout is between zero and the replica
    timeout, and when it is positive all the attempts left, given that much and
    the overhead each, end before the deadline; so a request that makes its
    attempts one after the other, each with the timeout computed when it starts
    (one with no time left is given up at once), is over by the deadline (or by the time it started, if that was past it).
    The one attempt number past the last, [maxAttempts + 1], divides by zero. *)
Theorem attempts_fit (tm : TimeoutManager) (deadline : Time) (max cur : Z) (now : Time)
    (Hb : 1 ≤ cur ≤ max) (Hmax : max < int64_max) :
  (∃ t, CalculateAttemptTimeout tm now deadline max cur = Ret t ∧
     0 ≤ t ≤ Z.max 0 (ReplicaTimeout (config tm)) ∧
     (0 < t → (max - cur + 1) * (t + overhead) ≤ deadline - now)) ∧
  (∃ fin, schedule tm deadline max (Z.to_nat (max - cur + 1)) cur now = Ret fin ∧
     now ≤ fin ≤ Z.max now deadline) ∧
  (now < deadline → ∃ e, CalculateAttemptTimeout tm now deadline max (max + 1) = Panic e).
Proof.
  assert (∀ c, 1 ≤ c ≤ max → in_bounds max c) as Hin.
  { intros c Hc. unfold in_bounds, in_int64, int64_min, int64_max in *. lia. }
  split_and!.
  - apply attempt_timeout_eq; [by apply Hin|lia].
  - remember (Z.to_nat (max - cur + 1)) as n eqn:Hn. revert cur now Hb Hn.
    induction n as [|n IH]; intros cur now Hb Hn; [lia|]. cbn [schedule].
    destruct (attempt_timeout_eq tm now deadline max cur (Hin _ Hb) ltac:(lia)) as (t & -> & Ht & Hfit).
    unfold mbind, outcome_bind.
    assert (0 < overhead) by (unfold overhead, Millisecond, Microsecond; lia).
    set (now' := if t =? 0 then now else now + t + overhead).
    assert (now ≤ now' ≤ Z.max now deadline) as Hnow.
    { unfold now'. destruct (t =? 0) eqn:E; go_bool; [lia|]. specialize (Hfit ltac:(lia)). nia. }
    destruct (decide (n = 0%nat)) as [->|]; [by exists now'|].
    destruct (IH (cur + 1) now') as (fin & -> & Hfin); [lia..|]. exists fin. split; [done|lia].
  - intros Hlt. unfold CalculateAttemptTimeout, time_Until, time_Sub.
    rewrite (proj2 (Z.leb_gt _ _)) by (unfold int64_min, int64_max; lia).
    replace (max - (max + 1)) with (-1) by lia. by eexists.
Qed.

Lemma attempts_fit_witness :
  (∃ t, CalculateAttemptTimeout (NewTimeoutManager (mkConfig 0 0 0 0)) 0 (15 * Second) 3 1 = Ret t ∧
     0 ≤ t ≤ Z.max 0 (ReplicaTimeout (config (NewTimeoutManager (mkConfig 0 0 0 0)))) ∧
     (0 < t → (3 - 1 + 1) * (t + overhead) ≤ 15 * Second - 0)) ∧
  (∃ fin, schedule (NewTimeoutManager (mkConfig 0 0 0 0)) (15 * Second) 3 (Z.to_nat (3 - 1 + 1)) 1 0 = Ret fin ∧
     0 ≤ fin ≤ Z.max 0 (15 * Second)) ∧
  (0 < 15 * Second → ∃ e,
     CalculateAttemptTimeout (NewTimeoutManager (mkConfig 0 0 0 0)) 0 (15 * Second) 3 (3 + 1) = Panic e).
Proof.
  exact (attempts_fit (NewTimeoutManager (mkConfig 0 0 0 0)) (15 * Second) 3 1 0
           ltac:(split; vm_compute; discriminate) ltac:(reflexivity)).
Defined.

(** An attempt never outlives its request. *)
Lemma attempt_within_request tm n0 n1 n2 n3 ctx d max cur c :
  Deadline ctx = Some d → CreateAttemptContext tm n0 n1 n2 n3 ctx max cur = Ret c →
  ∃ d', Deadline c = Some d' ∧ d' ≤ d.
Proof.
  intros Hd. unfold CreateAttemptContext. rewrite Hd. unfold mbind, outcome_bind.
  destruct (CalculateAttemptTimeout _ _ _ _ _) as [t|]; [|done]. intros [= <-].
  unfold WithDeadline. rewrite Hd. case_match; go_bool; [by exists d|].
  eexists. split; [done|]. case_match; go_bool; lia.
Qed.

End Timeouts.
