(* ===== verification/WvGateway.v ===== *)
(** * Weaver: the gateway

    [src/src/Weaver/pkg/gateway/gateway.go], a client of the load balancer's
    interface ([WvLoadBalancer.LoadBalancer]) and of two it only calls: the
    discovery service, whose answers are arguments, and the health monitor, whose
    calls are recorded.  Replicas are pointers into the store they share. *)

From S2P Require Import Prelude GoFloat WvTypes Resilience WvLoadBalancer.

(** [discovery.ReplicaInfo] (src/src/Weaver/pkg/discovery/interface.go). *)
Record ReplicaInfo : Type := mkInfo {
  ri_Name : string;
  ri_Address : string;
  ri_Healthy : bool
}.

Record GatewayMetrics : Type := mkGwMetrics {
  RequestsTotal : Z;
  ErrorsTotal : Z;
  PanicModeTime : Time;
  LastHealthCheck : Time
}.

(** What the gateway calls on the health monitor and the discovery service. *)
Inductive call : Type :=
| CallMonitorStart
| CallMonitorStop
| CallWatch
| CallDiscoveryClose.

Section Gateway.
Context {L : Type} `{LoadBalancer L}.

(** Configuration and gateway: of the two interfaces, whether they are nil; the
    load balancer may be nil. *)
Record Config : Type := mkGwConfig {
  cfg_Name : string;
  cfg_Discovery : bool;
  cfg_HealthMon : bool;
  cfg_LoadBalancer : option L
}.

Record Gateway : Type := mkGateway {
  gw_name : string;
  gw_replicas : list nat;
  gw_discovery : bool;
  gw_healthMonitor : bool;
  gw_lb : option L;
  gw_metrics : GatewayMetrics;
  gw_state : GatewayState
}.

Definition NewGateway (cfg : Config) : Gateway :=
  mkGateway (cfg_Name cfg) [] (cfg_Discovery cfg) (cfg_HealthMon cfg) (cfg_LoadBalancer cfg)
    (mkGwMetrics 0 0 zero_time zero_time) GatewayStateReady.

Definition setGatewayState (st : GatewayState) (gw : Gateway) : Gateway :=
  mkGateway (gw_name gw) (gw_replicas gw) (gw_discovery gw) (gw_healthMonitor gw) (gw_lb gw)
    (gw_metrics gw) st.

(** The process, [src/src/Weaver/cmd/weaver/main.go], which does not use the gateway
    yet: the lines it logs for its flag. *)
Definition default_configPath : string := "config.yaml".
Definition main (configPath : string) : list string :=
  ["Weaver Gateway starting with config: " +:+ configPath; "TODO: Implement gateway initialization"].

Definition GetState (gw : Gateway) : GatewayState := gw_state gw.

Definition SetReplicas (rs : list nat) (gw : Gateway) : Gateway :=
  mkGateway (gw_name gw) rs (gw_discovery gw) (gw_healthMonitor gw) (gw_lb gw) (gw_metrics gw)
    (gw_state gw).

Definition set_lb (l : option L) (gw : Gateway) : Gateway :=
  mkGateway (gw_name gw) (gw_replicas gw) (gw_discovery gw) (gw_healthMonitor gw) l (gw_metrics gw)
    (gw_state gw).

(** A copy of the slice: the same pointers. *)
Definition GetReplicas (gw : Gateway) : list nat := gw_replicas gw.

Definition replica_of (i : ReplicaInfo) : Replica :=
  mkReplica (ri_Name i) (ri_Address i) (ri_Healthy i) zero_metrics 0.

(** [replicas[i] = &Replica{...}] for every info. *)
Fixpoint alloc_replicas (s : store) (infos : list ReplicaInfo) : store * list nat :=
  match infos with
  | [] => (s, [])
  | i :: infos =>
      let l := fresh (dom (s : gmap nat Replica)) in
      let '(s, ls) := alloc_replicas (<[l := replica_of i]> (s : gmap nat Replica)) infos in
      (s, l :: ls)
  end.

(** [Start], [discovered] being the answer of [Discover]; the goroutine that
    watches is started. *)
Definition Start (s : store) (discovered : result (list ReplicaInfo)) (gw : Gateway)
    : store * Gateway * list call * option error :=
  if negb (gw_discovery gw) then (s, gw, [], Some (Errorf "discovery service required"))
  else
    match discovered with
    | Err e => (s, gw, [], Some e)
    | Ok infos =>
        let '(s, replicas) := alloc_replicas s infos in
        let gw := SetReplicas replicas gw in
        let calls := (if gw_healthMonitor gw then [CallMonitorStart] else []) ++ [CallWatch] in
        (s, setGatewayState GatewayStateReady gw, calls, None)
    end.

(** One change received by [watchDiscovery]. *)
Definition watch_change (s : store) (infos : list ReplicaInfo) (gw : Gateway) : store * Gateway :=
  let '(s, replicas) := alloc_replicas s infos in
  let gw := SetReplicas replicas gw in
  (s, match gw_lb gw with
      | Some l => set_lb (Some (lb_Rebalance l replicas)) gw
      | None => gw
      end).

(** The readings of the clock in [RouteRequest]: for the deadline, for its
    check, and in [RecordSuccess]. *)
Record clock : Type := mkClock { c_deadline : Time; c_check : Time; c_record : Time }.

Definition ok_response : Response := mkResponse 200 "OK" ∅ 1.

(** The loop's body: every branch of it returns, so there is one iteration. *)
Definition route_attempt (c : clock) (who : option string) (s : store) (l : L) (replicas : list nat)
    : store * L * outcome (result Response) :=
  let '(l, sel) := lb_Select l s who replicas in
  match sel with
  | Panic e => (s, l, Panic e)
  | Ret (Err e) => (s, l, Ret (Err e))
  | Ret (Ok p) =>
      match (s : gmap nat Replica) !! p with
      | None => (s, l, Ret (Err (Errorf "no healthy replica selected")))
      | Some replica =>
          (<[p := RecordSuccess (c_record c) (LatencyMs ok_response *64 Millisecond) replica]>
             (s : gmap nat Replica), l, Ret (Ok ok_response))
      end
  end.

Definition RouteRequest (c : clock) (ctx : Context) (who : option string) (req : Request)
    (s : store) (gw : Gateway) : store * Gateway * outcome (result Response) :=
  match ctx_Err ctx with
  | Some e => (s, gw, Ret (Err e))
  | None =>
      let replicas := gw_replicas gw in
      if (length replicas =? 0)%nat then
        (s, setGatewayState GatewayStatePanic gw, Ret (Err (Errorf "no replicas available")))
      else
        let deadline := c_deadline c + (TimeoutMs req *64 Millisecond) in
        if deadline <? c_check c then (s, gw, Ret (Err (Errorf "request timeout")))
        else
          match gw_lb gw with
          | None => (s, gw, Panic nil_deref)
          | Some l =>
              let '(s, l, out) := route_attempt c who s l replicas in
              (s, set_lb (Some l) gw, out)
          end
  end.

Definition Stop (gw : Gateway) : list call :=
  (if gw_healthMonitor gw then [CallMonitorStop] else []) ++
  (if gw_discovery gw then [CallDiscoveryClose] else []).

(** [routing.go]: of replicas of one name, the last one's connections. *)
Fixpoint load_distribution (s : store) (rs : list nat) (distribution : gmap string Z)
    : outcome (gmap string Z) :=
  match rs with
  | [] => Ret distribution
  | r :: rs =>
      x ← load s r;
      load_distribution s rs (<[Name x := ActiveConnections x]> (distribution : gmap string Z))
  end.

Definition GetLoadDistribution (s : store) (gw : Gateway) : outcome (gmap string Z) :=
  load_distribution s (gw_replicas gw) ∅.

(** ** Histories *)

Inductive op : Type :=
| OpRoute (c : clock) (ctx : Context) (who : option string) (req : Request)
| OpWatch (infos : list ReplicaInfo)
| OpSetReplicas (rs : list nat).

Definition step (o : op) (w : store * Gateway) : store * Gateway * option (outcome (result Response)) :=
  let '(s, gw) := w in
  match o with
  | OpRoute c ctx who req => let '(s, gw, out) := RouteRequest c ctx who req s gw in (s, gw, Some out)
  | OpWatch infos => (watch_change s infos gw, None)
  | OpSetReplicas rs => (s, SetReplicas rs gw, None)
  end.

Fixpoint run (os : list op) (w : store * Gateway)
    : store * Gateway * list (option (outcome (result Response))) :=
  match os with
  | [] => (w, [])
  | o :: os => let '(w, a) := step o w in let '(w, out) := run os w in (w, a :: out)
  end.

(** ** Theorems *)

Lemma alloc_replicas_spec s infos :
  let '(s', ls) := alloc_replicas s infos in
  (s : gmap nat Replica) ⊆ s' ∧ length ls = length infos ∧ NoDup ls ∧
  Forall (λ l, (s : gmap nat Replica) !! l = None) ls ∧
  Forall2 (λ l i, (s' : gmap nat Replica) !! l = Some (replica_of i)) ls infos.
Proof.
  revert s. induction infos as [|i infos IH]; intros s; cbn [alloc_replicas].
  { split_and!; try done; constructor. }
  set (l := fresh (dom (s : gmap nat Replica))).
  assert ((s : gmap nat Replica) !! l = None) as Hl.
  { apply not_elem_of_dom, is_fresh. }
  specialize (IH (<[l := replica_of i]> (s : gmap nat Replica))).
  destruct (alloc_replicas _ infos) as [s' ls]. destruct IH as (Hsub & Hlen & Hnd & Hfr & Hall).
  assert (Forall (λ l', l' ≠ l ∧ (s : gmap nat Replica) !! l' = None) ls) as Hfr'.
  { eapply Forall_impl; [exact Hfr|]. intros l' Hl'. by apply lookup_insert_None in Hl' as [? ?%not_eq_sym]. }
  split_and!.
  - etrans; [|exact Hsub]. by apply insert_subseteq.
  - simpl. by rewrite Hlen.
  - constructor; [|done]. intros Hin. rewrite Forall_forall in Hfr'. by destruct (Hfr' l Hin).
  - constructor; [done|]. eapply Forall_impl; [exact Hfr'|]. by intros l' [? ?].
  - constructor; [|done]. eapply lookup_weaken; [|exact Hsub]. apply lookup_insert_eq.
Qed.

(** What a success leaves in the replica [x]: one request more, a millisecond of
    latency more, the streak of errors ended; nothing else changes. *)
Record success_recorded (now : Time) (x x' : Replica) : Prop := {
  sr_identity : (Name x', Address x', Healthy x', ActiveConnections x') =
                (Name x, Address x, Healthy x, ActiveConnections x);
  sr_requests : RequestCount (Metrics x') = RequestCount (Metrics x) +64 1;
  sr_latency : TotalLatency (Metrics x') = TotalLatency (Metrics x) +64 Millisecond;
  sr_errors : ErrorCount (Metrics x') = ErrorCount (Metrics x) ∧ ConsecutiveErrors (Metrics x') = 0;
  sr_checked : LastCheckTime (Metrics x') = now
}.

Lemma RecordSuccess_recorded now x : success_recorded now x (RecordSuccess now Millisecond x).
Proof. by split. Qed.

(** A request that is let through: a live context, replicas, a deadline ahead. *)
Definition admitted (c : clock) (ctx : Context) (req : Request) (gw : Gateway) : Prop :=
  ctx_Err ctx = None ∧ gw_replicas gw ≠ [] ∧ c_check c ≤ c_deadline c + (TimeoutMs req *64 Millisecond).

(** C15 [RouteRequest], branch by branch, with any load balancer that keeps its
    interface's promise. A done context, an empty list of replicas and a passed
    deadline each give their error, in this order of precedence, and change nothing
    but that the empty list moves the gateway to PANIC. Otherwise a nil load
    balancer panics; an error or a panic of its [Select] is the request's; a nil
    replica is the error that none was selected; in these cases no replica changes.
    A replica that is selected is one of the gateway's: the request answers 200, and
    that replica alone changes, by the record of one success. The load balancer is
    left as [Select] leaves it, the rest of the gateway as it was. *)
Theorem RouteRequest_spec `{!LoadBalancerLaws L} (c : clock) (ctx : Context) (who : option string)
    (req : Request) (s : store) (gw : Gateway) :
  let '(s', gw', out) := RouteRequest c ctx who req s gw in
  let rs := gw_replicas gw in
  (∀ e, ctx_Err ctx = Some e → s' = s ∧ gw' = gw ∧ out = Ret (Err e)) ∧
  (ctx_Err ctx = None → rs = [] →
     s' = s ∧ gw' = setGatewayState GatewayStatePanic gw ∧ out = Ret (Err (Errorf "no replicas available"))) ∧
  (ctx_Err ctx = None → rs ≠ [] → c_deadline c + (TimeoutMs req *64 Millisecond) < c_check c →
     s' = s ∧ gw' = gw ∧ out = Ret (Err (Errorf "request timeout"))) ∧
  (admitted c ctx req gw → gw_lb gw = None → s' = s ∧ gw' = gw ∧ out = Panic nil_deref) ∧
  (admitted c ctx req gw → ∀ l, gw_lb gw = Some l →
     let '(l', selected) := lb_Select l s who rs in
     gw' = set_lb (Some l') gw ∧
     (∀ e, selected = Panic e → s' = s ∧ out = Panic e) ∧
     (∀ e, selected = Ret (Err e) → s' = s ∧ out = Ret (Err e)) ∧
     (∀ p, selected = Ret (Ok p) →
        p ∈ rs ∧
        ((s : gmap nat Replica) !! p = None → s' = s ∧ out = Ret (Err (Errorf "no healthy replica selected"))) ∧
        (∀ x, (s : gmap nat Replica) !! p = Some x →
           out = Ret (Ok ok_response) ∧ StatusCode ok_response = 200 ∧
           (∃ x', (s' : gmap nat Replica) !! p = Some x' ∧ success_recorded (c_record c) x x') ∧
           ∀ q, q ≠ p → (s' : gmap nat Replica) !! q = (s : gmap nat Replica) !! q))).
Proof.
  unfold RouteRequest, admitted. destruct (ctx_Err ctx) as [e|] eqn:Ec.
  { split_and!; [by intros ? [= <-]|by intros|by intros|by intros [? _]|by intros [? _]]. }
  destruct (length (gw_replicas gw) =? 0)%nat eqn:El.
  { apply Nat.eqb_eq, length_zero_iff_nil in El.
    split_and!; [by intros|by intros|by intros|by intros (_ & ? & _)|by intros (_ & ? & _)]. }
  apply Nat.eqb_neq in El.
  assert (gw_replicas gw ≠ []) as Hne by (intros E; by rewrite E in El).
  destruct (_ <? c_check c) eqn:Ed; go_bool.
  { split_and!; [by intros|by intros|by intros|intros (_ & _ & ?); lia|intros (_ & _ & ?); lia]. }
  destruct (gw_lb gw) as [l|] eqn:Eb.
  2:{ split_and!; [by intros|by intros|by intros; lia|by intros|by intros]. }
  unfold route_attempt. destruct (lb_Select l s who (gw_replicas gw)) as [l' sel] eqn:Es.
  destruct (match sel with Panic _ => _ | Ret _ => _ end) as [[s1 l1] out] eqn:Em.
  split_and!; [by intros|by intros|by intros; lia|by intros|]. intros _ ? [= <-]. rewrite Es.
  destruct sel as [[p|e]|e]; [|simplify_eq; by split_and!; intros; simplify_eq..].
  destruct ((s : gmap nat Replica) !! p) as [x|] eqn:Ex; simplify_eq;
    (split_and!; [done|by intros|by intros|]; intros ? [= <-]; split; [by eapply lb_member|]);
    rewrite Ex; (split; [by intros|]); [|by intros].
  intros ? [= <-]. split; [done|]. split; [done|]. split.
  - eexists. split; [apply lookup_insert_eq|]. apply RecordSuccess_recorded.
  - intros q Hq. by rewrite lookup_insert_ne.
Qed.

Lemma step_state o s gw :
  gw_state gw = GatewayStatePanic → gw_state (step o (s, gw)).1.2 = GatewayStatePanic.
Proof.
  intros Hs. destruct o as [c ctx who req|infos|rs]; cbn [step].
  - unfold RouteRequest. destruct (ctx_Err ctx); [done|].
    destruct (length (gw_replicas gw) =? 0)%nat; [done|]. destruct (_ <? c_check c); [done|].
    destruct (gw_lb gw) as [l|]; [|done]. by destruct (route_attempt c who s l (gw_replicas gw)) as [[? ?] ?].
  - unfold watch_change. destruct (alloc_replicas s infos). by destruct (gw_lb _).
  - done.
Qed.

(** PANIC sticks: a request that meets an empty replica list moves the gateway
    to PANIC, and nothing but a new [Start] moves it back: after any further
    discovery changes (with replicas again), replica lists set by hand, and
    requests (even answered ones), [GetState] still says PANIC. *)
Theorem panic_sticks (c : clock) (ctx : Context) (who : option string) (req : Request)
    (s : store) (gw : Gateway) (os : list op)
    (Hctx : ctx_Err ctx = None) (Hempty : gw_replicas gw = []) :
  let '(w, out) := run (OpRoute c ctx who req :: os) (s, gw) in
  head out = Some (Some (Ret (Err (Errorf "no replicas available")))) ∧ GetState w.2 = GatewayStatePanic.
Proof.
  cbn [run step]. unfold RouteRequest. rewrite Hctx, Hempty. cbn [length Nat.eqb].
  assert (gw_state (setGatewayState GatewayStatePanic gw) = GatewayStatePanic) as Hp by done.
  revert Hp. generalize s (setGatewayState GatewayStatePanic gw). clear.
  intros s gw Hp. cut (gw_state (run os (s, gw)).1.2 = GatewayStatePanic).
  { destruct (run os (s, gw)) as [w out]. done. }
  revert s gw Hp. induction os as [|o os IH]; intros s gw Hp; [done|]. cbn [run].
  pose proof (step_state o s gw Hp) as Hp'. destruct (step o (s, gw)) as [[s' gw'] a]. 
  specialize (IH s' gw' Hp'). by destruct (run os (s', gw')).
Qed.

End Gateway.

Arguments Config L : clear implicits.
Arguments Gateway L : clear implicits.
Arguments mkGwConfig {L}.

Definition demo_req : Request := mkRequest "GET" "" ∅ 1000 "id" "10.0.0.1".
Definition demo_clock : clock := mkClock 5 6 7.
Definition demo_ctx : Context := mkCtx None None.
Definition demo_infos : list ReplicaInfo := [mkInfo "a" "10.0.0.1:80" true; mkInfo "b" "10.0.0.2:80" true].

Definition demo_gw : Gateway RoundRobin := NewGateway (mkGwConfig "gw" true false (Some NewRoundRobin)).

Lemma panic_sticks_witness :
  let '(w, out) := run (OpRoute demo_clock demo_ctx None demo_req ::
                        [OpWatch demo_infos; OpRoute demo_clock demo_ctx None demo_req]) (∅, demo_gw) in
  head out = Some (Some (Ret (Err (Errorf "no replicas available")))) ∧ GetState w.2 = GatewayStatePanic.
Proof.
  exact (panic_sticks demo_clock demo_ctx None demo_req ∅ demo_gw
           [OpWatch demo_infos; OpRoute demo_clock demo_ctx None demo_req] eq_refl eq_refl).
Defined.

(** The request after the change is answered all the same. *)
Example panic_answers :
  (run [OpRoute demo_clock demo_ctx None demo_req; OpWatch demo_infos;
        OpRoute demo_clock demo_ctx None demo_req] (∅, demo_gw)).2 =
  [Some (Ret (Err (Errorf "no replicas available"))); None; Some (Ret (Ok ok_response))].
Proof. vm_compute. reflexivity. Qed.

Definition demo_store : store := {[ 1%nat := demo_replica "a" ]}.
Definition demo_live : Gateway RoundRobin := SetReplicas [1%nat] demo_gw.

(** The demonstration's gateway answers, and records it on the first replica. *)
Lemma RouteRequest_spec_witness :
  let '(s', gw', out) := RouteRequest demo_clock demo_ctx None demo_req demo_store demo_live in
  out = Ret (Ok ok_response) ∧
  ∃ p x x', p ∈ gw_replicas demo_live ∧ (demo_store : gmap nat Replica) !! p = Some x ∧
    (s' : gmap nat Replica) !! p = Some x' ∧ success_recorded 7 x x'.
Proof.
  pose proof (RouteRequest_spec demo_clock demo_ctx None demo_req demo_store demo_live) as H.
  destruct (RouteRequest demo_clock demo_ctx None demo_req demo_store demo_live) as [[s' gw'] out].
  destruct H as (_ & _ & _ & _ & H).
  assert (admitted demo_clock demo_ctx demo_req demo_live) as Ha by (split_and!; vm_compute; discriminate || reflexivity).
  destruct (gw_lb demo_live) as [l|] eqn:El; [|exfalso; vm_compute in El; discriminate].
  specialize (H Ha l eq_refl).
  destruct (lb_Select l demo_store None (gw_replicas demo_live)) as [l' sel] eqn:Es.
  destruct H as (_ & _ & _ & H).
  vm_compute in El. injection El as <-. vm_compute in Es. injection Es as <- <-.
  destruct (H _ eq_refl) as (Hp & _ & Hx).
  destruct (Hx _ ltac:(vm_compute; reflexivity)) as (Ho & _ & (x' & Hx' & Hr) & _).
  split; [exact Ho|]. eexists _, _, x'. split; [exact Hp|]. split; [vm_compute; reflexivity|]. split; [exact Hx'|exact Hr].
Defined.

(** *** With LeastConnections *)

(** The requests the gateway accepts: a live context and a deadline ahead. *)
Definition accepted (r : clock * Context * option string * Request) : Prop :=
  let '(c, ctx, who, req) := r in
  ctx_Err ctx = None ∧ c_check c ≤ c_deadline c + (TimeoutMs req *64 Millisecond).

Definition route (r : clock * Context * option string * Request) : op :=
  let '(c, ctx, who, req) := r in OpRoute c ctx who req.

(** Every replica of the list is live and has no connections. *)
Definition idle (s : store) (rs : list nat) : Prop :=
  Forall (λ r, ∃ x, (s : gmap nat Replica) !! r = Some x ∧ ActiveConnections x = 0) rs.

Lemma scan_min_idle s rs sel : idle s rs → scan_min s rs sel 0 = Ret sel.
Proof.
  induction 1 as [|r rs (x & Hx & Hc) _ IH]; [done|]. cbn [scan_min]. unfold load. rewrite Hx.
  unfold mbind, outcome_bind. by rewrite Hc.
Qed.

Lemma idle_RecordSuccess s rs p x now d :
  (s : gmap nat Replica) !! p = Some x → idle s rs →
  idle (<[p := RecordSuccess now d x]> (s : gmap nat Replica)) rs.
Proof.
  intros Hp Hi. eapply Forall_impl; [exact Hi|]. intros r (y & Hy & Hc).
  destruct (decide (r = p)) as [->|].
  - exists (RecordSuccess now d x). rewrite lookup_insert_eq. split; [done|]. simplify_eq. done.
  - exists y. by rewrite lookup_insert_ne.
Qed.

Lemma route_idle (s : store) (gw : Gateway LeastConnections) r0 rs x q :
  accepted q → gw_lb gw = Some NewLeastConnections → gw_replicas gw = r0 :: rs →
  (s : gmap nat Replica) !! r0 = Some x → idle s (r0 :: rs) →
  step (route q) (s, gw) =
  (<[r0 := RecordSuccess (c_record q.1.1.1) Millisecond x]> (s : gmap nat Replica), gw,
   Some (Ret (Ok ok_response))).
Proof.
  destruct q as [[[c ctx] who] req]. intros [Hctx Hd] Hlb Hrs Hx Hi. cbn [route step fst].
  unfold RouteRequest. rewrite Hctx, Hrs, (proj2 (Z.ltb_ge _ _) Hd), Hlb. cbn [length Nat.eqb].
  unfold route_attempt. change (lb_Select NewLeastConnections s who (r0 :: rs))
    with (LeastConnections_Select NewLeastConnections s (r0 :: rs)). unfold LeastConnections_Select, load.
  rewrite Hx. unfold mbind, outcome_bind.
  inversion Hi as [|? ? (y & Hy & Hc) Hi']; subst. simplify_eq. rewrite Hc, scan_min_idle by done.
  rewrite Hx. destruct gw. cbn in *. by subst.
Qed.

(** C39 The gateway never tells its load balancer about load ([UpdateLoad] has no
    caller), so with least-connections balancing every request goes to the first
    replica discovered: after [Start], any number of accepted requests are all
    answered by it, its request count says so, and no other replica changes. *)
Theorem least_connections_degenerate (s s1 : store) (gw gw1 : Gateway LeastConnections)
    (infos : list ReplicaInfo) (calls : list call) (qs : list (clock * Context * option string * Request))
    (Hlb : gw_lb gw = Some NewLeastConnections) (Hinfos : infos ≠ [])
    (Hstart : Start s (Ok infos) gw = (s1, gw1, calls, None)) (Hq : Forall accepted qs) :
  ∃ first,
    head (gw_replicas gw1) = Some first ∧ length (gw_replicas gw1) = length infos ∧
    let '(s2, gw2, out) := run (map route qs) (s1, gw1) in
    out = map (λ _, Some (Ret (Ok ok_response))) qs ∧
    (∃ x, (s2 : gmap nat Replica) !! first = Some x ∧
       RequestCount (Metrics x) = wrap64 (Z.of_nat (length qs))) ∧
    ∀ l, l ≠ first → (s2 : gmap nat Replica) !! l = (s1 : gmap nat Replica) !! l.
Proof.
  unfold Start in Hstart. destruct (gw_discovery gw); [|done]. simpl in Hstart.
  pose proof (alloc_replicas_spec s infos) as Ha. destruct (alloc_replicas s infos) as [s' rs].
  destruct Ha as (_ & Hlen & _ & _ & Hall). injection Hstart as <- <- _.
  cbn [gw_replicas setGatewayState SetReplicas].
  destruct Hall as [|r0 i rs infos Hr0 Hall]; [done|]. exists r0. split; [done|]. split; [done|].
  assert (idle s' (r0 :: rs)) as Hi.
  { constructor; [by eexists|]. clear -Hall. induction Hall; constructor; eauto. }
  assert (∃ x, (s' : gmap nat Replica) !! r0 = Some x ∧ RequestCount (Metrics x) = wrap64 (Z.of_nat 0))
    as (x & Hx & Hc) by (exists (replica_of i); split; [exact Hr0|reflexivity]).
  clear Hr0 Hall Hinfos Hlen. set (g := setGatewayState GatewayStateReady (SetReplicas (r0 :: rs) gw)).
  assert (gw_lb g = Some NewLeastConnections ∧ gw_replicas g = r0 :: rs) as [Hg1 Hg2] by done.
  change (wrap64 (Z.of_nat (length qs))) with (wrap64 (Z.of_nat (0 + length qs))).
  revert s' x Hx Hc Hi. generalize 0%nat as n.
  induction Hq as [|q qs Hacc Hq IH]; intros n s' x Hx Hc Hi; cbn [map run length].
  { split; [done|]. split; [|done]. exists x. by rewrite Nat.add_0_r. }
  rewrite (route_idle s' g r0 rs x q) by done. 
  specialize (IH (S n) (<[r0 := RecordSuccess (c_record q.1.1.1) Millisecond x]> (s' : gmap nat Replica))
                (RecordSuccess (c_record q.1.1.1) Millisecond x)).
  destruct (run (map route qs) _) as [[s2 gw2] out]. destruct IH as (-> & (y & Hy & Hcy) & Hother).
  - apply lookup_insert_eq.
  - simpl. rewrite Hc, wrap64_add_l. f_equal. lia.
  - by apply idle_RecordSuccess.
  - split; [done|]. split; [exists y; split; [done|]; rewrite Hcy; do 2 f_equal; lia|].
    intros l Hl. rewrite Hother by done. by rewrite lookup_insert_ne.
Qed.

Definition demo_lc : Gateway LeastConnections :=
  NewGateway (mkGwConfig "gw" true false (Some NewLeastConnections)).

Lemma least_connections_degenerate_witness :
  ∃ first,
    head (gw_replicas (Start ∅ (Ok demo_infos) demo_lc).1.1.2) = Some first ∧
    length (gw_replicas (Start ∅ (Ok demo_infos) demo_lc).1.1.2) = length demo_infos ∧
    let '(s2, gw2, out) := run (map route (replicate 5 (demo_clock, demo_ctx, None, demo_req)))
                             (Start ∅ (Ok demo_infos) demo_lc).1.1 in
    out = map (λ _, Some (Ret (Ok ok_response))) (replicate 5 (demo_clock, demo_ctx, None : option string, demo_req)) ∧
    (∃ x, (s2 : gmap nat Replica) !! first = Some x ∧ RequestCount (Metrics x) = wrap64 (Z.of_nat 5)) ∧
    ∀ l, l ≠ first →
      (s2 : gmap nat Replica) !! l = ((Start ∅ (Ok demo_infos) demo_lc).1.1.1 : gmap nat Replica) !! l.
Proof.
  apply (least_connections_degenerate ∅ _ demo_lc _ demo_infos [CallWatch]
           (replicate 5 (demo_clock, demo_ctx, None, demo_req))).
  - reflexivity.
  - discriminate.
  - reflexivity.
  - repeat constructor; vm_compute; discriminate.
Defined.
