(* ===== verification/WvHealth.v ===== *)
(** * Weaver: health monitoring

    [src/src/Weaver/pkg/health/]: the checkers and their factory (checkers.go) and
    the monitor (monitor.go), which turns check results into the health of the
    replicas and the panic mode.  A goroutine per replica runs its checks; each
    records its result under the lock of its name's state and then updates the panic
    mode, so a history is a sequence of such records and updates in any interleaving
    of the replicas ([WvMonitor] has the goroutines).  Whether a dial succeeds, and
    when, is an argument. *)

From S2P Require Import Prelude GoFloat WvTypes Resilience.

(** ** checkers.go *)

(** The dial's answer, and the clock when it came. *)
Record dialed : Type := mkDialed { d_err : option error; d_end : Time }.

Record TCPHealthChecker : Type := mkTCP { tcp_timeout : Duration }.
Record GRPCHealthChecker : Type := mkGRPC { grpc_timeout : Duration; grpc_service : string }.

Definition NewTCPHealthChecker (timeout : Duration) : TCPHealthChecker :=
  mkTCP (if timeout =? 0 then 5 * Second else timeout).

Definition NewGRPCHealthChecker (service : string) (timeout : Duration) : GRPCHealthChecker :=
  mkGRPC (if timeout =? 0 then 5 * Second else timeout)
    (if bool_decide (service = "") then "weaver.gateway.Health" else service).

(** [Duration.Milliseconds]. *)
Definition Milliseconds (d : Duration) : Z := Z.quot d Millisecond.

(** The result made of a dial started at [start]; the two checkers differ in the
    message only. *)
Definition dial_result (what : string) (start : Time) (d : dialed) : HealthCheckResult :=
  match d_err d with
  | Some e => mkHCResult false 0 (what +:+ " health check failed: " +:+ Error e) start
  | None => mkHCResult true (Milliseconds (time_Since (d_end d) start)) "" start
  end.

(** The context of the dial: the checker's timeout, unless there is a deadline. *)
Definition check_context (timeout : Duration) (start : Time) (ctx : Context) : Context :=
  match Deadline ctx with
  | Some _ => ctx
  | None => context_WithTimeout start ctx timeout
  end.

(** [dial] is the dialer, given the context, its timeout and the address. *)
Definition TCP_Check (dial : Context → Duration → string → dialed) (th : TCPHealthChecker)
    (start : Time) (ctx : Context) (replica : Replica) : HealthCheckResult :=
  dial_result "tcp" start (dial (check_context (tcp_timeout th) start ctx) (tcp_timeout th) (Address replica)).

Definition GRPC_Check (dial : Context → Duration → string → dialed) (gh : GRPCHealthChecker)
    (start : Time) (ctx : Context) (replica : Replica) : HealthCheckResult :=
  dial_result "grpc" start (dial (check_context (grpc_timeout gh) start ctx) (grpc_timeout gh) (Address replica)).

Definition CheckFn : Type := Context → Replica → HealthCheckResult.

Record CustomHealthChecker : Type := mkCustom { checkFn : option CheckFn }.

Definition NewCustomHealthChecker (checkFn : option CheckFn) : CustomHealthChecker := mkCustom checkFn.

Definition Custom_Check (ch : CustomHealthChecker) (now : Time) (ctx : Context) (replica : Replica)
    : HealthCheckResult :=
  match checkFn ch with
  | None => mkHCResult false 0 "custom health check function not defined" now
  | Some f => f ctx replica
  end.

(** The values the factory looks for in its configuration. *)
Inductive any : Type :=
| ADuration (d : Duration)
| AString (s : string)
| ACheckFn (f : option CheckFn)
| AOther.

Inductive HealthChecker : Type :=
| TCP (th : TCPHealthChecker)
| GRPC (gh : GRPCHealthChecker)
| Custom (ch : CustomHealthChecker).

(** [Close] of every checker. *)
Definition TCP_Close (th : TCPHealthChecker) : option error := None.
Definition GRPC_Close (gh : GRPCHealthChecker) : option error := None.
Definition Custom_Close (ch : CustomHealthChecker) : option error := None.

(** [HealthCheckType] *)
Definition HealthCheckTypeTCP : string := "tcp".
Definition HealthCheckTypeGRPC : string := "grpc".
Definition HealthCheckTypeHTTP : string := "http".
Definition HealthCheckTypeCustom : string := "custom".

Definition NewHealthChecker (checkType : string) (config : gmap string any) : result HealthChecker :=
  let timeout := match config !! "timeout" with Some (ADuration d) => d | _ => 5 * Second end in
  if bool_decide (checkType = HealthCheckTypeTCP) then Ok (TCP (NewTCPHealthChecker timeout))
  else if bool_decide (checkType = HealthCheckTypeGRPC) then
    let service := match config !! "service" with Some (AString s) => s | _ => "weaver.gateway.Health" end in
    Ok (GRPC (NewGRPCHealthChecker service timeout))
  else if bool_decide (checkType = HealthCheckTypeCustom) then
    match config !! "check_fn" with
    | Some (ACheckFn f) => Ok (Custom (NewCustomHealthChecker f))
    | _ => Err (Errorf "custom health checker requires 'check_fn' in config")
    end
  else Err (Errorf ("unknown health check type: " +:+ checkType)).

(** ** monitor.go *)

Inductive ReplicaHealthState : Type :=
| StateHealthy
| StateUnhealthy
| StatePanic.

#[export] Instance ReplicaHealthState_eq_dec : EqDecision ReplicaHealthState.
Proof. solve_decision. Defined.

Record HealthConfig : Type := mkHealthConfig {
  CheckType : string;
  CheckInterval : Duration;
  CheckTimeout : Duration;
  FailureThreshold : Z;
  SuccessThreshold : Z;
  PanicTimeout : Duration
}.

Record replicaState : Type := mkState {
  rs_name : string;
  rs_state : ReplicaHealthState;
  consecutiveFailures : Z;
  consecutiveSuccess : Z;
  lastFailureTime : Time;
  lastCheckTime : Time
}.

Record StateChange : Type := mkChange {
  ReplicaName : string;
  OldState : ReplicaHealthState;
  NewState : ReplicaHealthState;
  Timestamp : Time
}.

(** The map of checkers, the time of the last global check and the count of
    consecutive checks are never used.  [stateChanges] is the buffer of a
    channel of capacity ten. *)
Record Monitor : Type := mkMonitor {
  replicas : list nat;
  config : HealthConfig;
  states : gmap string replicaState;
  globalPanicMode : bool;
  globalPanicTime : Time;
  stateChanges : list StateChange;
  stopped : bool
}.

Definition positive_or (z default : Z) : Z := if z <=? 0 then default else z.

Definition set_defaults (c : HealthConfig) : HealthConfig :=
  mkHealthConfig (CheckType c) (positive_or (CheckInterval c) (5 * Second))
    (positive_or (CheckTimeout c) (2 * Second)) (positive_or (FailureThreshold c) 3)
    (positive_or (SuccessThreshold c) 2) (positive_or (PanicTimeout c) (30 * Second)).

Definition new_state (name : string) : replicaState := mkState name StateHealthy 0 0 zero_time zero_time.

Fixpoint init_states (s : store) (rs : list nat) (m : gmap string replicaState)
    : outcome (gmap string replicaState) :=
  match rs with
  | [] => Ret m
  | r :: rs => x ← load s r; init_states s rs (<[Name x := new_state (Name x)]> (m : gmap string replicaState))
  end.

Definition NewMonitor (s : store) (rs : list nat) (c : HealthConfig) : outcome Monitor :=
  m ← init_states s rs ∅;
  Ret (mkMonitor rs (set_defaults c) m false zero_time [] false).

(** A stub: every replica is healthy. *)
Definition performCheck (now : Time) (replica : nat) : HealthCheckResult := mkHCResult true 1 "" now.

Definition healthyCount (m : Monitor) : nat :=
  size (filter (λ kv : string * replicaState, rs_state kv.2 = StateHealthy) (states m : gmap string replicaState)).

Definition updatePanicMode (now : Time) (m : Monitor) : Monitor :=
  let wasPanic := globalPanicMode m in
  let panic := (healthyCount m =? 0)%nat && (0 <? size (states m : gmap string replicaState))%nat in
  let t := if panic && negb wasPanic then now else globalPanicTime m in
  let t := if negb panic && wasPanic then zero_time else t in
  mkMonitor (replicas m) (config m) (states m) panic t (stateChanges m) (stopped m).

(** The new state of a replica after a result; [now] is the clock at a failure. *)
Definition next_state (c : HealthConfig) (now : Time) (result : HealthCheckResult) (st : replicaState)
    : replicaState :=
  if hr_Healthy result then
    let successes := wrap32 (consecutiveSuccess st + 1) in
    if bool_decide (rs_state st = StateUnhealthy) && (wrap32 (SuccessThreshold c) <=? successes) then
      mkState (rs_name st) StateHealthy 0 0 (lastFailureTime st) (CheckedAt result)
    else if bool_decide (rs_state st = StateHealthy) then
      mkState (rs_name st) (rs_state st) 0 0 (lastFailureTime st) (CheckedAt result)
    else mkState (rs_name st) (rs_state st) 0 successes (lastFailureTime st) (CheckedAt result)
  else
    let failures := wrap32 (consecutiveFailures st + 1) in
    if wrap32 (FailureThreshold c) <=? failures then
      mkState (rs_name st) StateUnhealthy 0 0 now (CheckedAt result)
    else mkState (rs_name st) (rs_state st) failures 0 now (CheckedAt result).

(** The clock when a result is processed: at a failure, for the change, and in
    [updatePanicMode]. *)
Record clocks : Type := mkClocks { c_failure : Time; c_change : Time; c_panic : Time }.

(** [processCheckResult] up to its last statement, all under the lock of the state.
    The state is the one of the replica's name, looked up when the goroutine
    starts; states are never replaced. *)
Definition recordResult (ts : clocks) (s : store) (m : Monitor) (replica : nat)
    (result : HealthCheckResult) : outcome (store * Monitor) :=
  x ← load s replica;
  match (states m : gmap string replicaState) !! Name x with
  | None => Panic nil_deref
  | Some st =>
      let st' := next_state (config m) (c_failure ts) result st in
      let s := <[replica := set_healthy x (bool_decide (rs_state st' = StateHealthy))]> (s : gmap nat Replica) in
      let changes :=
        if bool_decide (rs_state st ≠ rs_state st') && (length (stateChanges m) <? 10)%nat then
          stateChanges m ++ [mkChange (Name x) (rs_state st) (rs_state st') (c_change ts)]
        else stateChanges m in
      Ret (s, mkMonitor (replicas m) (config m) (<[Name x := st']> (states m : gmap string replicaState))
                (globalPanicMode m) (globalPanicTime m) changes (stopped m))
  end.

(** The last statement looks at the other states too, under the monitor's lock
    alone: results of other replicas may be recorded in between. *)
Definition processCheckResult (ts : clocks) (s : store) (m : Monitor) (replica : nat)
    (result : HealthCheckResult) : outcome (store * Monitor) :=
  sm ← recordResult ts s m replica result;
  Ret (sm.1, updatePanicMode (c_panic ts) sm.2).

Definition Stop (m : Monitor) : outcome Monitor :=
  if stopped m then Panic "close of closed channel"
  else Ret (mkMonitor (replicas m) (config m) (states m) (globalPanicMode m) (globalPanicTime m)
              (stateChanges m) true).

Definition getState (m : Monitor) (replicaName : string) : option replicaState :=
  (states m : gmap string replicaState) !! replicaName.

Definition GetState (m : Monitor) (replicaName : string) : ReplicaHealthState :=
  match getState m replicaName with
  | None => StateHealthy
  | Some st => rs_state st
  end.

Definition IsHealthy (m : Monitor) (replicaName : string) : bool :=
  bool_decide (GetState m replicaName = StateHealthy).

(** What the channel of state changes holds. *)
Definition GetStateChanges (m : Monitor) : list StateChange := stateChanges m.

Definition IsPanicMode (m : Monitor) : bool := globalPanicMode m.

Fixpoint healthy_of (s : store) (m : Monitor) (rs : list nat) : outcome (list nat) :=
  match rs with
  | [] => Ret []
  | r :: rs =>
      x ← load s r;
      rest ← healthy_of s m rs;
      Ret (if IsHealthy m (Name x) then r :: rest else rest)
  end.

Definition GetHealthyReplicas (s : store) (m : Monitor) : outcome (list nat) :=
  healthy_of s m (replicas m).

(** ** The contract of a replica's health

    Healthy until [ft] checks in a row fail, then unhealthy until [st] in a row
    succeed. *)

Inductive health : Type :=
| Up (failures : nat)
| Down (successes : nat).

Definition is_up (h : health) : bool := match h with Up _ => true | Down _ => false end.

Definition health_step (ft st : Z) (h : health) (ok : bool) : health :=
  match h, ok with
  | Up _, true => Up 0
  | Up n, false => if ft <=? Z.of_nat (S n) then Down 0 else Up (S n)
  | Down n, true => if st <=? Z.of_nat (S n) then Up 0 else Down (S n)
  | Down _, false => Down 0
  end.

Definition health_of (ft st : Z) (oks : list bool) : health := fold_left (health_step ft st) oks (Up 0).

(** A configured count: below one it is the default, and it is compared as an
    int32. *)
Definition threshold (default configured : Z) : Z := wrap32 (if decide (configured ≤ 0) then default else configured).

(** A recorded result, of a replica. *)
Definition check : Type := (clocks * nat * HealthCheckResult)%type.

(** What the goroutines do, in the order it happens: record the result of a check,
    update the panic mode. *)
Inductive event : Type :=
| EvResult (ck : check)
| EvPanic (now : Time).

Fixpoint process (es : list event) (s : store) (m : Monitor) : outcome (store * Monitor) :=
  match es with
  | [] => Ret (s, m)
  | EvResult (ts, r, res) :: es => sm ← recordResult ts s m r res; process es sm.1 sm.2
  | EvPanic now :: es => process es s (updatePanicMode now m)
  end.

Definition check_of (e : event) : option check := match e with EvResult ck => Some ck | EvPanic _ => None end.
Definition checks (es : list event) : list check := omap check_of es.

(** One result after the other, each processed to its end. *)
Definition sequential (cs : list check) : list event := cs ≫= λ ck, [EvResult ck; EvPanic (c_panic ck.1.1)].

(** The name of a replica; no operation changes it. *)
Definition name_of (s : store) (r : nat) : string :=
  match (s : gmap nat Replica) !! r with Some x => Name x | None => "" end.

Section Tracking.
Context (c : HealthConfig) (rs : list nat) (nm : nat → string).
Let ft := threshold 3 (FailureThreshold c).
Let st := threshold 2 (SuccessThreshold c).

(** The results of the replicas of a name, in order. *)
Definition results (n : string) (cs : list check) : list bool :=
  omap (λ ck : check, if decide (nm ck.1.2 = n) then Some (hr_Healthy ck.2) else None) cs.

Definition health_at (n : string) (cs : list check) : health := health_of ft st (results n cs).
Definition up_at (n : string) (cs : list check) : bool := is_up (health_at n cs).

Lemma wrap32_small z : 0 ≤ z < 2 ^ 31 → wrap32 z = z.
Proof. unfold wrap32. intros H. rewrite Z.mod_small; lia. Qed.

Lemma wrap32_lt z : wrap32 z < 2 ^ 31.
Proof. unfold wrap32. pose proof (Z.mod_pos_bound (z + 2 ^ 31) (2 ^ 32) ltac:(lia)). lia. Qed.

Lemma threshold_positive_or d z : wrap32 (positive_or z d) = threshold d z.
Proof. unfold threshold, positive_or. destruct (Z.leb_spec z 0); case_decide; done || lia. Qed.

(** The struct implements the contract's state.  A threshold below one is reached
    at the first result, like one. *)
Definition tracks (x : replicaState) (h : health) : Prop :=
  0 ≤ consecutiveFailures x < Z.max 1 ft ∧ 0 ≤ consecutiveSuccess x < Z.max 1 st ∧
  match h with
  | Up n => rs_state x = StateHealthy ∧ consecutiveFailures x = Z.of_nat n ∧ consecutiveSuccess x = 0
  | Down n => rs_state x = StateUnhealthy ∧ consecutiveSuccess x = Z.of_nat n
  end.

Lemma tracks_up x h : tracks x h → bool_decide (rs_state x = StateHealthy) = is_up h.
Proof. intros (_ & _ & H). destruct h; destruct H as [-> _]; done. Qed.

Lemma next_state_tracks now res x h :
  tracks x h → tracks (next_state (set_defaults c) now res x) (health_step ft st h (hr_Healthy res)).
Proof.
  intros (Hcf & Hcs & Hh). unfold next_state, health_step, set_defaults. cbn [FailureThreshold SuccessThreshold].
  rewrite !threshold_positive_or. fold ft st.
  assert (Z.max 1 ft < 2 ^ 31 ∧ Z.max 1 st < 2 ^ 31) as [Hft Hst]
    by (unfold ft, st, threshold; repeat case_decide; split; apply Z.max_lub_lt; (lia || apply wrap32_lt)).
  rewrite !wrap32_small by lia. destruct (hr_Healthy res).
  - destruct h as [n|n].
    + destruct Hh as (-> & E2 & E3). simpl. unfold tracks; simpl. split_and!; done || lia.
    + destruct Hh as (-> & ->). simpl. replace (Z.of_nat n + 1) with (Z.of_nat (S n)) by lia.
      destruct (st <=? Z.of_nat (S n)) eqn:E; go_bool; unfold tracks; simpl; split_and!; done || lia.
  - destruct h as [n|n].
    + destruct Hh as (E1 & -> & E3). replace (Z.of_nat n + 1) with (Z.of_nat (S n)) by lia.
      destruct (ft <=? Z.of_nat (S n)) eqn:E; go_bool; unfold tracks; simpl; split_and!; done || lia.
    + destruct Hh as (E1 & Hn). destruct (ft <=? _) eqn:E; go_bool;
        unfold tracks; simpl; split_and!; done || lia.
Qed.

Lemma results_snoc n cs ts r res :
  results n (cs ++ [(ts, r, res)]) = results n cs ++ (if decide (nm r = n) then [hr_Healthy res] else []).
Proof. unfold results. rewrite omap_app. simpl. by destruct (decide (nm r = n)). Qed.

Lemma health_at_snoc n cs ts r res :
  health_at n (cs ++ [(ts, r, res)]) =
  if decide (nm r = n) then health_step ft st (health_at n cs) (hr_Healthy res) else health_at n cs.
Proof.
  unfold health_at, health_of. rewrite results_snoc, fold_left_app. by case_decide.
Qed.

(** Every replica's flag is what its name's state was at its last check. *)
Definition flags (cs : list check) (s : store) : Prop :=
  ∀ cs1 ts r res cs2, cs = cs1 ++ (ts, r, res) :: cs2 → Forall (λ ck : check, ck.1.2 ≠ r) cs2 →
  ∃ x, (s : gmap nat Replica) !! r = Some x ∧ Healthy x = up_at (nm r) (cs1 ++ [(ts, r, res)]).

Record monitored (cs : list check) (s : store) (m : Monitor) : Prop := {
  mon_config : config m = set_defaults c;
  mon_replicas : replicas m = rs;
  mon_state : ∀ r, r ∈ rs → ∃ x y, (s : gmap nat Replica) !! r = Some x ∧ Name x = nm r ∧
    (states m : gmap string replicaState) !! nm r = Some y ∧ tracks y (health_at (nm r) cs);
  mon_names : ∀ n, is_Some ((states m : gmap string replicaState) !! n) → ∃ r, r ∈ rs ∧ nm r = n;
  mon_flags : flags cs s
}.

(** The flag of a replica just checked is fresh; the others keep theirs. *)
Lemma flags_snoc cs s ts r res x ok :
  flags cs s → ok = up_at (nm r) (cs ++ [(ts, r, res)]) →
  flags (cs ++ [(ts, r, res)]) (<[r := set_healthy x ok]> (s : gmap nat Replica)).
Proof.
  intros Hf Hok cs1 ts' r' res' cs2 E Hno.
  destruct cs2 as [|ck cs2 _] using rev_ind.
  - apply app_inj_tail in E as [-> [= -> -> ->]]. rewrite lookup_insert_eq. by eexists.
  - rewrite app_comm_cons, app_assoc in E. apply app_inj_tail in E as [-> <-].
    apply Forall_app in Hno as [Hno Hr]. apply Forall_cons in Hr as [Hr _]. cbn in Hr.
    rewrite lookup_insert_ne by done. by eapply Hf.
Qed.

Lemma record_step cs s m ts r res :
  monitored cs s m → r ∈ rs →
  ∃ s' m', recordResult ts s m r res = Ret (s', m') ∧ monitored (cs ++ [(ts, r, res)]) s' m' ∧
           globalPanicMode m' = globalPanicMode m ∧ stopped m' = stopped m.
Proof.
  intros [Hcfg Hreps Hin Hdom Hflags] Hr.
  destruct (Hin r Hr) as (x & y & Hx & Hname & Hy & Ht).
  unfold recordResult, load. rewrite Hx. unfold mbind, outcome_bind. rewrite Hname, Hy, Hcfg.
  pose proof (next_state_tracks (c_failure ts) res y _ Ht) as Ht'.
  set (y' := next_state _ _ res y) in *. eexists _, _. split; [done|]. split; [|done].
  split; cbn [config replicas states]; [done|done| | |].
  - intros r' Hr'. destruct (Hin r' Hr') as (x' & z & Hx' & Hname' & Hz & Htz).
    rewrite health_at_snoc. setoid_rewrite lookup_insert.
    exists (if decide (r = r') then set_healthy x (bool_decide (rs_state y' = StateHealthy)) else x'),
           (if decide (nm r = nm r') then y' else z).
    split; [by case_decide|]. split; [case_decide; [|done]; subst r'; by rewrite Hx in Hx'; simplify_eq|].
    split; [by case_decide|]. case_decide as E; [|done]. by rewrite <- E.
  - intros n [z Hz]. apply lookup_insert_Some in Hz as [[<- _]|[_ Hz]]; [by exists r|]. apply Hdom. by eexists.
  - apply flags_snoc; [done|]. unfold up_at. rewrite health_at_snoc, decide_True by done. by apply tracks_up.
Qed.

(** [updatePanicMode] finds out whether every replica is down. *)
Lemma panic_step cs s m now :
  monitored cs s m →
  monitored cs s (updatePanicMode now m) ∧
  globalPanicMode (updatePanicMode now m) = negb (bool_decide (rs = [])) && forallb (λ r, negb (up_at (nm r) cs)) rs.
Proof.
  intros [Hcfg Hreps Hin Hdom Hflags]. split; [by split|]. cbn [globalPanicMode updatePanicMode].
  apply eq_true_iff_eq. unfold healthyCount.
  rewrite !andb_true_iff, Nat.eqb_eq, Nat.ltb_lt, map_size_empty_iff, map_empty_filter, negb_true_iff,
    bool_decide_eq_false, forallb_forall.
  assert ((0 < size (states m : gmap string replicaState))%nat ↔ rs ≠ []) as ->.
  { rewrite <- Nat.neq_0_lt_0, map_size_non_empty_iff. split; intros Hne E; apply Hne.
    - apply map_eq. intros n. rewrite lookup_empty. destruct (_ !! n) as [z|] eqn:Ez; [|done].
      destruct (Hdom n) as (r & Hr & _); [by eexists|]. rewrite E in Hr. by apply elem_of_nil in Hr.
    - destruct rs as [|r rs']; [done|]. destruct (Hin r) as (x & y & _ & _ & Hy & _); [left|].
      by rewrite E in Hy. }
  match goal with |- (?P ∧ _ ↔ _ ∧ ?Q) => cut (P ↔ Q); [tauto|] end. split.
  - intros Hall r Hr%list_elem_of_In. destruct (Hin r Hr) as (_ & y & _ & _ & Hy & Ht).
    unfold up_at. rewrite <- (tracks_up y _ Ht). apply negb_true_iff, bool_decide_eq_false. exact (Hall _ y Hy).
  - intros Hall n y Hy. destruct (Hdom n) as (r & Hr & <-); [by eexists|].
    destruct (Hin r Hr) as (_ & y' & _ & _ & Hy' & Ht). simplify_eq.
    specialize (Hall r). unfold up_at in Hall. rewrite <- (tracks_up y _ Ht) in Hall.
    by apply (bool_decide_eq_false_1 (rs_state y = StateHealthy)), negb_true_iff, Hall, list_elem_of_In.
Qed.

(** Whether there are replicas, and every one of them is down. *)
Definition all_down (cs : list check) : bool :=
  negb (bool_decide (rs = [])) && forallb (λ r, negb (up_at (nm r) cs)) rs.

(** The mode after events, [cs] having been recorded before: what the last update saw. *)
Fixpoint panic_after (cs : list check) (mode : bool) (es : list event) : bool :=
  match es with
  | [] => mode
  | EvResult ck :: es => panic_after (cs ++ [ck]) mode es
  | EvPanic _ :: es => panic_after cs (all_down cs) es
  end.

Definition is_result (e : event) : Prop := match e with EvResult _ => True | EvPanic _ => False end.

Lemma panic_after_results cs mode es : Forall is_result es → panic_after cs mode es = mode.
Proof. intros H. revert cs. induction H as [|[ck|now] es He _ IH]; intros cs; [done|apply IH|done]. Qed.

Lemma panic_after_last cs mode es1 now es2 :
  Forall is_result es2 → panic_after cs mode (es1 ++ EvPanic now :: es2) = all_down (cs ++ checks es1).
Proof.
  intros H2. revert cs mode. induction es1 as [|[ck|now'] es1 IH]; intros cs mode; cbn.
  - rewrite app_nil_r. by apply panic_after_results.
  - rewrite IH. by rewrite <- app_assoc.
  - apply IH.
Qed.

Lemma process_monitored cs es s m :
  monitored cs s m → Forall (λ ck : check, ck.1.2 ∈ rs) (checks es) →
  ∃ s' m', process es s m = Ret (s', m') ∧ monitored (cs ++ checks es) s' m' ∧
           globalPanicMode m' = panic_after cs (globalPanicMode m) es.
Proof.
  revert cs s m. induction es as [|[[[ts r] res]|now] es IH]; intros cs s m Hm Hes; cbn [process panic_after].
  - exists s, m. by rewrite app_nil_r.
  - apply Forall_cons in Hes as [Hr Hes].
    destruct (record_step cs s m ts r res Hm Hr) as (s1 & m1 & -> & Hm1 & Hp & _).
    destruct (IH _ s1 m1 Hm1 Hes) as (s2 & m2 & E & Hm2 & Hp2). exists s2, m2.
    split; [exact E|]. rewrite <- Hp. split; [|exact Hp2]. cbn. by rewrite <- app_assoc in Hm2.
  - destruct (panic_step cs s m now Hm) as [Hm1 Hp]. destruct (IH _ s _ Hm1 Hes) as (s2 & m2 & E & Hm2 & Hp2).
    exists s2, m2. split; [exact E|]. split; [exact Hm2|]. by rewrite Hp2, Hp.
Qed.

Lemma init_states_spec s rs' mp :
  (∀ r, r ∈ rs' → ∃ x, (s : gmap nat Replica) !! r = Some x ∧ Name x = nm r) →
  ∃ mp', init_states s rs' mp = Ret mp' ∧
    ∀ n, (mp' : gmap string replicaState) !! n =
         if decide (n ∈ nm <$> rs') then Some (new_state n) else (mp : gmap string replicaState) !! n.
Proof.
  revert mp. induction rs' as [|r rs' IH]; intros mp Hl; cbn [init_states]; [by exists mp|].
  destruct (Hl r) as (x & Hx & Hn); [left|]. unfold load. rewrite Hx. unfold mbind, outcome_bind. rewrite Hn.
  destruct (IH (<[nm r := new_state (nm r)]> (mp : gmap string replicaState))) as (mp' & -> & Hmp);
    [intros r' Hr'; apply Hl; by right|].
  exists mp'. split; [done|]. intros n. rewrite Hmp, fmap_cons.
  destruct (decide (n ∈ nm <$> rs')) as [Hin|Hin]; [by rewrite decide_True by (by right)|].
  destruct (decide (n = nm r)) as [->|].
  - rewrite lookup_insert_eq, decide_True by left. done.
  - rewrite lookup_insert_ne, decide_False by (done || by rewrite elem_of_cons; intros [|]). done.
Qed.

Lemma new_monitored s :
  (∀ r, r ∈ rs → ∃ x, (s : gmap nat Replica) !! r = Some x ∧ Name x = nm r) →
  ∃ m, NewMonitor s rs c = Ret m ∧ monitored [] s m ∧ globalPanicMode m = false ∧ stopped m = false.
Proof.
  intros Hl. destruct (init_states_spec s rs ∅ Hl) as (mp & Hmp & Hlook). unfold NewMonitor. rewrite Hmp.
  unfold mbind, outcome_bind. eexists. split; [done|]. split; [|done]. split; cbn [config replicas states]; try done.
  - intros r Hr. destruct (Hl r Hr) as (x & Hx & Hname). exists x, (new_state (nm r)). do 2 (split; [done|]).
    split; [rewrite Hlook, decide_True; [done|]; by apply list_elem_of_fmap_2|].
    unfold tracks; simpl. split_and!; done || lia.
  - intros n [y Hy]. rewrite Hlook in Hy. destruct (decide (n ∈ nm <$> rs)) as [Hin|]; [|by rewrite lookup_empty in Hy].
    apply list_elem_of_fmap in Hin as (r & -> & Hr). by exists r.
  - intros cs1 ts r res cs2 E. by destruct cs1.
Qed.

(** What a monitor that implements the contracts reports. *)
Lemma monitored_reports cs s m :
  monitored cs s m →
  (∀ r, r ∈ rs → IsHealthy m (nm r) = up_at (nm r) cs) ∧
  (∀ n, n ∉ nm <$> rs → IsHealthy m n = true) ∧
  GetHealthyReplicas s m = Ret (filter (λ r, up_at (nm r) cs = true) rs).
Proof.
  intros [_ Hreps Hin Hdom _].
  assert (∀ r, r ∈ rs → IsHealthy m (nm r) = up_at (nm r) cs) as Hup.
  { intros r Hr. destruct (Hin r Hr) as (_ & y & _ & _ & Hy & Ht). unfold IsHealthy, GetState, getState.
    rewrite Hy. by apply tracks_up. }
  split; [done|]. split.
  - intros n Hn. unfold IsHealthy, GetState, getState.
    destruct ((states m : gmap string replicaState) !! n) as [y|] eqn:Ey; [|done].
    destruct (Hdom n) as (r & Hr & <-); [by eexists|]. destruct Hn. by apply list_elem_of_fmap_2.
  - unfold GetHealthyReplicas. rewrite Hreps. clear Hreps Hdom.
    induction rs as [|r rs' IH]; [done|]. cbn [healthy_of]. unfold load.
    destruct (Hin r) as (x & y & Hx & Hname & _); [left|]. rewrite Hx. unfold mbind, outcome_bind in *.
    rewrite IH by (intros r' Hr'; (apply Hin || apply Hup); by right). rewrite Hname, Hup by left.
    destruct (up_at (nm r) cs) eqn:E; [rewrite filter_cons_True by done|rewrite filter_cons_False by congruence]; done.
Qed.
End Tracking.


Definition demo_config : HealthConfig := mkHealthConfig "tcp" 0 0 0 0 0.
Definition named (n : string) : Replica := mkReplica n "" true zero_metrics 0.
Definition demo_store : store := {[ 1%nat := named "a"; 2%nat := named "b"; 3%nat := named "b" ]}.
Definition failed (r : nat) : check := (mkClocks 1 2 3, r, mkHCResult false 0 "refused" 1).
Definition passed (r : nat) : check := (mkClocks 1 2 3, r, mkHCResult true 1 "" 1).
Definition demo_checks : list check :=
  [failed 1; failed 2; failed 1; passed 2; failed 1; failed 2; passed 1; failed 2].


Definition run_demo (cs : list check) : outcome (list bool * bool) :=
  m ← NewMonitor demo_store [1%nat; 2%nat] demo_config;
  sm ← process (sequential cs) demo_store m;
  Ret (map (IsHealthy sm.2) ["a"; "b"], IsPanicMode sm.2).

(** After three failures in a row the first replica is down; one success does not
    bring it back, and two failures do not bring the second down. *)
Example demo_health : run_demo demo_checks = Ret ([false; true], false).
Proof. vm_compute. reflexivity. Qed.

Example demo_panic : run_demo (demo_checks ++ [failed 2]) = Ret ([false; false], true).
Proof. vm_compute. reflexivity. Qed.

Example demo_recovery : run_demo (demo_checks ++ [failed 2; passed 1; passed 1]) = Ret ([true; false], false).
Proof. vm_compute. reflexivity. Qed.

(** [sequential] runs [processCheckResult] to its end for every result. *)
Lemma process_sequential ts r res cs s m :
  process (sequential ((ts, r, res) :: cs)) s m =
  (sm ← processCheckResult ts s m r res; process (sequential cs) sm.1 sm.2).
Proof. cbn. unfold processCheckResult. by destruct (recordResult ts s m r res). Qed.

(** ** The monitor's own checks *)

Lemma all_passed ft st oks : Forall (λ b, b = true) oks → health_of ft st oks = Up 0.
Proof. unfold health_of. induction 1 as [|b oks -> _ IH]; [done|exact IH]. Qed.

(** A tick checks with [performCheck], which passes; so no tick brings a replica down. *)
Lemma ticks_pass nm n (cs : list check) :
  Forall (λ ck : check, ∃ t, ck.2 = performCheck t ck.1.2) cs → Forall (λ b, b = true) (results nm n cs).
Proof.
  induction 1 as [|[[ts r] res] cs [t Ht] _ IH]; [constructor|]. simpl in Ht. subst res.
  unfold results. simpl. destruct (decide (nm r = n)); [constructor; [done|]|]; exact IH.
Qed.
