(* ===== verification/WvMonitor.v ===== *)
(** * Weaver: the goroutines of the health monitor

    [monitorReplica], [Start] and [Stop] of [src/src/Weaver/pkg/health/monitor.go]
    over the states of [WvHealth]: a goroutine per replica, each at its select until
    it sees the end of its context or the stop, or between the record of a result
    and the update of the panic mode.  A select with several branches ready may take
    any, so a stopped monitor may still check a replica before its goroutine returns;
    [Stop] itself returns when every goroutine has. *)

From S2P Require Import Prelude WvTypes WvHealth.

(** Where a goroutine is. *)
Inductive position : Type :=
| AtSelect
| AtPanic
| Returned.

(** [loops] has a goroutine's replica and where it is, oldest first; [happened] the
    results recorded and the panic mode updated so far. *)
Record running : Type := mkRunning {
  w_store : store;
  monitor : Monitor;
  loops : list (nat * position);
  ctx_done : bool;
  happened : list event
}.

(** Before [Start]. *)
Definition idle (s : store) (m : Monitor) : running := mkRunning s m [] false [].

Definition Start (w : running) : running :=
  mkRunning (w_store w) (monitor w) (loops w ++ ((λ r, (r, AtSelect)) <$> replicas (monitor w))) (ctx_done w)
    (happened w).

(** The goroutine [i] goes on at [p]. *)
Definition go_to (p : position) (i : nat) (ls : list (nat * position)) : list (nat * position) :=
  alter (λ l : nat * position, (l.1, p)) i ls.

Definition set_loop (p : position) (i : nat) (w : running) : running :=
  mkRunning (w_store w) (monitor w) (go_to p i (loops w)) (ctx_done w) (happened w).

(** The steps: a call of [Start], the three branches of the select of goroutine
    [i], the end of its processing of a result, the end of the context, the close
    of [stopCh] by a call of [Stop], and the return of that call. *)
Inductive action : Type :=
| AStart
| ATick (i : nat) (ts : clocks) (checked : Time)
| AUpdate (i : nat) (now : Time)
| ASeesDone (i : nat)
| ASeesStop (i : nat)
| ACancel
| AStop
| AStopReturns.

Definition exec (w : running) (a : action) : option (outcome running) :=
  match a with
  | AStart => Some (Ret (Start w))
  | ATick i ts checked =>
      match loops w !! i with
      | Some (r, AtSelect) =>
          let res := performCheck checked r in
          Some (sm ← recordResult ts (w_store w) (monitor w) r res;
                Ret (mkRunning sm.1 sm.2 (go_to AtPanic i (loops w)) (ctx_done w)
                       (happened w ++ [EvResult (ts, r, res)])))
      | _ => None
      end
  | AUpdate i now =>
      match loops w !! i with
      | Some (_, AtPanic) =>
          Some (Ret (mkRunning (w_store w) (updatePanicMode now (monitor w)) (go_to AtSelect i (loops w)) (ctx_done w)
                       (happened w ++ [EvPanic now])))
      | _ => None
      end
  | ASeesDone i =>
      match loops w !! i with
      | Some (_, AtSelect) => if ctx_done w then Some (Ret (set_loop Returned i w)) else None
      | _ => None
      end
  | ASeesStop i =>
      match loops w !! i with
      | Some (_, AtSelect) => if stopped (monitor w) then Some (Ret (set_loop Returned i w)) else None
      | _ => None
      end
  | ACancel => Some (Ret (mkRunning (w_store w) (monitor w) (loops w) true (happened w)))
  | AStop => Some (m ← Stop (monitor w); Ret (mkRunning (w_store w) m (loops w) (ctx_done w) (happened w)))
  | AStopReturns =>
      if stopped (monitor w) && forallb (λ l : nat * position, match l.2 with Returned => true | _ => false end) (loops w)
      then Some (Ret w) else None
  end.

Fixpoint run (w : running) (acts : list action) : option (outcome running) :=
  match acts with
  | [] => Some (Ret w)
  | a :: acts =>
      match exec w a with
      | Some (Ret w) => run w acts
      | Some (Panic msg) => Some (Panic msg)
      | None => None
      end
  end.

(** The calls of [Stop] in a schedule. *)
Definition is_stop (a : action) : bool := match a with AStop => true | _ => false end.
Definition stops (acts : list action) : nat := length (List.filter is_stop acts).

(** ** The invariant *)

Section Invariant.
Context (c : HealthConfig) (rs : list nat) (nm : nat → string).

Definition passing (ck : check) : Prop := ∃ t, ck.2 = performCheck t ck.1.2.

Record running_ok (w : running) : Prop := {
  ok_monitored : monitored c rs nm (checks (happened w)) (w_store w) (monitor w);
  ok_loops : Forall (λ l : nat * position, l.1 ∈ rs) (loops w);
  ok_passing : Forall passing (checks (happened w));
  ok_calm : globalPanicMode (monitor w) = false
}.

Lemma monitored_stop cs s m :
  monitored c rs nm cs s m →
  monitored c rs nm cs s
    (mkMonitor (replicas m) (config m) (states m) (globalPanicMode m) (globalPanicTime m) (stateChanges m) true).
Proof. by intros []. Qed.

Lemma loops_go_to p i ls :
  Forall (λ l : nat * position, l.1 ∈ rs) ls → Forall (λ l : nat * position, l.1 ∈ rs) (go_to p i ls).
Proof. intros Hl. apply Forall_alter; [exact Hl|]. by intros l _ Hin. Qed.

Lemma set_loop_ok p i w : running_ok w → running_ok (set_loop p i w).
Proof. intros [Hm Hl Hp Hc]. split; [exact Hm|by apply loops_go_to|exact Hp|exact Hc]. Qed.

(** Checks that pass leave every replica up. *)
Lemma passing_up cs n : Forall passing cs → up_at c nm n cs = true.
Proof. intros H. unfold up_at, health_at. by rewrite all_passed by (by apply ticks_pass). Qed.

Lemma passing_calm cs : Forall passing cs → all_down c rs nm cs = false.
Proof.
  intros H. unfold all_down. destruct rs as [|r rs']; [done|]. cbn. by rewrite passing_up.
Qed.

Lemma exec_running_ok w a :
  running_ok w →
  match exec w a with
  | Some (Ret w') => running_ok w' ∧ stopped (monitor w') = is_stop a || stopped (monitor w)
  | Some (Panic _) => is_stop a && stopped (monitor w) = true
  | None => True
  end.
Proof.
  intros I. pose proof I as [Hm Hl Hp Hc].
  destruct a as [|i ts checked|i now|i|i| | |]; cbn [exec is_stop orb andb].
  - split; [|done]. split; [exact Hm| |exact Hp|exact Hc]. cbn [loops Start]. apply Forall_app_2; [exact Hl|].
    rewrite (mon_replicas _ _ _ _ _ _ Hm). apply Forall_fmap, Forall_forall. by intros r Hr.
  - destruct (loops w !! i) as [[r []]|] eqn:Hi; [|done..].
    pose proof (Forall_lookup_1 _ _ _ _ Hl Hi) as Hr. cbn in Hr.
    destruct (record_step c rs nm _ _ _ ts r (performCheck checked r) Hm Hr) as (s' & m' & E & Hm' & Hcalm & Hst).
    rewrite E. cbn. split; [|exact Hst].
    assert (checks (happened w ++ [EvResult (ts, r, performCheck checked r)]) =
            checks (happened w) ++ [(ts, r, performCheck checked r)]) as Ec
      by (unfold checks; by rewrite omap_app).
    split; cbn [happened w_store monitor loops]; rewrite ?Ec; [exact Hm'|by apply loops_go_to| |by rewrite Hcalm].
    apply Forall_app_2; [exact Hp|]. constructor; [by exists checked|constructor].
  - destruct (loops w !! i) as [[r []]|]; [done| |done..]. split; [|done].
    assert (checks (happened w ++ [EvPanic now]) = checks (happened w)) as Ec
      by (unfold checks; rewrite omap_app; apply app_nil_r).
    destruct (panic_step c rs nm _ _ _ now Hm) as [Hm' Hpanic].
    split; cbn [happened w_store monitor loops]; rewrite ?Ec; [exact Hm'|by apply loops_go_to|exact Hp|].
    rewrite Hpanic. by apply passing_calm.
  - destruct (loops w !! i) as [[r []]|]; [|done..]. destruct (ctx_done w); [|done].
    split; [by apply set_loop_ok|done].
  - destruct (loops w !! i) as [[r []]|]; [|done..]. destruct (stopped (monitor w)) eqn:E; [|done].
    split; [by apply set_loop_ok|exact E].
  - split; [by split|done].
  - unfold Stop. destruct (stopped (monitor w)) eqn:E; cbn; [done|]. split; [|done].
    split; [by apply monitored_stop|exact Hl|exact Hp|exact Hc].
  - destruct (stopped (monitor w)) eqn:E; cbn; [|done]. by destruct (forallb _ _).
Qed.

Lemma run_running_ok w acts :
  running_ok w →
  match run w acts with
  | Some (Ret w') => running_ok w'
  | Some (Panic _) => (2 ≤ stops acts + if stopped (monitor w) then 1 else 0)%nat
  | None => True
  end.
Proof.
  revert w. induction acts as [|a acts IH]; intros w I; cbn [run]; [done|].
  pose proof (exec_running_ok w a I) as H.
  destruct (exec w a) as [[w1|msg]|] eqn:E; [|unfold stops; cbn|done].
  - destruct H as [I1 Hs]. specialize (IH w1 I1). destruct (run w1 acts) as [[]|]; [done| |done].
    rewrite Hs in IH. unfold stops in *. cbn. destruct a, (stopped (monitor w)); cbn in *; lia.
  - apply andb_prop in H as [Ha ->]. destruct a; try done. cbn. lia.
Qed.
End Invariant.

(** ** Theorems *)

(** The monitor never finds a replica down, whatever the replicas do: along every
    schedule of its goroutines, its starts and its stop, each replica is reported
    healthy, all are in the list of healthy ones, and panic mode is off, for the
    check its goroutines make is a stub that passes. Nothing panics but a second
    stop, and once the stop has returned no replica is checked any more. *)
Theorem monitor_blind (c : HealthConfig) (s : store) (rs : list nat)
    (Hlive : ∀ r, r ∈ rs → is_Some ((s : gmap nat Replica) !! r)) :
  ∃ m, NewMonitor s rs c = Ret m ∧ ∀ acts,
    match run (idle s m) acts with
    | Some (Ret w) =>
        (∀ n, IsHealthy (monitor w) n = true) ∧
        GetHealthyReplicas (w_store w) (monitor w) = Ret rs ∧
        IsPanicMode (monitor w) = false ∧
        (exec w AStopReturns ≠ None → ∀ i ts t, exec w (ATick i ts t) = None)
    | Some (Panic _) => (2 ≤ stops acts)%nat
    | None => True
    end.
Proof.
  destruct (new_monitored c rs (name_of s) s) as (m & Hm & Hmon & Hcalm & Hst).
  { intros r Hr. destruct (Hlive r Hr) as [x Hx]. exists x. split; [done|]. unfold name_of. by rewrite Hx. }
  exists m. split; [done|]. intros acts.
  pose proof (run_running_ok c rs (name_of s) (idle s m) acts
    ltac:(split; [done|constructor|constructor|done])) as H.
  destruct (run (idle s m) acts) as [[w|msg]|]; [|cbn in H; rewrite Hst in H; lia|done].
  destruct H as [Hw Hl Hpass Hc].
  destruct (monitored_reports c rs _ _ _ _ Hw) as (Hup & Hother & Hget).
  split_and!; [| |exact Hc|].
  - intros n. destruct (decide (n ∈ name_of s <$> rs)) as [Hin|]; [|by apply Hother].
    apply list_elem_of_fmap in Hin as (r & -> & Hr). rewrite Hup by done. by apply passing_up.
  - rewrite Hget. f_equal. clear -Hpass. induction rs as [|r rs' IH]; [done|].
    rewrite filter_cons_True by (by apply passing_up). by rewrite IH.
  - cbn [exec]. intros Hstop i ts t. destruct (stopped (monitor w)) eqn:E; [|done].
    destruct (forallb _ (loops w)) eqn:F; [|done].
    destruct (loops w !! i) as [[r []]|] eqn:Hi; [|done..].
    rewrite forallb_forall in F. specialize (F (r, AtSelect)). rewrite <- list_elem_of_In in F.
    by specialize (F (list_elem_of_lookup_2 _ _ _ Hi)).
Qed.

(** A check may still follow the stop: the goroutine's select had both branches
    ready. *)
Example check_after_stop :
  (m ← NewMonitor demo_store [1%nat; 2%nat] demo_config;
   match run (idle demo_store m)
           [AStart; AStop; ATick 1 (mkClocks 1 2 3) 4; ASeesStop 0; AUpdate 1 5; ASeesStop 1; AStopReturns] with
   | Some r => w ← r; Ret (Some (length (happened w)))
   | None => Ret None
   end) = Ret (Some 2%nat).
Proof. vm_compute. reflexivity. Qed.
