(* ===== verification/WvRateLimit.v ===== *)
(** * Weaver: rate limiting

    [src/src/Weaver/pkg/ratelimit/limiter.go]: token buckets over [float64], and
    the limiter that keeps one per dimension and identity.  Clock readings are
    arguments.  [limiter_bound] says what the limiter admits in a window of time,
    by the values of the floats ([GoFloatVal]). *)

From Stdlib Require Import SpecFloat QArith Lqa.
From S2P Require Import Prelude GoFloat GoFloatVal.
Local Open Scope Z_scope.

(** ** TokenBucket *)

Record TokenBucket : Type := mkTB {
  capacity : f64;
  tokens : f64;
  refillRate : f64;
  lastRefill : Time
}.

Definition NewTokenBucket (now : Time) (capacity refillRate : f64) : TokenBucket :=
  mkTB capacity capacity refillRate now.

Definition f_min (a b : f64) : f64 := if f_lt a b then a else b.

(** [Duration.Seconds]: the whole seconds plus the rest as a fraction. *)
Definition Seconds (d : Duration) : f64 :=
  f_add (f_of_Z (Z.quot d Second)) (f_div (f_of_Z (Z.rem d Second)) (f_of_Z Second)).

(** The clock is read for the time elapsed and again for the new refill time. *)
Definition TokenBucket_Allow (now now' : Time) (tokensRequested : f64) (tb : TokenBucket)
    : TokenBucket * bool :=
  let elapsed := Seconds (time_Since now (lastRefill tb)) in
  let t := f_min (capacity tb) (f_add (tokens tb) (f_mul elapsed (refillRate tb))) in
  if f_ge t tokensRequested
  then (mkTB (capacity tb) (f_sub t tokensRequested) (refillRate tb) now', true)
  else (mkTB (capacity tb) t (refillRate tb) now', false).

(** ** MultiDimensionalLimiter *)

Definition DimensionGlobal : string := "global".
Definition DimensionPerClient : string := "per_client".
Definition DimensionPerIP : string := "per_ip".
Definition DimensionPerTenant : string := "per_tenant".

(** The buckets are owned by the limiter's map. *)
Record MultiDimensionalLimiter : Type := mkMDL {
  limiters : gmap string TokenBucket;
  dimensions : list string;
  config : gmap string f64
}.

Definition NewMultiDimensionalLimiter (config : gmap string f64) (dimensions : list string)
    : MultiDimensionalLimiter :=
  mkMDL ∅ dimensions config.

Definition rate_of (m : MultiDimensionalLimiter) (dim : string) : f64 :=
  default (f_of_Z 1000) ((config m : gmap string f64) !! dim).

Definition bucket_key (dim id : string) : string := dim +:+ ":" +:+ id.

(** The clock: at the creation of the bucket, and twice in its [Allow]. *)
Record clocks : Type := mkClocks { c_new : Time; c_elapsed : Time; c_refill : Time }.

Definition allowForDimension (ts : clocks) (dim id : string) (m : MultiDimensionalLimiter)
    : MultiDimensionalLimiter * bool :=
  if bool_decide (id = "") then (m, true)
  else
    let limiter :=
      match (limiters m : gmap string TokenBucket) !! bucket_key dim id with
      | Some l => l
      | None => NewTokenBucket (c_new ts) (rate_of m dim) (f_div (rate_of m dim) (f_of_Z 60))
      end in
    let '(limiter, ok) := TokenBucket_Allow (c_elapsed ts) (c_refill ts) f_one limiter in
    (mkMDL (<[bucket_key dim id := limiter]> (limiters m : gmap string TokenBucket)) (dimensions m) (config m), ok).

(** The identity checked in a dimension; a dimension that is not one of the four
    finds no entry, the empty string. *)
Definition check_id (clientID clientIP tenantID dim : string) : string :=
  if bool_decide (dim = DimensionGlobal) then "global"
  else if bool_decide (dim = DimensionPerClient) then clientID
  else if bool_decide (dim = DimensionPerIP) then clientIP
  else if bool_decide (dim = DimensionPerTenant) then tenantID
  else "".

(** The loop over the dimensions, with a clock for each. *)
Fixpoint allow_dims (ids : string → string) (ts : nat → clocks) (dims : list string)
    (m : MultiDimensionalLimiter) : MultiDimensionalLimiter * bool :=
  match dims with
  | [] => (m, true)
  | dim :: dims =>
      let '(m, ok) := allowForDimension (ts 0%nat) dim (ids dim) m in
      if ok then allow_dims ids (λ i, ts (S i)) dims m else (m, false)
  end.

Definition Limiter_Allow (ts : nat → clocks) (clientID clientIP tenantID : string)
    (m : MultiDimensionalLimiter) : MultiDimensionalLimiter * bool :=
  allow_dims (check_id clientID clientIP tenantID) ts (dimensions m) m.

Definition Limiter_Reset (m : MultiDimensionalLimiter) : MultiDimensionalLimiter :=
  mkMDL ∅ (dimensions m) (config m).

(** Capacity and tokens; zeros for a bucket that does not exist. *)
Definition GetStats (m : MultiDimensionalLimiter) (dim id : string) : string * string * f64 * f64 :=
  match (limiters m : gmap string TokenBucket) !! bucket_key dim id with
  | None => (dim, id, f_zero, f_zero)
  | Some l => (dim, id, capacity l, tokens l)
  end.

(** ** RateLimitCounter *)

Record RateLimitCounter : Type := mkRLC { exceeded : Z }.

Definition NewRateLimitCounter : RateLimitCounter := mkRLC 0.
Definition RecordExceeded (r : RateLimitCounter) : RateLimitCounter := mkRLC (exceeded r +64 1).
Definition GetExceeded (r : RateLimitCounter) : Z := exceeded r.
Definition Counter_Reset (r : RateLimitCounter) : RateLimitCounter := mkRLC 0.

(** ** Lemmas *)

(** A key never mixes two dimensions of the four. *)
Lemma allowForDimension_other ts dim id m k :
  k ≠ bucket_key dim id →
  ((limiters (allowForDimension ts dim id m).1) : gmap string TokenBucket) !! k =
  (limiters m : gmap string TokenBucket) !! k.
Proof.
  intros Hk. unfold allowForDimension. destruct (bool_decide (id = "")); [done|].
  destruct (TokenBucket_Allow _ _ _ _). cbn [limiters fst]. by rewrite lookup_insert_ne.
Qed.

Lemma allowForDimension_config ts dim id m :
  dimensions (allowForDimension ts dim id m).1 = dimensions m ∧
  config (allowForDimension ts dim id m).1 = config m.
Proof.
  unfold allowForDimension. destruct (bool_decide (id = "")); [done|].
  by destruct (TokenBucket_Allow _ _ _ _).
Qed.

Definition demo_limiter : MultiDimensionalLimiter :=
  NewMultiDimensionalLimiter {[ "per_client" := f_of_Z 2 ]} ["global"; "per_client"].

Fixpoint allows (n : nat) (m : MultiDimensionalLimiter) : list bool * MultiDimensionalLimiter :=
  match n with
  | O => ([], m)
  | S n =>
      let '(m, ok) := Limiter_Allow (λ _, mkClocks 0 0 0) "c" "ip" "t" m in
      let '(out, m) := allows n m in (ok :: out, m)
  end.

(** Two requests a client; the requests refused still take from the global bucket. *)
Example demo_limits :
  (allows 5 demo_limiter).1 = [true; true; false; false; false] ∧
  GetStats (allows 5 demo_limiter).2 "global" "global" = ("global", "global", f_of_Z 1000, f_of_Z 995).
Proof. vm_compute. done. Qed.

(** ** What a bucket admits *)

Lemma f_min_le a b : is_nan a = false → is_nan b = false → f_le (f_min a b) a = true.
Proof.
  intros Ha Hb. unfold f_min. destruct (f_lt a b) eqn:E.
  - apply f_le_key; [done..|]. unfold key_lt. lia.
  - by apply f_not_lt.
Qed.

Lemma f_min_nan a b : is_nan b = true → is_nan (f_min a b) = true.
Proof. destruct b; try done. by destruct a. Qed.

(** A bucket never admits a request larger than its capacity, however long it
    was left alone and whatever its rate (an elapsed time that overflows to an
    infinity, or a NaN, included); a refused request still moves its refill time,
    and leaves at most the capacity in it. *)
Theorem oversize_refused : ∀ (now now' : Time) (req : f64) (tb : TokenBucket),
  f_lt (capacity tb) req = true →
  let '(tb', ok) := TokenBucket_Allow now now' req tb in
  ok = false ∧ lastRefill tb' = now' ∧ capacity tb' = capacity tb ∧
  (is_nan (tokens tb') = true ∨ f_le (tokens tb') (capacity tb) = true).
Proof.
  intros now now' req tb Hreq. destruct (f_lt_nan _ _ Hreq) as [Hc Hr].
  unfold TokenBucket_Allow. set (x := f_add _ _). rewrite f_ge_le.
  assert (f_le req (f_min (capacity tb) x) = false ∧
          (is_nan (f_min (capacity tb) x) = true ∨ f_le (f_min (capacity tb) x) (capacity tb) = true)) as [Hle Hb].
  { destruct (is_nan x) eqn:Ex.
    - pose proof (f_min_nan (capacity tb) x Ex) as Hn. split; [|by left].
      apply not_true_iff_false. intros [_ H]%f_le_nan. congruence.
    - pose proof (f_min_le _ _ Hc Ex) as Hle. split; [|by right].
      apply f_lt_not_le. eapply f_le_lt_trans; eassumption. }
  by rewrite Hle.
Qed.

Lemma oversize_refused_witness :
  f_lt (capacity (NewTokenBucket 0 (f_of_Z 5) (f_of_Z 1))) (f_of_Z 6) = true ∧
  (TokenBucket_Allow (100 * Second) (101 * Second) (f_of_Z 6) (NewTokenBucket 0 (f_of_Z 5) (f_of_Z 1))).2 = false.
Proof.
  split; [reflexivity|].
  pose proof (oversize_refused (100 * Second) (101 * Second) (f_of_Z 6)
    (NewTokenBucket 0 (f_of_Z 5) (f_of_Z 1)) eq_refl) as H.
  destruct (TokenBucket_Allow _ _ _ _) as [tb' ok]. exact (proj1 H).
Defined.

(** ** The bound on what is admitted

    In a window of [T] seconds a bucket admits its capacity and what it was
    refilled with, up to the rounding of the floats. *)

Lemma fin_of_at_most x v b : at_most x v b → (v < pw 1000)%Q → fin_pos x ∧ (val x <= b)%Q.
Proof.
  intros H Hv. destruct x as [|[]| |[]]; cbn [at_most] in H; try exact H. exfalso. lra.
Qed.

(** The two roundings, as the arithmetic below uses them. *)
Lemma ulp1_small : (0 < ulp1 <= 1 # 9007199254740992)%Q.
Proof. split; [apply pw_pos|]. unfold ulp1. vm_compute. discriminate. Qed.

Lemma eta_small : (0 < eta <= pw (-1074))%Q.
Proof. split; [apply pw_pos|]. by apply pw_le. Qed.

Lemma inject_nonneg z : 0 ≤ z → (0 <= inject_Z z)%Q.
Proof. intros H. change 0%Q with (inject_Z 0). by rewrite <- Zle_Qle. Qed.

Lemma f_of_Z_fin z : 0 ≤ z ≤ int64_max → fin_pos (f_of_Z z) ∧ (val (f_of_Z z) <= inject_Z z * (1 + ulp1))%Q.
Proof.
  intros Hz. apply (fin_of_at_most _ (inject_Z z)); [apply f_of_Z_at_most; lia|].
  apply (Qle_lt_trans _ (inject_Z int64_max)); [rewrite <- Zle_Qle; lia|by vm_compute].
Qed.

Definition seconds (d : Duration) : Q := inject_Z d / inject_Z Second.

Lemma Seconds_bound d : 0 ≤ d ≤ int64_max →
  fin_pos (Seconds d) ∧ (val (Seconds d) <= seconds d * (1 + (1 # 2251799813685248)) + 2 * pw (-1074))%Q.
Proof.
  intros Hd. unfold Seconds.
  assert (Es : Second = 1000000000) by done. assert (Em : int64_max = 2 ^ 63 - 1) by done.
  assert (Hq : 0 ≤ Z.quot d Second ≤ int64_max).
  { rewrite Es, Em in *. Z.to_euclidean_division_equations. lia. }
  pose proof (Z.rem_bound_pos d Second ltac:(lia) ltac:(done)) as Hr.
  pose proof (Z.quot_rem' d Second) as Hqr.
  set (q := Z.quot d Second) in *. set (r := Z.rem d Second) in *.
  destruct (f_of_Z_fin q Hq) as [Fq Vq]. destruct (f_of_Z_fin r ltac:(lia)) as [Fr Vr].
  assert (Vs : (val (f_of_Z Second) == inject_Z Second)%Q) by reflexivity.
  pose proof (f_div_at_most (f_of_Z r) (f_of_Z Second) Fr eq_refl ltac:(by vm_compute)) as Hdiv.
  pose proof ulp1_small as [Hu Hu']. pose proof eta_small as [He He'].
  pose proof (val_nonneg _ Fr) as Pr. pose proof (val_nonneg _ Fq) as Pq.
  set (V := (val (f_of_Z r) / val (f_of_Z Second))%Q) in *.
  assert (Hr0 := inject_nonneg r ltac:(lia)). assert (Hq0 := inject_nonneg q ltac:(lia)).
  assert (Hru : (inject_Z r * ulp1 <= inject_Z r * (1 # 9007199254740992))%Q) by nra.
  assert (Hqu : (inject_Z q * ulp1 <= inject_Z q * (1 # 9007199254740992))%Q) by nra.
  assert (Hrs : (0 <= V <= inject_Z r * (1 + (1 # 9007199254740992)) * (1 # 1000000000))%Q).
  { subst V. rewrite Vs. unfold Qdiv. change (/ inject_Z Second)%Q with (1 # 1000000000)%Q. lra. }
  assert (Hrb : (inject_Z r <= 1000000000)%Q) by (change 1000000000%Q with (inject_Z Second); rewrite <- Zle_Qle; lia).
  assert (Hbig : (1180591620717411303424 < pw 1000)%Q) by (by vm_compute).
  assert (Hqb : (inject_Z q <= 9223372036854775808)%Q) by (change 9223372036854775808%Q with (inject_Z (2 ^ 63)); rewrite <- Zle_Qle; lia).
  assert (HVu : (V * ulp1 <= V * (1 # 9007199254740992))%Q) by nra.
  apply fin_of_at_most in Hdiv as [Fd Vd]; [|lra].
  pose proof (f_add_at_most _ _ Fq Fd) as Hadd. pose proof (val_nonneg _ Fd) as Pd.
  set (W := (val (f_of_Z q) + val (f_div (f_of_Z r) (f_of_Z Second)))%Q) in *.
  assert (pw (-1074) <= 1)%Q by (by vm_compute).
  assert (HW : (0 <= W <= inject_Z q * (1 + (1 # 9007199254740992)) + V * (1 + (1 # 9007199254740992)) + pw (-1074))%Q) by (subst W; lra).
  apply fin_of_at_most in Hadd as [Fa Va]; [|lra]. split; [exact Fa|].
  assert (HWu : (W * ulp1 <= W * (1 # 9007199254740992))%Q) by nra.
  assert (HD : (seconds d == inject_Z q + inject_Z r * (1 # 1000000000))%Q).
  { unfold seconds. rewrite Hqr, inject_Z_plus, inject_Z_mult. unfold Qdiv.
    change (/ inject_Z Second)%Q with (1 # 1000000000)%Q. change (inject_Z Second) with 1000000000%Q. ring. }
  rewrite HD. lra.
Qed.

Section Bound.
Context (C : f64).
Hypothesis C_fin : fin_pos C.
Hypothesis C_range : (1 <= val C <= 1125899906842624)%Q.

Lemma refill_bound :
  fin_pos (f_div C (f_of_Z 60)) ∧
  (val (f_div C (f_of_Z 60)) <= val C * (1 # 60) * (1 + (1 # 9007199254740992)) + pw (-1074))%Q.
Proof.
  pose proof (f_div_at_most C (f_of_Z 60) C_fin eq_refl ltac:(by vm_compute)) as H.
  assert (V60 : (val C / val (f_of_Z 60) == val C * (1 # 60))%Q) by (assert (V60' : (val (f_of_Z 60) == 60)%Q) by reflexivity; rewrite V60'; reflexivity).
  assert (Hbig : (1180591620717411303424 < pw 1000)%Q) by (by vm_compute).
  pose proof ulp1_small as [Hu Hu']. pose proof eta_small as [He He'].
  assert (val C * (1 # 60) * ulp1 <= val C * (1 # 60) * (1 # 9007199254740992))%Q by nra.
  apply fin_of_at_most in H as [Hf Hv]; [|lra]. split; [exact Hf|]. rewrite V60 in Hv. lra.
Qed.

(** What a bucket gets for a time, at most. *)
Definition credit (d : Duration) : Q := seconds d * val C * (1 # 60) * (1 + (1 # 1125899906842624)).

Lemma seconds_range d : 0 ≤ d ≤ int64_max → (0 <= seconds d <= 17179869184)%Q.
Proof.
  intros Hd. unfold seconds, Qdiv. change (/ inject_Z Second)%Q with (1 # 1000000000)%Q.
  assert (inject_Z d <= inject_Z int64_max)%Q by (rewrite <- Zle_Qle; lia).
  change (inject_Z int64_max) with 9223372036854775807%Q in *. pose proof (inject_nonneg d ltac:(lia)). lra.
Qed.

Lemma credit_bound d : 0 ≤ d ≤ int64_max →
  fin_pos (f_mul (Seconds d) (f_div C (f_of_Z 60))) ∧
  (val (f_mul (Seconds d) (f_div C (f_of_Z 60))) <= credit d + pw (-1000))%Q.
Proof.
  intros Hd. destruct (Seconds_bound d Hd) as [Fs Vs]. destruct refill_bound as [Fr Vr].
  pose proof (f_mul_at_most _ _ Fs Fr) as Hm. pose proof (val_nonneg _ Fs) as Ps. pose proof (val_nonneg _ Fr) as Pr.
  pose proof (seconds_range d Hd) as Hs. unfold credit.
  set (S := val (Seconds d)) in *. set (R := val (f_div C (f_of_Z 60))) in *. set (s := seconds d) in *.
  set (N := val C) in *. set (p := pw (-1074)) in *.
  assert (Hp : (0 < p <= 1)%Q) by (split; [apply pw_pos|by vm_compute]).
  assert (Hbig : (1298074214633706907132624082305024 < pw 1000)%Q) by (by vm_compute).
  assert (HsN : (0 <= s * N <= 17179869184 * 1125899906842624)%Q) by (split; nra).
  assert (Hsp : (s * p <= 17179869184 * p)%Q) by nra.
  assert (HNp : (N * p <= 1125899906842624 * p)%Q) by nra.
  assert (Hpp : (p * p <= p)%Q) by nra.
  assert (HSR : (0 <= S * R <= s * N * (1 # 60) * (1 + (1 # 2251799813685248)) * (1 + (1 # 9007199254740992))
                       + 1152921504606846976 * p)%Q).
  { split; [nra|].
    apply (Qle_trans _ ((s * (1 + (1 # 2251799813685248)) + 2 * p) *
                        (N * (1 # 60) * (1 + (1 # 9007199254740992)) + p))); [|lra].
    apply (Qle_trans _ (S * (N * (1 # 60) * (1 + (1 # 9007199254740992)) + p))); nra. }
  pose proof ulp1_small as [Hu Hu']. pose proof eta_small as [He He'].
  assert (HSRu : (S * R * ulp1 <= S * R * (1 # 9007199254740992))%Q) by nra.
  apply fin_of_at_most in Hm as [Fm Vm]; [|lra]. split; [exact Fm|].
  eapply Qle_trans; [exact Vm|].
  assert (Hp1000 : (4611686018427387904 * p <= pw (-1000))%Q) by (by vm_compute).
  fold p in He'. lra.
Qed.

(** A bucket of the limiter for the rate [C]. *)
Record tb_ok (tb : TokenBucket) : Prop := {
  tb_cap : capacity tb = C;
  tb_rate : refillRate tb = f_div C (f_of_Z 60);
  tb_fin : fin_pos (tokens tb)
}.

(** What rounding may add in a call. *)
Definition slop : Q := 3 * val C * (1 # 9007199254740992).

Lemma f_lt_inf x : fin_pos x → f_lt x (S754_infinity false) = true.
Proof. by destruct x as [|[]| |[]]. Qed.

(** Refilling: at most the credit more, and never above the capacity. *)
Lemma refilled t d : fin_pos t → 0 ≤ d ≤ int64_max →
  let t1 := f_min C (f_add t (f_mul (Seconds d) (f_div C (f_of_Z 60)))) in
  fin_pos t1 ∧ (val t1 <= val C)%Q ∧
  (val t1 <= val t + credit d + pw (-1000) + val C * (1 # 9007199254740992))%Q.
Proof.
  intros Ft Hd. destruct (credit_bound d Hd) as [Fx Vx]. set (x := f_mul _ _) in *.
  pose proof (f_add_at_most _ _ Ft Fx) as Ha. pose proof (val_nonneg _ Ft). pose proof (val_nonneg _ Fx).
  pose proof ulp1_small as [Hu Hu']. assert (Hbig : (1125899906842624 < pw 1000)%Q) by (by vm_compute).
  assert (HNu : (val C * ulp1 <= val C * (1 # 9007199254740992))%Q) by nra.
  set (z := (val t + val x)%Q) in *. assert (Hz : (0 <= z <= val t + credit d + pw (-1000))%Q) by (subst z; lra).
  cbn zeta. unfold f_min. destruct (f_lt C (f_add t x)) eqn:El.
  - split; [done|]. split; [apply Qle_refl|].
    destruct (Qlt_le_dec z (val C)) as [Hzc|]; [|lra].
    apply fin_of_at_most in Ha as [Fa Va]; [|lra]. pose proof (f_lt_val _ _ C_fin Fa El).
    assert (z * ulp1 <= val C * ulp1)%Q by nra. lra.
  - assert (Fa : fin_pos (f_add t x) ∧ (val (f_add t x) <= z * (1 + ulp1))%Q).
    { destruct (f_add t x) as [|[]| |[]]; try exact Ha. by rewrite f_lt_inf in El. }
    destruct Fa as [Fa Va]. pose proof (f_not_lt_val _ _ C_fin Fa El) as Hc.
    split; [done|]. split; [done|].
    destruct (Qlt_le_dec (val C) z) as [|Hzc]; [lra|].
    assert (z * ulp1 <= val C * ulp1)%Q by nra. lra.
Qed.

Lemma Allow_bound tb now now' : tb_ok tb → 0 ≤ time_Since now (lastRefill tb) →
  let '(tb', ok) := TokenBucket_Allow now now' f_one tb in
  tb_ok tb' ∧ lastRefill tb' = now' ∧
  (val (tokens tb') + (if ok then 1 else 0) <=
   val (tokens tb) + credit (time_Since now (lastRefill tb)) + slop)%Q.
Proof.
  intros [Hc Hr Hf] Hd. set (d := time_Since now (lastRefill tb)) in *.
  assert (Hd' : 0 ≤ d ≤ int64_max) by (subst d; unfold time_Since, time_Sub, int64_max, int64_min in *; lia).
  destruct (refilled _ d Hf Hd') as (Ft & Vc & Vt).
  unfold TokenBucket_Allow. fold d. rewrite Hc, Hr. set (t := f_min _ _) in *.
  pose proof ulp1_small as [Hu Hu']. pose proof (val_nonneg _ Ft).
  assert (Htiny : (pw (-1000) <= (1 # 9007199254740992))%Q) by (by vm_compute).
  assert (Hbig : (1125899906842624 < pw 1000)%Q) by (by vm_compute).
  assert (V1 : (val f_one == 1)%Q) by reflexivity. unfold slop.
  destruct (f_ge t f_one) eqn:Eg.
  - rewrite f_ge_le in Eg. apply f_le_val in Eg; [|done..].
    pose proof (f_sub_at_most t f_one Ft eq_refl Eg) as Hs. rewrite V1 in Eg.
    apply fin_of_at_most in Hs as [Fs Vs]; [|lra]. rewrite V1 in Vs.
    split; [by split|]. split; [done|]. cbn [tokens].
    assert ((val t - 1) * ulp1 <= val C * (1 # 9007199254740992))%Q by nra. lra.
  - split; [by split|]. split; [done|]. cbn [tokens]. lra.
Qed.

Lemma credit_mono d d' : d ≤ d' → (credit d <= credit d')%Q.
Proof.
  intros H. unfold credit, seconds, Qdiv. change (/ inject_Z Second)%Q with (1 # 1000000000)%Q.
  rewrite Zle_Qle in H. assert (inject_Z d * val C <= inject_Z d' * val C)%Q by nra. lra.
Qed.

Lemma credit_add d d' : (credit (d + d') == credit d + credit d')%Q.
Proof. unfold credit, seconds, Qdiv. rewrite inject_Z_plus. ring. Qed.

(** *** One bucket of a limiter *)

Context (dim id : string).
Hypothesis dim_known : dim ∈ [DimensionGlobal; DimensionPerClient; DimensionPerIP; DimensionPerTenant].

(** After [n] calls the bucket of [id] has admitted [a] requests since [t0]; it
    has been left alone since some time before [t]. *)
Definition accounted (t0 t : Time) (n a : nat) (m : MultiDimensionalLimiter) : Prop :=
  rate_of m dim = C ∧
  match (limiters m : gmap string TokenBucket) !! bucket_key dim id with
  | None => a = 0%nat
  | Some tb =>
      tb_ok tb ∧ t0 ≤ lastRefill tb ≤ t ∧
      (inject_Z (Z.of_nat a) + val (tokens tb) <=
       val C + credit (lastRefill tb - t0) + inject_Z (Z.of_nat n) * slop)%Q
  end.

Lemma slop_nonneg : (0 <= slop)%Q.
Proof. unfold slop. lra. Qed.

Lemma accounted_later t0 t t' n n' a m :
  t ≤ t' → (n ≤ n')%nat → accounted t0 t n a m → accounted t0 t' n' a m.
Proof.
  intros Ht Hn [Hr H]. split; [done|]. destruct (_ !! _) as [tb|]; [|done].
  destruct H as (Hok & Hl & Hq). split; [done|]. split; [lia|].
  eapply Qle_trans; [exact Hq|]. pose proof slop_nonneg.
  assert (inject_Z (Z.of_nat n) <= inject_Z (Z.of_nat n'))%Q by (rewrite <- Zle_Qle; lia). nra.
Qed.

Lemma bucket_key_dim dim' id' :
  dim' ∈ [DimensionGlobal; DimensionPerClient; DimensionPerIP; DimensionPerTenant] →
  bucket_key dim' id' = bucket_key dim id → dim' = dim ∧ id' = id.
Proof.
  revert dim_known. unfold bucket_key. rewrite !elem_of_cons.
  intros [-> |[-> |[-> |[-> |H]]]] [-> |[-> |[-> |[-> |H']]]] Hk;
    try (by apply elem_of_nil in H); try (by apply elem_of_nil in H'); simplify_eq/=; done.
Qed.

(** The clock readings of [n] dimensions, in order from [t] to [t']. *)
Fixpoint in_order (n : nat) (t : Time) (ts : nat → clocks) (t' : Time) : Prop :=
  match n with
  | O => t ≤ t'
  | S n =>
      t ≤ c_new (ts 0%nat) ∧ c_new (ts 0%nat) ≤ c_elapsed (ts 0%nat) ≤ c_refill (ts 0%nat) ∧
      in_order n (c_refill (ts 0%nat)) (λ i, ts (S i)) t'
  end.

Lemma in_order_le n t ts t' : in_order n t ts t' → t ≤ t'.
Proof.
  revert t ts. induction n as [|n IH]; intros t ts; cbn [in_order]; [done|].
  intros (H1 & H2 & H3%IH). lia.
Qed.

Lemma seconds_since now t : t ≤ now → 0 ≤ time_Since now t ≤ now - t.
Proof. unfold time_Since, time_Sub, int64_min, int64_max. lia. Qed.

(** A call on the bucket itself. *)
Lemma bucket_call t0 tb ts a n :
  tb_ok tb → t0 ≤ lastRefill tb ≤ c_elapsed ts → c_elapsed ts ≤ c_refill ts →
  (inject_Z (Z.of_nat a) + val (tokens tb) <=
   val C + credit (lastRefill tb - t0) + inject_Z (Z.of_nat n) * slop)%Q →
  let '(tb', ok) := TokenBucket_Allow (c_elapsed ts) (c_refill ts) f_one tb in
  tb_ok tb' ∧ t0 ≤ lastRefill tb' ≤ c_refill ts ∧
  (inject_Z (Z.of_nat (a + if ok then 1 else 0)) + val (tokens tb') <=
   val C + credit (lastRefill tb' - t0) + inject_Z (Z.of_nat (S n)) * slop)%Q.
Proof.
  intros Hok Hl Hc Hq. pose proof (seconds_since (c_elapsed ts) (lastRefill tb) ltac:(lia)) as Hs.
  pose proof (Allow_bound tb (c_elapsed ts) (c_refill ts) Hok ltac:(lia)) as Ha.
  destruct (TokenBucket_Allow _ _ _ _) as [tb' ok]. destruct Ha as (Hok' & -> & Hv).
  split; [done|]. split; [lia|].
  pose proof (credit_mono (time_Since (c_elapsed ts) (lastRefill tb)) (c_refill ts - lastRefill tb) ltac:(lia)) as Hm.
  pose proof (credit_add (lastRefill tb - t0) (c_refill ts - lastRefill tb)) as Had.
  replace (lastRefill tb - t0 + (c_refill ts - lastRefill tb)) with (c_refill ts - t0) in Had by lia.
  rewrite Nat2Z.inj_add, Nat2Z.inj_succ, <- Z.add_1_r, !inject_Z_plus. change (inject_Z 1) with 1%Q.
  destruct ok; [change (inject_Z (Z.of_nat 1)) with 1%Q|change (inject_Z (Z.of_nat 0)) with 0%Q]; lra.
Qed.

Definition matches (b : bool) : nat := if b then 1 else 0.

Lemma check_id_known clientID clientIP tenantID d :
  check_id clientID clientIP tenantID d ≠ "" →
  d ∈ [DimensionGlobal; DimensionPerClient; DimensionPerIP; DimensionPerTenant].
Proof.
  unfold check_id. rewrite !elem_of_cons. repeat case_bool_decide; auto. done.
Qed.

(** A call of [allowForDimension] for any dimension and identity. *)
Lemma dimension_call t0 t ts n a m d i :
  i ≠ "" → d ∈ [DimensionGlobal; DimensionPerClient; DimensionPerIP; DimensionPerTenant] → t0 ≤ t →
  t ≤ c_new ts → c_new ts ≤ c_elapsed ts ≤ c_refill ts → accounted t0 t n a m →
  let '(m', ok) := allowForDimension ts d i m in
  accounted t0 (c_refill ts) (S n) (a + matches (ok && bool_decide (d = dim ∧ i = id))) m'.
Proof.
  intros Hi Hd H0 Hn He Hacc. pose proof (allowForDimension_config ts d i m) as [_ Hcfg].
  pose proof (allowForDimension_other ts d i m (bucket_key dim id)) as Hother.
  destruct (allowForDimension ts d i m) as [m' ok] eqn:E. cbn [fst] in *.
  assert (Hrate : rate_of m' dim = rate_of m dim) by (unfold rate_of; by rewrite Hcfg).
  case_bool_decide as Heq.
  - destruct Heq as [-> ->]. rewrite andb_true_r. destruct Hacc as [Hr Hb]. split; [congruence|].
    unfold allowForDimension in E. rewrite bool_decide_eq_false_2 in E by done. rewrite Hr in E.
    set (tb := match _ !! _ with Some l => l | None => _ end) in E.
    assert (Htb : tb_ok tb ∧ t0 ≤ lastRefill tb ≤ c_elapsed ts ∧
              (inject_Z (Z.of_nat a) + val (tokens tb) <=
               val C + credit (lastRefill tb - t0) + inject_Z (Z.of_nat n) * slop)%Q).
    { subst tb. destruct (_ !! _) as [tb|].
      - destruct Hb as (? & ? & ?). split; [done|]. split; [lia|done].
      - subst a. cbn [lastRefill tokens NewTokenBucket]. split; [by split|]. split; [lia|].
        pose proof slop_nonneg. pose proof (credit_mono 0 (c_new ts - t0) ltac:(lia)).
        assert (credit 0 == 0)%Q by (unfold credit, seconds; change (inject_Z 0) with 0%Q; unfold Qdiv; ring).
        pose proof (inject_nonneg (Z.of_nat n) ltac:(lia)). change (inject_Z (Z.of_nat 0)) with 0%Q. nra. }
    destruct Htb as (Hok & Hl & Hq).
    pose proof (bucket_call t0 tb ts a n Hok Hl ltac:(lia) Hq) as Hc.
    destruct (TokenBucket_Allow _ _ _ tb) as [tb' ok']. simplify_eq. cbn [limiters].
    by rewrite lookup_insert_eq.
  - rewrite andb_false_r, Nat.add_0_r. apply (accounted_later t0 t _ n); [lia|lia|].
    destruct Hacc as [Hr Hb]. split; [congruence|]. rewrite Hother; [done|].
    intros Hk. apply Heq, bucket_key_dim; [done|by symmetry].
Qed.

(** The loop over the dimensions: a request that is allowed has been admitted by
    every one of them. *)
Lemma dims_call (ids : string → string) t0 dims :
  id ≠ "" →
  (∀ d, ids d ≠ "" → d ∈ [DimensionGlobal; DimensionPerClient; DimensionPerIP; DimensionPerTenant]) →
  ∀ ts t t' n a m, t0 ≤ t → in_order (length dims) t ts t' → accounted t0 t n a m →
  let '(m', ok) := allow_dims ids ts dims m in
  ∃ a', accounted t0 t' (n + length dims) a' m' ∧
    (a + matches (ok && bool_decide (dim ∈ dims ∧ ids dim = id)) ≤ a')%nat.
Proof.
  intros Hid Hids. induction dims as [|d dims IH]; intros ts t t' n a m H0 Hord Hacc; cbn [allow_dims length in_order] in *.
  - exists a. rewrite bool_decide_eq_false_2 by (by intros [?%elem_of_nil _]).
    split; [eapply accounted_later; [exact Hord| |exact Hacc]; lia|cbn; lia].
  - destruct Hord as (Hn & He & Hord). pose proof (in_order_le _ _ _ _ Hord) as Hle.
    assert (Hstep : let '(m1, ok) := allowForDimension (ts 0%nat) d (ids d) m in
              ∃ a1, accounted t0 (c_refill (ts 0%nat)) (S n) a1 m1 ∧
                (a + matches (ok && bool_decide (d = dim ∧ ids d = id)) ≤ a1)%nat).
    { destruct (decide (ids d = "")) as [E|E].
      - rewrite E. cbn. exists a. rewrite bool_decide_eq_false_2 by (intros [_ ?]; congruence).
        split; [eapply accounted_later; [| |exact Hacc]; lia|cbn; lia].
      - pose proof (dimension_call t0 t (ts 0%nat) n a m d (ids d) E (Hids d E) H0 Hn He Hacc) as Hd.
        destruct (allowForDimension _ _ _ _) as [m1 ok]. eexists. split; [exact Hd|lia]. }
    destruct (allowForDimension _ _ _ _) as [m1 ok]. destruct Hstep as (a1 & Hacc1 & Ha1).
    destruct ok; cbn [andb] in *.
    + specialize (IH (λ i, ts (S i)) (c_refill (ts 0%nat)) t' (S n) a1 m1 ltac:(lia) Hord Hacc1).
      destruct (allow_dims _ _ _ _) as [m2 ok]. destruct IH as (a2 & Hacc2 & Ha2).
      exists a2. replace (n + S (length dims))%nat with (S n + length dims)%nat by lia. split; [done|].
      destruct ok; cbn [andb] in *; [|cbn; lia].
      destruct (decide (dim ∈ d :: dims ∧ ids dim = id)) as [[Hin Hi]|Hno].
      * rewrite bool_decide_eq_true_2 by done. apply elem_of_cons in Hin as [<-|Hin].
        -- rewrite bool_decide_eq_true_2 in Ha1 by done. cbn in *. lia.
        -- rewrite (bool_decide_eq_true_2 (dim ∈ dims ∧ _)) in Ha2 by done. cbn in *. lia.
      * rewrite bool_decide_eq_false_2 by done. cbn. lia.
    + exists a1. split; [|cbn in *; lia].
      eapply accounted_later; [exact Hle| |exact Hacc1]. lia.
Qed.

End Bound.

(** *** Requests over time *)

Record request : Type := mkReq {
  q_client : string;
  q_ip : string;
  q_tenant : string;
  q_clocks : nat → clocks
}.

Definition q_id (r : request) : string → string := check_id (q_client r) (q_ip r) (q_tenant r).

(** The answers to a series of requests. *)
Fixpoint serve (rs : list request) (m : MultiDimensionalLimiter) : list bool * MultiDimensionalLimiter :=
  match rs with
  | [] => ([], m)
  | r :: rs =>
      let '(m, ok) := Limiter_Allow (q_clocks r) (q_client r) (q_ip r) (q_tenant r) m in
      let '(oks, m) := serve rs m in (ok :: oks, m)
  end.

(** The requests of the identity [id] in a dimension that were allowed. *)
Fixpoint admitted (dim id : string) (rs : list request) (oks : list bool) : nat :=
  match rs, oks with
  | r :: rs, ok :: oks => matches (ok && bool_decide (q_id r dim = id)) + admitted dim id rs oks
  | _, _ => 0
  end.

(** The clock readings of a series of requests of [n] dimensions, in order. *)
Fixpoint timeline (n : nat) (t : Time) (rs : list request) (t' : Time) : Prop :=
  match rs with
  | [] => t ≤ t'
  | r :: rs => ∃ t1, in_order n t (q_clocks r) t1 ∧ timeline n t1 rs t'
  end.

Lemma timeline_le n t rs t' : timeline n t rs t' → t ≤ t'.
Proof.
  revert t. induction rs as [|r rs IH]; intros t; cbn [timeline]; [done|].
  intros (t1 & H1%in_order_le & H2%IH). lia.
Qed.

Lemma allow_dims_config ids ts dims m :
  dimensions (allow_dims ids ts dims m).1 = dimensions m ∧ config (allow_dims ids ts dims m).1 = config m.
Proof.
  revert ts m. induction dims as [|d dims IH]; intros ts m; cbn [allow_dims]; [done|].
  pose proof (allowForDimension_config (ts 0%nat) d (ids d) m) as [H1 H2].
  destruct (allowForDimension _ _ _ _) as [m1 [|]]; cbn [fst] in *; [|done].
  destruct (IH (λ i, ts (S i)) m1) as [H3 H4]. by rewrite H3, H4.
Qed.

Lemma serve_accounted C dim id t0 :
  fin_pos C → (1 <= val C <= 1125899906842624)%Q →
  dim ∈ [DimensionGlobal; DimensionPerClient; DimensionPerIP; DimensionPerTenant] → id ≠ "" →
  ∀ rs t t' n a m, dim ∈ dimensions m → t0 ≤ t → timeline (length (dimensions m)) t rs t' →
  accounted C dim id t0 t n a m →
  let '(oks, m') := serve rs m in
  ∃ a', accounted C dim id t0 t' (n + length rs * length (dimensions m)) a' m' ∧
    (a + admitted dim id rs oks ≤ a')%nat.
Proof.
  intros HC HN Hd Hid. induction rs as [|r rs IH]; intros t t' n a m Hin H0 Ht Hacc; cbn [serve timeline length] in *.
  - exists a. split; [|cbn; lia]. eapply accounted_later; [done|exact Ht| |exact Hacc]. lia.
  - destruct Ht as (t1 & Hord & Ht). pose proof (in_order_le _ _ _ _ Hord).
    pose proof (dims_call C HC HN dim id Hd (q_id r) t0 (dimensions m) Hid
                  (check_id_known _ _ _) (q_clocks r) t t1 n a m H0 Hord Hacc) as Hc.
    pose proof (allow_dims_config (q_id r) (q_clocks r) (dimensions m) m) as [Hdm _].
    unfold Limiter_Allow. fold (q_id r). destruct (allow_dims _ _ _ _) as [m1 ok]. cbn [fst] in Hdm.
    destruct Hc as (a1 & Hacc1 & Ha1).
    specialize (IH t1 t' (n + length (dimensions m))%nat a1 m1). rewrite Hdm in IH.
    specialize (IH Hin ltac:(lia) Ht Hacc1). destruct (serve rs m1) as [oks m2].
    destruct IH as (a2 & Hacc2 & Ha2). exists a2.
    replace (n + S (length rs) * length (dimensions m))%nat
      with (n + length (dimensions m) + length rs * length (dimensions m))%nat by lia.
    split; [done|]. cbn [admitted].
    assert (matches (ok && bool_decide (dim ∈ dimensions m ∧ q_id r dim = id)) =
            matches (ok && bool_decide (q_id r dim = id))) as Em.
    { do 2 f_equal. apply bool_decide_ext. split; [by intros [_ ?]|by intros ?]. }
    lia.
Qed.

(** C8 The limiter keeps to its rates. Take a new limiter, one of its dimensions
    and an identity in it, with a rate of [N] per minute there (up to 2^50). Over
    any requests of anyone, with clock readings in order between [t0] and [t1], the
    requests of that identity that are allowed number at most [N], plus the [N / 60]
    a second that the bucket is refilled with (one part in 2^50 more, for the
    rounding of floats), plus a half, as long as the calls are fewer than 2^50 / N. *)
Theorem limiter_bound (config : gmap string f64) (dims : list string) (dim id : string) (N : Q)
    (rs : list request) (t0 t1 : Time)
    (Hdim : dim ∈ [DimensionGlobal; DimensionPerClient; DimensionPerIP; DimensionPerTenant])
    (Hin : dim ∈ dims) (Hid : id ≠ "")
    (Hfin : fin_pos (rate_of (NewMultiDimensionalLimiter config dims) dim))
    (HN : val (rate_of (NewMultiDimensionalLimiter config dims) dim) == N)
    (Hrange : (1 <= N <= 1125899906842624)%Q)
    (Ht : timeline (length dims) t0 rs t1)
    (Hcalls : (inject_Z (Z.of_nat (length rs * length dims)) * N <= 1125899906842624)%Q) :
  let '(oks, _) := serve rs (NewMultiDimensionalLimiter config dims) in
  (inject_Z (Z.of_nat (admitted dim id rs oks)) <=
   N + N / 60 * seconds (t1 - t0) * (1 + (1 # 1125899906842624)) + (1 # 2))%Q.
Proof.
  set (m := NewMultiDimensionalLimiter config dims) in *. set (C := rate_of m dim) in *.
  assert (HC : (1 <= val C <= 1125899906842624)%Q) by (rewrite HN; exact Hrange).
  pose proof (serve_accounted C dim id t0 Hfin HC Hdim Hid rs t0 t1 0 0 m Hin ltac:(lia) Ht
                (conj eq_refl eq_refl)) as Hs.
  destruct (serve rs m) as [oks m']. destruct Hs as (a & [_ Hacc] & Ha). cbn [dimensions m NewMultiDimensionalLimiter] in Hacc.
  set (n := (0 + length rs * length dims)%nat) in *.
  assert (Hq : (inject_Z (Z.of_nat a) <= val C + credit C (t1 - t0) + inject_Z (Z.of_nat n) * slop C)%Q).
  { pose proof (timeline_le _ _ _ _ Ht). pose proof (slop_nonneg C HC). pose proof (inject_nonneg (Z.of_nat n) ltac:(lia)).
    pose proof (credit_mono C HC 0 (t1 - t0) ltac:(lia)) as Hc0.
    assert (credit C 0 == 0)%Q by (unfold credit, seconds; change (inject_Z 0) with 0%Q; unfold Qdiv; ring).
    destruct (_ !! _) as [tb|]; [|subst a; change (inject_Z (Z.of_nat 0)) with 0%Q; nra].
    destruct Hacc as (Hok & Hl & Hv). pose proof (val_nonneg _ (tb_fin _ _ Hok)).
    pose proof (credit_mono C HC (lastRefill tb - t0) (t1 - t0) ltac:(lia)). lra. }
  assert (Ha' : (inject_Z (Z.of_nat (admitted dim id rs oks)) <= inject_Z (Z.of_nat a))%Q) by (rewrite <- Zle_Qle; lia).
  eapply Qle_trans; [exact Ha'|]. eapply Qle_trans; [exact Hq|].
  unfold credit, slop. rewrite HN. unfold Qdiv. change (/ 60)%Q with (1 # 60)%Q.
  change n with (length rs * length dims)%nat. lra.
Qed.

(** Two a minute: two at once, a third half a minute later. *)
Definition demo_requests : list request :=
  map (λ t, mkReq "c" "ip" "t" (λ _, mkClocks t t t)) [0; 0; 0; 30 * Second; 30 * Second].

Lemma limiter_bound_witness :
  (serve demo_requests demo_limiter).1 = [true; true; false; true; false] ∧
  admitted DimensionPerClient "c" demo_requests [true; true; false; true; false] = 3%nat ∧
  (inject_Z 3 <= 2 + 2 / 60 * seconds (30 * Second) * (1 + (1 # 1125899906842624)) + (1 # 2))%Q.
Proof.
  split; [vm_compute; reflexivity|]. split; [vm_compute; reflexivity|].
  assert (Hserve : (serve demo_requests demo_limiter).1 = [true; true; false; true; false]) by (vm_compute; reflexivity).
  assert (Ht : timeline 2 0 demo_requests (30 * Second)).
  { exists 0. split; [vm_compute; repeat split; discriminate|].
    exists 0. split; [vm_compute; repeat split; discriminate|].
    exists 0. split; [vm_compute; repeat split; discriminate|].
    exists (30 * Second). split; [vm_compute; repeat split; discriminate|].
    exists (30 * Second). split; [vm_compute; repeat split; discriminate|]. vm_compute. discriminate. }
  pose proof (limiter_bound {[ "per_client" := f_of_Z 2 ]} ["global"; "per_client"] DimensionPerClient "c" 2
    demo_requests 0 (30 * Second) ltac:(by right; left) ltac:(by right; left) ltac:(done)
    ltac:(vm_compute; reflexivity) ltac:(vm_compute; reflexivity)
    ltac:(split; vm_compute; discriminate) Ht ltac:(vm_compute; discriminate)) as H.
  change (NewMultiDimensionalLimiter {[ "per_client" := f_of_Z 2 ]} ["global"; "per_client"]) with demo_limiter in H.
  destruct (serve demo_requests demo_limiter) as [oks m]. cbn [fst] in Hserve. subst oks. exact H.
Defined.
