(* ===== verification/WvDiscovery.v ===== *)
(** * Weaver: discovery

    [src/src/Weaver/pkg/discovery/]: the accessors of a configuration
    (interface.go), the static list (static.go) and the four caches in front of
    etcd (static.go), Consul, Kubernetes and DNS SRV (advanced.go), which have one
    shape.  [Watch] starts a goroutine that sends replica lists to a channel; the
    goroutine, its channel and the callers of the service are a machine whose
    atomic steps are [action]s.  A slice is copied wherever it is handed out, so
    lists are values here; the slice given to [UpdateCachedReplicas] is kept, and
    its caller is taken not to write to it; nobody writes the replica infos. *)

From S2P Require Import Prelude GoFloat WvTypes Resilience WvLoadBalancer WvGateway.

(** ** interface.go *)

Module Conf.

Inductive any : Type :=
| AString (s : string)
| AInt (z : Z)
| AFloat (f : f64)
| ASlice (l : list string)
| AOther.

Definition Config : Type := gmap string any.

Definition Get (c : Config) (key : string) : string :=
  match (c : gmap string any) !! key with Some (AString s) => s | _ => "" end.

Definition GetInt (f2i_undefined : f64 → Z) (c : Config) (key : string) : Z :=
  match (c : gmap string any) !! key with
  | Some (AInt z) => z
  | Some (AFloat f) => i64_of_f f2i_undefined f
  | _ => 0
  end.

(** A nil slice is an empty one. *)
Definition GetSlice (c : Config) (key : string) : list string :=
  match (c : gmap string any) !! key with Some (ASlice l) => l | _ => [] end.

End Conf.

(** ** The goroutine of a [Watch] and its channel *)

(** Where it is: before its ticker is made, at the head of the loop, sending, in
    the second select (for the static list: waiting for the context), returned. *)
Inductive watch_at : Type :=
| WStart
| WHead
| WSend (l : list ReplicaInfo)
| WWait
| WExited.

(** [w_buf] is the channel's buffer, of capacity [w_cap]; [w_received] what its
    reader took from it. *)
Record Watcher : Type := mkWatcher {
  w_at : watch_at;
  w_cap : nat;
  w_buf : list (list ReplicaInfo);
  w_closed : bool;
  w_received : list (list ReplicaInfo)
}.

Definition set_at (w : Watcher) (a : watch_at) : Watcher :=
  mkWatcher a (w_cap w) (w_buf w) (w_closed w) (w_received w).

(** [defer close(resChan)] *)
Definition exit_watch (w : Watcher) : Watcher :=
  mkWatcher WExited (w_cap w) (w_buf w) true (w_received w).

(** What a DNS lookup answers: host names and ports. *)
Record target : Type := mkTarget { Target : string; SRVPort : Z }.

Inductive action : Type :=
| ABegin
| ARead
| ASend
| ARecv
| ATick (now : Time) (lookup : result (list target))
| ACtxDone
| ADone
| AUpdate (now : Time) (infos : list ReplicaInfo)
| AClose.

(** The channel operations every watcher has: the send into the buffer, or hand
    in hand with the reader if there is none, and the reader's step. *)
Definition chan_step (w : Watcher) (a : action) : option Watcher :=
  match a, w_at w with
  | ASend, WSend l =>
      if (length (w_buf w) <? w_cap w)%nat
      then Some (mkWatcher WWait (w_cap w) (w_buf w ++ [l]) (w_closed w) (w_received w))
      else None
  | ARecv, at_ =>
      match w_buf w, at_ with
      | l :: buf, _ => Some (mkWatcher at_ (w_cap w) buf (w_closed w) (w_received w ++ [l]))
      | [], WSend l =>
          if (w_cap w =? 0)%nat
          then Some (mkWatcher WWait (w_cap w) [] (w_closed w) (w_received w ++ [l]))
          else None
      | [], _ => None
      end
  | _, _ => None
  end.

(** [select { case changes <- l: default: }] on a channel of capacity one. *)
Definition notify {A} (changes : list A) (l : A) : list A :=
  if (length changes <? 1)%nat then changes ++ [l] else changes.

(** ** StaticDiscovery *)

Record StaticDiscovery : Type := mkStatic {
  sd_replicas : list ReplicaInfo;
  sd_changes : list (list ReplicaInfo);
  sd_done : bool
}.

Definition named_replicas (addresses : list string) : list ReplicaInfo :=
  imap (λ i addr, mkInfo ("replica-" +:+ Itoa (Z.of_nat i + 1)) addr true) addresses.

Definition NewStaticDiscovery (addresses : list string) : StaticDiscovery :=
  mkStatic (named_replicas addresses) [] false.

Definition Static_Discover (s : StaticDiscovery) : result (list ReplicaInfo) := Ok (sd_replicas s).

Definition Static_getCurrentReplicas (s : StaticDiscovery) : list ReplicaInfo := sd_replicas s.

Definition UpdateReplicas (addresses : list string) (s : StaticDiscovery) : StaticDiscovery :=
  mkStatic (named_replicas addresses) (notify (sd_changes s) (named_replicas addresses)) (sd_done s).

Definition Static_Close (s : StaticDiscovery) : outcome StaticDiscovery :=
  if sd_done s then Panic "close of closed channel"
  else Ret (mkStatic (sd_replicas s) (sd_changes s) true).

Definition Static_Watch : Watcher := mkWatcher WHead 1 [] false [].

(** One step; [AUpdate] carries the infos [UpdateReplicas] makes. *)
Definition static_exec (a : action) (s : StaticDiscovery) (w : Watcher)
    : option (outcome (StaticDiscovery * Watcher)) :=
  match a, w_at w with
  | ARead, WHead => Some (Ret (s, set_at w (WSend (Static_getCurrentReplicas s))))
  | ACtxDone, (WSend _ | WWait) => Some (Ret (s, exit_watch w))
  | ADone, WSend _ => if sd_done s then Some (Ret (s, exit_watch w)) else None
  | AUpdate _ infos, _ =>
      Some (Ret (mkStatic infos (notify (sd_changes s) infos) (sd_done s), w))
  | AClose, _ => Some (s ← Static_Close s; Ret (s, w))
  | (ASend | ARecv), _ => w ← chan_step w a; Some (Ret (s, w))
  | _, _ => None
  end.

(** ** The caches *)

(** What each is configured with; only the DNS names are ever used. *)
Inductive backend : Type :=
| EtcdBackend (endpoints : list string)
| ConsulBackend (serviceName dataCenter : string) (endpoints : list string)
| KubernetesBackend (namespace labelKey labelValue : string)
| DNSSRVBackend (service proto name : string).

Record Cached : Type := mkCached {
  c_backend : backend;
  c_replicas : list ReplicaInfo;
  c_changes : list (list ReplicaInfo);
  c_done : bool;
  c_lastUpdate : Time;
  c_cacheTTL : Duration
}.

Definition new_cached (now : Time) (b : backend) (ttl : Duration) : Cached :=
  mkCached b [] [] false now (if ttl =? 0 then 30 * Second else ttl).

Definition NewEtcdDiscovery (now : Time) (endpoints : list string) (cacheTimeout : Duration) : Cached :=
  new_cached now (EtcdBackend endpoints) cacheTimeout.
Definition NewConsulDiscovery (now : Time) (serviceName dataCenter : string) (endpoints : list string)
    (cacheTTL : Duration) : Cached :=
  new_cached now (ConsulBackend serviceName dataCenter endpoints) cacheTTL.
Definition NewKubernetesDiscovery (now : Time) (namespace labelKey labelValue : string)
    (cacheTTL : Duration) : Cached :=
  new_cached now (KubernetesBackend namespace labelKey labelValue) cacheTTL.
Definition NewDNSSRVDiscovery (now : Time) (service proto name : string) (cacheTTL : Duration) : Cached :=
  new_cached now (DNSSRVBackend service proto name) cacheTTL.

Definition Discover (c : Cached) : result (list ReplicaInfo) := Ok (c_replicas c).

Definition getCurrentReplicas (c : Cached) : list ReplicaInfo := c_replicas c.

(** [UpdateCachedReplicas]; the DNS cache's [updateReplicas]. *)
Definition UpdateCachedReplicas (now : Time) (infos : list ReplicaInfo) (c : Cached) : Cached :=
  mkCached (c_backend c) infos (notify (c_changes c) infos) (c_done c) now (c_cacheTTL c).

Definition Close (c : Cached) : outcome Cached :=
  if c_done c then Panic "close of closed channel"
  else Ret (mkCached (c_backend c) (c_replicas c) (c_changes c) true (c_lastUpdate c) (c_cacheTTL c)).

(** The channel of [Watch] has no buffer for etcd and one place for the others. *)
Definition Watch (c : Cached) : Watcher :=
  mkWatcher WStart (match c_backend c with EtcdBackend _ => 0 | _ => 1 end) [] false [].

Definition srv_replicas (targets : list target) : list ReplicaInfo :=
  map (λ t, mkInfo (Target t) (Target t +:+ ":" +:+ Itoa (SRVPort t)) true) targets.

(** The tick's branch: only DNS looks anything up. *)
Definition refresh (now : Time) (lookup : result (list target)) (c : Cached) : Cached :=
  match c_backend c, lookup with
  | DNSSRVBackend _ _ _, Ok targets => UpdateCachedReplicas now (srv_replicas targets) c
  | _, _ => c
  end.

(** One step of a cache and its watcher, given the branch of the tick. *)
Definition loop_exec (tick : Time → result (list target) → Cached → Cached) (a : action) (c : Cached) (w : Watcher)
    : option (outcome (Cached * Watcher)) :=
  match a, w_at w with
  | ABegin, WStart =>
      Some (if c_cacheTTL c <=? 0 then Panic "non-positive interval for NewTicker"
            else Ret (c, set_at w WHead))
  | ARead, WHead => Some (Ret (c, set_at w (WSend (getCurrentReplicas c))))
  | ATick now lookup, WWait => Some (Ret (tick now lookup c, set_at w WHead))
  | ACtxDone, (WSend _ | WWait) => Some (Ret (c, exit_watch w))
  | ADone, (WSend _ | WWait) => if c_done c then Some (Ret (c, exit_watch w)) else None
  | AUpdate now infos, _ => Some (Ret (UpdateCachedReplicas now infos c, w))
  | AClose, _ => Some (c ← Close c; Ret (c, w))
  | (ASend | ARecv), _ => w ← chan_step w a; Some (Ret (c, w))
  | _, _ => None
  end.

Definition cached_exec : action → Cached → Watcher → option (outcome (Cached * Watcher)) := loop_exec refresh.

(** *** The four types

    Each is written out in full in the source; they differ in what they are
    configured with, in the buffer of the channel of [Watch] and in the tick's
    branch, which [backend] decides. *)

(** The channel of [Watch] has no buffer; nothing is looked up. *)
Module Etcd.
Definition is_etcd (c : Cached) : bool := match c_backend c with EtcdBackend _ => true | _ => false end.
Definition Discover (c : Cached) : result (list ReplicaInfo) := Discover c.
Definition getCurrentReplicas (c : Cached) : list ReplicaInfo := getCurrentReplicas c.
Definition UpdateCachedReplicas (now : Time) (infos : list ReplicaInfo) (c : Cached) : Cached :=
  UpdateCachedReplicas now infos c.
Definition Close (c : Cached) : outcome Cached := Close c.
Definition Watch (c : Cached) : Watcher := mkWatcher WStart 0 [] false [].
Definition tick (now : Time) (lookup : result (list target)) (c : Cached) : Cached := c.
Definition watch_exec : action → Cached → Watcher → option (outcome (Cached * Watcher)) := loop_exec tick.
Lemma etcd_is (c : Cached) :
  is_etcd c = true → Watch c = WvDiscovery.Watch c ∧ ∀ a w, watch_exec a c w = cached_exec a c w.
Proof.
  unfold is_etcd, Watch, WvDiscovery.Watch, watch_exec, cached_exec, loop_exec, tick, refresh. destruct (c_backend c); try done;
    intros _; (split; [done|intros a w; destruct a, (w_at w); try done; by destruct lookup]).
Qed.
End Etcd.

(** The channel of [Watch] has one place; nothing is looked up. *)
Module Consul.
Definition is_consul (c : Cached) : bool := match c_backend c with ConsulBackend _ _ _ => true | _ => false end.
Definition Discover (c : Cached) : result (list ReplicaInfo) := Discover c.
Definition getCurrentReplicas (c : Cached) : list ReplicaInfo := getCurrentReplicas c.
Definition UpdateCachedReplicas (now : Time) (infos : list ReplicaInfo) (c : Cached) : Cached :=
  UpdateCachedReplicas now infos c.
Definition Close (c : Cached) : outcome Cached := Close c.
Definition Watch (c : Cached) : Watcher := mkWatcher WStart 1 [] false [].
Definition tick (now : Time) (lookup : result (list target)) (c : Cached) : Cached := c.
Definition watch_exec : action → Cached → Watcher → option (outcome (Cached * Watcher)) := loop_exec tick.
Lemma consul_is (c : Cached) :
  is_consul c = true → Watch c = WvDiscovery.Watch c ∧ ∀ a w, watch_exec a c w = cached_exec a c w.
Proof.
  unfold is_consul, Watch, WvDiscovery.Watch, watch_exec, cached_exec, loop_exec, tick, refresh. destruct (c_backend c); try done;
    intros _; (split; [done|intros a w; destruct a, (w_at w); try done; by destruct lookup]).
Qed.
End Consul.

(** The channel of [Watch] has one place; nothing is looked up. *)
Module Kubernetes.
Definition is_kubernetes (c : Cached) : bool := match c_backend c with KubernetesBackend _ _ _ => true | _ => false end.
Definition Discover (c : Cached) : result (list ReplicaInfo) := Discover c.
Definition getCurrentReplicas (c : Cached) : list ReplicaInfo := getCurrentReplicas c.
Definition UpdateCachedReplicas (now : Time) (infos : list ReplicaInfo) (c : Cached) : Cached :=
  UpdateCachedReplicas now infos c.
Definition Close (c : Cached) : outcome Cached := Close c.
Definition Watch (c : Cached) : Watcher := mkWatcher WStart 1 [] false [].
Definition tick (now : Time) (lookup : result (list target)) (c : Cached) : Cached := c.
Definition watch_exec : action → Cached → Watcher → option (outcome (Cached * Watcher)) := loop_exec tick.
Lemma kubernetes_is (c : Cached) :
  is_kubernetes c = true → Watch c = WvDiscovery.Watch c ∧ ∀ a w, watch_exec a c w = cached_exec a c w.
Proof.
  unfold is_kubernetes, Watch, WvDiscovery.Watch, watch_exec, cached_exec, loop_exec, tick, refresh. destruct (c_backend c); try done;
    intros _; (split; [done|intros a w; destruct a, (w_at w); try done; by destruct lookup]).
Qed.
End Kubernetes.

(** The channel of [Watch] has one place; a lookup that fails keeps the cache. *)
Module DNSSRV.
Definition is_dnssrv (c : Cached) : bool := match c_backend c with DNSSRVBackend _ _ _ => true | _ => false end.
Definition Discover (c : Cached) : result (list ReplicaInfo) := Discover c.
Definition getCurrentReplicas (c : Cached) : list ReplicaInfo := getCurrentReplicas c.
Definition updateReplicas (now : Time) (infos : list ReplicaInfo) (c : Cached) : Cached :=
  UpdateCachedReplicas now infos c.
Definition Close (c : Cached) : outcome Cached := Close c.
Definition Watch (c : Cached) : Watcher := mkWatcher WStart 1 [] false [].
Definition tick (now : Time) (lookup : result (list target)) (c : Cached) : Cached :=
  match lookup with Ok targets => updateReplicas now (srv_replicas targets) c | Err _ => c end.
Definition watch_exec : action → Cached → Watcher → option (outcome (Cached * Watcher)) := loop_exec tick.
Lemma dnssrv_is (c : Cached) :
  is_dnssrv c = true → Watch c = WvDiscovery.Watch c ∧ ∀ a w, watch_exec a c w = cached_exec a c w.
Proof.
  unfold is_dnssrv, Watch, WvDiscovery.Watch, watch_exec, cached_exec, loop_exec, tick, refresh. destruct (c_backend c); try done;
    intros _; (split; [done|intros a w; destruct a, (w_at w); try done; by destruct lookup]).
Qed.
End DNSSRV.

(** ** Lemmas: lists in flight *)

(** What a watcher has read and not lost: received, buffered, and being sent. *)
Definition flight (w : Watcher) : list (list ReplicaInfo) :=
  w_received w ++ w_buf w ++ match w_at w with WSend l => [l] | _ => [] end.

Lemma chan_step_flight w a w' : chan_step w a = Some w' → flight w' = flight w.
Proof.
  unfold chan_step, flight. destruct w as [at_ cap buf cl rc]; cbn.
  destruct a; try done; destruct at_; try done; intros H;
    repeat (case_match; simplify_eq/=; try done); rewrite ?app_nil_r, <- ?app_assoc; done.
Qed.

Lemma exit_flight w : ∃ rest, flight w = flight (exit_watch w) ++ rest.
Proof.
  exists (match w_at w with WSend l => [l] | _ => [] end). unfold flight. cbn.
  by rewrite app_nil_r, app_assoc.
Qed.

(** [l] replays values of the history [hist], in its order. *)
Definition replays {A} (hist l : list A) : Prop :=
  ∃ ix, StronglySorted le ix ∧ Forall2 (λ (i : nat) x, hist !! i = Some x) ix l.

Lemma replays_nil {A} (hist : list A) : replays hist [].
Proof. exists []. split; constructor. Qed.

Lemma replays_more {A} (hist more l : list A) : replays hist l → replays (hist ++ more) l.
Proof.
  intros (ix & Hs & Hl). exists ix. split; [done|]. eapply Forall2_impl; [exact Hl|].
  intros i x Hx. by apply lookup_app_l_Some.
Qed.

Lemma replays_prefix {A} (hist l1 l2 : list A) : replays hist (l1 ++ l2) → replays hist l1.
Proof.
  intros (ix & Hs & Hl). apply Forall2_app_inv_r in Hl as (ix1 & ix2 & H1 & _ & ->).
  exists ix1. split; [|done]. by eapply StronglySorted_app_1_l.
Qed.

(** The newest value can always come next. *)
Lemma replays_last {A} (hist l : list A) x :
  last hist = Some x → replays hist l → replays hist (l ++ [x]).
Proof.
  intros Hx (ix & Hs & Hl). rewrite last_lookup in Hx. exists (ix ++ [Nat.pred (length hist)]). split.
  - apply StronglySorted_app_2; [|done|repeat constructor].
    intros i j Hi ->%list_elem_of_singleton.
    apply list_elem_of_lookup in Hi as [k Hk]. eapply Forall2_lookup_l in Hl as (y & _ & Hy); [|done].
    apply lookup_lt_Some in Hy. lia.
  - apply Forall2_app; [done|]. by repeat constructor.
Qed.

(** A step of the machine keeps what is in flight, loses its end, or adds the
    service's current list. *)
Lemma cached_exec_flight a c w c' w' :
  cached_exec a c w = Some (Ret (c', w')) →
  (∃ rest, flight w = flight w' ++ rest) ∨ flight w' = flight w ++ [c_replicas c].
Proof.
  assert (∀ x : list (list ReplicaInfo), ∃ rest, x = x ++ rest) as Hrefl
    by (intros x; exists []; by rewrite app_nil_r).
  unfold cached_exec, loop_exec. destruct a; cbv beta iota.
  4: { destruct (chan_step w ARecv) eqn:E; [|done]. intros [= <- <-].
       left. rewrite (chan_step_flight _ _ _ E). apply Hrefl. }
  3: { destruct (chan_step w ASend) eqn:E; [|done]. intros [= <- <-].
       left. rewrite (chan_step_flight _ _ _ E). apply Hrefl. }
  - destruct (w_at w) eqn:E; try done. destruct (c_cacheTTL c <=? 0); [done|]. intros [= <- <-].
    left. unfold flight; cbn. rewrite E. apply Hrefl.
  - destruct (w_at w) eqn:E; try done. intros [= <- <-].
    right. unfold flight; cbn. by rewrite E, app_nil_r, app_assoc.
  - destruct (w_at w) eqn:E; try done. intros [= <- <-].
    left. unfold flight; cbn. rewrite E. apply Hrefl.
  - destruct (w_at w) eqn:E; try done; intros [= <- <-]; left; apply exit_flight.
  - destruct (w_at w) eqn:E; try done; destruct (c_done c); try done; intros [= <- <-];
      left; apply exit_flight.
  - intros [= <- <-]. left. apply Hrefl.
  - unfold Close. destruct (c_done c); [done|]. intros [= <- <-]. left. apply Hrefl.
Qed.

(** ** A gateway over a discovery cache

    The gateway's watch goroutine takes a list from the channel and replaces its
    replicas; requests are routed in between. *)

Section System.
Context {L : Type} `{LoadBalancer L}.

Record Sys : Type := mkSys {
  s_disc : Cached;
  s_watch : Watcher;
  s_store : store;
  s_gw : Gateway L
}.

Inductive sys_action : Type :=
| Disc (a : action)
| Request (c : clock) (ctx : Context) (who : option string) (req : Request).

(** The gateway takes the lists its goroutine has just received: the receipt, the new
    list of replicas and the rebalancing of a change are one step (in the code a
    request may fall between them, and still sees the former list). *)
Definition take_changes (new : list (list ReplicaInfo)) (sg : store * Gateway L) : store * Gateway L :=
  fold_left (λ sg infos, watch_change sg.1 infos sg.2) new sg.

Definition sys_exec (a : sys_action) (x : Sys) : option (outcome Sys) :=
  match a with
  | Disc a =>
      match cached_exec a (s_disc x) (s_watch x) with
      | None => None
      | Some (Panic e) => Some (Panic e)
      | Some (Ret (d, w)) =>
          let new := drop (length (w_received (s_watch x))) (w_received w) in
          let '(s, gw) := take_changes new (s_store x, s_gw x) in
          Some (Ret (mkSys d w s gw))
      end
  | Request c ctx who req =>
      let '(s, gw, _) := RouteRequest c ctx who req (s_store x) (s_gw x) in
      Some (Ret (mkSys (s_disc x) (s_watch x) s gw))
  end.

(** A run, with the lists the service had, step by step. *)
Fixpoint sys_run (acts : list sys_action) (x : Sys) (hist : list (list ReplicaInfo))
    : option (outcome (Sys * list (list ReplicaInfo))) :=
  match acts with
  | [] => Some (Ret (x, hist))
  | a :: acts =>
      match sys_exec a x with
      | Some (Ret x') => sys_run acts x' (hist ++ [c_replicas (s_disc x')])
      | Some (Panic e) => Some (Panic e)
      | None => None
      end
  end.

(** The gateway's replicas are those of the list, in its order. *)
Definition mirrors (s : store) (gw : Gateway L) (l : list ReplicaInfo) : Prop :=
  Forall2 (λ p i, ∃ r, (s : gmap nat Replica) !! p = Some r ∧
                       Name r = ri_Name i ∧ Address r = ri_Address i ∧ Healthy r = ri_Healthy i)
    (gw_replicas gw) l.

Lemma alloc_mirrors s infos gw :
  mirrors (alloc_replicas s infos).1 (SetReplicas (alloc_replicas s infos).2 gw) infos.
Proof.
  pose proof (alloc_replicas_spec s infos) as Hs. destruct (alloc_replicas s infos) as [s' ls].
  destruct Hs as (_ & _ & _ & _ & Hall). unfold mirrors; cbn.
  eapply Forall2_impl; [exact Hall|]. intros p i Hp. by exists (replica_of i).
Qed.

Lemma watch_change_mirrors s infos gw :
  mirrors (watch_change s infos gw).1 (watch_change s infos gw).2 infos.
Proof.
  pose proof (alloc_mirrors s infos gw) as Hm. unfold watch_change.
  destruct (alloc_replicas s infos) as [s' ls]. cbn in *. by destruct (gw_lb gw).
Qed.

Lemma RouteRequest_mirrors c ctx who req s gw l :
  mirrors s gw l →
  mirrors (RouteRequest c ctx who req s gw).1.1 (RouteRequest c ctx who req s gw).1.2 l.
Proof.
  intros Hm. unfold RouteRequest. destruct (ctx_Err ctx); [done|].
  destruct (length (gw_replicas gw) =? 0)%nat; [done|]. destruct (_ <? c_check c); [done|].
  destruct (gw_lb gw) as [b|]; [|done]. unfold route_attempt.
  destruct (lb_Select b s who (gw_replicas gw)) as [b' [[p|e]|e]]; [|done..].
  destruct ((s : gmap nat Replica) !! p) as [x|] eqn:Ex; [|done]. cbn.
  eapply Forall2_impl; [exact Hm|]. intros q i (r & Hr & Hn & Ha).
  destruct (decide (q = p)) as [->|].
  - eexists. rewrite lookup_insert_eq. split; [done|]. simplify_eq. done.
  - exists r. by rewrite lookup_insert_ne.
Qed.

(** What the steps keep. *)
Definition follows (l0 : list ReplicaInfo) (hist : list (list ReplicaInfo)) (x : Sys) : Prop :=
  last hist = Some (c_replicas (s_disc x)) ∧
  replays hist (l0 :: flight (s_watch x)) ∧
  ∃ l, last (l0 :: w_received (s_watch x)) = Some l ∧ mirrors (s_store x) (s_gw x) l.

(** At most one list is received at a step. *)
Lemma cached_exec_received a c w c' w' :
  cached_exec a c w = Some (Ret (c', w')) →
  w_received w' = w_received w ∨ ∃ l, w_received w' = w_received w ++ [l].
Proof.
  unfold cached_exec, loop_exec, chan_step. destruct w as [at_ cap buf cl rc]; cbn.
  destruct a; cbn; unfold mbind, outcome_bind, option_bind, exit_watch, set_at;
    intros Hx; repeat (case_match; simplify_eq/=; try done); simplify_eq/=; eauto.
Qed.

Lemma take_last l0 rc new sg l :
  last (l0 :: rc) = Some l → mirrors sg.1 sg.2 l → (new = [] ∨ ∃ l', new = [l']) →
  ∃ l', last (l0 :: rc ++ new) = Some l' ∧ mirrors (take_changes new sg).1 (take_changes new sg).2 l'.
Proof.
  intros Hl Hm [->|[l' ->]].
  - exists l. by rewrite app_nil_r.
  - exists l'. rewrite app_comm_cons, last_snoc. split; [done|]. apply watch_change_mirrors.
Qed.

Lemma sys_exec_follows a x x' l0 hist :
  follows l0 hist x → sys_exec a x = Some (Ret x') → follows l0 (hist ++ [c_replicas (s_disc x')]) x'.
Proof.
  intros (Hlast & Hrep & l & Hl & Hm). destruct a as [a|c ctx who req]; cbn [sys_exec].
  - destruct (cached_exec a (s_disc x) (s_watch x)) as [[[d w]|]|] eqn:E; [|done..].
    destruct (take_changes _ (s_store x, s_gw x)) as [s gw] eqn:Et. intros [= <-]. cbn.
    split; [by rewrite last_snoc|]. split.
    + apply replays_more. cbn [s_watch].
      destruct (cached_exec_flight _ _ _ _ _ E) as [[rest Hf]|Hf].
      * rewrite Hf, app_comm_cons in Hrep. by apply replays_prefix in Hrep.
      * rewrite Hf, app_comm_cons. by apply replays_last.
    + cbn [s_watch s_store s_gw].
      assert (∃ new, w_received w = w_received (s_watch x) ++ new ∧ (new = [] ∨ ∃ l', new = [l']))
        as (new & Hnew & Hone).
      { destruct (cached_exec_received _ _ _ _ _ E) as [Hr|[l' Hr]].
        - exists []. rewrite app_nil_r. eauto.
        - exists [l']. eauto. }
      rewrite Hnew, drop_app_length in Et.
      destruct (take_last l0 (w_received (s_watch x)) new (s_store x, s_gw x) l Hl Hm Hone) as (l' & H1 & H2).
      rewrite Et in H2. exists l'. by rewrite Hnew.
  - pose proof (RouteRequest_mirrors c ctx who req (s_store x) (s_gw x) l Hm) as Hm'.
    destruct (RouteRequest c ctx who req (s_store x) (s_gw x)) as [[s gw] out]. intros [= <-]. cbn in *.
    split; [by rewrite last_snoc|]. split; [by apply replays_more|]. by exists l.
Qed.

(** C10 A gateway over a discovery cache follows it: whatever updates, lookups,
    ticks, cancellations and requests happen in whatever order, the gateway's
    replicas are exactly those (name, address and health) of one list the service held at some time (the
    last one its watch received, or the one [Start] discovered), and the lists
    the gateway adopts come in the order in which the service held them: it never
    returns to an older list than one it has had. *)
Theorem gateway_follows_discovery (d : Cached) (s0 s1 : store) (gw0 gw1 : Gateway L)
    (calls : list call) (acts : list sys_action) (x : Sys) (hist : list (list ReplicaInfo))
    (Hstart : Start s0 (Discover d) gw0 = (s1, gw1, calls, None))
    (Hrun : sys_run acts (mkSys d (Watch d) s1 gw1) [c_replicas d] = Some (Ret (x, hist))) :
  last hist = Some (c_replicas (s_disc x)) ∧
  replays hist (c_replicas d :: w_received (s_watch x)) ∧
  ∃ l, last (c_replicas d :: w_received (s_watch x)) = Some l ∧ mirrors (s_store x) (s_gw x) l.
Proof.
  assert (follows (c_replicas d) [c_replicas d] (mkSys d (Watch d) s1 gw1)) as H0.
  { split; [done|]. split.
    - exists [0%nat]. split; [repeat constructor|]. unfold flight; cbn. by repeat constructor.
    - exists (c_replicas d). split; [done|]. unfold Start, Discover in Hstart.
      destruct (gw_discovery gw0); [|done]. cbn in Hstart.
      pose proof (alloc_mirrors s0 (c_replicas d) gw0) as Hm.
      destruct (alloc_replicas s0 (c_replicas d)) as [s' ls]. by simplify_eq. }
  revert Hrun H0. generalize (mkSys d (Watch d) s1 gw1), [c_replicas d] at 1 2. clear Hstart.
  induction acts as [|a acts IH]; intros y h Hrun Hf; cbn [sys_run] in Hrun.
  - simplify_eq. destruct Hf as (Hl & Hr & Hm). split; [done|]. split; [|done].
    unfold flight in Hr. rewrite app_comm_cons in Hr. by apply replays_prefix in Hr.
  - destruct (sys_exec a y) as [[y'|]|] eqn:E; [|done..].
    apply (IH y' _ Hrun). by apply (sys_exec_follows a y).
Qed.

End System.

Definition demo_dns : Cached := NewDNSSRVDiscovery 0 "http" "tcp" "weaver.local" 0.
Definition demo_start : store * Gateway RoundRobin * list call * option error :=
  Start ∅ (Discover demo_dns) demo_gw.
Definition demo_sys : Sys := mkSys demo_dns (Watch demo_dns) demo_start.1.1.1 demo_start.1.1.2.

Definition demo_request : sys_action := Request demo_clock demo_ctx None demo_req.
Definition demo_acts : list sys_action :=
  [Disc ABegin; Disc ARead; Disc ASend; Disc ARecv; demo_request;
   Disc (ATick 40 (Ok [mkTarget "r1" 80; mkTarget "r2" 81])); Disc ARead; Disc ASend; Disc ARecv;
   demo_request].

Lemma gateway_follows_discovery_witness :
  ∃ x hist, sys_run demo_acts demo_sys [c_replicas demo_dns] = Some (Ret (x, hist)) ∧
    last hist = Some (c_replicas (s_disc x)) ∧
    replays hist (c_replicas demo_dns :: w_received (s_watch x)) ∧
    ∃ l, last (c_replicas demo_dns :: w_received (s_watch x)) = Some l ∧ mirrors (s_store x) (s_gw x) l.
Proof.
  destruct (sys_run demo_acts demo_sys [c_replicas demo_dns]) as [[[x hist]|e]|] eqn:E.
  - exists x, hist. split; [reflexivity|].
    exact (gateway_follows_discovery demo_dns ∅ demo_start.1.1.1 demo_gw demo_start.1.1.2 [CallWatch]
             demo_acts x hist eq_refl E).
  - exfalso. vm_compute in E. discriminate.
  - exfalso. vm_compute in E. discriminate.
Defined.

(** ** The static list *)

Fixpoint static_run (acts : list action) (s : StaticDiscovery) (w : Watcher)
    : option (outcome (StaticDiscovery * Watcher)) :=
  match acts with
  | [] => Some (Ret (s, w))
  | a :: acts =>
      match static_exec a s w with
      | Some (Ret (s', w')) => static_run acts s' w'
      | Some (Panic e) => Some (Panic e)
      | None => None
      end
  end.

Lemma static_exec_waiting a s w s' w' :
  w_at w = WWait ∨ w_at w = WExited → static_exec a s w = Some (Ret (s', w')) →
  (w_at w' = WWait ∨ w_at w' = WExited) ∧ flight w' = flight w ∧
  (a ≠ ACtxDone → w_at w' = w_at w).
Proof.
  unfold static_exec, chan_step, flight. destruct w as [at_ cap buf cl rc]; cbn.
  intros [->| ->]; destruct a; cbn; unfold mbind, outcome_bind, option_bind; intros Hx;
    repeat (case_match; simplify_eq/=; try done); simplify_eq/=;
    split_and!; auto; try done; by rewrite ?app_nil_r, <- ?app_assoc.
Qed.

(** A watch of the static list ends with the list it first sent: whatever
    happens after that (updates of the list, [Close], reads of the channel), no
    further list is ever sent, so no watcher hears of [UpdateReplicas]; and the
    goroutine goes on waiting unless the context is done, [Close] included. *)
Theorem static_watch_once (acts : list action) (s s' : StaticDiscovery) (w w' : Watcher)
    (Hw : w_at w = WWait) (Hrun : static_run acts s w = Some (Ret (s', w'))) :
  w_received w' ++ w_buf w' = w_received w ++ w_buf w ∧
  (ACtxDone ∉ acts → w_at w' = WWait).
Proof.
  assert (∀ acts s w, w_at w = WWait ∨ w_at w = WExited → static_run acts s w = Some (Ret (s', w')) →
    (w_at w' = WWait ∨ w_at w' = WExited) ∧ flight w' = flight w ∧
    (ACtxDone ∉ acts → w_at w' = w_at w)) as Hall.
  { clear. intros acts. induction acts as [|a acts IH]; intros s w Hw Hrun; cbn [static_run] in Hrun.
    - simplify_eq. split; [done|]. split; [done|]. done.
    - destruct (static_exec a s w) as [[[s1 w1]|]|] eqn:E; [|done..].
      destruct (static_exec_waiting _ _ _ _ _ Hw E) as (H1 & H2 & H3).
      destruct (IH s1 w1 H1 Hrun) as (H4 & H5 & H6). split; [done|]. split; [congruence|].
      intros [Ha Hacts]%not_elem_of_cons. rewrite H6 by done. by apply H3. }
  destruct (Hall acts s w) as (Hat & Hf & Hctx); [by left|done|].
  unfold flight in Hf. rewrite Hw in Hf, Hctx.
  destruct Hat as [Hat|Hat]; rewrite Hat, !app_nil_r in Hf; split; done || auto.
Qed.

Lemma static_watch_once_witness :
  ∃ s' w',
    static_run [AUpdate 9 (named_replicas ["x:1"]); ARecv; AClose]
      (NewStaticDiscovery ["a:1"; "b:2"])
      (mkWatcher WWait 1 [named_replicas ["a:1"; "b:2"]] false []) = Some (Ret (s', w')) ∧
    w_received w' ++ w_buf w' = [] ++ [named_replicas ["a:1"; "b:2"]] ∧
    (ACtxDone ∉ [AUpdate 9 (named_replicas ["x:1"]); ARecv; AClose] → w_at w' = WWait).
Proof.
  eexists _, _. split; [vm_compute; reflexivity|].
  apply (static_watch_once [AUpdate 9 (named_replicas ["x:1"]); ARecv; AClose]
           (NewStaticDiscovery ["a:1"; "b:2"]) (mkStatic (named_replicas ["x:1"]) [named_replicas ["x:1"]] true)
           (mkWatcher WWait 1 [named_replicas ["a:1"; "b:2"]] false [])); vm_compute; reflexivity.
Defined.

(** The state of [static_watch_once] is the one a fresh watch reaches. *)
Example static_watch_sends :
  static_run [ARead; ASend] (NewStaticDiscovery ["a:1"; "b:2"]) Static_Watch =
  Some (Ret (NewStaticDiscovery ["a:1"; "b:2"],
             mkWatcher WWait 1 [named_replicas ["a:1"; "b:2"]] false [])).
Proof. vm_compute. reflexivity. Qed.
