(* ===== verification/WvAuth.v ===== *)
(** * Weaver: authentication and roles

    [src/src/Weaver/pkg/auth/]: the four ways to authenticate a client (auth.go)
    and the role-based access control (rbac.go).  The clock, the JSON parser, the
    PEM parser and the rendering of a certificate's subject are arguments.  The
    permission slices of the roles alias (a role keeps the slice it was defined
    with), so they live in a store of arrays. *)

From S2P Require Import Prelude.

Inductive AuthMethod : Type :=
| Bearer
| JWT
| APIKey
| MTLS.

Definition AuthMethod_string (m : AuthMethod) : string :=
  match m with Bearer => "bearer" | JWT => "jwt" | APIKey => "apikey" | MTLS => "mtls" end.

Record AuthenticatedUser : Type := mkUser {
  ID : string;
  Name : string;
  Role : string;
  Scopes : list string
}.

(** ** BearerTokenAuth *)

Record BearerTokenAuth : Type := mkBearer { validTokens : gmap string AuthenticatedUser }.

Definition NewBearerTokenAuth : BearerTokenAuth := mkBearer ∅.

Definition RegisterToken (token : string) (user : AuthenticatedUser) (b : BearerTokenAuth) : BearerTokenAuth :=
  mkBearer (<[token := user]> (validTokens b)).

Definition bearer_prefix : string := "Bearer ".

Definition Bearer_Authenticate (b : BearerTokenAuth) (authHeader : string) : result AuthenticatedUser :=
  if negb (HasPrefix authHeader bearer_prefix) then Err (Errorf "invalid bearer token format")
  else
    let token := TrimPrefix authHeader bearer_prefix in
    match validTokens b !! token with
    | None => Err (Errorf "invalid or expired token")
    | Some user => Ok user
    end.

(** ** JWTAuth *)

Record JWTClaims : Type := mkClaims {
  UserID : string;
  c_Name : string;
  c_Role : string;
  c_Scopes : list string;
  Exp : Z
}.

Record JWTAuth : Type := mkJWT { publicKey : string }.

Definition NewJWTAuth (publicKeyPEM : string) : JWTAuth := mkJWT publicKeyPEM.

(** [time.Unix(sec, 0)]: the seconds are kept since year 1, in an int64. *)
Definition unixToInternal : Z := 62135596800.
Definition time_Unix (sec : Z) : Time := (sec +64 unixToInternal) * Second.

Definition dot : Ascii.ascii := Ascii.Ascii false true true true false true false false.

Section JWT.
(** [json.Unmarshal] into the claims. *)
Context (json_Unmarshal : string → result JWTClaims).

Definition JWT_Authenticate (j : JWTAuth) (now : Time) (tokenString : string) : result AuthenticatedUser :=
  if bool_decide (tokenString = "") then Err (Errorf "empty token")
  else
    match Split tokenString dot with
    | [_; payload; _] =>
        match json_Unmarshal payload with
        | Err err => Err (Wrapf "failed to parse JWT claims: " err "")
        | Ok claims =>
            if time_Unix (Exp claims) <? now then Err (Errorf "token expired")
            else Ok (mkUser (UserID claims) (c_Name claims) (c_Role claims) (c_Scopes claims))
        end
    | _ => Err (Errorf "invalid JWT format")
    end.
End JWT.

(** ** APIKeyAuth *)

Record APIKeyAuth : Type := mkAPIKey { validKeys : gmap string AuthenticatedUser }.

Definition NewAPIKeyAuth : APIKeyAuth := mkAPIKey ∅.

Definition RegisterKey (key : string) (user : AuthenticatedUser) (a : APIKeyAuth) : APIKeyAuth :=
  mkAPIKey (<[key := user]> (validKeys a)).

Definition APIKey_Authenticate (a : APIKeyAuth) (apiKey : string) : result AuthenticatedUser :=
  if bool_decide (apiKey = "") then Err (Errorf "empty API key")
  else
    match validKeys a !! apiKey with
    | None => Err (Errorf "invalid API key")
    | Some user => Ok user
    end.

(** ** MTLSAuth *)

(** A certificate pool is what was parsed; a TLS certificate by the number of
    its raw certificates and the subject of its parsed leaf. *)
Record MTLSAuth (P : Type) : Type := mkMTLS { clientCAs : P }.
Arguments mkMTLS {P} clientCAs.

Record Certificate : Type := mkCert { raw : nat; Leaf : option string }.

Definition NewMTLSAuth {P} (appendCertsFromPEM : string → option P) (clientCACert : string)
    : result (MTLSAuth P) :=
  match appendCertsFromPEM clientCACert with
  | None => Err (Errorf "failed to parse client CA certificate")
  | Some pool => Ok (mkMTLS pool)
  end.

Definition MTLS_Authenticate {P} (m : MTLSAuth P) (clientCert : option Certificate)
    : result AuthenticatedUser :=
  match clientCert with
  | None => Err (Errorf "client certificate required")
  | Some c =>
      if (raw c =? 0)%nat then Err (Errorf "client certificate empty")
      else
        let subject := match Leaf c with Some s => s | None => "client" end in
        Ok (mkUser subject subject "default" [])
  end.

(** ** RBAC *)

(** Arrays of strings, and roles that point to them. *)
Definition arrays : Type := gmap nat (list string).

Record RBAC : Type := mkRBAC { roles : gmap string nat }.

Definition NewRBAC : RBAC := mkRBAC ∅.

Definition DefineRole (role : string) (permissions : nat) (r : RBAC) : RBAC :=
  mkRBAC (<[role := permissions]> (roles r)).

Definition read_array (h : arrays) (p : nat) : list string := default [] ((h : gmap nat (list string)) !! p).

(** A user may be nil. *)
Definition Authorize (h : arrays) (r : RBAC) (user : option AuthenticatedUser) (action : string) : bool :=
  match user with
  | None => false
  | Some user =>
      match roles r !! Role user with
      | None => false
      | Some permissions =>
          existsb (λ perm, bool_decide (perm = action) || bool_decide (perm = "*")) (read_array h permissions)
      end
  end.

Definition AuthorizeScope (user : option AuthenticatedUser) (scope : string) : bool :=
  match user with
  | None => false
  | Some user =>
      existsb (λ userScope, bool_decide (userScope = scope) || bool_decide (userScope = "*")) (Scopes user)
  end.

(** A fresh array with a copy. *)
Definition GetPermissions (h : arrays) (r : RBAC) (role : string) : arrays * result nat :=
  match roles r !! role with
  | None => (h, Err (Errorf ("role " +:+ role +:+ " not found")))
  | Some p =>
      let q := fresh (dom (h : gmap nat (list string)) ∪ map_img (roles r)) in
      (<[q := read_array h p]> (h : gmap nat (list string)), Ok q)
  end.

(** A client's write through a slice it holds: [s[i] = v]. *)
Definition write_array (h : arrays) (p : nat) (i : nat) (v : string) : arrays :=
  <[p := <[i := v]> (read_array h p)]> (h : gmap nat (list string)).

(** ** Lemmas: strings *)

Fixpoint dot_free (s : string) : Prop :=
  match s with EmptyString => True | String a s => a ≠ dot ∧ dot_free s end.

Lemma Split_free s : dot_free s → Split s dot = [s].
Proof.
  induction s as [|a s IH]; [done|]. intros [Ha Hs]. simpl. by rewrite decide_False, IH.
Qed.

Lemma Split_app p s : dot_free p → Split (p +:+ String dot s) dot = p :: Split s dot.
Proof.
  induction p as [|a p IH].
  - intros _. change ("" +:+ String dot s) with (String dot s). cbn [Split]. by rewrite decide_True.
  - intros [Ha Hp]. change (String a p +:+ String dot s) with (String a (p +:+ String dot s)).
    cbn [Split]. by rewrite decide_False, IH.
Qed.

(** [Split] is undone by joining with the separator. *)
Fixpoint join (parts : list string) : string :=
  match parts with
  | [] => ""
  | [p] => p
  | p :: parts => p +:+ String dot (join parts)
  end.

Lemma join_Split s : Split s dot ≠ [] ∧ join (Split s dot) = s ∧ Forall dot_free (Split s dot).
Proof.
  induction s as [|a s (Hne & Hj & Hf)]; simpl; [by repeat constructor|].
  destruct (decide (a = dot)) as [->|Ha].
  - split; [done|]. split; [|by constructor]. destruct (Split s dot); [done|]. simpl in *. by rewrite Hj.
  - destruct (Split s dot) as [|p parts]; [done|]. apply Forall_cons in Hf as [Hp Hps].
    split; [done|]. split.
    + rewrite <- Hj. by destruct parts.
    + by constructor; [split|].
Qed.

Lemma Split_three s h p g :
  Split s dot = [h; p; g] ↔
  s = h +:+ String dot (p +:+ String dot g) ∧ dot_free h ∧ dot_free p ∧ dot_free g.
Proof.
  split.
  - intros Hs. destruct (join_Split s) as (_ & Hj & Hf). rewrite Hs in Hj, Hf. simpl in Hj.
    split; [done|]. by inversion Hf as [|? ? ? Hf1]; inversion Hf1 as [|? ? ? Hf2]; inversion Hf2.
  - intros (-> & Hh & Hp & Hg). by rewrite !Split_app, Split_free.
Qed.

(** ** Theorems *)

(** The tokens registered one after the other. *)
Definition registered (regs : list (string * AuthenticatedUser)) : BearerTokenAuth :=
  fold_left (λ b tu, RegisterToken tu.1 tu.2 b) regs NewBearerTokenAuth.

Lemma registered_lookup regs t :
  validTokens (registered regs) !! t = (list_to_map (rev regs) : gmap string AuthenticatedUser) !! t.
Proof.
  unfold registered. induction regs as [|[t' u] regs IH] using rev_ind; [done|].
  rewrite fold_left_app, rev_app_distr. simpl.
  destruct (decide (t' = t)) as [->|]; [by rewrite !lookup_insert_eq|by rewrite !lookup_insert_ne].
Qed.

(** C33 Bearer tokens round trip: after any registrations, a header is accepted
    exactly when it is "Bearer " followed by a registered token, and the user is
    the one the token was last registered with; every other header is refused
    with an error that says whether its form or its token is wrong. *)
Theorem bearer_roundtrip (regs : list (string * AuthenticatedUser)) (header : string) :
  match Bearer_Authenticate (registered regs) header with
  | Ok u => ∃ t, header = bearer_prefix +:+ t ∧
                 (list_to_map (rev regs) : gmap string AuthenticatedUser) !! t = Some u
  | Err e =>
      (∀ t, header ≠ bearer_prefix +:+ t) ∧ e = Errorf "invalid bearer token format" ∨
      ∃ t, header = bearer_prefix +:+ t ∧ t ∉ regs.*1 ∧ e = Errorf "invalid or expired token"
  end ∧
  ∀ t u, Bearer_Authenticate (RegisterToken t u (registered regs)) (bearer_prefix +:+ t) = Ok u.
Proof.
  split.
  - unfold Bearer_Authenticate. destruct (HasPrefix header bearer_prefix) eqn:E; cbn [negb].
    + apply HasPrefix_iff in E as [t ->]. rewrite TrimPrefix_app, registered_lookup.
      destruct ((list_to_map (rev regs) : gmap string AuthenticatedUser) !! t) as [u|] eqn:Ht; [by exists t|].
      right. exists t. split; [done|]. split; [|done].
      apply not_elem_of_list_to_map in Ht. intros Hin. apply Ht. apply list_elem_of_fmap in Hin as (x & -> & Hx).
      apply list_elem_of_fmap_2, list_elem_of_In. rewrite <- in_rev. by apply list_elem_of_In.
    + left. split; [|done]. intros t ->. assert (HasPrefix (bearer_prefix +:+ t) bearer_prefix = true)
        by (apply HasPrefix_iff; eauto). congruence.
  - intros t u. unfold Bearer_Authenticate.
    rewrite (proj2 (HasPrefix_iff _ _)) by eauto. cbn [negb]. rewrite TrimPrefix_app. cbn [validTokens RegisterToken].
    by rewrite lookup_insert_eq.
Qed.

(** C34 A JWT is accepted for its middle part alone: a token is accepted exactly
    when it is three dot-free parts of which the second parses as claims (as JSON,
    undecoded) that have not expired, and the user is what those claims say.
    Neither the first and third parts nor the public key are looked at: anyone
    can write a token that is accepted. *)
Theorem jwt_unverified (unmarshal : string → result JWTClaims) (j : JWTAuth) (now : Time)
    (token : string) (u : AuthenticatedUser) :
  JWT_Authenticate unmarshal j now token = Ok u ↔
  ∃ header payload signature claims,
    token = header +:+ String dot (payload +:+ String dot signature) ∧
    dot_free header ∧ dot_free payload ∧ dot_free signature ∧
    unmarshal payload = Ok claims ∧ now ≤ time_Unix (Exp claims) ∧
    u = mkUser (UserID claims) (c_Name claims) (c_Role claims) (c_Scopes claims).
Proof.
  unfold JWT_Authenticate. split.
  - destruct (bool_decide (token = "")); [done|].
    destruct (Split token dot) as [|h [|p [|g [|? ?]]]] eqn:Es; try done.
    apply Split_three in Es as (-> & Hh & Hp & Hg).
    destruct (unmarshal p) as [claims|] eqn:Ec; [|done].
    destruct (time_Unix (Exp claims) <? now) eqn:Ee; go_bool; [done|]. intros [= <-].
    exists h, p, g, claims. by split_and!.
  - intros (h & p & g & claims & -> & Hh & Hp & Hg & Hc & He & ->).
    rewrite bool_decide_false by (by destruct h).
    rewrite (proj2 (Split_three _ h p g)) by done. rewrite Hc. by rewrite (proj2 (Z.ltb_ge _ _) He).
Qed.

(** A claim that expires too far in the future has expired: the seconds wrap. *)
Example jwt_far_future :
  time_Unix (2 ^ 63 - 1) < 0.
Proof. vm_compute. reflexivity. Qed.

Lemma existsb_perm (perms : list string) (action : string) :
  existsb (λ perm, bool_decide (perm = action) || bool_decide (perm = "*")) perms = true ↔
  action ∈ perms ∨ "*" ∈ perms.
Proof.
  rewrite existsb_exists. split.
  - intros (x & Hx & Hor). apply list_elem_of_In in Hx.
    apply orb_true_iff in Hor as [Heq|Heq]; apply bool_decide_eq_true in Heq; subst; auto.
  - intros [H|H]; apply list_elem_of_In in H; eexists; (split; [exact H|]).
    + by rewrite bool_decide_true.
    + rewrite (bool_decide_true ("*" = "*")) by done. apply orb_true_r.
Qed.

Lemma Authorize_iff h r user action :
  Authorize h r (Some user) action = true ↔
  ∃ p, roles r !! Role user = Some p ∧ (action ∈ read_array h p ∨ "*" ∈ read_array h p).
Proof.
  unfold Authorize. destruct (roles r !! Role user) as [p|] eqn:E.
  - rewrite existsb_perm. split; [intros H; by exists p|]. by intros (p' & [= <-] & H).
  - split; [done|]. by intros (p & ? & _).
Qed.

(** The roles defined one after the other, each with a slice. *)
Definition defined (defs : list (string * nat)) : RBAC :=
  fold_left (λ r rp, DefineRole rp.1 rp.2 r) defs NewRBAC.

Lemma read_write_array h p i v q :
  read_array (write_array h p i v) q = if decide (q = p) then <[i := v]> (read_array h p) else read_array h q.
Proof.
  unfold write_array, read_array at 1. destruct (decide (q = p)) as [->|].
  - by rewrite lookup_insert_eq.
  - by rewrite lookup_insert_ne.
Qed.

(** C35 Role-based access: a user is authorised for an action exactly when the
    user's role is defined and the slice it was last defined with holds the
    action or "*"; a nil user never is.  What [GetPermissions] hands out is a
    copy, so that writing to it changes no decision; the slice a role was defined
    with is not copied, and writing an action into it grants the action. *)
Theorem rbac_decides (h : arrays) (defs : list (string * nat)) (user : AuthenticatedUser) (action : string) :
  let r := defined defs in
  let granted p := action ∈ read_array h p ∨ "*" ∈ read_array h p in
  (Authorize h r (Some user) action = true ↔
   ∃ p, (list_to_map (rev defs) : gmap string nat) !! Role user = Some p ∧ granted p) ∧
  Authorize h r None action = false ∧
  (∀ role h' q, GetPermissions h r role = (h', Ok q) →
     ∃ p, roles r !! role = Some p ∧ read_array h' q = read_array h p ∧
       ∀ i v u a, Authorize (write_array h' q i v) r u a = Authorize h r u a) ∧
  ∀ p i, roles r !! Role user = Some p → (i < length (read_array h p))%nat →
    Authorize (write_array h p i action) r (Some user) action = true.
Proof.
  intros r granted.
  assert (∀ role, roles r !! role = (list_to_map (rev defs) : gmap string nat) !! role) as Hroles.
  { intros role. unfold r, defined. clear. induction defs as [|[role' p] defs IH] using rev_ind; [done|].
    rewrite fold_left_app, rev_app_distr. simpl.
    destruct (decide (role' = role)) as [->|]; [by rewrite !lookup_insert_eq|by rewrite !lookup_insert_ne]. }
  split; [|split; [done|split]].
  - rewrite Authorize_iff, Hroles. done.
  - intros role h' q. unfold GetPermissions. destruct (roles r !! role) as [p|] eqn:E; [|done].
    set (q0 := fresh _). intros [= <- <-]. exists p. split; [done|].
    pose proof (is_fresh (dom (h : gmap nat (list string)) ∪ map_img (roles r))) as Hfresh. fold q0 in Hfresh.
    apply not_elem_of_union in Hfresh as [_ Himg].
    split; [unfold read_array at 1; by rewrite lookup_insert_eq|].
    intros i v u a. unfold Authorize. destruct u as [u|]; [|done].
    destruct (roles r !! Role u) as [p'|] eqn:Ep; [|done].
    assert (p' ≠ q0) as Hne.
    { intros ->. apply Himg. apply elem_of_map_img. eauto. }
    rewrite read_write_array, decide_False by done. unfold read_array at 1.
    by rewrite lookup_insert_ne.
  - intros p i Hp Hi. apply Authorize_iff. exists p. split; [done|]. left.
    rewrite read_write_array, decide_True by done. apply list_elem_of_lookup. exists i.
    by apply list_lookup_insert_eq.
Qed.

(** A parser for the demonstration: one payload is an administrator's claims. *)
Definition demo_unmarshal (s : string) : result JWTClaims :=
  if bool_decide (s = "{admin}") then Ok (mkClaims "root" "Root" "admin" ["*"] 4102444800)
  else Err (Errorf "invalid character").

Example jwt_forged :
  JWT_Authenticate demo_unmarshal (NewJWTAuth "any key") 0 "anything.{admin}.nothing" =
  Ok (mkUser "root" "Root" "admin" ["*"]).
Proof. vm_compute. reflexivity. Qed.

Lemma rbac_decides_witness :
  let h : arrays := {[ 3%nat := ["read"; "list"] ]} in
  let r := defined [("viewer", 3%nat)] in
  Authorize h r (Some (mkUser "u" "U" "viewer" [])) "write" = false ∧
  Authorize (write_array h 3 0 "write") r (Some (mkUser "u" "U" "viewer" [])) "write" = true.
Proof.
  split; [vm_compute; reflexivity|].
  apply (rbac_decides {[ 3%nat := ["read"; "list"] ]} [("viewer", 3%nat)] (mkUser "u" "U" "viewer" []) "write");
    [vm_compute; reflexivity|vm_compute; lia].
Defined.
