(* ===== verification/WvPlugins.v ===== *)
(** * Weaver: plugins

    [src/src/Weaver/pkg/plugins/manager.go]: the manager of plugins loaded from
    shared objects, with the hooks fired around its operations
    ([PluginManager]), and the registry of built-in factories
    ([PluginRegistry]).  Opening a shared object is an argument.  A hook runs
    under the manager's lock, so it cannot change the manager; what each call of
    a hook answers is an argument too. *)

From S2P Require Import Prelude.

(** What a symbol of a shared object is: a plugin of one of the three interfaces,
    with its name, or something else. *)
Inductive symbol : Type :=
| LoadBalancerPlugin (name : string)
| DiscoveryPlugin (name : string)
| HealthCheckerPlugin (name : string)
| OtherSymbol.

(** An opened shared object: its symbols; a failed [Lookup] has an error. *)
Record Plugin : Type := mkPlugin { Lookup : string → result symbol }.

Record LoadedPlugin : Type := mkLoaded { Name : string; Module_ : Plugin }.

Definition PluginTypeLoadBalancer : string := "load_balancer".
Definition PluginTypeDiscovery : string := "discovery".
Definition PluginTypeHealthChecker : string := "health_checker".
Definition PluginTypeAuthenticator : string := "authenticator".
Definition PluginTypeRateLimiter : string := "rate_limiter".

(** ** PluginManager *)

(** A hook is known by a number: what it answers is the environment's. *)
Record PluginManager : Type := mkPM {
  loadedPlugins : gmap string LoadedPlugin;
  hooks : gmap string (list nat)
}.

Definition NewPluginManager : PluginManager := mkPM ∅ ∅.

Definition RegisterHook (event : string) (hook : nat) (pm : PluginManager) : PluginManager :=
  mkPM (loadedPlugins pm) (<[event := default [] (hooks pm !! event) ++ [hook]]> (hooks pm)).

(** What a call of a hook answers, by the hook, the event and the plugin. *)
Definition hook_env : Type := nat → string → string → option error.

(** The hooks called, in order, and the first error. *)
Fixpoint fire (env : hook_env) (event name : string) (hs : list nat) : list nat * option error :=
  match hs with
  | [] => ([], None)
  | h :: hs =>
      match env h event name with
      | Some err => ([h], Some err)
      | None => let '(called, err) := fire env event name hs in (h :: called, err)
      end
  end.

Definition fireHooks (env : hook_env) (event : string) (loaded : LoadedPlugin) (pm : PluginManager)
    : list nat * option error :=
  match hooks pm !! event with
  | None => ([], None)
  | Some hs => fire env event (Name loaded) hs
  end.

Section Open.
(** [plugin.Open]. *)
Context (plugin_Open : string → result Plugin).

Definition LoadPlugin (env : hook_env) (name path : string) (pm : PluginManager)
    : PluginManager * option error :=
  match loadedPlugins pm !! name with
  | Some _ => (pm, Some (Errorf ("plugin " +:+ name +:+ " already loaded")))
  | None =>
      match plugin_Open path with
      | Err err => (pm, Some (Wrapf ("failed to load plugin " +:+ name +:+ ": ") err ""))
      | Ok p =>
          match fireHooks env "plugin_preload" (mkLoaded name p) pm with
          | (_, Some err) => (pm, Some err)
          | (_, None) =>
              let loaded := mkLoaded name p in
              let pm := mkPM (<[name := loaded]> (loadedPlugins pm)) (hooks pm) in
              match fireHooks env "plugin_loaded" loaded pm with
              | (_, Some err) => (mkPM (delete name (loadedPlugins pm)) (hooks pm), Some err)
              | (_, None) => (pm, None)
              end
          end
      end
  end.
End Open.

Definition not_loaded (name : string) : error := Errorf ("plugin " +:+ name +:+ " not loaded").

Definition GetLoadBalancerPlugin (name : string) (pm : PluginManager) : result string :=
  match loadedPlugins pm !! name with
  | None => Err (not_loaded name)
  | Some loaded =>
      match Lookup (Module_ loaded) "LoadBalancer" with
      | Err err => Err (Wrapf ("plugin " +:+ name +:+ " missing LoadBalancer symbol: ") err "")
      | Ok (LoadBalancerPlugin p) => Ok p
      | Ok _ => Err (Errorf ("plugin " +:+ name +:+ " LoadBalancer is not of type LoadBalancerPlugin"))
      end
  end.

Definition GetDiscoveryPlugin (name : string) (pm : PluginManager) : result string :=
  match loadedPlugins pm !! name with
  | None => Err (not_loaded name)
  | Some loaded =>
      match Lookup (Module_ loaded) "Discovery" with
      | Err err => Err (Wrapf ("plugin " +:+ name +:+ " missing Discovery symbol: ") err "")
      | Ok (DiscoveryPlugin p) => Ok p
      | Ok _ => Err (Errorf ("plugin " +:+ name +:+ " Discovery is not of type DiscoveryPlugin"))
      end
  end.

Definition GetHealthCheckerPlugin (name : string) (pm : PluginManager) : result string :=
  match loadedPlugins pm !! name with
  | None => Err (not_loaded name)
  | Some loaded =>
      match Lookup (Module_ loaded) "HealthChecker" with
      | Err err => Err (Wrapf ("plugin " +:+ name +:+ " missing HealthChecker symbol: ") err "")
      | Ok (HealthCheckerPlugin p) => Ok p
      | Ok _ => Err (Errorf ("plugin " +:+ name +:+ " HealthChecker is not of type HealthCheckerPlugin"))
      end
  end.

Definition UnloadPlugin (env : hook_env) (name : string) (pm : PluginManager)
    : PluginManager * option error :=
  match loadedPlugins pm !! name with
  | None => (pm, Some (not_loaded name))
  | Some loaded =>
      match fireHooks env "plugin_preunload" loaded pm with
      | (_, Some err) => (pm, Some err)
      | (_, None) =>
          let pm := mkPM (delete name (loadedPlugins pm)) (hooks pm) in
          match fireHooks env "plugin_unloaded" loaded pm with
          | (_, Some err) => (pm, Some err)
          | (_, None) => (pm, None)
          end
      end
  end.

(** The map's keys, in some order. *)
Definition ListPlugins (pm : PluginManager) : list string := (map_to_list (loadedPlugins pm)).*1.

(** ** PluginRegistry *)

(** Factories are functions of the configuration; [C] is its type, [LB], [D] and
    [HC] what the factories make. *)
Section Registry.
Context {C LB D HC : Type}.

Record PluginRegistry : Type := mkPR {
  loadBalancers : gmap string (C → result LB);
  discoveries : gmap string (C → result D);
  healthCheckers : gmap string (C → result HC)
}.

Definition NewPluginRegistry : PluginRegistry := mkPR ∅ ∅ ∅.

Definition RegisterLoadBalancer (name : string) (factory : C → result LB) (pr : PluginRegistry)
    : PluginRegistry * option error :=
  match loadBalancers pr !! name with
  | Some _ => (pr, Some (Errorf ("load balancer " +:+ name +:+ " already registered")))
  | None => (mkPR (<[name := factory]> (loadBalancers pr)) (discoveries pr) (healthCheckers pr), None)
  end.

Definition RegisterDiscovery (name : string) (factory : C → result D) (pr : PluginRegistry)
    : PluginRegistry * option error :=
  match discoveries pr !! name with
  | Some _ => (pr, Some (Errorf ("discovery " +:+ name +:+ " already registered")))
  | None => (mkPR (loadBalancers pr) (<[name := factory]> (discoveries pr)) (healthCheckers pr), None)
  end.

Definition RegisterHealthChecker (name : string) (factory : C → result HC) (pr : PluginRegistry)
    : PluginRegistry * option error :=
  match healthCheckers pr !! name with
  | Some _ => (pr, Some (Errorf ("health checker " +:+ name +:+ " already registered")))
  | None => (mkPR (loadBalancers pr) (discoveries pr) (<[name := factory]> (healthCheckers pr)), None)
  end.

Definition GetLoadBalancer (name : string) (config : C) (pr : PluginRegistry) : result LB :=
  match loadBalancers pr !! name with
  | None => Err (Errorf ("load balancer " +:+ name +:+ " not registered"))
  | Some factory => factory config
  end.

Definition GetDiscovery (name : string) (config : C) (pr : PluginRegistry) : result D :=
  match discoveries pr !! name with
  | None => Err (Errorf ("discovery " +:+ name +:+ " not registered"))
  | Some factory => factory config
  end.

Definition GetHealthChecker (name : string) (config : C) (pr : PluginRegistry) : result HC :=
  match healthCheckers pr !! name with
  | None => Err (Errorf ("health checker " +:+ name +:+ " not registered"))
  | Some factory => factory config
  end.

Definition ListRegistered (componentType : string) (pr : PluginRegistry) : list string :=
  if bool_decide (componentType = "load_balancer") then (map_to_list (loadBalancers pr)).*1
  else if bool_decide (componentType = "discovery") then (map_to_list (discoveries pr)).*1
  else if bool_decide (componentType = "health_checker") then (map_to_list (healthCheckers pr)).*1
  else [].
End Registry.

(** ** Lemmas *)

Lemma fire_nil env event name hs :
  (fire env event name hs).2 = None ↔ ∀ h, h ∈ hs → env h event name = None.
Proof.
  induction hs as [|h hs IH]; simpl; [split; [by intros _ h ?%elem_of_nil|done]|].
  destruct (env h event name) as [err|] eqn:E.
  - split; [done|]. intros Hall. specialize (Hall h). rewrite E in Hall. by apply Hall; left.
  - destruct (fire env event name hs) as [called err]. simpl in *. rewrite IH. split.
    + intros Hall x [->|Hx]%elem_of_cons; auto.
    + intros Hall x Hx. apply Hall. by right.
Qed.

(** The hooks of an event all agree. *)
Definition agree (env : hook_env) (pm : PluginManager) (event name : string) : Prop :=
  ∀ h, h ∈ default [] (hooks pm !! event) → env h event name = None.

Lemma fireHooks_nil env event loaded pm :
  (fireHooks env event loaded pm).2 = None ↔ agree env pm event (Name loaded).
Proof.
  unfold fireHooks, agree. destruct (hooks pm !! event) as [hs|]; simpl; [apply fire_nil|].
  split; [by intros _ h ?%elem_of_nil|done].
Qed.

(** One operation of the manager. *)
Inductive op : Type :=
| OpLoad (env : hook_env) (name path : string)
| OpUnload (env : hook_env) (name : string)
| OpHook (event : string) (hook : nat).

Definition step (plugin_Open : string → result Plugin) (o : op) (pm : PluginManager)
    : PluginManager * option error :=
  match o with
  | OpLoad env name path => LoadPlugin plugin_Open env name path pm
  | OpUnload env name => UnloadPlugin env name pm
  | OpHook event hook => (RegisterHook event hook pm, None)
  end.

Definition run (plugin_Open : string → result Plugin) (os : list op) : PluginManager :=
  fold_left (λ pm o, (step plugin_Open o pm).1) os NewPluginManager.

(** ** Theorems *)

(** C36 Loading is all or nothing: [LoadPlugin] returns nil exactly when the name
    was free, the object opens and every hook before and after agrees, and then
    the plugin is added; on any error the loaded plugins are as before, a refusal
    by a hook after the plugin was added included.  [UnloadPlugin] is not: it
    returns nil exactly when the plugin was loaded and every hook agrees, but a
    refusal by a hook after the removal leaves the plugin removed.  The hooks
    themselves never change. *)
Theorem load_all_or_nothing (plugin_Open : string → result Plugin) (env : hook_env)
    (name path : string) (pm : PluginManager) :
  (let '(pm', err) := LoadPlugin plugin_Open env name path pm in
   hooks pm' = hooks pm ∧
   match err with
   | None => ∃ p, loadedPlugins pm !! name = None ∧ plugin_Open path = Ok p ∧
       agree env pm "plugin_preload" name ∧ agree env pm "plugin_loaded" name ∧
       loadedPlugins pm' = <[name := mkLoaded name p]> (loadedPlugins pm)
   | Some _ => loadedPlugins pm' = loadedPlugins pm ∧
       ¬ (∃ p, loadedPlugins pm !! name = None ∧ plugin_Open path = Ok p ∧
            agree env pm "plugin_preload" name ∧ agree env pm "plugin_loaded" name)
   end) ∧
  (let '(pm', err) := UnloadPlugin env name pm in
   hooks pm' = hooks pm ∧
   match loadedPlugins pm !! name with
   | None => pm' = pm ∧ err = Some (not_loaded name)
   | Some l =>
       (err = None ↔ agree env pm "plugin_preunload" (Name l) ∧ agree env pm "plugin_unloaded" (Name l)) ∧
       (agree env pm "plugin_preunload" (Name l) → loadedPlugins pm' = delete name (loadedPlugins pm)) ∧
       (¬ agree env pm "plugin_preunload" (Name l) → pm' = pm)
   end).
Proof.
  split.
  - unfold LoadPlugin. destruct (loadedPlugins pm !! name) as [l|] eqn:El.
    { split; [done|]. split; [done|]. by intros (p & ? & _). }
    destruct (plugin_Open path) as [p|err] eqn:Eo.
    2:{ split; [done|]. split; [done|]. by intros (p & _ & ? & _). }
    pose proof (fireHooks_nil env "plugin_preload" (mkLoaded name p) pm) as Hpre.
    destruct (fireHooks env "plugin_preload" (mkLoaded name p) pm) as [c1 [e1|]]; cbn [snd Name] in Hpre.
    { split; [done|]. split; [done|]. intros (p' & _ & _ & Ha & _). by apply Hpre in Ha. }
    pose proof (fireHooks_nil env "plugin_loaded" (mkLoaded name p)
                  (mkPM (<[name := mkLoaded name p]> (loadedPlugins pm)) (hooks pm))) as Hpost.
    destruct (fireHooks _ "plugin_loaded" _ _) as [c2 [e2|]]; cbn [snd Name] in Hpost.
    + split; [done|]. cbn [loadedPlugins]. split; [by rewrite delete_insert_id|].
      intros (p' & _ & _ & _ & Ha). by apply Hpost in Ha.
    + split; [done|]. exists p. split_and!; try done; [by apply Hpre|by apply Hpost].
  - unfold UnloadPlugin. destruct (loadedPlugins pm !! name) as [l|] eqn:El; [|done].
    pose proof (fireHooks_nil env "plugin_preunload" l pm) as Hpre.
    destruct (fireHooks env "plugin_preunload" l pm) as [c1 [e1|]]; cbn [snd] in Hpre.
    { split; [done|]. split; [split; [done|by intros [?%Hpre _]]|]. split; [by intros ?%Hpre|done]. }
    assert (agree env pm "plugin_preunload" (Name l)) as Ha by by apply Hpre.
    pose proof (fireHooks_nil env "plugin_unloaded" l
                  (mkPM (delete name (loadedPlugins pm)) (hooks pm))) as Hpost.
    destruct (fireHooks _ "plugin_unloaded" _ _) as [c2 [e2|]]; cbn [snd] in Hpost;
      (split; [done|]); (split; [|done]); split; try done.
    + by intros [_ ?%Hpost].
    + intros _. split; [done|by apply Hpost].
Qed.

(** A plugin is what its getter says: after any history of operations every
    loaded plugin is filed under its own name, and a getter answers with a plugin
    exactly when one of that name is loaded whose symbol for that interface is a
    plugin of that interface; a symbol of another interface is never handed out. *)
Theorem getters_well_typed (plugin_Open : string → result Plugin) (os : list op) (name : string) :
  let pm := run plugin_Open os in
  (∀ n l, loadedPlugins pm !! n = Some l → Name l = n) ∧
  (∀ p, GetLoadBalancerPlugin name pm = Ok p ↔
     ∃ l, loadedPlugins pm !! name = Some l ∧ Lookup (Module_ l) "LoadBalancer" = Ok (LoadBalancerPlugin p)) ∧
  (∀ p, GetDiscoveryPlugin name pm = Ok p ↔
     ∃ l, loadedPlugins pm !! name = Some l ∧ Lookup (Module_ l) "Discovery" = Ok (DiscoveryPlugin p)) ∧
  (∀ p, GetHealthCheckerPlugin name pm = Ok p ↔
     ∃ l, loadedPlugins pm !! name = Some l ∧ Lookup (Module_ l) "HealthChecker" = Ok (HealthCheckerPlugin p)).
Proof.
  intros pm. split.
  { unfold pm, run. clear pm. induction os as [|o os IH] using rev_ind; [done|].
    rewrite fold_left_app. simpl. destruct o as [env n' path|env n'|event hook]; simpl; [| |exact IH].
    - unfold LoadPlugin. set (pm := fold_left _ os _) in *.
      destruct (loadedPlugins pm !! n') as [l0|] eqn:E; [exact IH|]. destruct (plugin_Open path) as [p|]; [|exact IH].
      destruct (fireHooks _ _ _ pm) as [c1 [e1|]]; [exact IH|].
      destruct (fireHooks _ _ _ _) as [c2 [e2|]]; cbn [fst loadedPlugins].
      + rewrite delete_insert_id by done. exact IH.
      + intros n l [[<- <-]|[_ Hl]]%lookup_insert_Some; [done|by apply IH].
    - unfold UnloadPlugin. set (pm := fold_left _ os _) in *.
      destruct (loadedPlugins pm !! n') as [l0|] eqn:E; [|exact IH].
      destruct (fireHooks _ _ _ pm) as [c1 [e1|]]; [exact IH|].
      destruct (fireHooks _ _ _ _) as [c2 [e2|]]; cbn [fst loadedPlugins];
        intros n l [_ Hl]%lookup_delete_Some; by apply IH. }
  clearbody pm.
  split_and!; intros p; unfold GetLoadBalancerPlugin, GetDiscoveryPlugin, GetHealthCheckerPlugin;
    (destruct (loadedPlugins pm !! name) as [l|]; [|split; [done|by intros (l & ? & _)]]);
    (split; [intros Hx; exists l; split; [done|]; go_cases|intros (l' & [= <-] & ->); done]).
Qed.

(** *** The registry of factories *)

Section RegistryProofs.
Context {C LB D HC : Type}.

Inductive reg_op : Type :=
| RegLB (name : string) (f : C → result LB)
| RegD (name : string) (f : C → result D)
| RegHC (name : string) (f : C → result HC).

Definition reg_step (pr : PluginRegistry) (o : reg_op) : PluginRegistry :=
  match o with
  | RegLB name f => (RegisterLoadBalancer name f pr).1
  | RegD name f => (RegisterDiscovery name f pr).1
  | RegHC name f => (RegisterHealthChecker name f pr).1
  end.

Definition reg_run (os : list reg_op) : PluginRegistry := fold_left reg_step os NewPluginRegistry.

(** The registrations of one kind, in order. *)
Definition lbs (os : list reg_op) : list (string * (C → result LB)) :=
  omap (λ o, match o with RegLB n f => Some (n, f) | _ => None end) os.
Definition ds (os : list reg_op) : list (string * (C → result D)) :=
  omap (λ o, match o with RegD n f => Some (n, f) | _ => None end) os.
Definition hcs (os : list reg_op) : list (string * (C → result HC)) :=
  omap (λ o, match o with RegHC n f => Some (n, f) | _ => None end) os.

(** Inserting only where nothing is: the first of each name stays. *)
Lemma first_wins {A} (l : list (string * A)) n f :
  (match (list_to_map l : gmap string A) !! n with
   | Some _ => list_to_map l : gmap string A
   | None => <[n := f]> (list_to_map l : gmap string A)
   end) = list_to_map (l ++ [(n, f)]).
Proof.
  apply map_eq. intros k. rewrite list_to_map_app. simpl.
  destruct ((list_to_map l : gmap string A) !! n) as [g|] eqn:E.
  - destruct ((list_to_map l : gmap string A) !! k) as [x|] eqn:Ek; [by rewrite (lookup_union_Some_l _ _ _ x)|].
    rewrite lookup_union_r by done. destruct (decide (n = k)) as [->|]; [congruence|].
    by rewrite lookup_insert_ne.
  - destruct (decide (n = k)) as [->|].
    + by rewrite lookup_insert_eq, lookup_union_r, lookup_insert_eq.
    + rewrite lookup_insert_ne by done. destruct ((list_to_map l : gmap string A) !! k) as [x|] eqn:Ek.
      * by rewrite (lookup_union_Some_l _ _ _ x).
      * by rewrite lookup_union_r, lookup_insert_ne.
Qed.

(** The factory registry keeps the first registration of each name and kind:
    after any registrations, asking for a name runs the factory first registered
    under it for that kind (a later one of the same name was refused, and left
    the registry alone), the kinds do not interfere, a name never registered is
    an error, and the list of a kind is exactly the names registered for it. *)
Theorem first_registration_wins (os : list reg_op) (name : string) (config : C) :
  let pr := reg_run os in
  GetLoadBalancer name config pr =
    match (list_to_map (lbs os) : gmap string (C → result LB)) !! name with
    | Some f => f config | None => Err (Errorf ("load balancer " +:+ name +:+ " not registered")) end ∧
  GetDiscovery name config pr =
    match (list_to_map (ds os) : gmap string (C → result D)) !! name with
    | Some f => f config | None => Err (Errorf ("discovery " +:+ name +:+ " not registered")) end ∧
  GetHealthChecker name config pr =
    match (list_to_map (hcs os) : gmap string (C → result HC)) !! name with
    | Some f => f config | None => Err (Errorf ("health checker " +:+ name +:+ " not registered")) end ∧
  (name ∈ ListRegistered "load_balancer" pr ↔ name ∈ (lbs os).*1) ∧
  (name ∈ ListRegistered "discovery" pr ↔ name ∈ (ds os).*1) ∧
  (name ∈ ListRegistered "health_checker" pr ↔ name ∈ (hcs os).*1).
Proof.
  assert (reg_run os = mkPR (list_to_map (lbs os)) (list_to_map (ds os)) (list_to_map (hcs os))) as Hrun.
  { unfold reg_run, lbs, ds, hcs. induction os as [|o os IH] using rev_ind; [done|].
    rewrite fold_left_app, IH, !omap_app. cbn [fold_left].
    destruct o as [n f|n f|n f]; cbn [reg_step omap list_omap]; rewrite ?app_nil_r;
      unfold RegisterLoadBalancer, RegisterDiscovery, RegisterHealthChecker;
      cbn [loadBalancers discoveries healthCheckers]; rewrite <- first_wins; by case_match. }
  assert (∀ (A : Type) (l : list (string * A)),
    name ∈ (map_to_list (list_to_map l : gmap string A)).*1 ↔ name ∈ l.*1) as Hkeys.
  { intros A l. rewrite list_elem_of_fmap. split.
    - intros ([k x] & -> & Hx%elem_of_map_to_list). apply elem_of_list_to_map_2 in Hx.
      by apply (list_elem_of_fmap_2' _ _ (k, x)).
    - intros Hn. destruct ((list_to_map l : gmap string A) !! name) as [x|] eqn:E.
      + exists (name, x). split; [done|]. by apply elem_of_map_to_list.
      + by apply not_elem_of_list_to_map in E. }
  cbv zeta. rewrite Hrun. unfold GetLoadBalancer, GetDiscovery, GetHealthChecker, ListRegistered.
  cbn [loadBalancers discoveries healthCheckers].
  do 3 (split; [done|]).
  rewrite (bool_decide_true ("load_balancer" = "load_balancer")) by done.
  rewrite (bool_decide_false ("discovery" = "load_balancer")) by done.
  rewrite (bool_decide_true ("discovery" = "discovery")) by done.
  rewrite (bool_decide_false ("health_checker" = "load_balancer")) by done.
  rewrite (bool_decide_false ("health_checker" = "discovery")) by done.
  rewrite (bool_decide_true ("health_checker" = "health_checker")) by done.
  split_and!; apply Hkeys.
Qed.

End RegistryProofs.
