(* ===== verification/WvObservability.v ===== *)
(** * Weaver: observability

    [src/src/Weaver/pkg/observability/]: the traces and their exporter
    (tracing.go; [Module Tracing], [Module Exporter]), the structured log events
    (logging.go; [Module Logging]) and the metrics with their in-memory counters
    (metrics.go; [Module Metrics]).  Prometheus and the output of the logger are
    not under src/: a call of one is recorded as such.  Clock readings are
    arguments. *)

From S2P Require Import Prelude GoFloat WvRateLimit GoContext.

(** ** tracing.go: the manager *)

Module Tracing.

Inductive TraceStatus : Type :=
| TraceStatusOK
| TraceStatusError
| TraceStatusUnknown.

(** Values of tags and fields are opaque. *)
Section Manager.
Context {V : Type}.

Record TraceLog : Type := mkTraceLog { Timestamp : Time; Fields : gmap string V }.

Record Trace : Type := mkTrace {
  TraceID : string;
  SpanID : string;
  ParentSpanID : string;
  Operation : string;
  StartTime : Time;
  EndTime : Time;
  Duration_ : Duration;
  Tags : gmap string V;
  Logs : list TraceLog;
  Status : TraceStatus;
  Error_ : string
}.

(** The traces are shared: [StartTrace] and [GetTrace] hand out the pointer that
    the map keeps. *)
Record TracingManager : Type := mkTM {
  heap : gmap nat Trace;
  traces : gmap string nat
}.

Definition NewTracingManager (h : gmap nat Trace) : TracingManager := mkTM h ∅.

Definition StartTrace (now : Time) (traceID spanID operation : string) (tm : TracingManager)
    : TracingManager * nat :=
  let trace := mkTrace traceID spanID "" operation now zero_time 0 ∅ [] TraceStatusUnknown "" in
  let p := fresh (dom (heap tm) ∪ map_img (traces tm)) in
  (mkTM (<[p := trace]> (heap tm)) (<[traceID := p]> (traces tm)), p).

(** A change of the trace filed under an id; nothing happens if there is none. *)
Definition update_trace (traceID : string) (f : Trace → Trace) (tm : TracingManager) : TracingManager :=
  match traces tm !! traceID with
  | None => tm
  | Some p => mkTM (alter f p (heap tm)) (traces tm)
  end.

Definition end_trace (now : Time) (status : TraceStatus) (errMsg : string) (t : Trace) : Trace :=
  mkTrace (TraceID t) (SpanID t) (ParentSpanID t) (Operation t) (StartTime t) now
    (time_Sub now (StartTime t)) (Tags t) (Logs t) status errMsg.

Definition EndTrace (now : Time) (traceID : string) (status : TraceStatus) (errMsg : string)
    (tm : TracingManager) : TracingManager :=
  update_trace traceID (end_trace now status errMsg) tm.

Definition add_tag (key : string) (value : V) (t : Trace) : Trace :=
  mkTrace (TraceID t) (SpanID t) (ParentSpanID t) (Operation t) (StartTime t) (EndTime t)
    (Duration_ t) (<[key := value]> (Tags t)) (Logs t) (Status t) (Error_ t).

Definition AddTag (traceID key : string) (value : V) (tm : TracingManager) : TracingManager :=
  update_trace traceID (add_tag key value) tm.

Definition add_log (now : Time) (fields : gmap string V) (t : Trace) : Trace :=
  mkTrace (TraceID t) (SpanID t) (ParentSpanID t) (Operation t) (StartTime t) (EndTime t)
    (Duration_ t) (Tags t) (Logs t ++ [mkTraceLog now fields]) (Status t) (Error_ t).

Definition AddLog (now : Time) (traceID : string) (fields : gmap string V) (tm : TracingManager)
    : TracingManager :=
  update_trace traceID (add_log now fields) tm.

Definition GetTrace (traceID : string) (tm : TracingManager) : option nat := traces tm !! traceID.

(** In the order of the map's iteration. *)
Definition ExportTraces (tm : TracingManager) : list nat := (map_to_list (traces tm)).*2.

Definition Clear (tm : TracingManager) : TracingManager := mkTM (heap tm) ∅.

(** *** A trace is what was done to it *)

Inductive event : Type :=
| EvEnd (now : Time) (status : TraceStatus) (errMsg : string)
| EvTag (key : string) (value : V)
| EvLog (now : Time) (fields : gmap string V).

Inductive op : Type :=
| OpStart (now : Time) (traceID spanID operation : string)
| OpOn (traceID : string) (e : event)
| OpClear.

Definition step (tm : TracingManager) (o : op) : TracingManager :=
  match o with
  | OpStart now id span operation => (StartTrace now id span operation tm).1
  | OpOn id (EvEnd now st err) => EndTrace now id st err tm
  | OpOn id (EvTag k v) => AddTag id k v tm
  | OpOn id (EvLog now fields) => AddLog now id fields tm
  | OpClear => Clear tm
  end.

(** How a trace was started: when, with which span, for which operation. *)
Record start : Type := mkStart { st_now : Time; st_span : string; st_operation : string }.

(** What a history says of an id: how it was last started, and the events on it
    since; nothing if it was not started since the last [Clear]. *)
Definition since_step (id : string) (h : option (start * list event)) (o : op) : option (start * list event) :=
  match o with
  | OpStart now id' span operation => if decide (id' = id) then Some (mkStart now span operation, []) else h
  | OpOn id' e => if decide (id' = id) then (λ se, (se.1, se.2 ++ [e])) <$> h else h
  | OpClear => None
  end.

Definition since (id : string) (os : list op) : option (start * list event) :=
  fold_left (since_step id) os None.

Definition ending (e : event) : option (Time * TraceStatus * string) :=
  match e with EvEnd now st err => Some (now, st, err) | _ => None end.
Definition logging (e : event) : option TraceLog :=
  match e with EvLog now fields => Some (mkTraceLog now fields) | _ => None end.
Definition tagging (key : string) (e : event) : option V :=
  match e with EvTag k v => if decide (k = key) then Some v else None | _ => None end.

(** A trace that is the start [st] and the events [es]: its end is the last one, a
    tag the last value given for its key, its logs all of them in order. *)
Record records (id : string) (st : start) (es : list event) (t : Trace) : Prop := {
  rec_start : (TraceID t, SpanID t, ParentSpanID t, Operation t, StartTime t) =
              (id, st_span st, "", st_operation st, st_now st);
  rec_end : (EndTime t, Duration_ t, Status t, Error_ t) =
            match last (omap ending es) with
            | Some (now, status, errMsg) => (now, time_Sub now (st_now st), status, errMsg)
            | None => (zero_time, 0, TraceStatusUnknown, "")
            end;
  rec_tags : ∀ key, Tags t !! key = last (omap (tagging key) es);
  rec_logs : Logs t = omap logging es
}.

Lemma records_new id st :
  records id st [] (mkTrace id (st_span st) "" (st_operation st) (st_now st) zero_time 0 ∅ [] TraceStatusUnknown "").
Proof. by split. Qed.

Lemma records_end id st es t now status errMsg :
  records id st es t → records id st (es ++ [EvEnd now status errMsg]) (end_trace now status errMsg t).
Proof.
  intros [Hs He Ht Hl]. split; cbn.
  - exact Hs.
  - rewrite omap_app. cbn. rewrite last_snoc. by injection Hs as _ _ _ _ ->.
  - intros key. rewrite omap_app. cbn. by rewrite app_nil_r.
  - rewrite omap_app. cbn. by rewrite app_nil_r.
Qed.

Lemma records_tag id st es t key value :
  records id st es t → records id st (es ++ [EvTag key value]) (add_tag key value t).
Proof.
  intros [Hs He Ht Hl]. split; cbn.
  - exact Hs.
  - rewrite omap_app. cbn. by rewrite app_nil_r.
  - intros key'. rewrite omap_app. cbn. rewrite lookup_insert.
    case_decide; [by rewrite last_snoc|]. by rewrite app_nil_r.
  - rewrite omap_app. cbn. by rewrite app_nil_r.
Qed.

Lemma records_log id st es t now fields :
  records id st es t → records id st (es ++ [EvLog now fields]) (add_log now fields t).
Proof.
  intros [Hs He Ht Hl]. split; cbn.
  - exact Hs.
  - rewrite omap_app. cbn. by rewrite app_nil_r.
  - intros key. rewrite omap_app. cbn. by rewrite app_nil_r.
  - rewrite omap_app. cbn. by rewrite Hl.
Qed.

Definition wf (tm : TracingManager) : Prop :=
  (∀ id p, traces tm !! id = Some p → is_Some (heap tm !! p)) ∧
  (∀ id1 id2 p, traces tm !! id1 = Some p → traces tm !! id2 = Some p → id1 = id2).

(** What [GetTrace] points to. *)
Definition view (tm : TracingManager) (id : string) : option Trace :=
  p ← GetTrace id tm; heap tm !! p.

(** The trace of an id is what the history says. *)
Definition agrees (id : string) (h : option (start * list event)) (t : option Trace) : Prop :=
  match h, t with
  | Some (st, es), Some t => records id st es t
  | None, None => True
  | _, _ => False
  end.

Lemma update_ok tm id f :
  wf tm → wf (update_trace id f tm) ∧
  ∀ id', view (update_trace id f tm) id' = if decide (id = id') then f <$> view tm id' else view tm id'.
Proof.
  intros [Hin Hinj]. unfold update_trace. destruct (traces tm !! id) as [p|] eqn:E.
  - split.
    + split; [|exact Hinj]. cbn. intros id' q Hq. destruct (decide (p = q)) as [->|].
      * rewrite lookup_alter_eq. destruct (Hin _ _ Hq) as [x ->]. by eexists.
      * rewrite lookup_alter_ne by done. by apply Hin in Hq.
    + intros id'. unfold view, GetTrace. cbn. destruct (decide (id = id')) as [<-|Hne].
      * rewrite E. cbn. apply lookup_alter_eq.
      * destruct (traces tm !! id') as [q|] eqn:Eq; [|done]. cbn. rewrite lookup_alter_ne; [done|].
        intros ->. by apply Hne, (Hinj _ _ q).
  - split; [done|]. intros id'. destruct (decide (id = id')) as [<-|]; [|done].
    unfold view, GetTrace. by rewrite E.
Qed.

Lemma start_ok tm now id span operation :
  wf tm → wf (StartTrace now id span operation tm).1 ∧
  ∀ id', view (StartTrace now id span operation tm).1 id' =
         if decide (id = id') then Some (mkTrace id span "" operation now zero_time 0 ∅ [] TraceStatusUnknown "")
         else view tm id'.
Proof.
  intros [Hin Hinj]. unfold StartTrace. cbn [fst].
  set (p := fresh _). pose proof (is_fresh (dom (heap tm) ∪ map_img (traces tm))) as Hf. fold p in Hf.
  apply not_elem_of_union in Hf as [Hh Ht]. apply not_elem_of_dom in Hh.
  assert (∀ id' q, traces tm !! id' = Some q → q ≠ p) as Hne.
  { intros id' q Hq ->. apply Ht, elem_of_map_img. eauto. }
  split; [split|].
  - cbn. intros id' q [[<- <-]|[_ Hq]]%lookup_insert_Some; [by rewrite lookup_insert_eq|].
    rewrite lookup_insert_ne by (apply not_eq_sym; eauto). by apply Hin in Hq.
  - cbn. intros id1 id2 q [[<- <-]|[_ H1]]%lookup_insert_Some [[<- Hq]|[_ H2]]%lookup_insert_Some;
      [done| | |by eapply Hinj].
    + by apply Hne in H2.
    + subst. by apply Hne in H1.
  - intros id'. unfold view, GetTrace. cbn. destruct (decide (id = id')) as [<-|].
    + rewrite lookup_insert_eq. cbn. by rewrite lookup_insert_eq.
    + rewrite lookup_insert_ne by done. destruct (traces tm !! id') as [q|] eqn:Eq; [|done]. cbn.
      by rewrite lookup_insert_ne by (apply not_eq_sym; eauto).
Qed.

Lemma agrees_on id id' h t (f : Trace → Trace) e :
  (∀ st es t, records id' st es t → records id' st (es ++ [e]) (f t)) →
  agrees id' h t → agrees id' (since_step id' h (OpOn id e)) (if decide (id = id') then f <$> t else t).
Proof.
  intros Hf. cbn [since_step]. case_decide; [|done]. subst id'.
  destruct h as [[st es]|], t as [t|]; try done. cbn. apply Hf.
Qed.

Lemma trace_step_ok tm o :
  wf tm → wf (step tm o) ∧
  ∀ id h, agrees id h (view tm id) → agrees id (since_step id h o) (view (step tm o) id).
Proof.
  intros Hwf. destruct o as [now id span operation|id e|].
  - destruct (start_ok tm now id span operation Hwf) as [H1 H2]. split; [done|]. intros id' h Hv.
    cbn [step since_step]. rewrite H2. case_decide; [|done]. subst id'. apply (records_new id (mkStart now span operation)).
  - destruct e as [now st err|key value|now fields]; cbn [step]; (split; [by apply update_ok|]); intros id' h Hv;
      unfold EndTrace, AddTag, AddLog; rewrite (proj2 (update_ok tm id _ Hwf)); apply agrees_on; try done; intros st0 es t.
    + apply records_end.
    + apply records_tag.
    + apply records_log.
  - by split; [split|].
Qed.

Lemma run_agrees h os :
  wf (fold_left step os (NewTracingManager h)) ∧
  ∀ id, agrees id (since id os) (view (fold_left step os (NewTracingManager h)) id).
Proof.
  unfold since. induction os as [|o os [Hwf IH]] using rev_ind; [done|].
  rewrite fold_left_app. cbn [fold_left]. destruct (trace_step_ok _ o Hwf) as [H1 H2]. split; [done|].
  intros id. rewrite fold_left_app. cbn [fold_left]. by apply H2.
Qed.

(** C31 The tracing manager files traces by id without mixing them up. After any
    history of starts, ends, tags, logs and clears, an id has a trace exactly when it
    was started since the last clear, and that trace is its last start and the
    events on it since: the span, operation and time it was started with; the end
    time, status and error of its last end, with the time from start to end as its
    duration, or none of them if it was not ended; per key the last tag; and all the
    logs in the order they were added. An event on an id without a trace changes
    nothing, and distinct ids never share a trace. *)
Theorem traces_refine (h : gmap nat Trace) (os : list op) (id : string) :
  let tm := fold_left step os (NewTracingManager h) in
  match since id os with
  | Some (st, es) => ∃ t, view tm id = Some t ∧ records id st es t
  | None => view tm id = None ∧ ∀ e, step tm (OpOn id e) = tm
  end ∧
  ∀ id' p, GetTrace id tm = Some p → GetTrace id' tm = Some p → id = id'.
Proof.
  intros tm. destruct (run_agrees h os) as [Hwf Hv]. fold tm in Hwf, Hv. specialize (Hv id).
  split; [|intros id' p; apply (proj2 Hwf)].
  destruct (since id os) as [[st es]|], (view tm id) as [t|] eqn:E; try done.
  { by exists t. }
  split; [done|]. assert (traces tm !! id = None) as Hn.
  { unfold view, GetTrace in E. destruct (traces tm !! id) as [p|] eqn:Ep; [|done].
    destruct (proj1 Hwf _ _ Ep) as [x Hx]. cbn in E. by rewrite Hx in E. }
  intros [now st err|key value|now fields]; cbn; unfold EndTrace, AddTag, AddLog, update_trace; by rewrite Hn.
Qed.

End Manager.

(** A trace that is tagged, ended and tagged again, beside another one. *)
Example demo_traces :
  let os := [OpStart 1 "a" "s" "get"; OpOn "a" (EvTag "k" 1%nat); OpOn "a" (EvEnd 5 TraceStatusOK "");
             OpStart 2 "b" "s" "put"; OpOn "a" (EvTag "k" 2%nat); OpOn "c" (EvEnd 7 TraceStatusError "late")] in
  view (fold_left step os (NewTracingManager ∅)) "a" =
    Some (mkTrace "a" "s" "" "get" 1 5 4 {["k" := 2%nat]} [] TraceStatusOK "") ∧
  since "c" os = None.
Proof. split; vm_compute; reflexivity. Qed.

End Tracing.

(** ** tracing.go: the exporter

    Callers export traces (known by their pointers) into a bounded buffer, a
    worker goroutine takes and sends them, and [Close] stops it.  [exec] is one
    atomic step: an access under the lock, or one channel operation.  Sending is a
    stub that cannot fail.  One [Close] is followed through its steps; another
    call after it has closed the channel panics. *)

Module Exporter.

Definition buffer_cap : nat := 1000.

Inductive worker : Type :=
| WkIdle
| WkSending (t : nat)
| WkExited.

Inductive closer : Type :=
| CNone
| CStopped
| CDraining
| CWaiting
| CReturned.

(** [senders] are the calls of [Export] that found the exporter running;
    [answers] what calls returned.  [accepted], [exported] and [drained] only
    record what happened to the traces. *)
Record JaegerExporter : Type := mkJE {
  buffer : list nat;
  stopCh : bool;
  exportedCount : Z;
  stopped : bool;
  je_worker : worker;
  senders : list nat;
  je_closer : closer;
  answers : list (nat * option error);
  accepted : list nat;
  exported : list nat;
  drained : list nat
}.

Definition NewJaegerExporter : JaegerExporter :=
  mkJE [] false 0 false WkIdle [] CNone [] [] [] [].

Inductive action : Type :=
| XExport (t : nat)
| XSend (i : nat)
| XSendStopped (i : nat)
| XSendFull (i : nat)
| WTake
| WSent
| WStop
| XClose
| XCloseCh
| XDrain
| XDrainEnd
| XTimeout
| XReturn
| XCloseAgain.

Definition exporter_stopped : error := Errorf "exporter stopped".

(** [Export] up to the select; a nil trace is refused before and changes nothing. *)
Definition Export (t : nat) (e : JaegerExporter) : JaegerExporter :=
  if stopped e then
    mkJE (buffer e) (stopCh e) (exportedCount e) (stopped e) (je_worker e) (senders e) (je_closer e)
      (answers e ++ [(t, Some exporter_stopped)]) (accepted e) (exported e) (drained e)
  else
    mkJE (buffer e) (stopCh e) (exportedCount e) (stopped e) (je_worker e) (senders e ++ [t]) (je_closer e)
      (answers e) (accepted e) (exported e) (drained e).

(** Its select: the caller [i] leaves with an answer. *)
Definition answer (i t : nat) (err : option error) (buffer' : list nat) (accepted' : list nat)
    (e : JaegerExporter) : JaegerExporter :=
  mkJE buffer' (stopCh e) (exportedCount e) (stopped e) (je_worker e) (delete i (senders e)) (je_closer e)
    (answers e ++ [(t, err)]) accepted' (exported e) (drained e).

Definition set_worker (w : worker) (buffer' : list nat) (e : JaegerExporter) : JaegerExporter :=
  mkJE buffer' (stopCh e) (exportedCount e) (stopped e) w (senders e) (je_closer e) (answers e)
    (accepted e) (exported e) (drained e).

Definition set_closer (c : closer) (stop_ st : bool) (e : JaegerExporter) : JaegerExporter :=
  mkJE (buffer e) stop_ (exportedCount e) st (je_worker e) (senders e) c (answers e)
    (accepted e) (exported e) (drained e).

(** [exportWorker], after the stub has sent. *)
Definition count_sent (t : nat) (e : JaegerExporter) : JaegerExporter :=
  mkJE (buffer e) (stopCh e) (exportedCount e +64 1) (stopped e) WkIdle (senders e) (je_closer e)
    (answers e) (accepted e) (exported e ++ [t]) (drained e).

Definition drain (t : nat) (rest : list nat) (e : JaegerExporter) : JaegerExporter :=
  mkJE rest (stopCh e) (exportedCount e) (stopped e) (je_worker e) (senders e) (je_closer e)
    (answers e) (accepted e) (exported e) (drained e ++ [t]).

Definition exec (a : action) (e : JaegerExporter) : option (outcome JaegerExporter) :=
  match a with
  | XExport t => Some (Ret (Export t e))
  | XSend i =>
      t ← senders e !! i;
      if (length (buffer e) <? buffer_cap)%nat
      then Some (Ret (answer i t None (buffer e ++ [t]) (accepted e ++ [t]) e))
      else None
  | XSendStopped i =>
      t ← senders e !! i;
      if stopCh e then Some (Ret (answer i t (Some exporter_stopped) (buffer e) (accepted e) e)) else None
  | XSendFull i =>
      t ← senders e !! i;
      if negb (length (buffer e) <? buffer_cap)%nat && negb (stopCh e)
      then Some (Ret (answer i t (Some (Errorf "buffer full")) (buffer e) (accepted e) e))
      else None
  | WTake =>
      match je_worker e, buffer e with
      | WkIdle, t :: rest => Some (Ret (set_worker (WkSending t) rest e))
      | _, _ => None
      end
  | WSent =>
      match je_worker e with
      | WkSending t => Some (Ret (count_sent t e))
      | _ => None
      end
  | WStop =>
      match je_worker e with
      | WkIdle => if stopCh e then Some (Ret (set_worker WkExited (buffer e) e)) else None
      | _ => None
      end
  | XClose =>
      match je_closer e with
      | CNone => Some (Ret (set_closer CStopped (stopCh e) true e))
      | _ => None
      end
  | XCloseCh =>
      match je_closer e with
      | CStopped => Some (Ret (set_closer CDraining true (stopped e) e))
      | _ => None
      end
  | XDrain =>
      match je_closer e, buffer e with
      | CDraining, t :: rest => Some (Ret (drain t rest e))
      | _, _ => None
      end
  | XDrainEnd =>
      match je_closer e, buffer e with
      | CDraining, [] => Some (Ret (set_closer CWaiting (stopCh e) (stopped e) e))
      | _, _ => None
      end
  | XTimeout =>
      match je_closer e with
      | CDraining => Some (Ret (set_closer CWaiting (stopCh e) (stopped e) e))
      | _ => None
      end
  | XReturn =>
      match je_closer e, je_worker e with
      | CWaiting, WkExited => Some (Ret (set_closer CReturned (stopCh e) (stopped e) e))
      | _, _ => None
      end
  | XCloseAgain => if stopCh e then Some (Panic "close of closed channel") else None
  end.

Definition GetExportedCount (e : JaegerExporter) : Z := exportedCount e.

Fixpoint run (acts : list action) (e : JaegerExporter) : option (outcome JaegerExporter) :=
  match acts with
  | [] => Some (Ret e)
  | a :: acts =>
      match exec a e with
      | Some (Ret e') => run acts e'
      | Some (Panic s) => Some (Panic s)
      | None => None
      end
  end.

Definition held (e : JaegerExporter) : list nat :=
  match je_worker e with WkSending t => [t] | _ => [] end.

Definition is_worker (a : action) : bool := match a with WTake | WSent => true | _ => false end.

Definition worker_steps (acts : list action) : nat := length (filter (λ a, is_worker a = true) acts).

(** *** Invariants

    Where every accepted trace is; that the buffer is bounded; that the count is
    the number of traces sent; that a nil answer is an acceptance; how far a close
    has come.  Each is preserved by every step. *)

Definition conserved (e : JaegerExporter) : Prop :=
  accepted e ≡ₚ exported e ++ held e ++ buffer e ++ drained e.

Definition bounded (e : JaegerExporter) : Prop := (length (buffer e) ≤ buffer_cap)%nat.

Definition counted (e : JaegerExporter) : Prop :=
  exportedCount e = wrap64 (Z.of_nat (length (exported e))).

Definition answered_nil (l : list (nat * option error)) : list nat :=
  omap (λ a : nat * option error, match a.2 with None => Some a.1 | Some _ => None end) l.

Definition answered (e : JaegerExporter) : Prop := accepted e = answered_nil (answers e).

Definition closing (e : JaegerExporter) : Prop :=
  match je_closer e with
  | CNone | CStopped => stopCh e = false ∧ je_worker e ≠ WkExited ∧ drained e = []
  | CDraining | CWaiting => stopCh e = true
  | CReturned => stopCh e = true ∧ je_worker e = WkExited
  end.

(** Before the channel is closed the traces leave in the order of their acceptance. *)
Definition in_order (e : JaegerExporter) : Prop :=
  stopCh e = false → drained e = [] ∧ accepted e = exported e ++ held e ++ buffer e.

Ltac exec_cases Hx :=
  unfold exec, Export, mbind, option_bind in Hx; cbn -[Nat.ltb] in Hx;
  repeat match type of Hx with
         | context [match ?x with _ => _ end] => destruct x eqn:?; try discriminate Hx
         end; injection Hx as <-.

Lemma conserved_exec a e e' : conserved e → exec a e = Some (Ret e') → conserved e'.
Proof.
  destruct e as [buf sc cnt st wk snd cl ans acc exp dr]; unfold conserved.
  intros Hp Hx. destruct a; exec_cases Hx; subst; unfold held in *; cbn in *; try exact Hp;
    rewrite Hp; solve_Permutation.
Qed.

Lemma bounded_exec a e e' : bounded e → exec a e = Some (Ret e') → bounded e'.
Proof.
  destruct e as [buf sc cnt st wk snd cl ans acc exp dr]; unfold bounded.
  intros Hp Hx. destruct a; exec_cases Hx; subst; cbn [buffer set_worker set_closer drain count_sent answer length] in *;
    try exact Hp; try lia.
  rewrite length_app; cbn [length]. apply Nat.ltb_lt in Heqb. lia.
Qed.

Lemma counted_exec a e e' : counted e → exec a e = Some (Ret e') → counted e'.
Proof.
  destruct e as [buf sc cnt st wk snd cl ans acc exp dr]; unfold counted.
  intros Hp Hx. destruct a; exec_cases Hx; subst; cbn in *; try exact Hp.
  rewrite Hp, length_app, Nat2Z.inj_add, wrap64_add_l. done.
Qed.

Lemma answered_exec a e e' : answered e → exec a e = Some (Ret e') → answered e'.
Proof.
  destruct e as [buf sc cnt st wk snd cl ans acc exp dr]; unfold answered, answered_nil.
  intros Hp Hx. destruct a; exec_cases Hx; subst; cbn in *; rewrite ?omap_app; cbn; rewrite ?app_nil_r;
    congruence.
Qed.

Lemma closing_exec a e e' : closing e → exec a e = Some (Ret e') → closing e'.
Proof.
  destruct e as [buf sc cnt st wk snd cl ans acc exp dr]; unfold closing.
  intros Hp Hx. destruct a; exec_cases Hx; subst; cbn in *; try exact Hp; try done;
    destruct cl; intuition congruence.
Qed.

Lemma in_order_exec a e e' : closing e → in_order e → exec a e = Some (Ret e') → in_order e'.
Proof.
  destruct e as [buf sc cnt st wk snd cl ans acc exp dr]; unfold in_order, closing, held; cbn.
  intros Hc Hp Hx. destruct a; exec_cases Hx; subst; cbn in *; try exact Hp; intros Hs;
    try discriminate Hs; try (rewrite Hs in Hc; discriminate Hc);
    destruct (Hp Hs) as [Hd Ha]; split; try exact Hd; rewrite Ha, <- ?app_assoc; done.
Qed.

(** What two steps of the worker do: the state of [WkSending] is half a trace. *)
Definition half_steps (e : JaegerExporter) : nat := 2 * length (exported e) + length (held e).

Lemma half_steps_exec a e e' :
  exec a e = Some (Ret e') → half_steps e' = (half_steps e + if is_worker a then 1 else 0)%nat.
Proof.
  destruct e as [buf sc cnt st wk snd cl ans acc exp dr]; unfold half_steps, held.
  intros Hx. destruct a; exec_cases Hx; subst; cbn; rewrite ?length_app; cbn; lia.
Qed.

Record sound (e : JaegerExporter) : Prop := {
  sound_conserved : conserved e;
  sound_bounded : bounded e;
  sound_counted : counted e;
  sound_answered : answered e;
  sound_closing : closing e;
  sound_in_order : in_order e
}.

Lemma sound_new : sound NewJaegerExporter.
Proof. split; [apply Permutation_refl|apply Nat.le_0_l|done..]. Qed.

Lemma sound_exec a e e' : sound e → exec a e = Some (Ret e') → sound e'.
Proof.
  intros [] Hx; split; eauto using conserved_exec, bounded_exec, counted_exec, answered_exec,
    closing_exec, in_order_exec.
Qed.

Lemma run_sound acts e e' : sound e → run acts e = Some (Ret e') → sound e'.
Proof.
  revert e. induction acts as [|a acts IH]; intros e He Hr; cbn in Hr; [by simplify_eq|].
  destruct (exec a e) as [[e1|s]|] eqn:E; try discriminate. eauto using sound_exec.
Qed.

Lemma run_half_steps acts e e' :
  run acts e = Some (Ret e') → half_steps e' = (half_steps e + worker_steps acts)%nat.
Proof.
  revert e. induction acts as [|a acts IH]; intros e Hr; cbn in Hr.
  - simplify_eq. unfold worker_steps; cbn. lia.
  - destruct (exec a e) as [[e1|s]|] eqn:E; try discriminate.
    rewrite (IH _ Hr), (half_steps_exec _ _ _ E). unfold worker_steps. rewrite filter_cons.
    destruct (is_worker a); case_decide; try congruence; cbn [length]; lia.
Qed.

(** ** Claims *)

(** C16 Every trace an [Export] answered with nil is, at any time of any
    interleaving of callers, worker and [Close], exactly once among those sent,
    the one being sent, those in the buffer and those [Close] threw away; the
    buffer holds at most 1000; [GetExportedCount] is the number sent, wrapped to
    64 bits; until [Close] nothing is thrown away and the traces leave in the
    order of their acceptance; once [Close] has returned the worker is gone. *)
Theorem exporter_accounts : ∀ acts e,
  run acts NewJaegerExporter = Some (Ret e) →
  answered_nil (answers e) ≡ₚ exported e ++ held e ++ buffer e ++ drained e ∧
  (length (buffer e) ≤ 1000)%nat ∧
  GetExportedCount e = wrap64 (Z.of_nat (length (exported e))) ∧
  (stopCh e = false → drained e = [] ∧ answered_nil (answers e) = exported e ++ held e ++ buffer e) ∧
  (je_closer e = CReturned → je_worker e = WkExited ∧ stopCh e = true).
Proof.
  intros acts e Hr.
  destruct (run_sound _ _ _ sound_new Hr) as [Hc Hb Hn Ha Hcl Ho].
  rewrite <- Ha. split_and!; try done.
  unfold closing in Hcl. intros E. rewrite E in Hcl. naive_solver.
Qed.

(** Two accepted, one sent, one still in the buffer when [Close] empties it. *)
Definition closing_run : list action :=
  [XExport 1; XSend 0; XExport 2; XSend 0; WTake; WSent; XClose; XExport 3; XCloseCh; XDrain; XDrainEnd;
   WStop; XReturn].

Lemma exporter_accounts_witness : ∃ e, run closing_run NewJaegerExporter = Some (Ret e) ∧
  answered_nil (answers e) = [1; 2]%nat ∧ exported e = [1]%nat ∧ drained e = [2]%nat ∧
  answered_nil (answers e) ≡ₚ exported e ++ held e ++ buffer e ++ drained e.
Proof.
  destruct (run closing_run NewJaegerExporter) as [[e|s]|] eqn:E;
    [exists e; split; [reflexivity|]|exfalso; vm_compute in E; discriminate ..].
  split_and!; [by vm_compute in E; injection E as <- ..|].
  exact (proj1 (exporter_accounts closing_run e E)).
Defined.

(** C17 The exporter makes progress.  While the channel is open: the n-th accepted
    trace has been sent once the worker has taken two steps for each of the first
    n; and as long as some accepted trace has not been sent, the worker can take
    one of those steps, so no state of the callers blocks it.  And a [Close] that
    waits for the worker is at most three steps of the worker from its return. *)
Theorem exporter_liveness : ∀ acts e,
  run acts NewJaegerExporter = Some (Ret e) →
  (stopCh e = false →
     (∀ n t, accepted e !! n = Some t → (2 * S n ≤ worker_steps acts)%nat → exported e !! n = Some t) ∧
     (exported e ≠ accepted e → ∃ a e', is_worker a = true ∧ exec a e = Some (Ret e'))) ∧
  (je_closer e = CWaiting → ∃ acts' e', (length acts' ≤ 3)%nat ∧ run acts' e = Some (Ret e') ∧
     je_closer e' = CReturned).
Proof.
  intros acts e Hr.
  destruct (run_sound _ _ _ sound_new Hr) as [_ _ _ _ Hcl Ho].
  pose proof (run_half_steps _ _ _ Hr) as Hh. cbn in Hh. unfold half_steps in Hh.
  split.
  - intros Hs. destruct (Ho Hs) as [_ Hacc]. split.
    + intros n t Hn Hw. rewrite Hacc in Hn.
      assert (Hl : (length (held e) ≤ 1)%nat) by (unfold held; destruct (je_worker e); cbn; lia).
      rewrite lookup_app_l in Hn by lia. exact Hn.
    + intros Hne. unfold held in Hacc. destruct (je_worker e) eqn:Ew.
      * destruct (buffer e) as [|t rest] eqn:Eb.
        -- rewrite !app_nil_r in Hacc. congruence.
        -- exists WTake. eexists. cbn. rewrite Ew, Eb. done.
      * exists WSent. eexists. cbn. rewrite Ew. done.
      * unfold closing in Hcl. rewrite Hs, Ew in Hcl. destruct (je_closer e); naive_solver.
  - intros Ec. unfold closing in Hcl. rewrite Ec in Hcl.
    destruct e as [buf sc cnt st wk snd cl ans acc exp dr]; cbn in *. subst.
    destruct wk as [|t|]; [exists [WStop; XReturn]|exists [WSent; WStop; XReturn]|exists [XReturn]];
      eexists; (split; [cbn; lia|split; [reflexivity|reflexivity]]).
Qed.

Lemma exporter_liveness_witness : ∃ e,
  run [XExport 1; XExport 2; XSend 1; XSend 0; WTake; WSent; WTake] NewJaegerExporter = Some (Ret e) ∧
  accepted e !! 0%nat = Some 2%nat ∧ exported e !! 0%nat = Some 2%nat.
Proof.
  destruct (run [XExport 1; XExport 2; XSend 1; XSend 0; WTake; WSent; WTake] NewJaegerExporter)
    as [[e|s]|] eqn:E; [|exfalso; vm_compute in E; discriminate ..].
  exists e. assert (Ha : accepted e !! 0%nat = Some 2%nat) by (by vm_compute in E; injection E as <-).
  assert (Hs : stopCh e = false) by (by vm_compute in E; injection E as <-).
  split; [reflexivity|]. split; [exact Ha|].
  exact (proj1 (proj1 (exporter_liveness _ e E) Hs) 0%nat 2%nat Ha ltac:(vm_compute; lia)).
Defined.

End Exporter.

(** ** tracing.go: propagation *)

Module Propagation.

Record TraceContext : Type := mkTC {
  TraceID : string;
  SpanID : string;
  ParentSpanID : string;
  Baggage : gmap string string
}.

Definition ContextWithTrace (ctx : context) (tc : option nat) : context :=
  WithValue ctx "trace_context" (CvTraceContext tc).

Definition TraceFromContext (ctx : context) : option nat :=
  match Value ctx "trace_context" with Some (CvTraceContext p) => p | _ => None end.

Lemma TraceFromContext_With ctx tc : TraceFromContext (ContextWithTrace ctx tc) = tc.
Proof. done. Qed.

End Propagation.

(** ** logging.go

    A [StructuredLogger] writes an event as a line of JSON on the standard output;
    the output is the list of the events.  [json.Marshal] fails on none of them:
    it is given strings, ints and the seconds of a duration. *)

Module Logging.

Inductive field : Type :=
| FString (s : string)
| FInt (z : Z).

Record LogEvent : Type := mkEvent {
  Timestamp : Time;
  EventType : string;
  TraceID : string;
  RequestID : string;
  Level : string;
  Message : string;
  Context_ : list (string * field);
  Error_ : string;
  Duration_ : f64
}.

(** The logger: the service every record names, and which of zap's configurations it
    is built from. *)
Record StructuredLogger : Type := mkLogger { service : string; dev_config : bool }.

(** [build] is the error of [config.Build], if any, returned as it is. *)
Definition NewStructuredLogger (build : option error) (serviceName : string) (development : bool)
    : result StructuredLogger :=
  match build with
  | Some err => Err err
  | None => Ok (mkLogger serviceName development)
  end.

(** [flush] is what zap's [Sync] answers. *)
Definition Sync (flush : StructuredLogger → option error) (sl : StructuredLogger) : option error := flush sl.

(** The id in the context, or one from the clock (read at [now]). *)
Definition extractTraceID (now : Time) (ctx : context) : string :=
  match string_value ctx "trace_id" with
  | Some traceID => traceID
  | None => "trace-" +:+ Itoa (UnixNano now)
  end.

Definition ContextWithTraceID (ctx : context) (traceID : string) : context :=
  WithValue ctx "trace_id" (CvString traceID).

Definition logEvent (event : LogEvent) (out : list LogEvent) : list LogEvent := out ++ [event].

(** The clock is read for a missing trace id ([t0]) and for the event ([t1]). *)
Definition LogRequestStarted (t0 t1 : Time) (ctx : context) (requestID method clientIP : string)
    (out : list LogEvent) : list LogEvent :=
  logEvent (mkEvent t1 "request_started" (extractTraceID t0 ctx) requestID "info"
    ("Request started: " +:+ method +:+ " from " +:+ clientIP)
    [("method", FString method); ("client_ip", FString clientIP)] "" f_zero) out.

Definition completed_level (status : Z) (err : option error) : string :=
  let level := "info" in
  let level := if 400 <=? status then "warn" else level in
  if bool_decide (err ≠ None) || (500 <=? status) then "error" else level.

Definition LogRequestCompleted (t0 t1 : Time) (ctx : context) (requestID : string) (status : Z)
    (latency : Duration) (err : option error) (out : list LogEvent) : list LogEvent :=
  logEvent (mkEvent t1 "request_completed" (extractTraceID t0 ctx) requestID (completed_level status err)
    ("Request completed: status=" +:+ Itoa status +:+ ", latency=" +:+ Duration_String latency)
    [("status", FInt status)] (match err with Some e => Error e | None => "" end) (Seconds latency)) out.

Definition LogReplicaStatusChanged (t0 t1 : Time) (ctx : context) (replica oldStatus newStatus : string)
    (out : list LogEvent) : list LogEvent :=
  logEvent (mkEvent t1 "replica_status_changed" (extractTraceID t0 ctx) "" "warn"
    ("Replica " +:+ replica +:+ " status changed: " +:+ oldStatus +:+ " → " +:+ newStatus)
    [("replica", FString replica); ("old_status", FString oldStatus); ("new_status", FString newStatus)]
    "" f_zero) out.

Definition LogCircuitBreakerStateChanged (t0 t1 : Time) (ctx : context) (replica oldState newState : string)
    (out : list LogEvent) : list LogEvent :=
  logEvent (mkEvent t1 "circuit_breaker_state_changed" (extractTraceID t0 ctx) ""
    (if bool_decide (newState = "OPEN") then "error" else "warn")
    ("Circuit breaker for " +:+ replica +:+ ": " +:+ oldState +:+ " → " +:+ newState)
    [("replica", FString replica); ("old_state", FString oldState); ("new_state", FString newState)]
    "" f_zero) out.

Definition LogRetryAttempt (t0 t1 : Time) (ctx : context) (requestID : string) (attempt : Z)
    (reason : string) (out : list LogEvent) : list LogEvent :=
  logEvent (mkEvent t1 "retry_attempt" (extractTraceID t0 ctx) requestID "info"
    ("Retry attempt " +:+ Itoa attempt +:+ ": " +:+ reason)
    [("attempt", FInt attempt); ("reason", FString reason)] "" f_zero) out.

Definition LogTimeoutOccurred (t0 t1 : Time) (ctx : context) (requestID timeoutType : string)
    (duration : Duration) (out : list LogEvent) : list LogEvent :=
  logEvent (mkEvent t1 "timeout_occurred" (extractTraceID t0 ctx) requestID "error"
    ("Timeout occurred: " +:+ timeoutType +:+ " after " +:+ Duration_String duration)
    [("timeout_type", FString timeoutType)] "" (Seconds duration)) out.

(** A nil error is dereferenced. *)
Definition LogError (t0 t1 : Time) (ctx : context) (requestID errorType : string) (err : option error)
    (out : list LogEvent) : outcome (list LogEvent) :=
  match err with
  | None => Panic "runtime error: invalid memory address or nil pointer dereference"
  | Some e =>
      Ret (logEvent (mkEvent t1 "error" (extractTraceID t0 ctx) requestID "error"
             ("Error: " +:+ errorType) [] (Error e) f_zero) out)
  end.

Lemma extractTraceID_With now ctx id :
  id ≠ "" → extractTraceID now (ContextWithTraceID ctx id) = id.
Proof. destruct id; [done|]. intros _. reflexivity. Qed.

(** A completion is logged as an error exactly when the request failed. *)
Lemma completed_error status err :
  completed_level status err = "error" ↔ err ≠ None ∨ 500 ≤ status.
Proof.
  unfold completed_level. destruct err as [e|], (Z.leb_spec 500 status), (Z.leb_spec 400 status);
    cbn; split; intros H'; try done; try (destruct H'; [done|lia]); auto.
Qed.

End Logging.

(** ** metrics.go *)

Module Metrics.

Inductive metric : Type :=
| RequestsTotal | RequestLatency | ErrorsTotal | RetriesTotal | TimeoutsTotal
| ReplicasHealthy | ReplicaLatency | ReplicaErrorRate
| CircuitBreakerState | CircuitBreakerTrips | RateLimitExceeded.

#[export] Instance metric_eq_dec : EqDecision metric.
Proof. solve_decision. Defined.

Inductive kind : Type :=
| CounterVec
| GaugeVec
| HistogramVec (buckets : list f64).

Record desc : Type := mkDesc {
  Namespace : string;
  Name : string;
  Help : string;
  Kind : kind;
  Labels : list string
}.

(** A call of a vector's method: [v.WithLabelValues(labels...).Inc()] and so on.
    The collector's effect on Prometheus is the list of these. *)
Inductive update : Type :=
| Inc
| Set_ (v : f64)
| Observe (v : f64).

Record call : Type := mkCall { target : metric; label_values : list string; upd : update }.

Record MetricsCollector : Type := mkMC {
  vecs : list (metric * desc);
  requestCount : Z;
  errorCount : Z;
  retryCount : Z;
  timeoutCount : Z;
  cbTripCount : Z;
  rateLimitCount : Z;
  calls : list call
}.

Definition ms (n : Z) : f64 := f_lit n 1000.

Definition NewMetricsCollector (namespace : string) : MetricsCollector :=
  mkMC
    [(RequestsTotal, mkDesc namespace "requests_total" "Total number of requests processed" CounterVec
        ["method"; "replica"; "status"]);
     (RequestLatency, mkDesc namespace "request_latency_seconds" "Request latency in seconds"
        (HistogramVec (map ms [1; 5; 10; 25; 50; 100; 250; 500; 1000; 2500; 5000])) ["method"; "replica"]);
     (ErrorsTotal, mkDesc namespace "errors_total" "Total number of errors" CounterVec
        ["error_type"; "replica"]);
     (RetriesTotal, mkDesc namespace "retries_total" "Total number of retries" CounterVec
        ["attempt"; "reason"]);
     (TimeoutsTotal, mkDesc namespace "timeouts_total" "Total number of timeouts" CounterVec
        ["timeout_type"]);
     (ReplicasHealthy, mkDesc namespace "replicas_healthy" "Number of healthy replicas" GaugeVec
        ["replica"]);
     (ReplicaLatency, mkDesc namespace "replica_latency_seconds" "Per-replica latency in seconds"
        (HistogramVec (map ms [1; 5; 10; 25; 50; 100; 250; 500; 1000])) ["replica"]);
     (ReplicaErrorRate, mkDesc namespace "replica_error_rate" "Error rate per replica (0.0-1.0)" GaugeVec
        ["replica"]);
     (CircuitBreakerState, mkDesc namespace "circuit_breaker_state"
        "Circuit breaker state (0=CLOSED, 1=OPEN, 2=HALF_OPEN)" GaugeVec ["replica"]);
     (CircuitBreakerTrips, mkDesc namespace "circuit_breaker_trips_total"
        "Total number of circuit breaker trips" CounterVec ["replica"; "reason"]);
     (RateLimitExceeded, mkDesc namespace "rate_limit_exceeded_total"
        "Total number of rate limit exceeded" CounterVec ["dimension"])]
    0 0 0 0 0 0 [].

Section Record_.
(** [prometheus.BuildFQName]. *)
Context (BuildFQName : string → string → string → string).

Definition emit (cs : list call) (m : MetricsCollector) : MetricsCollector :=
  mkMC (vecs m) (requestCount m) (errorCount m) (retryCount m) (timeoutCount m) (cbTripCount m)
    (rateLimitCount m) (calls m ++ cs).

Definition RecordRequest (method replica status : string) (latency : Duration) (m : MetricsCollector)
    : MetricsCollector :=
  let m := emit [mkCall RequestsTotal [method; replica; status] Inc;
                 mkCall RequestLatency [method; replica] (Observe (Seconds latency))] m in
  mkMC (vecs m) (requestCount m +64 1) (errorCount m) (retryCount m) (timeoutCount m) (cbTripCount m)
    (rateLimitCount m) (calls m).

Definition RecordError (errorType replica : string) (m : MetricsCollector) : MetricsCollector :=
  let m := emit [mkCall ErrorsTotal [errorType; replica] Inc] m in
  mkMC (vecs m) (requestCount m) (errorCount m +64 1) (retryCount m) (timeoutCount m) (cbTripCount m)
    (rateLimitCount m) (calls m).

(** The attempt's label is the character that many places after '0' (the rune is
    the sum's low 32 bits). *)
Definition attempt_label (attempt : Z) : string :=
  BuildFQName "" "" (string_of_rune (wrap32 (48 +64 attempt))).

Definition RecordRetry (attempt : Z) (reason : string) (m : MetricsCollector) : MetricsCollector :=
  let m := emit [mkCall RetriesTotal [attempt_label attempt; reason] Inc] m in
  mkMC (vecs m) (requestCount m) (errorCount m) (retryCount m +64 1) (timeoutCount m) (cbTripCount m)
    (rateLimitCount m) (calls m).

Definition RecordTimeout (timeoutType : string) (m : MetricsCollector) : MetricsCollector :=
  let m := emit [mkCall TimeoutsTotal [timeoutType] Inc] m in
  mkMC (vecs m) (requestCount m) (errorCount m) (retryCount m) (timeoutCount m +64 1) (cbTripCount m)
    (rateLimitCount m) (calls m).

Definition UpdateReplicaHealth (replica : string) (healthy : bool) (m : MetricsCollector)
    : MetricsCollector :=
  emit [mkCall ReplicasHealthy [replica] (Set_ (if healthy then f_one else f_zero))] m.

Definition RecordReplicaLatency (replica : string) (latency : Duration) (m : MetricsCollector)
    : MetricsCollector :=
  emit [mkCall ReplicaLatency [replica] (Observe (Seconds latency))] m.

Definition clamp_rate (errorRate : f64) : f64 :=
  let errorRate := if f_lt errorRate f_zero then f_zero else errorRate in
  if f_gt errorRate f_one then f_one else errorRate.

Definition UpdateReplicaErrorRate (replica : string) (errorRate : f64) (m : MetricsCollector)
    : MetricsCollector :=
  emit [mkCall ReplicaErrorRate [replica] (Set_ (clamp_rate errorRate))] m.

Definition RecordCircuitBreakerState (replica : string) (state : Z) (m : MetricsCollector)
    : MetricsCollector :=
  emit [mkCall CircuitBreakerState [replica] (Set_ (f_of_Z state))] m.

Definition RecordCircuitBreakerTrip (replica reason : string) (m : MetricsCollector) : MetricsCollector :=
  let m := emit [mkCall CircuitBreakerTrips [replica; reason] Inc] m in
  mkMC (vecs m) (requestCount m) (errorCount m) (retryCount m) (timeoutCount m) (cbTripCount m +64 1)
    (rateLimitCount m) (calls m).

Definition RecordRateLimitExceeded (dimension : string) (m : MetricsCollector) : MetricsCollector :=
  let m := emit [mkCall RateLimitExceeded [dimension] Inc] m in
  mkMC (vecs m) (requestCount m) (errorCount m) (retryCount m) (timeoutCount m) (cbTripCount m)
    (rateLimitCount m +64 1) (calls m).

Definition GetCounters (m : MetricsCollector) : gmap string Z :=
  <["requests" := requestCount m]> (<["errors" := errorCount m]> (<["retries" := retryCount m]>
  (<["timeouts" := timeoutCount m]> (<["circuit_breaker_trips" := cbTripCount m]>
  (<["rate_limit_exceeded" := rateLimitCount m]> ∅))))).

(** *** The collector agrees with what it declared *)

Inductive op : Type :=
| ORequest (method replica status : string) (latency : Duration)
| OError (errorType replica : string)
| ORetry (attempt : Z) (reason : string)
| OTimeout (timeoutType : string)
| OHealth (replica : string) (healthy : bool)
| OLatency (replica : string) (latency : Duration)
| OErrorRate (replica : string) (errorRate : f64)
| OBreakerState (replica : string) (state : Z)
| OBreakerTrip (replica reason : string)
| ORateLimit (dimension : string).

Definition step (m : MetricsCollector) (o : op) : MetricsCollector :=
  match o with
  | ORequest a b c d => RecordRequest a b c d m
  | OError a b => RecordError a b m
  | ORetry a b => RecordRetry a b m
  | OTimeout a => RecordTimeout a m
  | OHealth a b => UpdateReplicaHealth a b m
  | OLatency a b => RecordReplicaLatency a b m
  | OErrorRate a b => UpdateReplicaErrorRate a b m
  | OBreakerState a b => RecordCircuitBreakerState a b m
  | OBreakerTrip a b => RecordCircuitBreakerTrip a b m
  | ORateLimit a => RecordRateLimitExceeded a m
  end.

Definition fits (k : kind) (u : update) : bool :=
  match k, u with
  | CounterVec, Inc | GaugeVec, Set_ _ | HistogramVec _, Observe _ => true
  | _, _ => false
  end.

(** A call is well typed: on a declared vector, of its kind, one value per label
    (Prometheus panics on another number). *)
Definition well_typed (vs : list (metric * desc)) (c : call) : Prop :=
  ∃ d, (target c, d) ∈ vs ∧ fits (Kind d) (upd c) = true ∧ length (label_values c) = length (Labels d).

(** The counter in memory that follows the counter vector [t]. *)
Definition counter_of (t : metric) (m : MetricsCollector) : option Z :=
  match t with
  | RequestsTotal => Some (requestCount m)
  | ErrorsTotal => Some (errorCount m)
  | RetriesTotal => Some (retryCount m)
  | TimeoutsTotal => Some (timeoutCount m)
  | CircuitBreakerTrips => Some (cbTripCount m)
  | RateLimitExceeded => Some (rateLimitCount m)
  | _ => None
  end.

Definition calls_of (t : metric) (m : MetricsCollector) : nat :=
  length (filter (λ c, target c = t) (calls m)).

Definition in_unit (x : f64) : Prop := f_le f_zero x = true ∧ f_le x f_one = true.

Lemma clamp_in_unit x : is_nan x = false → in_unit (clamp_rate x).
Proof.
  intros Hx. unfold clamp_rate. rewrite f_gt_lt. destruct (f_lt x f_zero) eqn:E0; [split; vm_compute; reflexivity|].
  destruct (f_lt f_one x) eqn:E1; [split; vm_compute; reflexivity|].
  split; (apply f_not_lt; [exact Hx || reflexivity|exact Hx || reflexivity|assumption]).
Qed.

Lemma clamp_nan x : is_nan x = true → clamp_rate x = x.
Proof. by destruct x. Qed.

Definition rate_ok (c : call) : Prop :=
  target c = ReplicaErrorRate → ∃ v, upd c = Set_ v ∧ (is_nan v = false → in_unit v).

Record sound (namespace : string) (m : MetricsCollector) : Prop := {
  sound_vecs : vecs m = vecs (NewMetricsCollector namespace);
  sound_typed : Forall (well_typed (vecs m)) (calls m);
  sound_count : ∀ t n, counter_of t m = Some n → n = wrap64 (Z.of_nat (calls_of t m));
  sound_rate : Forall rate_ok (calls m)
}.

Lemma sound_new_collector namespace : sound namespace (NewMetricsCollector namespace).
Proof. split; [done|constructor| |constructor]. intros [] n; cbn; intros [= <-]; done. Qed.

Lemma clamp_rate_ok x : is_nan (clamp_rate x) = false → in_unit (clamp_rate x).
Proof.
  destruct (is_nan x) eqn:E; [|intros _; by apply clamp_in_unit].
  rewrite clamp_nan by done. congruence.
Qed.

(** The calls an operation makes. *)
Definition op_calls (o : op) : list call :=
  match o with
  | ORequest a b c d => [mkCall RequestsTotal [a; b; c] Inc; mkCall RequestLatency [a; b] (Observe (Seconds d))]
  | OError a b => [mkCall ErrorsTotal [a; b] Inc]
  | ORetry a b => [mkCall RetriesTotal [attempt_label a; b] Inc]
  | OTimeout a => [mkCall TimeoutsTotal [a] Inc]
  | OHealth a b => [mkCall ReplicasHealthy [a] (Set_ (if b then f_one else f_zero))]
  | OLatency a b => [mkCall ReplicaLatency [a] (Observe (Seconds b))]
  | OErrorRate a b => [mkCall ReplicaErrorRate [a] (Set_ (clamp_rate b))]
  | OBreakerState a b => [mkCall CircuitBreakerState [a] (Set_ (f_of_Z b))]
  | OBreakerTrip a b => [mkCall CircuitBreakerTrips [a; b] Inc]
  | ORateLimit a => [mkCall RateLimitExceeded [a] Inc]
  end.

Lemma step_calls m o : vecs (step m o) = vecs m ∧ calls (step m o) = calls m ++ op_calls o.
Proof. by destruct o. Qed.

Lemma op_calls_typed namespace o : Forall (well_typed (vecs (NewMetricsCollector namespace))) (op_calls o).
Proof.
  destruct o; cbn [op_calls]; repeat apply Forall_cons_2; try apply Forall_nil_2;
    eexists; (split; [cbn [target vecs NewMetricsCollector];
      repeat first [apply list_elem_of_here | apply list_elem_of_further]|split; reflexivity]).
Qed.

Lemma op_calls_rate o : Forall rate_ok (op_calls o).
Proof.
  destruct o; cbn [op_calls]; repeat apply Forall_cons_2; try apply Forall_nil_2; try done.
  intros _. eexists. split; [reflexivity|]. apply clamp_rate_ok.
Qed.

(** The counter vector an operation increments. *)
Definition counts (o : op) : option metric :=
  match o with
  | ORequest _ _ _ _ => Some RequestsTotal
  | OError _ _ => Some ErrorsTotal
  | ORetry _ _ => Some RetriesTotal
  | OTimeout _ => Some TimeoutsTotal
  | OBreakerTrip _ _ => Some CircuitBreakerTrips
  | ORateLimit _ => Some RateLimitExceeded
  | _ => None
  end.

Definition bump (t : metric) (o : op) : nat := if decide (counts o = Some t) then 1 else 0.

Lemma calls_of_step t m o :
  is_Some (counter_of t m) → calls_of t (step m o) = (calls_of t m + bump t o)%nat.
Proof.
  intros [n Hn]. unfold calls_of. rewrite (proj2 (step_calls m o)), filter_app, length_app. f_equal.
  destruct o, t; first [discriminate Hn|reflexivity].
Qed.

Lemma counter_of_step t m o :
  counter_of t (step m o) =
  if decide (counts o = Some t) then (λ n, n +64 1) <$> counter_of t m else counter_of t m.
Proof. destruct o, t; reflexivity. Qed.

Lemma step_count t m o n :
  (∀ n', counter_of t m = Some n' → n' = wrap64 (Z.of_nat (calls_of t m))) →
  counter_of t (step m o) = Some n → n = wrap64 (Z.of_nat (calls_of t (step m o))).
Proof.
  intros H. rewrite counter_of_step.
  destruct (counter_of t m) as [n'|] eqn:E; [|by destruct (decide _)].
  rewrite calls_of_step by (by rewrite E). specialize (H _ eq_refl). subst n'. unfold bump.
  destruct (decide _); cbn; intros [= <-]; rewrite ?wrap64_add_l; f_equal; lia.
Qed.

Lemma sound_step namespace m o : sound namespace m → sound namespace (step m o).
Proof.
  intros [Hv Ht Hc Hr]. destruct (step_calls m o) as [Ev Ec]. split.
  - by rewrite Ev.
  - rewrite Ev, Ec. apply Forall_app. split; [done|]. rewrite Hv. apply op_calls_typed.
  - intros t n. apply step_count, Hc.
  - rewrite Ec. apply Forall_app. split; [done|]. apply op_calls_rate.
Qed.

(** C32 Whatever is recorded, in any order: every Prometheus vector the collector
    touches is one it declared, used as its kind and with as many label values as
    it has labels (the other case panics); the error rates it reports lie between
    0 and 1 unless they are NaN; and each counter in memory is the number of
    increments of the Prometheus counter it stands for, wrapped to 64 bits. *)
Theorem metrics_well_typed (namespace : string) (os : list op) :
  let m := fold_left step os (NewMetricsCollector namespace) in
  Forall (well_typed (vecs (NewMetricsCollector namespace))) (calls m) ∧
  Forall rate_ok (calls m) ∧
  ∀ t n, counter_of t m = Some n → n = wrap64 (Z.of_nat (calls_of t m)).
Proof.
  cbn zeta. enough (sound namespace (fold_left step os (NewMetricsCollector namespace))) as [Hv Ht Hc Hr]
    by (rewrite <- Hv at 1; done).
  induction os as [|o os IH] using rev_ind; [apply sound_new_collector|]. rewrite fold_left_app. by apply sound_step.
Qed.

(** The label of a tenth attempt is not a number. *)
Lemma tenth_attempt :
  (∀ name, BuildFQName "" "" name = name) → map attempt_label [1; 9; 10] = ["1"; "9"; ":"].
Proof. intros H. unfold attempt_label. cbn. by rewrite !H. Qed.

End Record_.
End Metrics.
