(* ===== verification/WvTestutil.v ===== *)
(** * Weaver: test support

    [src/src/Weaver/pkg/testutil]: the replica and the discovery that tests
    control ([mock_replica.go], [mock_discovery.go]), the helper with its cleanups
    ([helpers.go]) and the fixtures ([fixtures.go]).  The discovery with the
    goroutines of its watches, its delayed changes and its simulated outages is a
    machine, one communication or one locked section a step. *)

From S2P Require Import Prelude GoFloat GoContext.

(** ** mock_replica.go *)

Record MockRequest : Type := mkRequest {
  Timestamp : Time;
  Payload : list Byte.byte;
  Headers : gmap string string
}.

Record MockReplica : Type := mkReplica {
  Name : string;
  Address : string;
  Latency : Duration;
  ErrorRate : f64;
  CrashAfterReqCount : Z;
  recordedRequests : list MockRequest;
  requestCount : Z
}.

Definition NewMockReplica (name address : string) : MockReplica :=
  mkReplica name address 0 f_zero 0 [] 0.

Definition SetLatency (latency : Duration) (m : MockReplica) : MockReplica :=
  mkReplica (Name m) (Address m) latency (ErrorRate m) (CrashAfterReqCount m) (recordedRequests m) (requestCount m).

Definition SetErrorRate (rate : f64) (m : MockReplica) : MockReplica :=
  let rate := if f_lt rate f_zero then f_zero else rate in
  let rate := if f_gt rate f_one then f_one else rate in
  mkReplica (Name m) (Address m) (Latency m) rate (CrashAfterReqCount m) (recordedRequests m) (requestCount m).

Definition SetCrashAfter (count : Z) (m : MockReplica) : MockReplica :=
  mkReplica (Name m) (Address m) (Latency m) (ErrorRate m) count (recordedRequests m) (requestCount m).

(** A copy of the slice. *)
Definition GetRecordedRequests (m : MockReplica) : list MockRequest := recordedRequests m.

(** The headers are copied. *)
Definition RecordRequest (now : Time) (payload : list Byte.byte) (headers : gmap string string)
    (m : MockReplica) : MockReplica :=
  mkReplica (Name m) (Address m) (Latency m) (ErrorRate m) (CrashAfterReqCount m)
    (recordedRequests m ++ [mkRequest now payload headers]) (requestCount m +64 1).

Definition ShouldCrash (m : MockReplica) : bool :=
  (0 <? CrashAfterReqCount m) && (CrashAfterReqCount m <=? requestCount m).

Definition Replica_Reset (m : MockReplica) : MockReplica := mkReplica (Name m) (Address m) 0 f_zero 0 [] 0.

(** ** mock_discovery.go *)

Record MockReplicaInfo : Type := mkInfo { ri_Name : string; ri_Address : string }.

(** Where the goroutine of a [Watch] is: sending a list, waiting for a change, or
    gone.  [mw_received] is what its reader got. *)
Inductive watch_at : Type :=
| WSend (l : list MockReplicaInfo)
| WWait
| WGone.

Record watch : Type := mkWatch { mw_at : watch_at; mw_received : list (list MockReplicaInfo) }.

(** [changes] is the channel of capacity one all watches share; [notifying] are the
    calls of [SetReplicas] between their locked section and their send, [delayed]
    the goroutines of [ChangeReplicasAfter] that sleep, [outages] the number of
    those of [SimulateEtcdDown]. *)
Record MockDiscovery : Type := mkDiscovery {
  replicas : list MockReplicaInfo;
  changes : list (list MockReplicaInfo);
  etcdDownUntil : Time;
  notifying : list (list MockReplicaInfo);
  delayed : list (list MockReplicaInfo);
  outages : nat;
  watches : list watch
}.

Definition NewMockDiscovery (addresses : list string) : MockDiscovery :=
  mkDiscovery
    (imap (λ i addr, mkInfo ("replica-" +:+ string_of_rune (Z.of_nat i + 1)) addr) addresses)
    [] zero_time [] [] 0 [].

Definition GetReplicas (m : MockDiscovery) : list MockReplicaInfo := replicas m.

(** The locked section of [SetReplicas], and its send, which is dropped when the
    channel is full. *)
Definition SetReplicas (l : list MockReplicaInfo) (m : MockDiscovery) : MockDiscovery :=
  mkDiscovery l (changes m) (etcdDownUntil m) (notifying m ++ [l]) (delayed m) (outages m) (watches m).

Definition notify (i : nat) (m : MockDiscovery) : option MockDiscovery :=
  l ← notifying m !! i;
  Some (mkDiscovery (replicas m) (if (length (changes m) <? 1)%nat then changes m ++ [l] else changes m)
          (etcdDownUntil m) (delete i (notifying m)) (delayed m) (outages m) (watches m)).

Definition ChangeReplicasAfter (newReplicas : list MockReplicaInfo) (m : MockDiscovery) : MockDiscovery :=
  mkDiscovery (replicas m) (changes m) (etcdDownUntil m) (notifying m) (delayed m ++ [newReplicas])
    (outages m) (watches m).

Definition SimulateEtcdDown (now : Time) (duration : Duration) (m : MockDiscovery) : MockDiscovery :=
  mkDiscovery (replicas m) (changes m) (now + duration) (notifying m) (delayed m) (S (outages m)) (watches m).

Definition IsDown (now : Time) (m : MockDiscovery) : bool :=
  if etcdDownUntil m =? zero_time then false else now <? etcdDownUntil m.

Definition Watch (m : MockDiscovery) : MockDiscovery :=
  mkDiscovery (replicas m) (changes m) (etcdDownUntil m) (notifying m) (delayed m) (outages m)
    (watches m ++ [mkWatch (WSend (GetReplicas m)) []]).

Definition Close (m : MockDiscovery) : option error := None.

Definition set_watch (i : nat) (w : watch) (ch : list (list MockReplicaInfo)) (m : MockDiscovery) : MockDiscovery :=
  mkDiscovery (replicas m) ch (etcdDownUntil m) (notifying m) (delayed m) (outages m) (<[i := w]> (watches m)).

Inductive action : Type :=
| ASet (l : list MockReplicaInfo)
| ANotify (i : nat)
| AChangeAfter (l : list MockReplicaInfo)
| AFire (i : nat)
| ADown (now : Time) (duration : Duration)
| AUp
| AWatch
| ARecv (i : nat)
| ATake (i : nat)
| ACtxDone (i : nat).

Definition exec (m : MockDiscovery) (a : action) : option MockDiscovery :=
  match a with
  | ASet l => Some (SetReplicas l m)
  | ANotify i => notify i m
  | AChangeAfter l => Some (ChangeReplicasAfter l m)
  | AFire i =>
      l ← delayed m !! i;
      Some (SetReplicas l (mkDiscovery (replicas m) (changes m) (etcdDownUntil m) (notifying m)
              (delete i (delayed m)) (outages m) (watches m)))
  | ADown now d => Some (SimulateEtcdDown now d m)
  | AUp =>
      match outages m with
      | S n => Some (mkDiscovery (replicas m) (changes m) zero_time (notifying m) (delayed m) n (watches m))
      | O => None
      end
  | AWatch => Some (Watch m)
  | ARecv i =>
      w ← watches m !! i;
      match mw_at w with
      | WSend l => Some (set_watch i (mkWatch WWait (mw_received w ++ [l])) (changes m) m)
      | _ => None
      end
  | ATake i =>
      w ← watches m !! i;
      match mw_at w, changes m with
      | WWait, l :: ch => Some (set_watch i (mkWatch (WSend l) (mw_received w)) ch m)
      | _, _ => None
      end
  | ACtxDone i =>
      w ← watches m !! i;
      match mw_at w with
      | WGone => None
      | _ => Some (set_watch i (mkWatch WGone (mw_received w)) (changes m) m)
      end
  end.

Fixpoint run (m : MockDiscovery) (acts : list action) : option MockDiscovery :=
  match acts with
  | [] => Some m
  | a :: acts => m ← exec m a; run m acts
  end.

(** ** helpers.go *)

(** The contexts tests make: their deadlines by number, and which were cancelled. *)
Record contexts : Type := mkCtxs { deadlines : list Time; cancelled : gset nat }.

(** A cleanup: a function of the test's, on its state, or the cancellation of a
    context. *)
Inductive cleanup_fn {S : Type} : Type :=
| Fn (f : S → S)
| Cancel (ctx : nat).
Arguments cleanup_fn : clear implicits.

Record TestHelper {S : Type} : Type := mkHelper { cleanup : list (cleanup_fn S) }.
Arguments TestHelper : clear implicits.

Section Helper.
Context {S : Type}.

Definition NewTestHelper : TestHelper S := mkHelper S [].

Definition Cleanup (fn : cleanup_fn S) (h : TestHelper S) : TestHelper S := mkHelper S (cleanup h ++ [fn]).

Definition run_cleanup (fn : cleanup_fn S) (st : S * contexts) : S * contexts :=
  match fn with
  | Fn f => (f st.1, st.2)
  | Cancel c => (st.1, mkCtxs (deadlines st.2) ({[ c ]} ∪ cancelled st.2))
  end.

(** The loop from the last to the first; [i] is the number still to run. *)
Fixpoint finish_loop (i : nat) (h : TestHelper S) (st : S * contexts) : S * contexts :=
  match i with
  | O => st
  | Datatypes.S i =>
      finish_loop i h (match cleanup h !! i with Some fn => run_cleanup fn st | None => st end)
  end.

Definition Finish (h : TestHelper S) (st : S * contexts) : S * contexts := finish_loop (length (cleanup h)) h st.

Definition ContextWithDeadline (deadline : Time) (h : TestHelper S) (cs : contexts) : TestHelper S * contexts * nat :=
  let ctx := length (deadlines cs) in
  (Cleanup (Cancel ctx) h, mkCtxs (deadlines cs ++ [deadline]) (cancelled cs), ctx).

Definition ContextWithTimeout (now : Time) (timeout : Duration) (h : TestHelper S) (cs : contexts)
    : TestHelper S * contexts * nat :=
  let ctx := length (deadlines cs) in
  (Cleanup (Cancel ctx) h, mkCtxs (deadlines cs ++ [now + timeout]) (cancelled cs), ctx).

(** The message [t.Fatalf] is called with, if it is.  Values are of any type, nil
    or not; [neq] is Go's [!=] of two interfaces. *)
Context {V : Type} (neq : option V → option V → outcome bool) (fmt_v : option V → string).

Definition MustNot (fmt_err : error → string) (err : option error) (msg : string) : option string :=
  match err with Some e => Some (msg +:+ ": " +:+ fmt_err e) | None => None end.

Definition Equal (expected actual : option V) (msg : string) : outcome (option string) :=
  b ← neq expected actual;
  Ret (if b : bool
       then Some (msg +:+ ": expected " +:+ fmt_v expected +:+ ", got " +:+ fmt_v actual) else None).

Definition True_ (condition : bool) (msg : string) : option string :=
  if negb condition then Some ("assertion failed: " +:+ msg) else None.

Definition False_ (condition : bool) (msg : string) : option string :=
  if condition then Some ("assertion failed: " +:+ msg) else None.

Definition NotNil (val : option V) (msg : string) : option string :=
  match val with None => Some (msg +:+ ": expected non-nil value") | Some _ => None end.

Definition Nil (val : option V) (msg : string) : option string :=
  match val with Some _ => Some (msg +:+ ": expected nil value, got " +:+ fmt_v val) | None => None end.

End Helper.

(** ** fixtures.go *)

Definition HealthyReplicas : list string := ["replica-1:5051"; "replica-2:5051"; "replica-3:5051"].

Definition LargeReplicaList : list string :=
  map (λ i, "replica-" +:+ string_of_rune (Z.of_nat i + 1) +:+ ":5051") (seq 0 100).

Definition SingleReplica : list string := ["replica-1:5051"].
Definition EmptyReplicaList : list string := [].

Definition MinimalConfig : string := "
gateway:
  name: test-gateway

listeners:
  grpc:
    port: 5051

discovery:
  method: static
  config:
    replicas:
      - replica-1:5051
      - replica-2:5051
      - replica-3:5051

health:
  type: http
  interval: 5s
  timeout: 2s

load_balancers:
  default:
    strategy: round_robin
".

Definition FullConfig : string := "
gateway:
  name: test-gateway

listeners:
  grpc:
    port: 5051

discovery:
  method: etcd
  config:
    endpoints:
      - localhost:2379
    cache_ttl: 30s

health:
  type: http
  interval: 5s
  timeout: 2s
  path: /health

load_balancers:
  default:
    strategy: least_connections

reliability:
  timeout:
    global: 30s
    per_replica: 10s
    connect: 5s
  circuit_breaker:
    enabled: true
    failure_threshold: 5
    success_threshold: 2
    timeout: 30s
  retry:
    enabled: true
    max_attempts: 3
    initial_backoff: 100ms
    max_backoff: 10s

observability:
  metrics:
    enabled: true
    port: 9090
  logging:
    level: DEBUG
    format: json
".

(** A string in double quotes. *)
Definition quoted (s : string) : string :=
  let q := Ascii.Ascii false true false false false true false false in String q (s +:+ String q "").

Definition SampleRequest : list Byte.byte :=
  String.list_byte_of_string ("{" +:+ quoted "method" +:+ ":" +:+ quoted "GetStatus" +:+ "," +:+ quoted "params" +:+ ":{}}").
Definition SampleResponse : list Byte.byte :=
  String.list_byte_of_string ("{" +:+ quoted "status" +:+ ":" +:+ quoted "ok" +:+ "," +:+ quoted "data" +:+ ":{}}").

Definition SampleHeaders : gmap string string :=
  {[ "Content-Type" := "application/json"; "Authorization" := "Bearer token123"; "X-Request-ID" := "req-001" ]}.

(** ** Theorems *)

(** The rate that is set is between zero and one, unless it is no number. *)
Lemma SetErrorRate_range rate m :
  is_nan rate = false →
  let r := ErrorRate (SetErrorRate rate m) in f_le f_zero r = true ∧ f_le r f_one = true.
Proof.
  intros Hn. cbn [SetErrorRate ErrorRate]. rewrite f_gt_lt.
  destruct (f_lt rate f_zero) eqn:E0; [done|].
  destruct (f_lt f_one rate) eqn:E1; [done|]. split; by apply f_not_lt.
Qed.

(** A replica crashes once it has recorded as many requests as were set. *)
Lemma ShouldCrash_spec m n (reqs : list (Time * list Byte.byte * gmap string string)) :
  0 < n ≤ int64_max → Z.of_nat (length reqs) ≤ int64_max → requestCount m = 0 →
  let m' := foldl (λ m '(now, p, h), RecordRequest now p h m) (SetCrashAfter n m) reqs in
  GetRecordedRequests m' = GetRecordedRequests m ++ map (λ '(now, p, h), mkRequest now p h) reqs ∧
  ShouldCrash m' = (n <=? Z.of_nat (length reqs)).
Proof.
  intros Hn Hl H0. assert (Hgen : ∀ m, requestCount m + Z.of_nat (length reqs) ≤ int64_max → 0 ≤ requestCount m →
    let m' := foldl (λ m '(now, p, h), RecordRequest now p h m) m reqs in
    GetRecordedRequests m' = GetRecordedRequests m ++ map (λ '(now, p, h), mkRequest now p h) reqs ∧
    requestCount m' = requestCount m + Z.of_nat (length reqs) ∧ CrashAfterReqCount m' = CrashAfterReqCount m).
  { clear. induction reqs as [|[[now p] h] reqs IH]; intros m Hl H0; cbn [foldl map length] in *.
    - rewrite app_nil_r. split_and!; [done|lia|done].
    - assert (Hw : requestCount m +64 1 = requestCount m + 1)
        by (apply wrap64_id; unfold in_int64, int64_min, int64_max in *; lia).
      destruct (IH (RecordRequest now p h m)) as (H1 & H2 & H3); [cbn; lia..|].
      rewrite H1, H2, H3. cbn. rewrite <- app_assoc. split_and!; [done|lia|done]. }
  destruct (Hgen (SetCrashAfter n m)) as (H1 & H2 & H3); [cbn; lia..|]. split; [exact H1|].
  unfold ShouldCrash. rewrite H2, H3. cbn [SetCrashAfter requestCount CrashAfterReqCount]. rewrite H0.
  destruct (Z.ltb_spec 0 n); [|lia]. done.
Qed.

(** The cleanups run once each, the last registered first. *)
Lemma Finish_reverse {S} (h : TestHelper S) st : Finish h st = fold_right run_cleanup st (cleanup h).
Proof.
  unfold Finish. destruct h as [fs]. cbn [cleanup].
  assert (Hgen : ∀ i st, (i ≤ length fs)%nat →
            finish_loop i (mkHelper S fs) st = fold_right run_cleanup st (take i fs)).
  { induction i as [|i IH]; intros st' Hi; [done|]. cbn [finish_loop cleanup].
    destruct (lookup_lt_is_Some_2 fs i ltac:(lia)) as [fn Hfn]. rewrite Hfn, IH by lia.
    by rewrite (take_S_r _ _ _ Hfn), fold_right_app. }
  by rewrite Hgen, firstn_all by lia.
Qed.

Lemma run_cleanups_cancelled {S} c (fs : list (cleanup_fn S)) st :
  c ∈ cancelled st.2 → c ∈ cancelled (fold_right run_cleanup st fs).2.
Proof. intros H. induction fs as [|[f|d] fs IH]; cbn [fold_right run_cleanup snd cancelled]; set_solver. Qed.

(** [Finish] cancels every context the helper made. *)
Lemma Finish_cancels {S} (deadline : Time) (h : TestHelper S) cs st :
  let '(h', cs', ctx) := ContextWithDeadline deadline h cs in
  ctx ∈ cancelled (Finish h' (st, cs')).2.
Proof.
  unfold ContextWithDeadline. rewrite Finish_reverse. cbn [cleanup Cleanup]. rewrite fold_right_app.
  apply run_cleanups_cancelled. cbn [fold_right run_cleanup snd cancelled]. set_solver.
Qed.

(** The lists a test hands to the discovery. *)
Definition given (a : action) : list (list MockReplicaInfo) :=
  match a with ASet l | AChangeAfter l => [l] | _ => [] end.

Definition all_from (P : list MockReplicaInfo → Prop) (m : MockDiscovery) : Prop :=
  P (replicas m) ∧ Forall P (changes m) ∧ Forall P (notifying m) ∧ Forall P (delayed m) ∧
  Forall (λ w, Forall P (mw_received w) ∧ match mw_at w with WSend l => P l | _ => True end) (watches m).

Lemma exec_from P m a m' :
  all_from P m → Forall P (given a) → exec m a = Some m' → all_from P m'.
Proof.
  intros (H1 & H2 & H3 & H4 & H5) Ha Hx. unfold all_from.
  assert (Hsnoc : ∀ l x, Forall P l → P x → Forall P (l ++ [x]))
    by (intros l x Hl Hx'; apply Forall_app; split; [done|by constructor]).
  destruct a as [l|i|l|i|now d| | |i|i|i]; cbn [exec given] in *;
    try (destruct (watches m !! i) as [w|] eqn:Hw; [|done]; cbn in Hx;
         pose proof (Forall_lookup_1 _ _ _ _ H5 Hw) as [Hr Hat]; destruct (mw_at w); try done).
  - simplify_eq. apply Forall_cons in Ha as [Ha _]. cbn. split_and!; auto.
  - unfold notify in Hx. destruct (notifying m !! i) as [l|] eqn:El; [|done]. cbn in Hx. simplify_eq. cbn.
    pose proof (Forall_lookup_1 _ _ _ _ H3 El). split_and!; try done; [|by apply Forall_delete].
    case_match; auto.
  - simplify_eq. apply Forall_cons in Ha as [Ha _]. cbn. split_and!; auto.
  - destruct (delayed m !! i) as [l|] eqn:El; [|done]. cbn in Hx. simplify_eq. cbn.
    pose proof (Forall_lookup_1 _ _ _ _ H4 El). split_and!; try done; [auto|by apply Forall_delete].
  - simplify_eq. done.
  - destruct (outages m); simplify_eq. done.
  - simplify_eq. cbn. split_and!; try done. apply Forall_app. split; [done|]. by repeat constructor.
  - simplify_eq. cbn. split_and!; try done. apply Forall_insert; [done|]. cbn. auto.
  - destruct (changes m) as [|l ch]; simplify_eq. cbn. apply Forall_cons in H2 as [Hl Hch]. split_and!; try done.
    apply Forall_insert; [done|]. by cbn.
  - simplify_eq. cbn. split_and!; try done. apply Forall_insert; [done|]. by cbn.
  - simplify_eq. cbn. split_and!; try done. apply Forall_insert; [done|]. by cbn.
Qed.

(** A watch only ever delivers a list the discovery held: the first one, or one it
    was set to. *)
Lemma watch_delivers addresses acts m :
  run (NewMockDiscovery addresses) acts = Some m →
  ∀ i w l, watches m !! i = Some w → l ∈ mw_received w →
  l = replicas (NewMockDiscovery addresses) ∨ l ∈ concat (map given acts).
Proof.
  intros Hx. set (P := λ l, l = replicas (NewMockDiscovery addresses) ∨ l ∈ concat (map given acts)).
  assert (Hgen : ∀ acts0 m0, all_from P m0 → Forall P (concat (map given acts0)) → run m0 acts0 = Some m → all_from P m).
  { induction acts0 as [|a acts0 IH]; intros m0 H0 Hg Hr; cbn in Hr, Hg; [by simplify_eq|].
    apply Forall_app in Hg as [Ha Hg]. destruct (exec m0 a) as [m1|] eqn:E; [|done].
    apply (IH m1); [by eapply exec_from|done|done]. }
  destruct (Hgen acts (NewMockDiscovery addresses)) as (_ & _ & _ & _ & Hw).
  - unfold all_from, NewMockDiscovery. cbn [replicas changes notifying delayed watches].
    split_and!; [by left|apply Forall_nil_2..].
  - apply Forall_forall. by right.
  - done.
  - intros i w l Hi Hl. destruct (Forall_lookup_1 _ _ _ _ Hw Hi) as [Hr _].
    by apply (proj1 (Forall_forall _ _) Hr).
Qed.

(** Watches compete for the changes: each change reaches one of them. *)
Example watches_compete : ∃ m,
  run (NewMockDiscovery []) [AWatch; AWatch; ARecv 0; ARecv 1; ASet [mkInfo "a" "b"]; ANotify 0; ATake 1; ARecv 1] = Some m ∧
  map (λ w, length (mw_received w)) (watches m) = [1; 2]%nat ∧ exec m (ATake 0) = None.
Proof. eexists. repeat split. Qed.

(** An outage ends with the first one's timer, however long a second one was to
    last. *)
Example outage_cut_short : ∃ m,
  run (NewMockDiscovery []) [ADown Second (10 * Second); ADown (2 * Second) (100 * Second); AUp] = Some m ∧
  IsDown (12 * Second) m = false.
Proof. eexists. repeat split. Qed.

(** A hundred addresses, all different, but not numbered: the name holds the
    character with the number's code. *)
Example large_list :
  length LargeReplicaList = 100%nat ∧ NoDup LargeReplicaList ∧
  nth 48 LargeReplicaList "" = "replica-1:5051" ∧ nth 0 LargeReplicaList "" ≠ "replica-1:5051".
Proof. split; [done|]. split; [by apply (bool_decide_unpack _); vm_compute|]. by split. Qed.
